(** * TTSDKJSONCodec: a shallow embedding of the streaming JSON codec

    The development follows TTSDKJSONCodec.c function by function.  C [int]
    status codes are integers in [Z]; a [char] buffer is a list of [ascii]
    bytes; a callback with its [void *userData] is a function that threads
    the user's state; stores into a buffer are list updates by index. *)

From Stdlib Require Import ZArith List Ascii String Lia Bool DecimalString.
From Stdlib Require Import DecimalPos DecimalN DecimalFacts.
From Stdlib Require Import Floats.PrimFloat.
From stdpp Require Import base list.

Open Scope Z_scope.

(** ** Bytes *)

Abbreviation bytes := (list ascii).

Definition bytes_of (s : string) : bytes := list_ascii_of_string s.

(** The byte value of a [char], read as [unsigned char]. *)
Definition code (c : ascii) : Z := Z.of_N (N_of_ascii c).

(** [(char)v]: the byte whose unsigned value is [v] modulo 256. *)
Definition char_of (v : Z) : ascii := ascii_of_N (Z.to_N (v mod 256)).

Definition NUL : ascii := "000"%char.
Definition DQUOTE : ascii := "034"%char.
Definition BACKSLASH : ascii := "\"%char.

(** The C string that starts a buffer: its bytes up to the first NUL. *)
Fixpoint cstring (buff : bytes) : bytes :=
  match buff with
  | [] => []
  | c :: buff' => if Ascii.eqb c NUL then [] else c :: cstring buff'
  end.

Definition strlen (s : bytes) : Z := Z.of_nat (length (cstring s)).

(** ** Status codes *)

(** Modelled from the spec: the header TTSDKJSONCodec.h that declares the
    status codes is missing; the spec lists them as an integer enum in this
    order: OK, InvalidCharacter, DataTooLong, CannotAddData, Incomplete,
    InvalidData, and gives -1 for the automatic size. *)
Definition TTSDKJSON_OK : Z := 0.
Definition TTSDKJSON_ERROR_INVALID_CHARACTER : Z := 1.
Definition TTSDKJSON_ERROR_DATA_TOO_LONG : Z := 2.
Definition TTSDKJSON_ERROR_CANNOT_ADD_DATA : Z := 3.
Definition TTSDKJSON_ERROR_INCOMPLETE : Z := 4.
Definition TTSDKJSON_ERROR_INVALID_DATA : Z := 5.
Definition TTSDKJSON_SIZE_AUTOMATIC : Z := -1.

Definition TTSDKJSONCODEC_WorkBufferSize : Z := 512.

(** C's [a || b] on two [int]s. *)
Definition c_lor (a b : Z) : Z := if (a =? 0) && (b =? 0) then 0 else 1.

(** * Encoder *)

Module Encode.
Section Encoder.

(** What [userData] points to: the state of the caller's sink. *)
Context {U : Type}.

(** The caller's [TTSDKJSONAddDataFunc (data, length, userData)]. *)
Definition TTSDKJSONAddDataFunc : Type := bytes -> U -> Z * U.

(** Modelled from the spec: the declaration of the struct is in the missing
    header; the fields are the ones the source reads and writes, and
    [isObject] is the per-level vector of flags, whose width the header
    fixes. *)
Record TTSDKJSONEncodeContext : Type := {
  addJSONDataFunc : TTSDKJSONAddDataFunc;
  userData : U;
  containerLevel : Z;
  isObject : list bool;
  containerFirstEntry : bool;
  prettyPrint : bool
}.

(** An encoding session: the context and, as ghost state, every chunk that
    was handed to the sink, in order. *)
Record Session : Type := {
  context : TTSDKJSONEncodeContext;
  emitted : list bytes
}.

Definition M (A : Type) : Type := Session -> A * Session.

Definition ret {A} (a : A) : M A := fun s => (a, s).

Definition bind {A B} (m : M A) (k : A -> M B) : M B :=
  fun s => let (a, s') := m s in k a s'.

(** [unlikely_if(result != TTSDKJSON_OK) { return result; }] followed by
    the rest of the function. *)
Definition orReturn (m : M Z) (k : M Z) : M Z :=
  fun s => let (result, s') := m s in
           if result =? TTSDKJSON_OK then k s' else (result, s').

Notation "m ;;; k" := (orReturn m k) (at level 62, right associativity).

Definition getContext : M TTSDKJSONEncodeContext := fun s => (context s, s).

Definition update (f : TTSDKJSONEncodeContext -> TTSDKJSONEncodeContext) : M unit :=
  fun s => (tt, {| context := f (context s); emitted := emitted s |}).

Definition set_userData (u : U) (c : TTSDKJSONEncodeContext) :=
  {| addJSONDataFunc := addJSONDataFunc c; userData := u;
     containerLevel := containerLevel c; isObject := isObject c;
     containerFirstEntry := containerFirstEntry c; prettyPrint := prettyPrint c |}.

Definition set_containerLevel (l : Z) (c : TTSDKJSONEncodeContext) :=
  {| addJSONDataFunc := addJSONDataFunc c; userData := userData c;
     containerLevel := l; isObject := isObject c;
     containerFirstEntry := containerFirstEntry c; prettyPrint := prettyPrint c |}.

Definition set_isObject (v : list bool) (c : TTSDKJSONEncodeContext) :=
  {| addJSONDataFunc := addJSONDataFunc c; userData := userData c;
     containerLevel := containerLevel c; isObject := v;
     containerFirstEntry := containerFirstEntry c; prettyPrint := prettyPrint c |}.

Definition set_containerFirstEntry (b : bool) (c : TTSDKJSONEncodeContext) :=
  {| addJSONDataFunc := addJSONDataFunc c; userData := userData c;
     containerLevel := containerLevel c; isObject := isObject c;
     containerFirstEntry := b; prettyPrint := prettyPrint c |}.

(** [context->isObject[i]].  An index outside the vector is outside the
    array in C; the model reads [false] there. *)
Definition isObject_at (c : TTSDKJSONEncodeContext) (i : Z) : bool :=
  if i <? 0 then false else default false (isObject c !! Z.to_nat i).

(** [context->isObject[i] = v].  The list update leaves the vector as it is
    when [i] is outside it, where the C store lands outside the array. *)
Definition isObject_store (i : Z) (v : bool) (c : TTSDKJSONEncodeContext) :=
  if i <? 0 then c else set_isObject (<[Z.to_nat i := v]> (isObject c)) c.

(** The macro [addJSONData(CONTEXT, DATA, LENGTH)]. *)
Definition addJSONData (data : bytes) : M Z :=
  fun s =>
    let c := context s in
    let (result, u) := addJSONDataFunc c data (userData c) in
    (result, {| context := set_userData u c; emitted := emitted s ++ [data] |}).

(** ** String escaping *)

(** The first loop of [appendEscapedString]: bytes that need no escape are
    copied; the result is the copied prefix and what is left of the source. *)
Fixpoint simpleCase (src : bytes) : bytes * bytes :=
  match src with
  | [] => ([], [])
  | c :: src' =>
      if negb (Ascii.eqb c BACKSLASH) && negb (Ascii.eqb c DQUOTE) && (32 <=? code c)
      then let (copied, rest) := simpleCase src' in (c :: copied, rest)
      else ([], src)
  end.

(** The second loop: [None] is the return of
    [TTSDKJSON_ERROR_INVALID_CHARACTER] on a control character. *)
Fixpoint complicatedCase (src : bytes) : option bytes :=
  match src with
  | [] => Some []
  | c :: src' =>
      let continue (out : bytes) := option_map (app out) (complicatedCase src') in
      if Ascii.eqb c BACKSLASH || Ascii.eqb c DQUOTE then continue [BACKSLASH; c]
      else if Ascii.eqb c "008" then continue [BACKSLASH; "b"%char]
      else if Ascii.eqb c "012" then continue [BACKSLASH; "f"%char]
      else if Ascii.eqb c "010" then continue [BACKSLASH; "n"%char]
      else if Ascii.eqb c "013" then continue [BACKSLASH; "r"%char]
      else if Ascii.eqb c "009" then continue [BACKSLASH; "t"%char]
      else if code c <? 32 then None
      else continue [c]
  end.

(** [string] holds the [length] bytes the C function is given. *)
Definition appendEscapedString (string : bytes) : M Z :=
  let (copied, src) := simpleCase string in
  match complicatedCase src with
  | None => ret TTSDKJSON_ERROR_INVALID_CHARACTER
  | Some escaped => addJSONData (copied ++ escaped)
  end.

(** [string + offset], [toAdd] bytes of it. *)
Definition portion (string : bytes) (offset toAdd : Z) : bytes :=
  take (Z.to_nat toAdd) (drop (Z.to_nat offset) string).

(** The [while (offset < length)] loop of [addEscapedString]; every round
    adds at least one byte, so [length] rounds are enough. *)
Fixpoint addEscapedString_loop (rounds : nat) (string : bytes) (length offset result : Z)
  : M Z :=
  match rounds with
  | O => ret result
  | S rounds' =>
      if offset <? length then
        let toAdd := length - offset in
        let toAdd := if toAdd >? TTSDKJSONCODEC_WorkBufferSize / 2
                     then TTSDKJSONCODEC_WorkBufferSize / 2 else toAdd in
        fun s =>
          let (result, s') := appendEscapedString (portion string offset toAdd) s in
          if negb (result =? TTSDKJSON_OK) then (result, s')
          else addEscapedString_loop rounds' string length (offset + toAdd) result s'
      else ret result
  end.

Definition addEscapedString (string : bytes) (length : Z) : M Z :=
  addEscapedString_loop (Z.to_nat length) string length 0 TTSDKJSON_OK.

Definition addQuotedEscapedString (string : bytes) (length : Z) : M Z :=
  fun s =>
    let (result, s1) := addJSONData [DQUOTE] s in
    if negb (result =? TTSDKJSON_OK) then (result, s1)
    else
      let (result, s2) := addEscapedString string length s1 in
      (* Always close string, even if we failed to write its content *)
      let (closeResult, s3) := addJSONData [DQUOTE] s2 in
      (c_lor result closeResult, s3).

(** ** Number formatting *)

(** [snprintf(buff, buffSize, ...)] for an output [text]: the return value
    is the length of the whole text, and [buff] holds what fits before the
    terminating NUL. *)
Definition snprintf (buffSize : Z) (text : bytes) : Z * bytes :=
  (Z.of_nat (length text), take (Z.to_nat (buffSize - 1)) text).

(** The result and the value of [*bytesWritten] after the call. *)
Definition checkWriteResult (written buffSize bytesWritten : Z) : Z * Z :=
  if written <? 0 then (TTSDKJSON_ERROR_INVALID_CHARACTER, bytesWritten)
  else if written >=? buffSize then (TTSDKJSON_ERROR_DATA_TOO_LONG, bytesWritten)
  else (TTSDKJSON_OK, written).

(** The C library's conversions of a finite double, and the cast to
    [float]: ["%.*g"] with a precision, ["%.1f"], and [(float)value] read
    back as a double. *)
Variable printf_g : Z -> float -> bytes.
Variable printf_f1 : float -> bytes.
Variable to_float : float -> float.

Definition FLT_EPSILON : float := 0x1p-23%float.
Definition FLT_DIG : Z := 6.
Definition DBL_DIG : Z := 15.

Definition isnan (value : float) : bool := PrimFloat.is_nan value.
Definition isinf (value : float) : bool := PrimFloat.is_infinity value.
Definition fabs (value : float) : float := PrimFloat.abs value.

(** [strchr(buff, c)]: the bytes before the first [c] and those after it. *)
Fixpoint strchr (buff : bytes) (c : ascii) : option (bytes * bytes) :=
  match buff with
  | [] => None
  | b :: buff' =>
      if Ascii.eqb b c then Some ([], buff')
      else match strchr buff' c with
           | Some (before, after) => Some (b :: before, after)
           | None => None
           end
  end.

(** [while (end > dot && *end == '0') { *end-- = 0; written--; }] on the
    bytes after the dot. *)
Fixpoint stripZeros (fraction : bytes) : bytes :=
  match fraction with
  | [] => []
  | c :: fraction' =>
      match stripZeros fraction' with
      | [] => if Ascii.eqb c "0" then [] else [c]
      | kept => c :: kept
      end
  end.

(** The result, the text in [buff] and the value of [*bytesWritten]. *)
Definition formatDouble (buffSize : Z) (value : float) (bytesWritten : Z)
  : Z * bytes * Z :=
  let (written, buff) :=
    if isnan value then snprintf buffSize (bytes_of "null")
    else if isinf value then
      snprintf buffSize
        (if PrimFloat.ltb 0%float value then bytes_of "1e999" else bytes_of "-1e999")
    else
      let floatValue := to_float value in
      let (written, buff) :=
        if PrimFloat.leb (fabs (PrimFloat.sub value floatValue))
                         (PrimFloat.mul FLT_EPSILON (fabs value))
        then snprintf buffSize (printf_g FLT_DIG floatValue)
        else snprintf buffSize (printf_g DBL_DIG value) in
      if (written >? 0) && (written <? buffSize) then
        match strchr buff ".", strchr buff "e" with
        | None, None => snprintf buffSize (printf_f1 value)
        | Some (whole, fraction), None =>
            let kept := stripZeros fraction in
            let kept := match kept with [] => ["0"%char] | _ => kept end in
            let buff := whole ++ "."%char :: kept in
            (Z.of_nat (length buff), buff)
        | _, _ => (written, buff)
        end
      else (written, buff) in
  let (result, bytesWritten) := checkWriteResult written buffSize bytesWritten in
  (result, buff, bytesWritten).

Definition INT64_MIN : Z := - 2 ^ 63.
Definition INT64_MAX : Z := 2 ^ 63 - 1.
Definition UINT64_MAX : Z := 2 ^ 64 - 1.

(** The decimal digits ["%" PRId64] and ["%" PRIu64] print. *)
Definition decimal (value : Z) : bytes :=
  bytes_of (NilZero.string_of_int (Z.to_int value)).

Definition formatInt64 (buffSize : Z) (value : Z) (bytesWritten : Z) : Z * bytes * Z :=
  let (written, buff) := snprintf buffSize (decimal value) in
  let (result, bytesWritten) := checkWriteResult written buffSize bytesWritten in
  (result, buff, bytesWritten).

Definition formatUint64 (buffSize : Z) (value : Z) (bytesWritten : Z) : Z * bytes * Z :=
  let (written, buff) := snprintf buffSize (decimal value) in
  let (result, bytesWritten) := checkWriteResult written buffSize bytesWritten in
  (result, buff, bytesWritten).

(** ** Elements *)

(** [for (int i = 0; i < context->containerLevel; i++)] around the four
    spaces of one level. *)
Fixpoint indent (levels : nat) : M Z :=
  match levels with
  | O => ret TTSDKJSON_OK
  | S levels' => addJSONData (bytes_of "    ") ;;; indent levels'
  end.

(** A [const char *name] is [None] when it is [NULL]. *)
Definition ttsdkjson_beginElement (name : option bytes) : M Z :=
  (* Decide if a comma is warranted. *)
  (fun s =>
     if containerFirstEntry (context s)
     then (TTSDKJSON_OK, snd (update (set_containerFirstEntry false) s))
     else addJSONData [","%char] s) ;;;
  (* Pretty printing *)
  (fun s =>
     let c := context s in
     if prettyPrint c && (containerLevel c >? 0)
     then (addJSONData ["010"%char] ;;; indent (Z.to_nat (containerLevel c))) s
     else (TTSDKJSON_OK, s)) ;;;
  (* Add a name field if we're in an object. *)
  (fun s =>
     let c := context s in
     if isObject_at c (containerLevel c) then
       match name with
       | None => (TTSDKJSON_ERROR_INVALID_DATA, s)
       | Some name =>
           (addQuotedEscapedString name (strlen name) ;;;
            (if prettyPrint c then addJSONData (bytes_of ": ")
             else addJSONData [":"%char])) s
       end
     else (TTSDKJSON_OK, s)).

Definition addFormattedNumber (name : option bytes) (buff : bytes) (written : Z) : M Z :=
  ttsdkjson_beginElement name ;;; addJSONData (take (Z.to_nat written) buff).

Definition ttsdkjson_addRawJSONData (data : bytes) : M Z := addJSONData data.

Definition ttsdkjson_addBooleanElement (name : option bytes) (value : bool) : M Z :=
  ttsdkjson_beginElement name ;;;
  (if value then addJSONData (bytes_of "true") else addJSONData (bytes_of "false")).

Definition ttsdkjson_addFloatingPointElement (name : option bytes) (value : float) : M Z :=
  let '(result, buff, bytesWritten) := formatDouble 64 value 0 in
  if negb (result =? TTSDKJSON_OK) then ret result
  else addFormattedNumber name buff bytesWritten.

Definition ttsdkjson_addIntegerElement (name : option bytes) (value : Z) : M Z :=
  let '(result, buff, bytesWritten) := formatInt64 21 value 0 in
  if negb (result =? TTSDKJSON_OK) then ret result
  else addFormattedNumber name buff bytesWritten.

Definition ttsdkjson_addUIntegerElement (name : option bytes) (value : Z) : M Z :=
  let '(result, buff, bytesWritten) := formatUint64 21 value 0 in
  if negb (result =? TTSDKJSON_OK) then ret result
  else addFormattedNumber name buff bytesWritten.

Definition ttsdkjson_addNullElement (name : option bytes) : M Z :=
  ttsdkjson_beginElement name ;;; addJSONData (bytes_of "null").

Definition ttsdkjson_addStringElement (name value : option bytes) (length : Z) : M Z :=
  match value with
  | None => ttsdkjson_addNullElement name
  | Some value =>
      ttsdkjson_beginElement name ;;;
      (let length := if length =? TTSDKJSON_SIZE_AUTOMATIC then strlen value else length in
       addQuotedEscapedString value length)
  end.

Definition ttsdkjson_beginStringElement (name : option bytes) : M Z :=
  ttsdkjson_beginElement name ;;; addJSONData [DQUOTE].

Definition ttsdkjson_appendStringElement (value : bytes) (length : Z) : M Z :=
  addEscapedString value length.

Definition ttsdkjson_endStringElement : M Z := addJSONData [DQUOTE].

Definition g_hexNybbles : bytes := bytes_of "0123456789ABCDEF".

Definition hexNybble (i : Z) : ascii := nth (Z.to_nat i) g_hexNybbles NUL.

Definition ttsdkjson_beginDataElement (name : option bytes) : M Z :=
  ttsdkjson_beginStringElement name.

(** The [while (currentByte < end)] loop, over the [length] bytes at
    [value]. *)
Fixpoint appendDataElement_loop (value : bytes) (result : Z) : M Z :=
  match value with
  | [] => ret result
  | currentByte :: value' =>
      let chars := [hexNybble (Z.land (Z.shiftr (code currentByte) 4) 15);
                    hexNybble (Z.land (code currentByte) 15)] in
      fun s =>
        let (result, s') := addJSONData chars s in
        if negb (result =? TTSDKJSON_OK) then (result, s')
        else appendDataElement_loop value' result s'
  end.

Definition ttsdkjson_appendDataElement (value : bytes) (length : Z) : M Z :=
  appendDataElement_loop (take (Z.to_nat length) value) TTSDKJSON_OK.

Definition ttsdkjson_endDataElement : M Z := ttsdkjson_endStringElement.

Definition ttsdkjson_addDataElement (name : option bytes) (value : bytes) (length : Z)
  : M Z :=
  ttsdkjson_beginDataElement name ;;;
  ttsdkjson_appendDataElement value length ;;;
  ttsdkjson_endDataElement.

(** ** Containers *)

(** [context->containerLevel++; context->isObject[context->containerLevel] = kind;
    context->containerFirstEntry = true;] *)
Definition pushLevel (kind : bool) (c : TTSDKJSONEncodeContext) : TTSDKJSONEncodeContext :=
  let c := set_containerLevel (containerLevel c + 1) c in
  let c := isObject_store (containerLevel c) kind c in
  set_containerFirstEntry true c.

Definition ttsdkjson_beginArray (name : option bytes) : M Z :=
  (fun s =>
     if containerLevel (context s) >=? 0 then ttsdkjson_beginElement name s
     else (TTSDKJSON_OK, s)) ;;;
  (fun s => addJSONData ["["%char] (snd (update (pushLevel false) s))).

Definition ttsdkjson_beginObject (name : option bytes) : M Z :=
  (fun s =>
     if containerLevel (context s) >=? 0 then ttsdkjson_beginElement name s
     else (TTSDKJSON_OK, s)) ;;;
  (fun s => addJSONData ["{"%char] (snd (update (pushLevel true) s))).

Definition ttsdkjson_endContainer : M Z :=
  fun s =>
    if containerLevel (context s) <=? 0 then (TTSDKJSON_OK, s)
    else
      let isObject := isObject_at (context s) (containerLevel (context s)) in
      let s := snd (update (fun c => set_containerLevel (containerLevel c - 1) c) s) in
      (* Pretty printing *)
      ((fun s =>
          let c := context s in
          if prettyPrint c && negb (containerFirstEntry c)
          then (addJSONData ["010"%char] ;;; indent (Z.to_nat (containerLevel c))) s
          else (TTSDKJSON_OK, s)) ;;;
       (fun s =>
          addJSONData [if isObject then "}"%char else "]"%char]
                      (snd (update (set_containerFirstEntry false) s)))) s.

(** The number of entries of [isObject] (the header is missing). *)
Variable isObjectWidth : nat.

(** [memset(context, 0, sizeof( *context))] and the four assignments. *)
Definition ttsdkjson_beginEncode (prettyPrint : bool)
    (addJSONDataFunc : TTSDKJSONAddDataFunc) (userData : U) : Session :=
  {| context := {| addJSONDataFunc := addJSONDataFunc; userData := userData;
                   containerLevel := 0; isObject := replicate isObjectWidth false;
                   containerFirstEntry := true; prettyPrint := prettyPrint |};
     emitted := [] |}.

(** [while (context->containerLevel > 0)]: every round lowers the level by
    one, so [containerLevel] rounds are enough. *)
Fixpoint endEncode_loop (rounds : nat) (result : Z) : M Z :=
  match rounds with
  | O => ret result
  | S rounds' =>
      fun s =>
        if containerLevel (context s) >? 0 then
          let (result, s') := ttsdkjson_endContainer s in
          if negb (result =? TTSDKJSON_OK) then (result, s')
          else endEncode_loop rounds' result s'
        else (result, s)
  end.

Definition ttsdkjson_endEncode : M Z :=
  fun s => endEncode_loop (Z.to_nat (containerLevel (context s))) TTSDKJSON_OK s.

(** ** Sequences of encoder operations *)

Inductive Operation : Type :=
  | BeginElement (name : option bytes)
  | AddRawJSONData (data : bytes)
  | AddBooleanElement (name : option bytes) (value : bool)
  | AddFloatingPointElement (name : option bytes) (value : float)
  | AddIntegerElement (name : option bytes) (value : Z)
  | AddUIntegerElement (name : option bytes) (value : Z)
  | AddNullElement (name : option bytes)
  | AddStringElement (name value : option bytes) (length : Z)
  | BeginStringElement (name : option bytes)
  | AppendStringElement (value : bytes) (length : Z)
  | EndStringElement
  | AddDataElement (name : option bytes) (value : bytes) (length : Z)
  | BeginDataElement (name : option bytes)
  | AppendDataElement (value : bytes) (length : Z)
  | EndDataElement
  | BeginArray (name : option bytes)
  | BeginObject (name : option bytes)
  | EndContainer
  | EndEncode.

Definition perform (op : Operation) : M Z :=
  match op with
  | BeginElement name => ttsdkjson_beginElement name
  | AddRawJSONData data => ttsdkjson_addRawJSONData data
  | AddBooleanElement name value => ttsdkjson_addBooleanElement name value
  | AddFloatingPointElement name value => ttsdkjson_addFloatingPointElement name value
  | AddIntegerElement name value => ttsdkjson_addIntegerElement name value
  | AddUIntegerElement name value => ttsdkjson_addUIntegerElement name value
  | AddNullElement name => ttsdkjson_addNullElement name
  | AddStringElement name value length => ttsdkjson_addStringElement name value length
  | BeginStringElement name => ttsdkjson_beginStringElement name
  | AppendStringElement value length => ttsdkjson_appendStringElement value length
  | EndStringElement => ttsdkjson_endStringElement
  | AddDataElement name value length => ttsdkjson_addDataElement name value length
  | BeginDataElement name => ttsdkjson_beginDataElement name
  | AppendDataElement value length => ttsdkjson_appendDataElement value length
  | EndDataElement => ttsdkjson_endDataElement
  | BeginArray name => ttsdkjson_beginArray name
  | BeginObject name => ttsdkjson_beginObject name
  | EndContainer => ttsdkjson_endContainer
  | EndEncode => ttsdkjson_endEncode
  end.

(** The session after the operations, whatever each of them returned. *)
Definition performAll (ops : list Operation) (s : Session) : Session :=
  fold_left (fun s op => snd (perform op s)) ops s.


(** ** Frame *)

(** [m] does not touch [containerLevel]. *)
Definition keepsLevel {A} (m : M A) : Prop :=
  forall s, containerLevel (context (snd (m s))) = containerLevel (context s).

(** ** Sinks for the examples *)

(** A sink that takes everything. *)
Definition acceptAll : bytes -> unit -> Z * unit := fun _ u => (TTSDKJSON_OK, u).

(** A sink that counts its calls and answers call number [n] (from 0) with
    [status]. *)
Definition refuseCall (n : nat) (status : Z) : bytes -> nat -> Z * nat :=
  fun _ calls => (if Nat.eqb calls n then status else TTSDKJSON_OK, S calls).

End Encoder.

Arguments TTSDKJSONAddDataFunc : clear implicits.
Arguments TTSDKJSONEncodeContext : clear implicits.
Arguments Session : clear implicits.
Arguments M : clear implicits.

End Encode.

(** * Decoder *)

Module Decode.
Section Decoder.

(** What [userData] points to: the state of the caller's callbacks. *)
Context {U : Type}.

(** One invocation of a callback, with the name and the value it was
    given.  A [const char *name] is [None] when it is [NULL]. *)
Inductive Call : Type :=
  | OnBooleanElement (name : option bytes) (value : bool)
  | OnFloatingPointElement (name : option bytes) (value : float)
  | OnIntegerElement (name : option bytes) (value : Z)
  | OnUnsignedIntegerElement (name : option bytes) (value : Z)
  | OnNullElement (name : option bytes)
  | OnStringElement (name : option bytes) (value : bytes)
  | OnBeginObject (name : option bytes)
  | OnBeginArray (name : option bytes)
  | OnEndContainer
  | OnEndData.

(** Modelled from the spec: the struct of function pointers is declared in
    the missing header; the spec lists its members and their arguments. *)
Record TTSDKJSONDecodeCallbacks : Type := {
  onBooleanElement : option bytes -> bool -> U -> Z * U;
  onFloatingPointElement : option bytes -> float -> U -> Z * U;
  onIntegerElement : option bytes -> Z -> U -> Z * U;
  onUnsignedIntegerElement : option bytes -> Z -> U -> Z * U;
  onNullElement : option bytes -> U -> Z * U;
  onStringElement : option bytes -> bytes -> U -> Z * U;
  onBeginObject : option bytes -> U -> Z * U;
  onBeginArray : option bytes -> U -> Z * U;
  onEndContainer : U -> Z * U;
  onEndData : U -> Z * U
}.

(** The decoding context.  A pointer into the data is the list of the bytes
    from it up to [bufferEnd]: [bufferPtr++] drops the head,
    [bufferPtr >= bufferEnd] is the empty list, [bufferEnd - bufferPtr] is
    the length.  [nameBuffer] and [stringBuffer] are offsets into [memory],
    the caller's one buffer that both point into.  [calls] is ghost state:
    the callbacks invoked so far, in order. *)
Record TTSDKJSONDecodeContext : Type := {
  bufferPtr : bytes;
  memory : bytes;
  nameBuffer : nat;
  nameBufferLength : Z;
  stringBuffer : nat;
  stringBufferLength : Z;
  callbacks : TTSDKJSONDecodeCallbacks;
  userData : U;
  calls : list Call
}.

Definition set_bufferPtr (p : bytes) (c : TTSDKJSONDecodeContext) :=
  {| bufferPtr := p; memory := memory c;
     nameBuffer := nameBuffer c; nameBufferLength := nameBufferLength c;
     stringBuffer := stringBuffer c; stringBufferLength := stringBufferLength c;
     callbacks := callbacks c; userData := userData c; calls := calls c |}.

Definition set_memory (m : bytes) (c : TTSDKJSONDecodeContext) :=
  {| bufferPtr := bufferPtr c; memory := m;
     nameBuffer := nameBuffer c; nameBufferLength := nameBufferLength c;
     stringBuffer := stringBuffer c; stringBufferLength := stringBufferLength c;
     callbacks := callbacks c; userData := userData c; calls := calls c |}.

Definition called (call : Call) (u : U) (c : TTSDKJSONDecodeContext) :=
  {| bufferPtr := bufferPtr c; memory := memory c;
     nameBuffer := nameBuffer c; nameBufferLength := nameBufferLength c;
     stringBuffer := stringBuffer c; stringBufferLength := stringBufferLength c;
     callbacks := callbacks c; userData := u; calls := calls c ++ [call] |}.

(** [context->callbacks->on...(..., context->userData)]. *)
Definition invoke (call : Call) (context : TTSDKJSONDecodeContext)
  : Z * TTSDKJSONDecodeContext :=
  let cb := callbacks context in
  let u := userData context in
  let (result, u') :=
    match call with
    | OnBooleanElement name value => onBooleanElement cb name value u
    | OnFloatingPointElement name value => onFloatingPointElement cb name value u
    | OnIntegerElement name value => onIntegerElement cb name value u
    | OnUnsignedIntegerElement name value => onUnsignedIntegerElement cb name value u
    | OnNullElement name => onNullElement cb name u
    | OnStringElement name value => onStringElement cb name value u
    | OnBeginObject name => onBeginObject cb name u
    | OnBeginArray name => onBeginArray cb name u
    | OnEndContainer => onEndContainer cb u
    | OnEndData => onEndData cb u
    end in
  (result, called call u' context).

(** The [name] argument of [decodeElement]: [NULL] or
    [context->nameBuffer]. *)
Inductive NamePointer : Type := NullName | NameBuffer.

(** The name a callback reads through the pointer when it is invoked. *)
Definition readName (name : NamePointer) (context : TTSDKJSONDecodeContext)
  : option bytes :=
  match name with
  | NullName => None
  | NameBuffer => Some (cstring (drop (nameBuffer context) (memory context)))
  end.

(** [*p].  At [bufferEnd] the C read is outside the data; the model reads a
    NUL there. *)
Definition peek (p : bytes) : ascii := hd NUL p.

(** [p[i]]. *)
Definition at_index (p : bytes) (i : nat) : ascii := nth i p NUL.

Definition INV : Z := 0x11111.

(** The 256 entries of [g_hexConversion]. *)
Definition g_hexConversion : list Z :=
  repeat INV 48 ++ [0x0; 0x1; 0x2; 0x3; 0x4; 0x5; 0x6; 0x7; 0x8; 0x9]
  ++ repeat INV 7 ++ [0xa; 0xb; 0xc; 0xd; 0xe; 0xf]
  ++ repeat INV 26 ++ [0xa; 0xb; 0xc; 0xd; 0xe; 0xf]
  ++ repeat INV 153.

Definition hexConversion (c : ascii) : Z := nth (Z.to_nat (code c)) g_hexConversion INV.

(** [unsigned int] arithmetic. *)
Definition uint (v : Z) : Z := v mod 2 ^ 32.

(** [g_hexConversion[src[1]] << 12 | g_hexConversion[src[2]] << 8 |
    g_hexConversion[src[3]] << 4 | g_hexConversion[src[4]]]. *)
Definition hexAccum (h1 h2 h3 h4 : ascii) : Z :=
  Z.lor (Z.lor (Z.lor (uint (Z.shiftl (hexConversion h1) 12))
                      (uint (Z.shiftl (hexConversion h2) 8)))
               (uint (Z.shiftl (hexConversion h3) 4)))
        (hexConversion h4).

Definition isspace (c : ascii) : bool :=
  (code c =? 32) || ((9 <=? code c) && (code c <=? 13)).

Definition isdigit (c : ascii) : bool := (48 <=? code c) && (code c <=? 57).

Definition isFPChar (ch : ascii) : bool :=
  match ch with
  | "0" | "1" | "2" | "3" | "4" | "5" | "6" | "7" | "8" | "9"
  | "." | "e" | "E" | "+" | "-" => true
  | _ => false
  end%char.

Fixpoint skipWhitespace (p : bytes) : bytes :=
  match p with
  | c :: p' => if isspace c then skipWhitespace p' else p
  | [] => []
  end.

Definition SKIP_WHITESPACE (context : TTSDKJSONDecodeContext) : TTSDKJSONDecodeContext :=
  set_bufferPtr (skipWhitespace (bufferPtr context)) context.

(** ** UTF-8 *)

(** [writeUTF8(character, &dst)]: the result, the new [dst] and the
    memory. *)
Definition writeUTF8 (character : Z) (dst : nat) (memory : bytes) : Z * nat * bytes :=
  if character <=? 0x7f then
    (TTSDKJSON_OK, S dst, <[dst := char_of character]> memory)
  else if character <=? 0x7ff then
    let memory := <[dst := char_of (Z.lor 0xc0 (Z.shiftr character 6))]> memory in
    let memory := <[S dst := char_of (Z.lor 0x80 (Z.land character 0x3f))]> memory in
    (TTSDKJSON_OK, (dst + 2)%nat, memory)
  else if character <=? 0xffff then
    let memory := <[dst := char_of (Z.lor 0xe0 (Z.shiftr character 12))]> memory in
    let memory :=
      <[S dst := char_of (Z.lor 0x80 (Z.land (Z.shiftr character 6) 0x3f))]> memory in
    let memory :=
      <[S (S dst) := char_of (Z.lor 0x80 (Z.land character 0x3f))]> memory in
    (TTSDKJSON_OK, (dst + 3)%nat, memory)
  else if character <=? 0x10ffff then
    let memory := <[dst := char_of (Z.lor 0xf0 (Z.shiftr character 18))]> memory in
    let memory :=
      <[S dst := char_of (Z.lor 0x80 (Z.land (Z.shiftr character 12) 0x3f))]> memory in
    let memory :=
      <[S (S dst) := char_of (Z.lor 0x80 (Z.land (Z.shiftr character 6) 0x3f))]> memory in
    let memory :=
      <[S (S (S dst)) := char_of (Z.lor 0x80 (Z.land character 0x3f))]> memory in
    (TTSDKJSON_OK, (dst + 4)%nat, memory)
  else (TTSDKJSON_ERROR_INVALID_CHARACTER, dst, memory).

(** ** Strings *)

(** The first loop of [decodeString], from [src = context->bufferPtr + 1]:
    [None] when it runs into [bufferEnd], else the offset of the closing
    quote from [src] and the [fastCopy] flag. *)
Fixpoint scanString (src : bytes) (fastCopy : bool) : option (nat * bool) :=
  match src with
  | [] => None
  | c :: src1 =>
      if Ascii.eqb c DQUOTE then Some (O, fastCopy)
      else if Ascii.eqb c BACKSLASH then
        match src1 with
        | [] => None
        | _ :: src2 =>
            match scanString src2 false with
            | Some (n, fastCopy) => Some (S (S n), fastCopy)
            | None => None
            end
        end
      else
        match scanString src1 fastCopy with
        | Some (n, fastCopy) => Some (S n, fastCopy)
        | None => None
        end
  end.

(** [memcpy(dst, src, n)] into the memory at offset [dst]. *)
Fixpoint memcpy (dst : nat) (src : bytes) (memory : bytes) : bytes :=
  match src with
  | [] => memory
  | c :: src' => memcpy (S dst) src' (<[dst := c]> memory)
  end.

(** The second loop of [decodeString] with the final [*dst = 0], over the
    bytes from [src] up to [srcEnd].  The byte at [srcEnd] itself is the
    closing quote. *)
Fixpoint decodeEscapes (src : bytes) (dst : nat) (memory : bytes) : Z * bytes :=
  match src with
  | [] => (TTSDKJSON_OK, <[dst := NUL]> memory)
  | c :: src1 =>
      if negb (Ascii.eqb c BACKSLASH) then decodeEscapes src1 (S dst) (<[dst := c]> memory)
      else
        match src1 with
        | [] => (TTSDKJSON_OK, <[S dst := NUL]> (<[dst := DQUOTE]> memory))
        | e :: src2 =>
            let continue (decoded : ascii) :=
              decodeEscapes src2 (S dst) (<[dst := decoded]> memory) in
            if Ascii.eqb e DQUOTE then continue DQUOTE
            else if Ascii.eqb e BACKSLASH then continue BACKSLASH
            else if Ascii.eqb e "n" then continue "010"%char
            else if Ascii.eqb e "r" then continue "013"%char
            else if Ascii.eqb e "/" then continue "/"%char
            else if Ascii.eqb e "t" then continue "009"%char
            else if Ascii.eqb e "b" then continue "008"%char
            else if Ascii.eqb e "f" then continue "012"%char
            else if Ascii.eqb e "u" then
              match src2 with
              | h1 :: h2 :: h3 :: h4 :: src6 =>
                  let accum := hexAccum h1 h2 h3 h4 in
                  if accum >? 0xffff then (TTSDKJSON_ERROR_INVALID_CHARACTER, memory)
                  (* UTF-16 Trail surrogate on its own. *)
                  else if (accum >=? 0xdc00) && (accum <=? 0xdfff)
                  then (TTSDKJSON_ERROR_INVALID_CHARACTER, memory)
                  (* UTF-16 Lead surrogate. *)
                  else if (accum >=? 0xd800) && (accum <=? 0xdbff) then
                    match src6 with
                    | b :: u :: k1 :: k2 :: k3 :: k4 :: src12 =>
                        if negb (Ascii.eqb b BACKSLASH) || negb (Ascii.eqb u "u")
                        then (TTSDKJSON_ERROR_INVALID_CHARACTER, memory)
                        else
                          let accum2 := hexAccum k1 k2 k3 k4 in
                          if (accum2 <? 0xdc00) || (accum2 >? 0xdfff)
                          then (TTSDKJSON_ERROR_INVALID_CHARACTER, memory)
                          else
                            (* And combine 20 bit result. *)
                            let accum :=
                              Z.lor (uint (Z.shiftl (accum - 0xd800) 10))
                                    (uint (accum2 - 0xdc00)) in
                            let '(result, dst', memory') := writeUTF8 accum dst memory in
                            if negb (result =? TTSDKJSON_OK) then (result, memory')
                            else decodeEscapes src12 dst' memory'
                    | _ => (TTSDKJSON_ERROR_INCOMPLETE, memory)
                    end
                  else
                    let '(result, dst', memory') := writeUTF8 accum dst memory in
                    if negb (result =? TTSDKJSON_OK) then (result, memory')
                    else decodeEscapes src6 dst' memory'
              | _ => (TTSDKJSON_ERROR_INCOMPLETE, memory)
              end
            else (TTSDKJSON_ERROR_INVALID_CHARACTER, memory)
        end
  end.

Definition decodeString (dstBuffer : nat) (dstBufferLength : Z)
    (context : TTSDKJSONDecodeContext) : Z * TTSDKJSONDecodeContext :=
  let context := set_memory (<[dstBuffer := NUL]> (memory context)) context in
  if negb (Ascii.eqb (peek (bufferPtr context)) DQUOTE)
  then (TTSDKJSON_ERROR_INVALID_CHARACTER, context)
  else
    let src := tail (bufferPtr context) in
    match scanString src true with
    | None => (TTSDKJSON_ERROR_INCOMPLETE, context)
    | Some (length, fastCopy) =>
        if Z.of_nat length >=? dstBufferLength
        then (TTSDKJSON_ERROR_DATA_TOO_LONG, context)
        else
          let context := set_bufferPtr (drop (S length) src) context in
          (* If no escape characters were encountered, we can fast copy. *)
          if fastCopy then
            let memory := memcpy dstBuffer (take length src) (memory context) in
            (TTSDKJSON_OK, set_memory (<[(dstBuffer + length)%nat := NUL]> memory) context)
          else
            let (result, memory) :=
              decodeEscapes (take length src) dstBuffer (memory context) in
            (result, set_memory memory context)
    end.

(** ** Numbers *)

Definition ULLONG_MAX : Z := 2 ^ 64 - 1.
Definition LLONG_MAX : Z := 2 ^ 63 - 1.

(** [uint64_t] arithmetic and the conversion to [int64_t]. *)
Definition uint64 (v : Z) : Z := v mod 2 ^ 64.
Definition int64 (v : Z) : Z := (v + 2 ^ 63) mod 2 ^ 64 - 2 ^ 63.

(** The digit loop: where [bufferPtr] stops, [accum] and [isOverflow]. *)
Fixpoint scanDigits (p : bytes) (accum : Z) (isOverflow : bool) : bytes * Z * bool :=
  match p with
  | [] => (p, accum, isOverflow)
  | c :: p' =>
      if isdigit c then
        if accum >? ULLONG_MAX / 10 then (p, accum, true)
        else
          let accum := uint64 (accum * 10) in
          let nextDigit := uint64 (code c - code "0") in
          if accum >? ULLONG_MAX - nextDigit then (p, accum, true)
          else scanDigits p' (uint64 (accum + nextDigit)) false
      else (p, accum, isOverflow)
  end.

Fixpoint skipFPChars (p : bytes) : bytes :=
  match p with
  | c :: p' => if isFPChar c then skipFPChars p' else p
  | [] => []
  end.

(** The C library's [sscanf(..., "%lg", &value)] on a C string. *)
Variable sscanf_lg : bytes -> float.

(** The digits case of [decodeElement], entered with [sign] set. *)
Definition decodeNumber (sign : Z) (name : NamePointer)
    (context : TTSDKJSONDecodeContext) : Z * TTSDKJSONDecodeContext :=
  (* Try integer conversion. *)
  let start := bufferPtr context in
  let '(p, accum, isOverflow) := scanDigits start 0 false in
  let context := set_bufferPtr p context in
  match p with
  | [] => (TTSDKJSON_ERROR_INCOMPLETE, context)
  | _ :: _ =>
      let floatingPoint :=
        let context := set_bufferPtr (skipFPChars (bufferPtr context)) context in
        match bufferPtr context with
        | [] => (TTSDKJSON_ERROR_INCOMPLETE, context)
        | _ :: _ =>
            let len := Z.of_nat (length start) - Z.of_nat (length (bufferPtr context)) in
            if len >=? stringBufferLength context
            then (TTSDKJSON_ERROR_DATA_TOO_LONG, context)
            else
              let copied := memcpy (stringBuffer context) (take (Z.to_nat len) start)
                                   (memory context) in
              let copied := <[(stringBuffer context + Z.to_nat len)%nat := NUL]> copied in
              let context := set_memory copied context in
              let value := sscanf_lg (cstring (drop (stringBuffer context) (memory context))) in
              let value := PrimFloat.mul value (if sign >? 0 then 1 else -1)%float in
              invoke (OnFloatingPointElement (readName name context) value) context
        end in
      if negb (isFPChar (peek p)) && negb isOverflow then
        if sign >? 0 then
          if accum <=? LLONG_MAX
          then invoke (OnIntegerElement (readName name context) (int64 accum)) context
          else invoke (OnUnsignedIntegerElement (readName name context) accum) context
        else if accum <=? LLONG_MAX + 1
          then invoke (OnIntegerElement (readName name context) (int64 (- int64 accum)))
                      context
          else floatingPoint
      else floatingPoint
  end.

(** The cases [f], [t] and [n]: [literal] is the whole word. *)
Definition decodeLiteral (literal : bytes) (call : Call)
    (context : TTSDKJSONDecodeContext) : Z * TTSDKJSONDecodeContext :=
  let p := bufferPtr context in
  if Z.of_nat (length p) <? Z.of_nat (length literal)
  then (TTSDKJSON_ERROR_INCOMPLETE, context)
  else if negb (forallb (fun i => Ascii.eqb (at_index p i) (at_index literal i))
                        (seq 1 (length literal - 1)))
  then (TTSDKJSON_ERROR_INVALID_CHARACTER, context)
  else invoke call (set_bufferPtr (drop (length literal) p) context).

(** ** Elements *)

Definition Decoded : Type := option (Z * TTSDKJSONDecodeContext).

(** The [while (context->bufferPtr < context->bufferEnd)] loop of the
    array case and the return after it.  [decodeElement] is the recursive
    call; [None] is a loop that was not given enough [rounds]. *)
Fixpoint arrayLoop (decodeElement : NamePointer -> TTSDKJSONDecodeContext -> Decoded)
    (rounds : nat) (context : TTSDKJSONDecodeContext) : Decoded :=
  match rounds with
  | O => None
  | S rounds' =>
      match bufferPtr context with
      | [] => Some (TTSDKJSON_ERROR_INCOMPLETE, context)
      | _ :: _ =>
          let context := SKIP_WHITESPACE context in
          match bufferPtr context with
          | [] => Some (TTSDKJSON_ERROR_INCOMPLETE, context)
          | c :: p' =>
              if Ascii.eqb c "]"
              then Some (invoke OnEndContainer (set_bufferPtr p' context))
              else
                match decodeElement NullName context with
                | None => None
                | Some (result, context) =>
                    if negb (result =? TTSDKJSON_OK) then Some (result, context)
                    else
                      let context := SKIP_WHITESPACE context in
                      match bufferPtr context with
                      | [] => Some (TTSDKJSON_ERROR_INCOMPLETE, context)
                      | c :: p' =>
                          let context :=
                            if Ascii.eqb c "," then set_bufferPtr p' context
                            else context in
                          arrayLoop decodeElement rounds' context
                      end
                end
          end
      end
  end.

(** The loop of the object case. *)
Fixpoint objectLoop (decodeElement : NamePointer -> TTSDKJSONDecodeContext -> Decoded)
    (rounds : nat) (context : TTSDKJSONDecodeContext) : Decoded :=
  match rounds with
  | O => None
  | S rounds' =>
      match bufferPtr context with
      | [] => Some (TTSDKJSON_ERROR_INCOMPLETE, context)
      | _ :: _ =>
          let context := SKIP_WHITESPACE context in
          match bufferPtr context with
          | [] => Some (TTSDKJSON_ERROR_INCOMPLETE, context)
          | c :: p' =>
              if Ascii.eqb c "}"
              then Some (invoke OnEndContainer (set_bufferPtr p' context))
              else
                let (result, context) :=
                  decodeString (nameBuffer context) (nameBufferLength context) context in
                if negb (result =? TTSDKJSON_OK) then Some (result, context)
                else
                  let context := SKIP_WHITESPACE context in
                  match bufferPtr context with
                  | [] => Some (TTSDKJSON_ERROR_INCOMPLETE, context)
                  | c :: p' =>
                      if negb (Ascii.eqb c ":")
                      then Some (TTSDKJSON_ERROR_INVALID_CHARACTER, context)
                      else
                        let context := set_bufferPtr p' context in
                        let context := SKIP_WHITESPACE context in
                        match decodeElement NameBuffer context with
                        | None => None
                        | Some (result, context) =>
                            if negb (result =? TTSDKJSON_OK) then Some (result, context)
                            else
                              let context := SKIP_WHITESPACE context in
                              match bufferPtr context with
                              | [] => Some (TTSDKJSON_ERROR_INCOMPLETE, context)
                              | c :: p' =>
                                  let context :=
                                    if Ascii.eqb c "," then set_bufferPtr p' context
                                    else context in
                                  objectLoop decodeElement rounds' context
                              end
                        end
                  end
          end
      end
  end.

(** [decodeElement(name, context)].  [depth] bounds the nesting of the
    recursive calls and the rounds of the two loops; [None] is a run that
    was not given enough of it. *)
Fixpoint decodeElement (depth : nat) (name : NamePointer)
    (context : TTSDKJSONDecodeContext) : Decoded :=
  match depth with
  | O => None
  | S depth' =>
      let context := SKIP_WHITESPACE context in
      match bufferPtr context with
      | [] => Some (TTSDKJSON_ERROR_INCOMPLETE, context)
      | c :: p' =>
          if Ascii.eqb c "[" then
            let context := set_bufferPtr p' context in
            let (result, context) := invoke (OnBeginArray (readName name context)) context in
            if negb (result =? TTSDKJSON_OK) then Some (result, context)
            else arrayLoop (decodeElement depth') depth' context
          else if Ascii.eqb c "{" then
            let context := set_bufferPtr p' context in
            let (result, context) := invoke (OnBeginObject (readName name context)) context in
            if negb (result =? TTSDKJSON_OK) then Some (result, context)
            else objectLoop (decodeElement depth') depth' context
          else if Ascii.eqb c DQUOTE then
            let (result, context) :=
              decodeString (stringBuffer context) (stringBufferLength context) context in
            if negb (result =? TTSDKJSON_OK) then Some (result, context)
            else
              Some (invoke (OnStringElement (readName name context)
                              (cstring (drop (stringBuffer context) (memory context))))
                           context)
          else if Ascii.eqb c "f" then
            Some (decodeLiteral (bytes_of "false")
                    (OnBooleanElement (readName name context) false) context)
          else if Ascii.eqb c "t" then
            Some (decodeLiteral (bytes_of "true")
                    (OnBooleanElement (readName name context) true) context)
          else if Ascii.eqb c "n" then
            Some (decodeLiteral (bytes_of "null")
                    (OnNullElement (readName name context)) context)
          else if Ascii.eqb c "-" then
            let context := set_bufferPtr p' context in
            if negb (isdigit (peek (bufferPtr context)))
            then Some (TTSDKJSON_ERROR_INVALID_CHARACTER, context)
            else Some (decodeNumber (-1) name context)
          else if isdigit c then Some (decodeNumber 1 name context)
          else Some (TTSDKJSON_ERROR_INVALID_CHARACTER, context)
      end
  end.

(** What [ttsdkjson_decode] leaves behind: its return value, the context
    at the end, and the integer at [errorOffset] when the pointer is not
    [NULL]. *)
Record Outcome : Type := {
  result : Z;
  final : TTSDKJSONDecodeContext;
  errorOffsetValue : option Z
}.

(** The context that [ttsdkjson_decode] sets up: the first quarter of the
    caller's buffer holds names, the rest holds strings. *)
Definition initialContext (data : bytes) (stringBuffer : bytes)
    (callbacks : TTSDKJSONDecodeCallbacks) (userData : U) : TTSDKJSONDecodeContext :=
  let stringBufferLength := Z.of_nat (length stringBuffer) in
  let nameBuffer := O in
  let nameBufferLength := Z.quot stringBufferLength 4 in
  let stringBuffer' := (nameBuffer + Z.to_nat nameBufferLength)%nat in
  let stringBufferLength := stringBufferLength - nameBufferLength in
  {| bufferPtr := data; memory := stringBuffer;
     nameBuffer := nameBuffer; nameBufferLength := nameBufferLength;
     stringBuffer := stringBuffer'; stringBufferLength := stringBufferLength;
     callbacks := callbacks; userData := userData; calls := [] |}.

(** [data] holds the [length] bytes; [stringBuffer] is the caller's buffer
    of [stringBufferLength] bytes; [errorOffset] is [None] for [NULL] and
    else the integer it points to.  The depth given to [decodeElement] is
    enough for every input (see [decodeElement_returns]). *)
Definition ttsdkjson_decode (data : bytes) (stringBuffer : bytes)
    (callbacks : TTSDKJSONDecodeCallbacks) (userData : U) (errorOffset : option Z)
  : option Outcome :=
  let context := initialContext data stringBuffer callbacks userData in
  let ptr := data in
  match decodeElement (S (length data)) NullName context with
  | None => None
  | Some (result, context) =>
      let (result, context) :=
        if result =? TTSDKJSON_OK then invoke OnEndData context else (result, context) in
      let errorOffset :=
        match errorOffset with
        | Some previous =>
            if negb (result =? TTSDKJSON_OK)
            then Some (Z.of_nat (length data) - Z.of_nat (length ptr))
            else Some previous
        | None => None
        end in
      Some {| result := result; final := context; errorOffsetValue := errorOffset |}
  end.

(** ** Predicates on runs of the decoder *)

(** [c'] comes after [c] in a decode: no byte was given back, and the
    callbacks invoked in between do not include [onEndData]. *)
Definition follows (c c' : TTSDKJSONDecodeContext) : Prop :=
  (length (bufferPtr c') <= length (bufferPtr c))%nat
  /\ exists new, calls c' = calls c ++ new /\ ~ In OnEndData new.

(** A context that follows and has strictly fewer bytes left. *)
Definition advances (c c' : TTSDKJSONDecodeContext) : Prop :=
  follows c c' /\ (length (bufferPtr c') < length (bufferPtr c))%nat.

(** What the recursion needs from a decoder of elements: the context it
    returns follows the one it was given, and a decoded element took at
    least one byte. *)
Definition wellBehaved (decode : NamePointer -> TTSDKJSONDecodeContext -> Decoded) : Prop :=
  forall name c result c',
    decode name c = Some (result, c') ->
    follows c c' /\ (result = TTSDKJSON_OK -> advances c c').

(** [decode] returns on every context with fewer than [n] bytes left. *)
Definition returnsBelow (n : nat) (decode : NamePointer -> TTSDKJSONDecodeContext -> Decoded) : Prop :=
  forall name c, (length (bufferPtr c) < n)%nat -> decode name c <> None.

(** [m'] has what [m] has below offset [dst]. *)
Definition sameBelow (dst : nat) (m m' : bytes) : Prop :=
  forall i, (i < dst)%nat -> m' !! i = m !! i.

(** What [decodeString] does with a body: the result and the memory. *)
Definition decodedBody (dstBuffer : nat) (dstBufferLength : Z) (body : bytes)
    (fastCopy : bool) (memory : bytes) : Z * bytes :=
  let cleared := <[dstBuffer := NUL]> memory in
  if Z.of_nat (length body) >=? dstBufferLength
  then (TTSDKJSON_ERROR_DATA_TOO_LONG, cleared)
  else if fastCopy
       then (TTSDKJSON_OK, <[(dstBuffer + length body)%nat := NUL]> (memcpy dstBuffer body cleared))
       else decodeEscapes body dstBuffer cleared.

(** ** Inputs of the examples *)

(** The decimal digits of UINT64_MAX. *)
Definition digits_UINT64_MAX : bytes := bytes_of "18446744073709551615".

(** The JSON string whose body is the escaped surrogate pair D83D DE00. *)
Definition escapedSurrogatePair : bytes :=
  DQUOTE :: BACKSLASH :: bytes_of "uD83D" ++ BACKSLASH :: bytes_of "uDE00" ++ [DQUOTE].

(** The JSON string whose body is [a] and the invalid escape [x]. *)
Definition invalidEscape : bytes := [DQUOTE; "a"%char; BACKSLASH; "x"%char; DQUOTE].

(** Callbacks that accept everything. *)
Definition acceptCalls : TTSDKJSONDecodeCallbacks :=
  {| onBooleanElement := fun _ _ u => (TTSDKJSON_OK, u);
     onFloatingPointElement := fun _ _ u => (TTSDKJSON_OK, u);
     onIntegerElement := fun _ _ u => (TTSDKJSON_OK, u);
     onUnsignedIntegerElement := fun _ _ u => (TTSDKJSON_OK, u);
     onNullElement := fun _ u => (TTSDKJSON_OK, u);
     onStringElement := fun _ _ u => (TTSDKJSON_OK, u);
     onBeginObject := fun _ u => (TTSDKJSON_OK, u);
     onBeginArray := fun _ u => (TTSDKJSON_OK, u);
     onEndContainer := fun u => (TTSDKJSON_OK, u);
     onEndData := fun u => (TTSDKJSON_OK, u) |}.

End Decoder.

Arguments TTSDKJSONDecodeCallbacks : clear implicits.
Arguments TTSDKJSONDecodeContext : clear implicits.
Arguments Decoded : clear implicits.
Arguments Outcome : clear implicits.

End Decode.

(** ** Layouts of arrays and objects *)

Module Layout.

(** A value that is not a container, as its text. *)
Inductive Scalar : Type :=
  | SString (body : bytes)
  | STrue
  | SFalse
  | SNull
  | SNumber (negative : bool) (text : bytes).

(** What stands between an element and the next one, or between the last
    element and the closing bracket: whitespace, an optional comma,
    whitespace. *)
Record Separator : Type := {
  before : bytes;
  comma : bool;
  after : bytes
}.

(** The text of an array or an object, element by element, with the
    whitespace and the commas it is written with. *)
Inductive Document : Type :=
  | DScalar (s : Scalar)
  | DArray (lead : bytes) (items : Items)
  | DObject (lead : bytes) (members : Members)
with Items : Type :=
  | INil
  | ICons (item : Document) (sep : Separator) (rest : Items)
with Members : Type :=
  | MNil
  | MCons (key afterKey afterColon : bytes) (value : Document) (sep : Separator)
          (rest : Members).

Definition lastItem (rest : Items) : bool :=
  match rest with INil => true | ICons _ _ _ => false end.

Definition lastMember (rest : Members) : bool :=
  match rest with MNil => true | MCons _ _ _ _ _ _ => false end.

Definition renderScalar (s : Scalar) : bytes :=
  match s with
  | SString body => DQUOTE :: body ++ [DQUOTE]
  | STrue => bytes_of "true"
  | SFalse => bytes_of "false"
  | SNull => bytes_of "null"
  | SNumber negative text => (if negative then ["-"%char] else []) ++ text
  end.

(** In the strict form a comma stands between two siblings and nowhere
    else; otherwise the separator is written as it is. *)
Definition renderSeparator (strict last : bool) (sep : Separator) : bytes :=
  before sep
  ++ (if (if strict then negb last else comma sep) then [","%char] else [])
  ++ after sep.

Fixpoint render (strict : bool) (d : Document) : bytes :=
  match d with
  | DScalar s => renderScalar s
  | DArray lead items => "["%char :: lead ++ renderItems strict items ++ ["]"%char]
  | DObject lead members => "{"%char :: lead ++ renderMembers strict members ++ ["}"%char]
  end
with renderItems (strict : bool) (items : Items) : bytes :=
  match items with
  | INil => []
  | ICons item sep rest =>
      render strict item ++ renderSeparator strict (lastItem rest) sep
      ++ renderItems strict rest
  end
with renderMembers (strict : bool) (members : Members) : bytes :=
  match members with
  | MNil => []
  | MCons key afterKey afterColon value sep rest =>
      DQUOTE :: key ++ DQUOTE :: afterKey ++ ":"%char :: afterColon
      ++ render strict value ++ renderSeparator strict (lastMember rest) sep
      ++ renderMembers strict rest
  end.

Definition whitespace (w : bytes) : bool := forallb Decode.isspace w.

(** The body of a string up to its closing quote: no quote that is not
    escaped, no backslash at the end.  The result is the [fastCopy] flag. *)
Fixpoint scanBody (body : bytes) (fastCopy : bool) : option bool :=
  match body with
  | [] => Some fastCopy
  | c :: body1 =>
      if Ascii.eqb c DQUOTE then None
      else if Ascii.eqb c BACKSLASH then
        match body1 with
        | [] => None
        | _ :: body2 => scanBody body2 false
        end
      else scanBody body1 fastCopy
  end.

Definition wellFormedString (body : bytes) : bool :=
  match scanBody body true with Some _ => true | None => false end.

Definition wellFormedScalar (s : Scalar) : bool :=
  match s with
  | SString body => wellFormedString body
  | STrue | SFalse | SNull => true
  | SNumber _ text => Decode.isdigit (Decode.peek text) && forallb Decode.isFPChar text
  end.

(** Between two siblings there is a comma or some whitespace. *)
Definition wellFormedSeparator (last : bool) (sep : Separator) : bool :=
  whitespace (before sep) && whitespace (after sep)
  && (last || comma sep
      || match before sep ++ after sep with [] => false | _ :: _ => true end).

Fixpoint wellFormed (d : Document) : bool :=
  match d with
  | DScalar s => wellFormedScalar s
  | DArray lead items => whitespace lead && wellFormedItems items
  | DObject lead members => whitespace lead && wellFormedMembers members
  end
with wellFormedItems (items : Items) : bool :=
  match items with
  | INil => true
  | ICons item sep rest =>
      wellFormed item && wellFormedSeparator (lastItem rest) sep && wellFormedItems rest
  end
with wellFormedMembers (members : Members) : bool :=
  match members with
  | MNil => true
  | MCons key afterKey afterColon value sep rest =>
      wellFormedString key && whitespace afterKey && whitespace afterColon
      && wellFormed value && wellFormedSeparator (lastMember rest) sep
      && wellFormedMembers rest
  end.

Definition isContainer (d : Document) : bool :=
  match d with DScalar _ => false | _ => true end.

(** An array of the number 1 and an object with the member k: true, with
    a space and no comma behind the 1, a comma behind the member, and a
    comma and a space behind the object. *)
Definition exampleLayout : Document :=
  DArray []
    (ICons (DScalar (SNumber false ["1"%char]))
       {| before := [" "%char]; comma := false; after := [] |}
       (ICons (DObject []
                 (MCons ["k"%char] [] [] (DScalar STrue)
                    {| before := []; comma := true; after := [] |} MNil))
          {| before := []; comma := true; after := [" "%char] |}
          INil)).

(** ** Predicates on the decoding of a layout *)

Section Decoding.
Import Decode.

Context {U : Type}.
Variable sscanf_lg : bytes -> float.

(** What may follow a number: a byte, and not one of a number. *)
Definition delimited (r : bytes) : Prop := r <> [] /\ isFPChar (peek r) = false.

(** The first byte of an element: not whitespace, not a closing bracket,
    not a comma. *)
Definition startsElement (text : bytes) : Prop :=
  exists ch tl,
    text = ch :: tl /\ isspace ch = false /\ Ascii.eqb ch "]" = false
    /\ Ascii.eqb ch "}" = false /\ Ascii.eqb ch "," = false.

(** Decoding [text], whatever follows it, returns [res] and leaves the
    context [c'], with [bufferPtr] behind the text when [res] is OK.  A
    scalar has to be followed by a delimiter. *)
Definition decodesAs (text : bytes) (scalar : bool) (name : NamePointer)
    (c : TTSDKJSONDecodeContext U) (res : Z) (c' : TTSDKJSONDecodeContext U) : Prop :=
  forall depth r,
    (length (text ++ r) < depth)%nat -> (scalar = true -> delimited r) ->
    exists p,
      decodeElement sscanf_lg depth name (set_bufferPtr (text ++ r) c)
      = Some (res, set_bufferPtr p c')
      /\ (res = TTSDKJSON_OK -> p = r).

(** The array loop, started in front of some whitespace, the items and the
    closing bracket, returns [res] and leaves [c'], with [bufferPtr] behind
    the bracket when [res] is OK. *)
Definition arrayLoopsAs (strict : bool) (items : Items) (c : TTSDKJSONDecodeContext U) (res : Z)
    (c' : TTSDKJSONDecodeContext U) : Prop :=
  forall rounds depth w r,
    whitespace w = true ->
    (length (w ++ renderItems strict items ++ "]"%char :: r) < rounds)%nat ->
    (length (w ++ renderItems strict items ++ "]"%char :: r) < depth)%nat ->
    exists p,
      arrayLoop (decodeElement sscanf_lg depth) rounds
        (set_bufferPtr (w ++ renderItems strict items ++ "]"%char :: r) c)
      = Some (res, set_bufferPtr p c')
      /\ (res = TTSDKJSON_OK -> p = r).

Definition objectLoopsAs (strict : bool) (members : Members) (c : TTSDKJSONDecodeContext U) (res : Z)
    (c' : TTSDKJSONDecodeContext U) : Prop :=
  forall rounds depth w r,
    whitespace w = true ->
    (length (w ++ renderMembers strict members ++ "}"%char :: r) < rounds)%nat ->
    (length (w ++ renderMembers strict members ++ "}"%char :: r) < depth)%nat ->
    exists p,
      objectLoop (decodeElement sscanf_lg depth) rounds
        (set_bufferPtr (w ++ renderMembers strict members ++ "}"%char :: r) c)
      = Some (res, set_bufferPtr p c')
      /\ (res = TTSDKJSON_OK -> p = r).

End Decoding.

End Layout.

Scheme Document_mut := Induction for Layout.Document Sort Prop
  with Items_mut := Induction for Layout.Items Sort Prop
  with Members_mut := Induction for Layout.Members Sort Prop.

Combined Scheme Document_mutind from Document_mut, Items_mut, Members_mut.

(** ** What the sink was given *)

Module Sink.
Section Sink.
Import Encode.
Context {U : Type}.

(** Everything that was handed to the sink so far, as one text. *)
Definition output (s : Session U) : bytes := concat (emitted s).

(** A sink that takes every chunk. *)
Definition accepts (sink : TTSDKJSONAddDataFunc U) : Prop :=
  forall data u, fst (sink data u) = TTSDKJSON_OK.

(** What a run that only talks to the sink leaves of the context. *)
Definition sameContext (s s' : Session U) : Prop :=
  addJSONDataFunc (context s') = addJSONDataFunc (context s)
  /\ containerLevel (context s') = containerLevel (context s)
  /\ isObject (context s') = isObject (context s)
  /\ containerFirstEntry (context s') = containerFirstEntry (context s)
  /\ prettyPrint (context s') = prettyPrint (context s).

(** The closing brackets of the levels from [n] down to 1. *)
Definition closings (s : Session U) (n : nat) : bytes :=
  map (fun i => if isObject_at (context s) (Z.of_nat i) then "}"%char else "]"%char)
      (rev (seq 1 n)).

(** A sink that takes nothing. *)
Definition refuses (sink : TTSDKJSONAddDataFunc U) : Prop :=
  forall data u, fst (sink data u) <> TTSDKJSON_OK.

(** On a sink that refuses, [m] returns OK only when it handed it nothing. *)
Definition quiet (m : M U Z) : Prop :=
  forall s,
    refuses (addJSONDataFunc (context s)) -> fst (m s) = TTSDKJSON_OK ->
    emitted (snd (m s)) = emitted s
    /\ addJSONDataFunc (context (snd (m s))) = addJSONDataFunc (context s).

(** An operation that takes a name and is given [NULL]. *)
Definition unnamed (op : Operation) : bool :=
  match op with
  | BeginElement None | AddBooleanElement None _ | AddFloatingPointElement None _
  | AddIntegerElement None _ | AddUIntegerElement None _ | AddNullElement None
  | AddStringElement None _ _ | BeginStringElement None | AddDataElement None _ _
  | BeginDataElement None | BeginArray None | BeginObject None => true
  | _ => false
  end.

End Sink.
End Sink.

(** ** Regions of the caller's buffer *)

Module Buffer.

(** [m'] is [m] but for the bytes from [lo] to [hi]. *)
Definition sameOutside (lo hi : nat) (m m' : bytes) : Prop :=
  length m' = length m
  /\ forall i, (i < lo \/ hi < i)%nat -> m' !! i = m !! i.

End Buffer.

(** ** The nesting of the callbacks *)

Module Nesting.
Section Nesting.
Import Decode.
Context {U : Type}.

(** What an invocation does to the number of open containers. *)
Definition delta (call : Call) : Z :=
  match call with
  | OnBeginObject _ | OnBeginArray _ => 1
  | OnEndContainer => -1
  | _ => 0
  end.

(** The number of open containers after the invocations [log], from [open]
    open containers before them; [None] when a container end is invoked
    with no container open. *)
Fixpoint nestingFrom (open : Z) (log : list Call) : option Z :=
  match log with
  | [] => Some open
  | call :: log' =>
      if open + delta call <? 0 then None else nestingFrom (open + delta call) log'
  end.

(** A family of properties of the context, one for every number of open
    containers, and a property of the statuses. *)
Variable I : nat -> TTSDKJSONDecodeContext U -> Prop.
Variable R : Z -> Prop.

(** The steps of the decoder keep the invariant: moving in the data and
    storing into the buffer do not touch it, an element callback keeps
    it, a container begin takes it one level up, a container end one
    level down; and [R] holds of what the callbacks return and of the
    three errors of the decoder's own. *)
Definition closed : Prop :=
  (forall d c p, I d c -> I d (set_bufferPtr p c))
  /\ (forall d c m, I d c -> I d (set_memory m c))
  /\ (forall d c call,
        delta call = 0 -> call <> OnEndData -> I d c -> I d (snd (invoke call c)))
  /\ (forall d c call, delta call = 1 -> I d c -> I (S d) (snd (invoke call c)))
  /\ (forall d c, I (S d) c -> I d (snd (invoke OnEndContainer c)))
  /\ (forall d c call, I d c -> R (fst (invoke call c)))
  /\ R TTSDKJSON_ERROR_INVALID_CHARACTER
  /\ R TTSDKJSON_ERROR_DATA_TOO_LONG
  /\ R TTSDKJSON_ERROR_INCOMPLETE.

(** A run from level [d] has kept the invariant: the status is one of
    [R]; on OK the context is back at level [d]; otherwise it is at some
    level from [d] up. *)
Definition kept (d : nat) (run : Z * TTSDKJSONDecodeContext U) : Prop :=
  R (fst run)
  /\ (fst run = TTSDKJSON_OK -> I d (snd run))
  /\ exists d', (d <= d')%nat /\ I d' (snd run).

End Nesting.
End Nesting.

(** ** Documents as trees of values *)

Module Tree.
Import Encode Decode Layout.

(** A document: the values that the encoder has a call for and that the
    decoder reports as they were given, arrays of them and objects with
    named members. *)
Inductive Value : Type :=
  | VNull
  | VBoolean (value : bool)
  | VInteger (value : Z)
  | VUInteger (value : Z)
  | VString (value : bytes)
  | VData (value : bytes)
  | VArray (items : Values)
  | VObject (fields : Fields)
with Values : Type :=
  | VNil
  | VCons (item : Value) (rest : Values)
with Fields : Type :=
  | FNil
  | FCons (key : bytes) (value : Value) (rest : Fields).

(** The calls of the encoder that write a value: one call for a value that
    is no container, and a begin, the calls of the elements and
    [ttsdkjson_endContainer] for a container. *)
Fixpoint operations (name : option bytes) (v : Value) : list Operation :=
  match v with
  | VNull => [AddNullElement name]
  | VBoolean value => [AddBooleanElement name value]
  | VInteger value => [AddIntegerElement name value]
  | VUInteger value => [AddUIntegerElement name value]
  | VString value => [AddStringElement name (Some value) (Z.of_nat (length value))]
  | VData value => [AddDataElement name value (Z.of_nat (length value))]
  | VArray items => BeginArray name :: operationsItems items ++ [EndContainer]
  | VObject fields => BeginObject name :: operationsFields fields ++ [EndContainer]
  end
with operationsItems (items : Values) : list Operation :=
  match items with
  | VNil => []
  | VCons item rest => operations None item ++ operationsItems rest
  end
with operationsFields (fields : Fields) : list Operation :=
  match fields with
  | FNil => []
  | FCons key value rest => operations (Some key) value ++ operationsFields rest
  end.

(** The status of every operation of a sequence, each performed on the
    session that the one before left. *)
Section Statuses.
Context {U : Type}.
Variable printf_g : Z -> float -> bytes.
Variable printf_f1 : float -> bytes.
Variable to_float : float -> float.

Fixpoint statuses (ops : list Operation) (s : Session U) : list Z :=
  match ops with
  | [] => []
  | op :: ops' =>
      fst (perform printf_g printf_f1 to_float op s)
      :: statuses ops' (snd (perform printf_g printf_f1 to_float op s))
  end.

End Statuses.

(** The two digits that [ttsdkjson_appendDataElement] writes for every
    byte. *)
Definition hex (data : bytes) : bytes :=
  flat_map (fun currentByte =>
              [hexNybble (Z.land (Z.shiftr (code currentByte) 4) 15);
               hexNybble (Z.land (code currentByte) 15)]) data.

(** The callbacks of the decoder that report a value.  An unsigned integer
    up to LLONG_MAX is reported as an integer, and binary data as the
    string of its digits. *)
Fixpoint events (name : option bytes) (v : Value) : list Call :=
  match v with
  | VNull => [OnNullElement name]
  | VBoolean value => [OnBooleanElement name value]
  | VInteger value => [OnIntegerElement name value]
  | VUInteger value =>
      [if value <=? LLONG_MAX then OnIntegerElement name value
       else OnUnsignedIntegerElement name value]
  | VString value => [OnStringElement name value]
  | VData value => [OnStringElement name (hex value)]
  | VArray items => OnBeginArray name :: eventsItems items ++ [OnEndContainer]
  | VObject fields => OnBeginObject name :: eventsFields fields ++ [OnEndContainer]
  end
with eventsItems (items : Values) : list Call :=
  match items with
  | VNil => []
  | VCons item rest => events None item ++ eventsItems rest
  end
with eventsFields (fields : Fields) : list Call :=
  match fields with
  | FNil => []
  | FCons key value rest => events (Some key) value ++ eventsFields rest
  end.

(** A byte that [appendEscapedString] takes: no control character but the
    five that have an escape. *)
Definition writable (c : ascii) : bool :=
  (32 <=? code c) || existsb (Z.eqb (code c)) [8; 9; 10; 12; 13].

(** The integers are in the range of their type, the strings and the names
    hold bytes the encoder takes. *)
Fixpoint valid (v : Value) : bool :=
  match v with
  | VNull | VBoolean _ | VData _ => true
  | VInteger value => (INT64_MIN <=? value) && (value <=? INT64_MAX)
  | VUInteger value => (0 <=? value) && (value <=? UINT64_MAX)
  | VString value => forallb writable value
  | VArray items => validItems items
  | VObject fields => validFields fields
  end
with validItems (items : Values) : bool :=
  match items with
  | VNil => true
  | VCons item rest => valid item && validItems rest
  end
with validFields (fields : Fields) : bool :=
  match fields with
  | FNil => true
  | FCons key value rest => forallb writable key && valid value && validFields rest
  end.

(** How deep the containers of a value nest. *)
Fixpoint height (v : Value) : nat :=
  match v with
  | VArray items => S (heightItems items)
  | VObject fields => S (heightFields fields)
  | _ => O
  end
with heightItems (items : Values) : nat :=
  match items with
  | VNil => O
  | VCons item rest => Nat.max (height item) (heightItems rest)
  end
with heightFields (fields : Fields) : nat :=
  match fields with
  | FNil => O
  | FCons _ value rest => Nat.max (height value) (heightFields rest)
  end.

(** The room that decoding needs in a buffer of [size] bytes: the first
    quarter takes the names and the rest the strings, escaped and with
    their terminating NUL. *)
Fixpoint fits (size : nat) (v : Value) : bool :=
  match v with
  | VString value | VData value => (8 * length value <? 3 * size)%nat
  | VArray items => fitsItems size items
  | VObject fields => fitsFields size fields
  | _ => true
  end
with fitsItems (size : nat) (items : Values) : bool :=
  match items with
  | VNil => true
  | VCons item rest => fits size item && fitsItems size rest
  end
with fitsFields (size : nat) (fields : Fields) : bool :=
  match fields with
  | FNil => true
  | FCons key value rest =>
      (8 * length key + 4 <=? size)%nat && fits size value && fitsFields size rest
  end.

Definition container (v : Value) : bool :=
  match v with
  | VArray _ | VObject _ => true
  | _ => false
  end.

(** *** The text of a value *)

(** The escaped text of a string the encoder takes. *)
Definition escaped (string : bytes) : bytes := default [] (complicatedCase string).

(** The four spaces of every level. *)
Definition spaces (levels : nat) : bytes := concat (repeat (bytes_of "    ") levels).

(** The line break that pretty printing puts in front of an element at
    [level], and in front of the bracket that closes its container. *)
Definition newline (pretty : bool) (level : nat) : bytes :=
  if pretty then "010"%char :: spaces level else [].

(** What is written between an element of a container at [level] and the
    next one, or the closing bracket. *)
Definition separator (pretty : bool) (level : nat) (last : bool) : Separator :=
  if last then {| before := newline pretty level; comma := false; after := [] |}
  else {| before := []; comma := true; after := newline pretty (S level) |}.

Definition number (value : Z) : Scalar :=
  SNumber (value <? 0) (decimal (Z.abs value)).

Definition noItems (items : Values) : bool :=
  match items with VNil => true | VCons _ _ => false end.

Definition noFields (fields : Fields) : bool :=
  match fields with FNil => true | FCons _ _ _ => false end.

(** The layout in which the encoder writes a value at [level]. *)
Fixpoint layout (pretty : bool) (level : nat) (v : Value) : Document :=
  match v with
  | VNull => DScalar SNull
  | VBoolean value => DScalar (if value then STrue else SFalse)
  | VInteger value => DScalar (number value)
  | VUInteger value => DScalar (number value)
  | VString value => DScalar (SString (escaped value))
  | VData value => DScalar (SString (hex value))
  | VArray items =>
      DArray (if noItems items then [] else newline pretty (S level))
             (layoutItems pretty level items)
  | VObject fields =>
      DObject (if noFields fields then [] else newline pretty (S level))
              (layoutFields pretty level fields)
  end
with layoutItems (pretty : bool) (level : nat) (items : Values) : Items :=
  match items with
  | VNil => INil
  | VCons item rest =>
      ICons (layout pretty (S level) item) (separator pretty level (noItems rest))
            (layoutItems pretty level rest)
  end
with layoutFields (pretty : bool) (level : nat) (fields : Fields) : Members :=
  match fields with
  | FNil => MNil
  | FCons key value rest =>
      MCons (escaped key) [] (if pretty then [" "%char] else [])
            (layout pretty (S level) value) (separator pretty level (noFields rest))
            (layoutFields pretty level rest)
  end.

(** *** What the encoder does on a sink that takes every chunk *)

Section Effects.
Context {U : Type}.

(** What [ttsdkjson_beginElement] writes in front of an element: the
    comma, the line break and, in an object, the name and the colon. *)
Definition heading (s : Session U) (name : option bytes) : bytes :=
  let c := context s in
  (if containerFirstEntry c then [] else [","%char])
  ++ (if prettyPrint c && (containerLevel c >? 0)
      then "010"%char :: spaces (Z.to_nat (containerLevel c)) else [])
  ++ (if isObject_at c (containerLevel c)
      then match name with
           | Some name =>
               DQUOTE :: escaped name
               ++ DQUOTE :: (if prettyPrint c then bytes_of ": " else [":"%char])
           | None => []
           end
      else []).

(** The flags of the levels up to [level] are as they were. *)
Definition agree (level : Z) (s s' : Session U) : Prop :=
  length (isObject (context s')) = length (isObject (context s))
  /\ forall i, i <= level -> isObject_at (context s') i = isObject_at (context s) i.

(** The session [s'] after an element was added to [s]: [text] was
    written, with what stands in front of an element, and the container
    has an entry. *)
Definition added (name : option bytes) (text : bytes) (s s' : Session U) : Prop :=
  addJSONDataFunc (context s') = addJSONDataFunc (context s)
  /\ containerLevel (context s') = containerLevel (context s)
  /\ prettyPrint (context s') = prettyPrint (context s)
  /\ containerFirstEntry (context s') = false
  /\ agree (containerLevel (context s)) s s'
  /\ Sink.output s' = Sink.output s ++ heading s name ++ text.

(** The session [s'] after the container of [s] was closed behind [text]. *)
Definition ended (text : bytes) (s s' : Session U) : Prop :=
  addJSONDataFunc (context s') = addJSONDataFunc (context s)
  /\ containerLevel (context s') = containerLevel (context s) - 1
  /\ prettyPrint (context s') = prettyPrint (context s)
  /\ containerFirstEntry (context s') = false
  /\ agree (containerLevel (context s)) s s'
  /\ Sink.output s' = Sink.output s ++ text.

(** In an object the element has a name that the encoder takes. *)
Definition named (s : Session U) (name : option bytes) : Prop :=
  isObject_at (context s) (containerLevel (context s)) = true ->
  exists key, name = Some key /\ forallb writable key = true.

End Effects.

(** *** What the decoder keeps *)

Section Kept.
Context {U : Type}.

(** The callbacks return OK, whatever they are given. *)
Definition accepting (callbacks : TTSDKJSONDecodeCallbacks U) : Prop :=
  forall call (c : TTSDKJSONDecodeContext U),
    Decode.callbacks c = callbacks -> fst (invoke call c) = TTSDKJSON_OK.

(** The context [c] of a decode into a buffer of [size] bytes. *)
Definition decoding (size : nat) callbacks (c : TTSDKJSONDecodeContext U) : Prop :=
  Decode.callbacks c = callbacks
  /\ length (memory c) = size
  /\ nameBuffer c = O
  /\ nameBufferLength c = Z.quot (Z.of_nat size) 4
  /\ stringBuffer c = Z.to_nat (Z.quot (Z.of_nat size) 4)
  /\ stringBufferLength c = Z.of_nat size - Z.quot (Z.of_nat size) 4.

(** What a callback reads through the [name] pointer: nothing through
    [NULL], and else the C string in the name buffer, which ends in front
    of the string buffer. *)
Definition holds (name : NamePointer) (c : TTSDKJSONDecodeContext U)
    (read : option bytes) : Prop :=
  match name with
  | NullName => read = None
  | NameBuffer =>
      exists key rest,
        read = Some key /\ Forall (fun ch => ch <> NUL) key
        /\ take (stringBuffer c) (memory c) = key ++ NUL :: rest
  end.

End Kept.

End Tree.

Scheme Value_mut := Induction for Tree.Value Sort Prop
  with Values_mut := Induction for Tree.Values Sort Prop
  with Fields_mut := Induction for Tree.Fields Sort Prop.

Combined Scheme Value_mutind from Value_mut, Values_mut, Fields_mut.

(** ** The callbacks of a run, replayed *)

Module Replay.
Section Replay.
Import Decode.
Context {U : Type}.

(** What the callback of [call] returns on the user data [u]: its status
    and the user data it leaves.  The callbacks see nothing else of the
    context. *)
Definition answer (callbacks : TTSDKJSONDecodeCallbacks U) (call : Call) (u : U)
  : Z * U :=
  let run := invoke call (initialContext [] [] callbacks u) in
  (fst run, userData (snd run)).

(** The invocations [log] made one after the other from the user data
    [u]: the statuses returned, in order, and the user data left. *)
Fixpoint replay (callbacks : TTSDKJSONDecodeCallbacks U) (log : list Call) (u : U)
  : list Z * U :=
  match log with
  | [] => ([], u)
  | call :: log' =>
      let (status, u') := answer callbacks call u in
      let (statuses, u'') := replay callbacks log' u' in
      (status :: statuses, u'')
  end.

(** A property [P] of the context that the decoder has while it goes on,
    and a property [G] of the status and the context it stops with. *)
Variable P : TTSDKJSONDecodeContext U -> Prop.
Variable G : Z -> TTSDKJSONDecodeContext U -> Prop.

(** Moving in the data and storing into the buffer keep [P]; so does a
    callback that returns OK; whatever a callback returns from a context
    of [P] is in [G], and so is each of the three errors of the decoder's
    own in a context of [P]. *)
Definition stops : Prop :=
  (forall c p, P c -> P (set_bufferPtr p c))
  /\ (forall c m, P c -> P (set_memory m c))
  /\ (forall c call,
        P c -> fst (invoke call c) = TTSDKJSON_OK -> P (snd (invoke call c)))
  /\ (forall c call, P c -> G (fst (invoke call c)) (snd (invoke call c)))
  /\ (forall c, P c -> G TTSDKJSON_ERROR_INVALID_CHARACTER c)
  /\ (forall c, P c -> G TTSDKJSON_ERROR_DATA_TOO_LONG c)
  /\ (forall c, P c -> G TTSDKJSON_ERROR_INCOMPLETE c).

(** A run has stopped in [G], and goes on in [P] when it returned OK. *)
Definition stopped (run : Z * TTSDKJSONDecodeContext U) : Prop :=
  G (fst run) (snd run) /\ (fst run = TTSDKJSON_OK -> P (snd run)).

End Replay.
End Replay.

(** ** The layouts that spell a value *)

Module Spelling.
Import Encode Decode Layout Tree.

Fixpoint sameBytes (a b : bytes) : bool :=
  match a, b with
  | [], [] => true
  | x :: a', y :: b' => Ascii.eqb x y && sameBytes a' b'
  | _, _ => false
  end.

(** The text of a value that is no container: a string with its body
    escaped as the encoder escapes it, binary data as its digits, an
    integer in decimal digits, a minus sign in front when it is negative,
    and the three words. *)
Definition spellsScalar (s : Scalar) (v : Value) : bool :=
  match s, v with
  | SNull, VNull => true
  | STrue, VBoolean true => true
  | SFalse, VBoolean false => true
  | SNumber negative text, VInteger value
  | SNumber negative text, VUInteger value =>
      Bool.eqb negative (value <? 0) && sameBytes text (decimal (Z.abs value))
  | SString body, VString value => sameBytes body (escaped value)
  | SString body, VData value => sameBytes body (hex value)
  | _, _ => false
  end.

(** The layout [d] spells the value [v]: the same arrays and objects, with
    the same items and members in the same order, whatever whitespace and
    commas the layout has. *)
Fixpoint spells (d : Document) (v : Value) {struct d} : bool :=
  match d, v with
  | DScalar s, _ => spellsScalar s v
  | DArray _ items, VArray values => spellsItems items values
  | DObject _ members, VObject fields => spellsMembers members fields
  | _, _ => false
  end
with spellsItems (items : Items) (values : Values) {struct items} : bool :=
  match items, values with
  | INil, VNil => true
  | ICons item _ rest, VCons value values' => spells item value && spellsItems rest values'
  | _, _ => false
  end
with spellsMembers (members : Members) (fields : Fields) {struct members} : bool :=
  match members, fields with
  | MNil, FNil => true
  | MCons key _ _ value _ rest, FCons name field fields' =>
      sameBytes key (escaped name) && spells value field && spellsMembers rest fields'
  | _, _ => false
  end.

(** The value that [Layout.exampleLayout] spells. *)
Definition exampleValue : Value :=
  VArray (VCons (VInteger 1)
            (VCons (VObject (FCons ["k"%char] (VBoolean true) FNil)) VNil)).

End Spelling.

(** * Tactics *)

Ltac destruct_callback :=
  match goal with
  | |- context [let (_, _) := ?x in _] => destruct x
  end.

(** A goal [Some (r, c) = Some (result, c') -> _]: the run has returned. *)
Ltac returned :=
  let H := fresh "Hreturned" in
  intros H; inversion H; subst; clear H.

Ltac same_run :=
  eexists _, _, _, _; (split; [reflexivity|]); (split; [reflexivity|]).

Ltac same_run_at c :=
  eexists _, c, _, _; (split; [reflexivity|]); (split; [reflexivity|]).

Ltac lengths :=
  repeat first [rewrite length_app in * | progress cbn [length] in *]; lia.

(** * Properties of the encoder *)

Section EncoderFacts.
Import Encode.

Context {U : Type}.
Variable printf_g : Z -> float -> bytes.
Variable printf_f1 : float -> bytes.
Variable to_float : float -> float.

Local Abbreviation M := (M U).
Local Abbreviation Session := (Session U).
Local Abbreviation keepsLevel := (Encode.keepsLevel (U:=U)).

(** ** Frame: what an operation leaves alone *)

Lemma keepsLevel_ret {A} (a : A) : keepsLevel (ret a).
Proof. intros s. reflexivity. Qed.

Lemma keepsLevel_orReturn (m k : M Z) :
  keepsLevel m -> keepsLevel k -> keepsLevel (orReturn m k).
Proof.
  intros Hm Hk s. unfold orReturn. specialize (Hm s).
  destruct (m s) as [result s1]. simpl in Hm.
  destruct (result =? TTSDKJSON_OK); simpl; [rewrite Hk|]; exact Hm.
Qed.

Lemma keepsLevel_addJSONData data : keepsLevel (addJSONData data).
Proof.
  intros s. unfold addJSONData.
  destruct (addJSONDataFunc (context s) data (userData (context s))).
  reflexivity.
Qed.

Lemma keepsLevel_indent n : keepsLevel (indent n).
Proof.
  induction n; simpl.
  - apply keepsLevel_ret.
  - apply keepsLevel_orReturn; [apply keepsLevel_addJSONData | assumption].
Qed.

Lemma keepsLevel_appendEscapedString string : keepsLevel (appendEscapedString string).
Proof.
  unfold appendEscapedString. destruct (simpleCase string) as [copied src].
  destruct (complicatedCase src).
  - apply keepsLevel_addJSONData.
  - apply keepsLevel_ret.
Qed.

Lemma keepsLevel_addEscapedString_loop rounds string length offset result :
  keepsLevel (addEscapedString_loop rounds string length offset result).
Proof.
  revert offset result. induction rounds as [|rounds IH]; intros offset result s; simpl.
  - reflexivity.
  - destruct (offset <? length); [|reflexivity].
    pose proof (keepsLevel_appendEscapedString
      (portion string offset
         (if length - offset >? TTSDKJSONCODEC_WorkBufferSize / 2
          then TTSDKJSONCODEC_WorkBufferSize / 2 else length - offset)) s) as H.
    destruct (appendEscapedString _ s) as [r s1]. simpl in H.
    destruct (negb (r =? TTSDKJSON_OK)); simpl; [|rewrite IH]; exact H.
Qed.

Lemma keepsLevel_addEscapedString string length :
  keepsLevel (addEscapedString string length).
Proof. apply keepsLevel_addEscapedString_loop. Qed.

Lemma keepsLevel_addQuotedEscapedString string length :
  keepsLevel (addQuotedEscapedString string length).
Proof.
  intros s. unfold addQuotedEscapedString.
  pose proof (keepsLevel_addJSONData [DQUOTE] s) as H1.
  destruct (addJSONData [DQUOTE] s) as [r1 s1]. simpl in H1.
  destruct (negb (r1 =? TTSDKJSON_OK)); [exact H1|].
  pose proof (keepsLevel_addEscapedString string length s1) as H2.
  destruct (addEscapedString string length s1) as [r2 s2]. simpl in H2.
  pose proof (keepsLevel_addJSONData [DQUOTE] s2) as H3.
  destruct (addJSONData [DQUOTE] s2) as [r3 s3]. simpl in *. congruence.
Qed.

Lemma keepsLevel_beginElement name : keepsLevel (ttsdkjson_beginElement name).
Proof.
  unfold ttsdkjson_beginElement.
  repeat apply keepsLevel_orReturn; intros s.
  - destruct (containerFirstEntry (context s)); [reflexivity|].
    apply keepsLevel_addJSONData.
  - cbv zeta. destruct (prettyPrint (context s) && _); [|reflexivity].
    apply keepsLevel_orReturn; [apply keepsLevel_addJSONData | apply keepsLevel_indent].
  - cbv zeta. destruct (isObject_at (context s) _); [|reflexivity].
    destruct name as [name|]; [|reflexivity].
    apply keepsLevel_orReturn; [apply keepsLevel_addQuotedEscapedString|].
    destruct (prettyPrint (context s)); apply keepsLevel_addJSONData.
Qed.

Lemma keepsLevel_appendDataElement_loop value result :
  keepsLevel (appendDataElement_loop value result).
Proof.
  revert result. induction value as [|b value IH]; intros result s; simpl.
  - reflexivity.
  - match goal with |- context [addJSONData ?d s] =>
      pose proof (keepsLevel_addJSONData d s) as H;
      destruct (addJSONData d s) as [r s1] end.
    simpl in H. destruct (negb (r =? TTSDKJSON_OK)); simpl; [|rewrite IH]; exact H.
Qed.

Create HintDb frame.
#[local] Hint Resolve keepsLevel_ret keepsLevel_orReturn keepsLevel_addJSONData
  keepsLevel_indent keepsLevel_addEscapedString keepsLevel_addQuotedEscapedString
  keepsLevel_beginElement keepsLevel_appendDataElement_loop : frame.

Lemma keepsLevel_addFormattedNumber name buff written :
  keepsLevel (addFormattedNumber name buff written).
Proof. unfold addFormattedNumber. auto with frame. Qed.

#[local] Hint Resolve keepsLevel_addFormattedNumber : frame.

(** Every operation that is neither a container open, a container close
    nor end-encode leaves [containerLevel] as it is. *)
Lemma keepsLevel_element op :
  match op with
  | BeginArray _ | BeginObject _ | EndContainer | EndEncode => True
  | _ => keepsLevel (perform printf_g printf_f1 to_float op)
  end.
Proof.
  destruct op; simpl; trivial;
    unfold ttsdkjson_addRawJSONData, ttsdkjson_addBooleanElement,
      ttsdkjson_addFloatingPointElement, ttsdkjson_addIntegerElement,
      ttsdkjson_addUIntegerElement, ttsdkjson_addNullElement,
      ttsdkjson_addStringElement, ttsdkjson_beginStringElement,
      ttsdkjson_appendStringElement, ttsdkjson_endStringElement,
      ttsdkjson_addDataElement, ttsdkjson_beginDataElement,
      ttsdkjson_appendDataElement, ttsdkjson_endDataElement,
      ttsdkjson_beginStringElement, ttsdkjson_endStringElement,
      ttsdkjson_addNullElement;
    auto with frame.
  - destruct value; auto with frame.
  - destruct (formatDouble _ _ _ _ _ _) as [[r b] w].
    destruct (negb _); auto with frame.
  - destruct (formatInt64 _ _ _) as [[r b] w]. destruct (negb _); auto with frame.
  - destruct (formatUint64 _ _ _) as [[r b] w]. destruct (negb _); auto with frame.
  - destruct value; unfold ttsdkjson_addNullElement; auto with frame.
Qed.

(** ** The nesting level *)

Abbreviation level s := (containerLevel (context s)).







(** ** Quoted strings *)

(** Once the opening quote is accepted, the closing quote is the last
    chunk handed to the sink whatever the body returned, and the status
    is C's logical or of the two results: 0 or 1. *)
Lemma addQuotedEscapedString_closes string length (s : Session) :
  fst (addJSONData [DQUOTE] s) = TTSDKJSON_OK ->
  let body := addEscapedString string length (snd (addJSONData [DQUOTE] s)) in
  emitted (snd (addQuotedEscapedString string length s))
  = emitted (snd body) ++ [[DQUOTE]]
  /\ fst (addQuotedEscapedString string length s)
     = c_lor (fst body) (fst (addJSONData [DQUOTE] (snd body)))
  /\ (fst (addQuotedEscapedString string length s) = 0
      \/ fst (addQuotedEscapedString string length s) = 1).
Proof.
  intros Hopen. cbv zeta. unfold addQuotedEscapedString.
  destruct (addJSONData [DQUOTE] s) as [r1 s1]. cbn [fst snd] in *. subst r1.
  change (negb (TTSDKJSON_OK =? TTSDKJSON_OK)) with false. cbv iota.
  destruct (addEscapedString string length s1) as [r2 s2]. cbn [fst snd].
  assert (emitted (snd (addJSONData [DQUOTE] s2)) = emitted s2 ++ [[DQUOTE]]) as Hlog.
  { unfold addJSONData. destruct (addJSONDataFunc _ _ _). reflexivity. }
  destruct (addJSONData [DQUOTE] s2) as [r3 s3]. cbn [fst snd] in *.
  split; [exact Hlog|]. split; [reflexivity|].
  unfold c_lor. destruct ((r2 =? 0) && (r3 =? 0)); auto.
Qed.

(** ** Closing what is not open *)

(** C6: with [containerLevel <= 0] the container close returns OK and the
    session is the one it was given: no field of the context has changed
    and nothing was handed to the sink. *)
Theorem endContainer_without_container (s : Session) :
  containerLevel (context s) <= 0 ->
  ttsdkjson_endContainer s = (TTSDKJSON_OK, s).
Proof.
  intros Hlevel. unfold ttsdkjson_endContainer.
  destruct (level s <=? 0) eqn:Hguard; [reflexivity | lia].
Qed.

(** ** Non-finite doubles *)

Lemma snprintf_fits buffSize (text : bytes) :
  Z.of_nat (length text) < buffSize ->
  snprintf buffSize text = (Z.of_nat (length text), text).
Proof.
  intros Hfit. unfold snprintf. f_equal. apply take_ge. lia.
Qed.

Lemma checkWriteResult_fits written buffSize bytesWritten :
  0 <= written < buffSize ->
  checkWriteResult written buffSize bytesWritten = (TTSDKJSON_OK, written).
Proof.
  intros Hfit. unfold checkWriteResult.
  destruct (Z.ltb_spec written 0); [lia|].
  rewrite Z.geb_leb. destruct (Z.leb_spec buffSize written); [lia | reflexivity].
Qed.

(** C5: in a buffer with room for the longest of the three literals, a NaN
    is formatted as [null], positive infinity as [1e999] and negative
    infinity as [-1e999], each with its length in [bytesWritten]. *)
Theorem formatDouble_nonfinite (buffSize : Z) (value : float) (bytesWritten : Z) :
  6 < buffSize ->
  (isnan value = true ->
   formatDouble printf_g printf_f1 to_float buffSize value bytesWritten
   = (TTSDKJSON_OK, bytes_of "null", 4)) /\
  (value = infinity ->
   formatDouble printf_g printf_f1 to_float buffSize value bytesWritten
   = (TTSDKJSON_OK, bytes_of "1e999", 5)) /\
  (value = neg_infinity ->
   formatDouble printf_g printf_f1 to_float buffSize value bytesWritten
   = (TTSDKJSON_OK, bytes_of "-1e999", 6)).
Proof.
  intros Hroom. unfold formatDouble. repeat split.
  - intros Hnan. rewrite Hnan, snprintf_fits by (simpl; lia).
    rewrite checkWriteResult_fits by (simpl; lia). reflexivity.
  - intros ->.
    change (isnan infinity) with false. change (isinf infinity) with true.
    change (PrimFloat.ltb 0 infinity) with true. cbv iota.
    rewrite snprintf_fits by (simpl; lia).
    rewrite checkWriteResult_fits by (simpl; lia). reflexivity.
  - intros ->.
    change (isnan neg_infinity) with false. change (isinf neg_infinity) with true.
    change (PrimFloat.ltb 0 neg_infinity) with false. cbv iota.
    rewrite snprintf_fits by (simpl; lia).
    rewrite checkWriteResult_fits by (simpl; lia). reflexivity.
Qed.

(** ** Bounds of the nesting level *)


End EncoderFacts.

(** * Properties of the decoder *)

Section DecoderFacts.
Import Decode Layout.

Context {U : Type}.
Variable sscanf_lg : bytes -> float.

Local Abbreviation Context := (TTSDKJSONDecodeContext U).
Local Abbreviation Decoder := (NamePointer -> Context -> Decoded U).
Local Abbreviation follows := (Decode.follows (U:=U)).
Local Abbreviation advances := (Decode.advances (U:=U)).
Local Abbreviation wellBehaved := (Decode.wellBehaved (U:=U)).
Local Abbreviation returnsBelow := (Decode.returnsBelow (U:=U)).
Local Abbreviation decodesAs := (Layout.decodesAs (U:=U) sscanf_lg).
Local Abbreviation arrayLoopsAs := (Layout.arrayLoopsAs (U:=U) sscanf_lg).
Local Abbreviation objectLoopsAs := (Layout.objectLoopsAs (U:=U) sscanf_lg).

(** ** What the parts consume and log *)

Lemma skipWhitespace_length p : (length (skipWhitespace p) <= length p)%nat.
Proof.
  induction p as [|c p IH]; simpl; [lia|].
  destruct (isspace c); simpl; lia.
Qed.

Lemma skipFPChars_length p : (length (skipFPChars p) <= length p)%nat.
Proof.
  induction p as [|c p IH]; simpl; [lia|].
  destruct (isFPChar c); simpl; lia.
Qed.

Lemma scanDigits_length p accum isOverflow :
  (length (fst (fst (scanDigits p accum isOverflow))) <= length p)%nat.
Proof.
  revert accum isOverflow. induction p as [|c p IH]; intros accum isOverflow; simpl; [lia|].
  destruct (isdigit c); [|simpl; lia].
  destruct (accum >? ULLONG_MAX / 10); [simpl; lia|].
  destruct (uint64 (accum * 10) >? _); [simpl; lia|].
  specialize (IH (uint64 (uint64 (accum * 10) + uint64 (code c - code "0"))) false). lia.
Qed.

(** The digit loop takes the first digit of a number. *)
Lemma scanDigits_first c p :
  isdigit c = true ->
  (length (fst (fst (scanDigits (c :: p) 0 false))) <= length p)%nat.
Proof.
  intros Hdigit. simpl. rewrite Hdigit.
  change (0 >? (ULLONG_MAX / 10)) with false. cbv iota.
  change (uint64 (0 * 10)) with 0.
  assert ((0 >? ULLONG_MAX - uint64 (code c - code "0")) = false) as ->.
  { unfold uint64, ULLONG_MAX.
    assert (0 < 2 ^ 64) as Hpos by lia.
    pose proof (Z.mod_pos_bound (code c - code "0") (2 ^ 64) Hpos).
    rewrite Z.gtb_ltb. apply Z.ltb_ge. lia. }
  apply scanDigits_length.
Qed.

Lemma scanString_bound src :
  forall fastCopy n fastCopy',
    scanString src fastCopy = Some (n, fastCopy') -> (n < length src)%nat.
Proof.
  remember (length src) as k eqn:Hk. revert src Hk.
  induction k as [k IH] using lt_wf_ind. intros src Hk fastCopy n fastCopy'.
  destruct src as [|c src1]; simpl; [discriminate|].
  destruct (Ascii.eqb c DQUOTE).
  { intros [= <- _]. simpl in Hk. lia. }
  destruct (Ascii.eqb c BACKSLASH).
  - destruct src1 as [|e src2]; [discriminate|].
    destruct (scanString src2 false) as [[m f]|] eqn:Hscan; [|discriminate].
    intros [= <- _]. simpl in Hk.
    assert (length src2 < k)%nat as Hlt by lia.
    pose proof (IH (length src2) Hlt src2 eq_refl _ _ _ Hscan). simpl. lia.
  - destruct (scanString src1 fastCopy) as [[m f]|] eqn:Hscan; [|discriminate].
    intros [= <- _]. simpl in Hk.
    assert (length src1 < k)%nat as Hlt by lia.
    pose proof (IH (length src1) Hlt src1 eq_refl _ _ _ Hscan). lia.
Qed.

Lemma bufferPtr_invoke call (c : Context) :
  bufferPtr (snd (invoke call c)) = bufferPtr c.
Proof. unfold invoke. destruct call; simpl; destruct_callback; reflexivity. Qed.

Lemma calls_invoke call (c : Context) :
  calls (snd (invoke call c)) = calls c ++ [call].
Proof. unfold invoke. destruct call; simpl; destruct_callback; reflexivity. Qed.

Lemma follows_refl c : follows c c.
Proof. split; [lia|]. exists []. rewrite app_nil_r. auto. Qed.

Lemma follows_trans c1 c2 c3 : follows c1 c2 -> follows c2 c3 -> follows c1 c3.
Proof.
  intros [Hl1 (n1 & He1 & Hn1)] [Hl2 (n2 & He2 & Hn2)]. split; [lia|].
  exists (n1 ++ n2). rewrite He2, He1, app_assoc. split; [reflexivity|].
  rewrite in_app_iff. tauto.
Qed.

Lemma follows_set_bufferPtr p (c : Context) :
  (length p <= length (bufferPtr c))%nat -> follows c (set_bufferPtr p c).
Proof. intros H. split; [exact H|]. exists []. simpl. rewrite app_nil_r. auto. Qed.

Lemma follows_set_memory m (c : Context) : follows c (set_memory m c).
Proof. split; [simpl; lia|]. exists []. simpl. rewrite app_nil_r. auto. Qed.

Lemma follows_SKIP_WHITESPACE (c : Context) : follows c (SKIP_WHITESPACE c).
Proof. apply follows_set_bufferPtr, skipWhitespace_length. Qed.

Lemma follows_invoke call (c : Context) :
  call <> OnEndData -> follows c (snd (invoke call c)).
Proof.
  intros Hcall. split.
  - rewrite bufferPtr_invoke. lia.
  - exists [call]. split; [apply calls_invoke|]. simpl. intuition congruence.
Qed.

Lemma follows_advances c1 c2 c3 : follows c1 c2 -> advances c2 c3 -> advances c1 c3.
Proof.
  intros H12 [H23 Hlt]. split; [eapply follows_trans; eassumption|].
  destruct H12. lia.
Qed.

Lemma advances_follows c1 c2 c3 : advances c1 c2 -> follows c2 c3 -> advances c1 c3.
Proof.
  intros [H12 Hlt] H23. split; [eapply follows_trans; eassumption|].
  destruct H23. lia.
Qed.

Lemma follows_decodeString dstBuffer dstBufferLength (c : Context) :
  let (result, c') := decodeString dstBuffer dstBufferLength c in
  follows c c' /\ (result = TTSDKJSON_OK -> advances c c').
Proof.
  unfold decodeString. cbv zeta.
  set (c0 := set_memory _ c).
  assert (follows c c0) as H0 by apply follows_set_memory.
  assert (bufferPtr c0 = bufferPtr c) as Hp by reflexivity.
  clearbody c0.
  destruct (negb (Ascii.eqb (peek (bufferPtr c0)) DQUOTE)) eqn:Hquote.
  { split; [exact H0 | discriminate]. }
  destruct (scanString (tail (bufferPtr c0)) true) as [[n fastCopy]|] eqn:Hscan.
  2:{ split; [exact H0 | discriminate]. }
  destruct (Z.of_nat n >=? dstBufferLength).
  { split; [exact H0 | discriminate]. }
  apply scanString_bound in Hscan.
  assert (advances c (set_bufferPtr (drop (S n) (tail (bufferPtr c0))) c0)) as Hadv.
  { eapply follows_advances; [exact H0|]. split.
    - apply follows_set_bufferPtr. rewrite length_drop.
      destruct (bufferPtr c0); simpl; lia.
    - simpl bufferPtr at 1. rewrite length_drop.
      destruct (bufferPtr c0); simpl in *; [discriminate | lia]. }
  clear Hp.
  destruct fastCopy.
  - assert (advances c (set_memory
        (<[(dstBuffer + n)%nat := NUL]>
           (memcpy dstBuffer (take n (tail (bufferPtr c0)))
              (memory (set_bufferPtr (drop (S n) (tail (bufferPtr c0))) c0))))
        (set_bufferPtr (drop (S n) (tail (bufferPtr c0))) c0))) as H.
    { eapply advances_follows; [exact Hadv | apply follows_set_memory]. }
    split; [apply H | intros _; exact H].
  - destruct (decodeEscapes _ _ _) as [result m].
    assert (advances c (set_memory m
        (set_bufferPtr (drop (S n) (tail (bufferPtr c0))) c0))) as H.
    { eapply advances_follows; [exact Hadv | apply follows_set_memory]. }
    split; [apply H | intros _; exact H].
Qed.

Lemma follows_decodeLiteral literal call (c : Context) :
  literal <> [] -> call <> OnEndData ->
  let (result, c') := decodeLiteral literal call c in
  follows c c' /\ (result = TTSDKJSON_OK -> advances c c').
Proof.
  intros Hliteral Hcall. unfold decodeLiteral.
  destruct (Z.of_nat (length (bufferPtr c)) <? Z.of_nat (length literal)) eqn:Hlen.
  { split; [apply follows_refl | discriminate]. }
  destruct (negb (forallb _ _)).
  { split; [apply follows_refl | discriminate]. }
  apply Z.ltb_ge in Hlen.
  assert (0 < length literal)%nat as Hpos by (destruct literal; [congruence | simpl; lia]).
  assert (advances c (set_bufferPtr (drop (length literal) (bufferPtr c)) c)) as Hadv.
  { split; [apply follows_set_bufferPtr|]; simpl; rewrite length_drop; lia. }
  pose proof (follows_invoke call
    (set_bufferPtr (drop (length literal) (bufferPtr c)) c) Hcall) as Hinv.
  destruct (invoke call _) as [result c']. simpl in Hinv.
  assert (advances c c') as H by (eapply advances_follows; eassumption).
  split; [apply H | intros _; exact H].
Qed.

Lemma follows_decodeNumber sign name (c : Context) :
  follows c (snd (decodeNumber sscanf_lg sign name c))
  /\ (isdigit (peek (bufferPtr c)) = true ->
      advances c (snd (decodeNumber sscanf_lg sign name c))).
Proof.
  unfold decodeNumber.
  pose proof (scanDigits_length (bufferPtr c) 0 false) as Hlen.
  assert (isdigit (peek (bufferPtr c)) = true ->
          (length (fst (fst (scanDigits (bufferPtr c) 0 false)))
           < length (bufferPtr c))%nat) as Hfirst.
  { destruct (bufferPtr c) as [|d p0]; [discriminate|]. intros Hd.
    pose proof (scanDigits_first d p0 Hd).
    change (length (d :: p0)) with (S (length p0)). lia. }
  destruct (scanDigits (bufferPtr c) 0 false) as [[p accum] isOverflow].
  simpl in Hlen, Hfirst.
  set (c1 := set_bufferPtr p c).
  assert (follows c c1) as H1 by (apply follows_set_bufferPtr; exact Hlen).
  assert (bufferPtr c1 = p) as Hp1 by reflexivity.
  assert (forall c', follows c1 c' ->
            follows c c' /\ (isdigit (peek (bufferPtr c)) = true -> advances c c')) as Hk.
  { intros c' H'. split; [eapply follows_trans; eassumption|].
    intros Hd. split; [eapply follows_trans; eassumption|].
    destruct H' as [H' _]. specialize (Hfirst Hd). rewrite Hp1 in H'. lia. }
  clearbody c1.
  destruct p as [|d p']; [apply Hk, follows_refl|].
  cbv zeta.
  match goal with
  | |- context [if _ then _ else ?fp] =>
      assert (follows c1 (snd fp)) as Hfp; [|set (floatingPoint := fp) in *]
  end.
  { set (c2 := set_bufferPtr (skipFPChars (bufferPtr c1)) c1).
    assert (follows c1 c2) as H2
      by (apply follows_set_bufferPtr, skipFPChars_length).
    clearbody c2.
    destruct (bufferPtr c2) as [|e q]; [exact H2|].
    destruct (_ >=? stringBufferLength c2); [exact H2|].
    eapply follows_trans; [exact H2|].
    eapply follows_trans; [apply follows_set_memory|].
    apply follows_invoke. discriminate. }
  clearbody floatingPoint.
  destruct (negb (isFPChar (peek (d :: p'))) && negb isOverflow);
    [|apply Hk; exact Hfp].
  destruct (sign >? 0).
  - destruct (accum <=? LLONG_MAX); apply Hk, follows_invoke; discriminate.
  - destruct (accum <=? LLONG_MAX + 1); [apply Hk, follows_invoke; discriminate|].
    apply Hk; exact Hfp.
Qed.

(** ** The element decoder *)

Lemma follows_comma (c : Context) ch p' :
  bufferPtr c = ch :: p' ->
  follows c (if Ascii.eqb ch "," then set_bufferPtr p' c else c).
Proof.
  intros Hp. destruct (Ascii.eqb ch ",").
  - apply follows_set_bufferPtr. rewrite Hp. simpl. lia.
  - apply follows_refl.
Qed.

Lemma arrayLoop_follows decode :
  wellBehaved decode ->
  forall rounds c result c',
    arrayLoop decode rounds c = Some (result, c') -> follows c c'.
Proof.
  intros Hdecode. induction rounds as [|rounds IH]; intros c result c';
    cbn [arrayLoop]; [discriminate|].
  destruct (bufferPtr c) as [|c0 p0] eqn:Hp0.
  { returned. apply follows_refl. }
  pose proof (follows_SKIP_WHITESPACE c) as H1.
  set (c1 := SKIP_WHITESPACE c) in *. clearbody c1.
  destruct (bufferPtr c1) as [|ch p1] eqn:Hp1.
  { returned. exact H1. }
  destruct (Ascii.eqb ch "]").
  { assert (follows c1 (snd (invoke OnEndContainer (set_bufferPtr p1 c1)))) as Hi.
    { eapply follows_trans; [|apply follows_invoke; discriminate].
      apply follows_set_bufferPtr. rewrite Hp1. simpl. lia. }
    destruct (invoke OnEndContainer (set_bufferPtr p1 c1)) as [ri ci].
    returned. eauto using follows_trans. }
  destruct (decode NullName c1) as [[r2 c2]|] eqn:Hdec; [|discriminate].
  apply Hdecode in Hdec. destruct Hdec as [H2 _].
  destruct (negb (r2 =? TTSDKJSON_OK)).
  { returned. eapply follows_trans; eassumption. }
  pose proof (follows_SKIP_WHITESPACE c2) as H3.
  set (c3 := SKIP_WHITESPACE c2) in *. clearbody c3.
  destruct (bufferPtr c3) as [|ch3 p3] eqn:Hp3.
  { returned. eauto using follows_trans. }
  intros Hloop. apply IH in Hloop.
  pose proof (follows_comma c3 ch3 p3 Hp3).
  eauto using follows_trans.
Qed.

Lemma objectLoop_follows decode :
  wellBehaved decode ->
  forall rounds c result c',
    objectLoop decode rounds c = Some (result, c') -> follows c c'.
Proof.
  intros Hdecode. induction rounds as [|rounds IH]; intros c result c';
    cbn [objectLoop]; [discriminate|].
  destruct (bufferPtr c) as [|c0 p0] eqn:Hp0.
  { returned. apply follows_refl. }
  pose proof (follows_SKIP_WHITESPACE c) as H1.
  set (c1 := SKIP_WHITESPACE c) in *. clearbody c1.
  destruct (bufferPtr c1) as [|ch p1] eqn:Hp1.
  { returned. exact H1. }
  destruct (Ascii.eqb ch "}").
  { assert (follows c1 (snd (invoke OnEndContainer (set_bufferPtr p1 c1)))) as Hi.
    { eapply follows_trans; [|apply follows_invoke; discriminate].
      apply follows_set_bufferPtr. rewrite Hp1. simpl. lia. }
    destruct (invoke OnEndContainer (set_bufferPtr p1 c1)) as [ri ci].
    returned. eauto using follows_trans. }
  pose proof (follows_decodeString (nameBuffer c1) (nameBufferLength c1) c1) as H2.
  destruct (decodeString (nameBuffer c1) (nameBufferLength c1) c1) as [r2 c2].
  destruct H2 as [H2 _].
  destruct (negb (r2 =? TTSDKJSON_OK)).
  { returned. eauto using follows_trans. }
  pose proof (follows_SKIP_WHITESPACE c2) as H3.
  set (c3 := SKIP_WHITESPACE c2) in *. clearbody c3.
  destruct (bufferPtr c3) as [|ch3 p3] eqn:Hp3.
  { returned. eauto using follows_trans. }
  destruct (negb (Ascii.eqb ch3 ":")).
  { returned. eauto using follows_trans. }
  assert (follows c3 (set_bufferPtr p3 c3)) as H4
    by (apply follows_set_bufferPtr; rewrite Hp3; simpl; lia).
  set (c4 := set_bufferPtr p3 c3) in *. clearbody c4.
  pose proof (follows_SKIP_WHITESPACE c4) as H5.
  set (c5 := SKIP_WHITESPACE c4) in *. clearbody c5.
  destruct (decode NameBuffer c5) as [[r6 c6]|] eqn:Hdec; [|discriminate].
  apply Hdecode in Hdec. destruct Hdec as [H6 _].
  destruct (negb (r6 =? TTSDKJSON_OK)).
  { returned. eauto 10 using follows_trans. }
  pose proof (follows_SKIP_WHITESPACE c6) as H7.
  set (c7 := SKIP_WHITESPACE c6) in *. clearbody c7.
  destruct (bufferPtr c7) as [|ch7 p7] eqn:Hp7.
  { returned. eauto 10 using follows_trans. }
  intros Hloop. apply IH in Hloop.
  pose proof (follows_comma c7 ch7 p7 Hp7).
  eauto 12 using follows_trans.
Qed.

Lemma decodeElement_wellBehaved depth :
  wellBehaved (decodeElement sscanf_lg depth).
Proof.
  induction depth as [|depth IH]; intros name c result c'; cbn [decodeElement];
    [discriminate|].
  pose proof (follows_SKIP_WHITESPACE c) as H1.
  set (c1 := SKIP_WHITESPACE c) in *. clearbody c1.
  assert (forall c2, advances c1 c2 ->
            follows c c2 /\ (result = TTSDKJSON_OK -> advances c c2)) as Hadv.
  { intros c2 H2. pose proof (follows_advances _ _ _ H1 H2) as H. split; [apply H | auto]. }
  assert (forall c2 r, follows c1 c2 -> (r = TTSDKJSON_OK -> advances c1 c2) ->
            Some (r, c2) = Some (result, c') ->
            follows c c' /\ (result = TTSDKJSON_OK -> advances c c')) as Hret.
  { intros c2 r H2 H2' Heq. inversion Heq; subst; clear Heq.
    split; [eapply follows_trans; eassumption|].
    intros Hok. eapply follows_advances; [exact H1 | auto]. }
  destruct (bufferPtr c1) as [|ch p1] eqn:Hp1.
  { apply Hret; [apply follows_refl | discriminate]. }
  assert (advances c1 (set_bufferPtr p1 c1)) as Hnext.
  { split; [apply follows_set_bufferPtr|]; rewrite Hp1; simpl; lia. }
  destruct (Ascii.eqb ch "[").
  { set (c2 := set_bufferPtr p1 c1) in *. clearbody c2.
    pose proof (follows_invoke (OnBeginArray (readName name c2)) c2) as Hi.
    destruct (invoke (OnBeginArray (readName name c2)) c2) as [ri ci].
    simpl in Hi. specialize (Hi ltac:(discriminate)).
    assert (advances c1 ci) as Hci by (eapply advances_follows; eassumption).
    destruct (negb (ri =? TTSDKJSON_OK)).
    - returned. apply Hadv, Hci.
    - intros Hloop. apply arrayLoop_follows in Hloop; [|exact IH].
      apply Hadv. eapply advances_follows; eassumption. }
  destruct (Ascii.eqb ch "{").
  { set (c2 := set_bufferPtr p1 c1) in *. clearbody c2.
    pose proof (follows_invoke (OnBeginObject (readName name c2)) c2) as Hi.
    destruct (invoke (OnBeginObject (readName name c2)) c2) as [ri ci].
    simpl in Hi. specialize (Hi ltac:(discriminate)).
    assert (advances c1 ci) as Hci by (eapply advances_follows; eassumption).
    destruct (negb (ri =? TTSDKJSON_OK)).
    - returned. apply Hadv, Hci.
    - intros Hloop. apply objectLoop_follows in Hloop; [|exact IH].
      apply Hadv. eapply advances_follows; eassumption. }
  destruct (Ascii.eqb ch DQUOTE).
  { pose proof (follows_decodeString (stringBuffer c1) (stringBufferLength c1) c1) as Hs.
    destruct (decodeString (stringBuffer c1) (stringBufferLength c1) c1) as [rs cs].
    destruct Hs as [Hs Hs'].
    destruct (negb (rs =? TTSDKJSON_OK)) eqn:Hrs.
    - apply Hret; assumption.
    - apply negb_false_iff, Z.eqb_eq in Hrs. specialize (Hs' Hrs).
      match goal with |- Some (invoke ?call cs) = _ -> _ =>
        pose proof (follows_invoke call cs ltac:(discriminate)) as Hi;
        destruct (invoke call cs) as [ri ci] end.
      simpl in Hi. apply Hret; [eapply follows_trans; eassumption|].
      intros _. eapply advances_follows; eassumption. }
  destruct (Ascii.eqb ch "f").
  { match goal with |- Some (decodeLiteral ?l ?call c1) = _ -> _ =>
      pose proof (follows_decodeLiteral l call c1 ltac:(discriminate) ltac:(discriminate)) as Hl;
      destruct (decodeLiteral l call c1) as [rl cl] end.
    destruct Hl as [Hl Hl']. apply Hret; assumption. }
  destruct (Ascii.eqb ch "t").
  { match goal with |- Some (decodeLiteral ?l ?call c1) = _ -> _ =>
      pose proof (follows_decodeLiteral l call c1 ltac:(discriminate) ltac:(discriminate)) as Hl;
      destruct (decodeLiteral l call c1) as [rl cl] end.
    destruct Hl as [Hl Hl']. apply Hret; assumption. }
  destruct (Ascii.eqb ch "n").
  { match goal with |- Some (decodeLiteral ?l ?call c1) = _ -> _ =>
      pose proof (follows_decodeLiteral l call c1 ltac:(discriminate) ltac:(discriminate)) as Hl;
      destruct (decodeLiteral l call c1) as [rl cl] end.
    destruct Hl as [Hl Hl']. apply Hret; assumption. }
  destruct (Ascii.eqb ch "-").
  { set (c2 := set_bufferPtr p1 c1) in *. clearbody c2.
    destruct (negb (isdigit (peek (bufferPtr c2)))).
    - returned. apply Hadv, Hnext.
    - pose proof (follows_decodeNumber (-1) name c2) as [Hn _].
      destruct (decodeNumber sscanf_lg (-1) name c2) as [rn cn]. simpl in Hn.
      returned. apply Hadv. eapply advances_follows; eassumption. }
  destruct (isdigit ch) eqn:Hdigit.
  { pose proof (follows_decodeNumber 1 name c1) as [_ Hn].
    rewrite Hp1 in Hn. specialize (Hn Hdigit).
    destruct (decodeNumber sscanf_lg 1 name c1) as [rn cn]. simpl in Hn.
    returned. apply Hadv, Hn. }
  apply Hret; [apply follows_refl | discriminate].
Qed.

(** ** Every run returns *)

Lemma arrayLoop_returns decode n :
  wellBehaved decode -> returnsBelow n decode ->
  forall rounds c,
    (length (bufferPtr c) < rounds)%nat -> (length (bufferPtr c) < n)%nat ->
    arrayLoop decode rounds c <> None.
Proof.
  intros Hwell Hret. induction rounds as [|rounds IH]; intros c Hrounds Hn;
    cbn [arrayLoop]; [lia|].
  destruct (bufferPtr c) as [|c0 p0] eqn:Hp0; [discriminate|].
  pose proof (follows_SKIP_WHITESPACE c) as [H1 _]. rewrite Hp0 in H1.
  set (c1 := SKIP_WHITESPACE c) in *. clearbody c1.
  destruct (bufferPtr c1) as [|ch p1] eqn:Hp1; [discriminate|].
  destruct (Ascii.eqb ch "]"); [discriminate|].
  destruct (decode NullName c1) as [[r2 c2]|] eqn:Hdec.
  2:{ exfalso. revert Hdec. apply Hret. rewrite Hp1. cbn [length] in *. lia. }
  destruct (negb (r2 =? TTSDKJSON_OK)) eqn:Hr2; [discriminate|].
  apply negb_false_iff, Z.eqb_eq in Hr2.
  apply Hwell in Hdec. destruct Hdec as [_ Hdec]. destruct (Hdec Hr2) as [_ H2].
  pose proof (follows_SKIP_WHITESPACE c2) as [H3 _].
  set (c3 := SKIP_WHITESPACE c2) in *. clearbody c3.
  destruct (bufferPtr c3) as [|ch3 p3] eqn:Hp3; [discriminate|].
  pose proof (follows_comma c3 ch3 p3 Hp3) as [H4 _].
  rewrite Hp1 in H2. rewrite Hp3 in H4. cbn [length] in *.
  apply IH; lia.
Qed.

Lemma objectLoop_returns decode n :
  wellBehaved decode -> returnsBelow n decode ->
  forall rounds c,
    (length (bufferPtr c) < rounds)%nat -> (length (bufferPtr c) < n)%nat ->
    objectLoop decode rounds c <> None.
Proof.
  intros Hwell Hret. induction rounds as [|rounds IH]; intros c Hrounds Hn;
    cbn [objectLoop]; [lia|].
  destruct (bufferPtr c) as [|c0 p0] eqn:Hp0; [discriminate|].
  pose proof (follows_SKIP_WHITESPACE c) as [H1 _]. rewrite Hp0 in H1.
  set (c1 := SKIP_WHITESPACE c) in *. clearbody c1.
  destruct (bufferPtr c1) as [|ch p1] eqn:Hp1; [discriminate|].
  destruct (Ascii.eqb ch "}"); [discriminate|].
  pose proof (follows_decodeString (nameBuffer c1) (nameBufferLength c1) c1) as H2.
  destruct (decodeString (nameBuffer c1) (nameBufferLength c1) c1) as [r2 c2].
  destruct (negb (r2 =? TTSDKJSON_OK)) eqn:Hr2; [discriminate|].
  apply negb_false_iff, Z.eqb_eq in Hr2.
  destruct H2 as [_ H2]. destruct (H2 Hr2) as [_ H2'].
  pose proof (follows_SKIP_WHITESPACE c2) as [H3 _].
  set (c3 := SKIP_WHITESPACE c2) in *. clearbody c3.
  destruct (bufferPtr c3) as [|ch3 p3] eqn:Hp3; [discriminate|].
  destruct (negb (Ascii.eqb ch3 ":")); [discriminate|].
  pose proof (follows_SKIP_WHITESPACE (set_bufferPtr p3 c3)) as [H5 _].
  set (c5 := SKIP_WHITESPACE (set_bufferPtr p3 c3)) in *. clearbody c5.
  simpl in H5. try rewrite Hp1 in H2'. try rewrite Hp3 in H3. cbn [length] in *.
  destruct (decode NameBuffer c5) as [[r6 c6]|] eqn:Hdec.
  2:{ exfalso. revert Hdec. apply Hret. lia. }
  destruct (negb (r6 =? TTSDKJSON_OK)) eqn:Hr6; [discriminate|].
  apply Hwell in Hdec. destruct Hdec as [[H6 _] _].
  pose proof (follows_SKIP_WHITESPACE c6) as [H7 _].
  set (c7 := SKIP_WHITESPACE c6) in *. clearbody c7.
  destruct (bufferPtr c7) as [|ch7 p7] eqn:Hp7; [discriminate|].
  pose proof (follows_comma c7 ch7 p7 Hp7) as [H8 _].
  try rewrite Hp7 in H8. cbn [length] in *.
  apply IH; lia.
Qed.

(** A depth above the number of bytes left is enough: the decoder returns. *)
Lemma decodeElement_returns depth : returnsBelow depth (decodeElement sscanf_lg depth).
Proof.
  induction depth as [|depth IH]; intros name c Hlen; cbn [decodeElement]; [lia|].
  pose proof (follows_SKIP_WHITESPACE c) as [H1 _].
  set (c1 := SKIP_WHITESPACE c) in *. clearbody c1.
  destruct (bufferPtr c1) as [|ch p1] eqn:Hp1; [discriminate|]. simpl in H1.
  destruct (Ascii.eqb ch "[").
  { pose proof (bufferPtr_invoke (OnBeginArray (readName name (set_bufferPtr p1 c1)))
                  (set_bufferPtr p1 c1)) as Hi.
    destruct (invoke _ (set_bufferPtr p1 c1)) as [ri ci]. simpl in Hi.
    destruct (negb (ri =? TTSDKJSON_OK)); [discriminate|].
    apply arrayLoop_returns with (n := depth);
      [apply decodeElement_wellBehaved | exact IH | rewrite Hi; lia | rewrite Hi; lia]. }
  destruct (Ascii.eqb ch "{").
  { pose proof (bufferPtr_invoke (OnBeginObject (readName name (set_bufferPtr p1 c1)))
                  (set_bufferPtr p1 c1)) as Hi.
    destruct (invoke _ (set_bufferPtr p1 c1)) as [ri ci]. simpl in Hi.
    destruct (negb (ri =? TTSDKJSON_OK)); [discriminate|].
    apply objectLoop_returns with (n := depth);
      [apply decodeElement_wellBehaved | exact IH | rewrite Hi; lia | rewrite Hi; lia]. }
  destruct (Ascii.eqb ch DQUOTE).
  { destruct (decodeString _ _ c1) as [rs cs].
    destruct (negb (rs =? TTSDKJSON_OK)); discriminate. }
  repeat (match goal with |- (if ?b then _ else _) <> None => destruct b end;
          try discriminate).
Qed.

(** ** Characters *)

Lemma isdigit_dispatch d :
  isdigit d = true ->
  isspace d = false /\ isFPChar d = true
  /\ Ascii.eqb d "[" = false /\ Ascii.eqb d "{" = false /\ Ascii.eqb d DQUOTE = false
  /\ Ascii.eqb d "f" = false /\ Ascii.eqb d "t" = false /\ Ascii.eqb d "n" = false
  /\ Ascii.eqb d "-" = false.
Proof.
  destruct d as [[] [] [] [] [] [] [] []]; intros H; vm_compute in H;
    try discriminate H; vm_compute; repeat split; reflexivity.
Qed.

Lemma isspace_not_FPChar ch : isspace ch = true -> isFPChar ch = false.
Proof.
  destruct ch as [[] [] [] [] [] [] [] []]; intros H; vm_compute in H;
    try discriminate H; reflexivity.
Qed.

Lemma isFPChar_not_digit ch : isFPChar ch = false -> isdigit ch = false.
Proof.
  intros H. destruct (isdigit ch) eqn:Hd; [|reflexivity].
  apply isdigit_dispatch in Hd. destruct Hd as (_ & Hd & _). congruence.
Qed.

(** ** Contexts *)

Lemma set_bufferPtr_same (c : Context) : set_bufferPtr (bufferPtr c) c = c.
Proof. destruct c. reflexivity. Qed.

Lemma SKIP_WHITESPACE_at_token (c : Context) ch p :
  bufferPtr c = ch :: p -> isspace ch = false -> SKIP_WHITESPACE c = c.
Proof.
  intros Hp Hch. unfold SKIP_WHITESPACE. rewrite Hp. cbn [skipWhitespace].
  rewrite Hch, <- Hp. apply set_bufferPtr_same.
Qed.

(** ** Locality of the scans: what follows a token is not looked at *)

Lemma scanDigits_local t r accum isOverflow :
  isdigit (peek r) = false ->
  scanDigits (t ++ r) accum isOverflow
  = let '(q, a, o) := scanDigits t accum isOverflow in (q ++ r, a, o).
Proof.
  intros Hr. revert accum isOverflow.
  induction t as [|d t IH]; intros accum isOverflow.
  - destruct r as [|ch r']; [reflexivity|]. simpl in *. rewrite Hr. reflexivity.
  - cbn [app scanDigits]. destruct (isdigit d); [|reflexivity].
    destruct (accum >? ULLONG_MAX / 10); [reflexivity|].
    cbv zeta. destruct (uint64 (accum * 10) >? _); [reflexivity|]. apply IH.
Qed.

Lemma skipFPChars_local t r :
  isFPChar (peek r) = false -> skipFPChars (t ++ r) = skipFPChars t ++ r.
Proof.
  intros Hr. induction t as [|d t IH].
  - destruct r as [|ch r']; [reflexivity|]. simpl in *. rewrite Hr. reflexivity.
  - cbn [app skipFPChars]. destruct (isFPChar d); [exact IH | reflexivity].
Qed.

Lemma skipFPChars_all t : forallb isFPChar t = true -> skipFPChars t = [].
Proof.
  induction t as [|d t IH]; [reflexivity|]. cbn [forallb skipFPChars].
  destruct (isFPChar d); [exact IH | discriminate].
Qed.

(** ** Dispatch on the first byte *)

Lemma decodeElement_digit depth name (c : Context) d p :
  bufferPtr c = d :: p -> isdigit d = true ->
  decodeElement sscanf_lg (S depth) name c = Some (decodeNumber sscanf_lg 1 name c).
Proof.
  intros Hp Hd. destruct (isdigit_dispatch d Hd) as (H0 & _ & H1 & H2 & H3 & H4 & H5 & H6 & H7).
  cbn [decodeElement]. cbv zeta.
  rewrite (SKIP_WHITESPACE_at_token c d p Hp H0), Hp, H1, H2, H3, H4, H5, H6, H7, Hd.
  reflexivity.
Qed.

(** ** The destination of a decoded string *)

Lemma sameBelow_refl dst m : sameBelow dst m m.
Proof. intros i _. reflexivity. Qed.

Lemma sameBelow_trans dst dst' m1 m2 m3 :
  (dst <= dst')%nat -> sameBelow dst m1 m2 -> sameBelow dst' m2 m3 -> sameBelow dst m1 m3.
Proof. intros Hle H12 H23 i Hi. rewrite H23 by lia. apply H12, Hi. Qed.

Lemma sameBelow_store dst j x m : (dst <= j)%nat -> sameBelow dst m (<[j := x]> m).
Proof. intros Hj i Hi. apply list_lookup_insert_ne. lia. Qed.

Lemma writeUTF8_sameBelow character dst m :
  (dst <= snd (fst (writeUTF8 character dst m)))%nat
  /\ sameBelow dst m (snd (writeUTF8 character dst m)).
Proof.
  unfold writeUTF8.
  destruct (character <=? 0x7f); [|destruct (character <=? 0x7ff);
    [|destruct (character <=? 0xffff); [|destruct (character <=? 0x10ffff)]]];
    cbn [fst snd]; (split; [lia|]); intros i Hi;
    rewrite ?list_lookup_insert_ne by lia; reflexivity.
Qed.

(** The escape loop stores at [dst] and above only. *)
Lemma decodeEscapes_sameBelow src :
  forall dst m, sameBelow dst m (snd (decodeEscapes src dst m)).
Proof.
  remember (length src) as k eqn:Hk. revert src Hk.
  induction k as [k IH] using lt_wf_ind. intros src Hk dst m.
  assert (forall src' dst' m', (length src' < length src)%nat -> (dst <= dst')%nat ->
            sameBelow dst m m' -> sameBelow dst m (snd (decodeEscapes src' dst' m')))
    as Hrec.
  { intros src' dst' m' Hlen Hdst Hm. eapply sameBelow_trans; [exact Hdst | exact Hm|].
    apply (IH (length src')); [lia | reflexivity]. }
  assert (forall j x, (dst <= j)%nat -> sameBelow dst m (<[j := x]> m)) as Hstore
    by (intros; apply sameBelow_store; assumption).
  destruct src as [|c src1]; cbn [decodeEscapes snd]; [apply (Hstore dst NUL); lia|].
  destruct (negb (Ascii.eqb c BACKSLASH)).
  { apply Hrec; [simpl; lia | lia | apply Hstore; lia]. }
  destruct src1 as [|e src2].
  { cbn [snd].
    apply sameBelow_trans with (dst' := dst) (m2 := <[dst := DQUOTE]> m);
      [lia | apply Hstore; lia | apply sameBelow_store; lia]. }
  cbv zeta.
  repeat match goal with
         | |- sameBelow _ _ (snd (if Ascii.eqb e ?x then _ else _)) =>
             destruct (Ascii.eqb e x);
             [apply Hrec; [simpl; lia | lia | apply Hstore; lia]|]
         end.
  destruct (Ascii.eqb e "u"); [|apply sameBelow_refl].
  destruct src2 as [|h1 [|h2 [|h3 [|h4 src6]]]]; try apply sameBelow_refl.
  destruct (hexAccum h1 h2 h3 h4 >? 65535); [apply sameBelow_refl|].
  destruct ((hexAccum h1 h2 h3 h4 >=? 56320) && _); [apply sameBelow_refl|].
  destruct ((hexAccum h1 h2 h3 h4 >=? 55296) && _).
  - destruct src6 as [|b [|u [|k1 [|k2 [|k3 [|k4 src12]]]]]]; try apply sameBelow_refl.
    destruct (negb (Ascii.eqb b BACKSLASH) || _); [apply sameBelow_refl|].
    destruct ((hexAccum k1 k2 k3 k4 <? 56320) || _); [apply sameBelow_refl|].
    match goal with |- context [writeUTF8 ?a dst m] =>
      pose proof (writeUTF8_sameBelow a dst m) as [Hdst Hm];
      destruct (writeUTF8 a dst m) as [[r dst'] m'] end.
    cbn [fst snd] in Hdst, Hm.
    destruct (negb (r =? TTSDKJSON_OK)); [exact Hm|].
    apply Hrec; [simpl; lia | exact Hdst | exact Hm].
  - match goal with |- context [writeUTF8 ?a dst m] =>
      pose proof (writeUTF8_sameBelow a dst m) as [Hdst Hm];
      destruct (writeUTF8 a dst m) as [[r dst'] m'] end.
    cbn [fst snd] in Hdst, Hm.
    destruct (negb (r =? TTSDKJSON_OK)); [exact Hm|].
    apply Hrec; [simpl; lia | exact Hdst | exact Hm].
Qed.

(** C9, as the code has it: the first byte of the destination is set to 0
    before any check.  A decode that fails on the opening quote, on a
    missing closing quote or on the length leaves the destination with
    that one change.  A decode that reaches the escape loop stores the
    decoded bytes from the first position on: when the string starts with
    a byte that is not a backslash, that byte is the first byte of the
    destination, whatever the result. *)
Theorem decodeString_destination dstBuffer dstBufferLength (c : Context) :
  (dstBuffer < length (memory c))%nat ->
  let src := tail (bufferPtr c) in
  let cleared := <[dstBuffer := NUL]> (memory c) in
  let (result, c') := decodeString dstBuffer dstBufferLength c in
  cleared !! dstBuffer = Some NUL
  /\ (peek (bufferPtr c) <> DQUOTE ->
      result = TTSDKJSON_ERROR_INVALID_CHARACTER /\ memory c' = cleared)
  /\ (peek (bufferPtr c) = DQUOTE -> scanString src true = None ->
      result = TTSDKJSON_ERROR_INCOMPLETE /\ memory c' = cleared)
  /\ (forall n fastCopy,
        peek (bufferPtr c) = DQUOTE -> scanString src true = Some (n, fastCopy) ->
        dstBufferLength <= Z.of_nat n ->
        result = TTSDKJSON_ERROR_DATA_TOO_LONG /\ memory c' = cleared)
  /\ (forall n b,
        peek (bufferPtr c) = DQUOTE -> scanString src true = Some (n, false) ->
        Z.of_nat n < dstBufferLength -> head src = Some b -> b <> BACKSLASH ->
        memory c' !! dstBuffer = Some b).
Proof.
  intros Hdst. cbv zeta.
  assert (<[dstBuffer := NUL]> (memory c) !! dstBuffer = Some NUL) as Hcleared
    by (apply list_lookup_insert_eq; exact Hdst).
  unfold decodeString. cbv zeta.
  cbn [bufferPtr set_memory memory set_bufferPtr].
  destruct (Ascii.eqb (peek (bufferPtr c)) DQUOTE) eqn:Hquote; cbn [negb].
  2:{ apply Ascii.eqb_neq in Hquote. cbn [memory set_memory].
      repeat split; try assumption; try reflexivity; intros; contradiction. }
  apply Ascii.eqb_eq in Hquote.
  destruct (scanString (tail (bufferPtr c)) true) as [[n fastCopy]|] eqn:Hscan.
  2:{ cbn [memory set_memory].
      repeat split; try assumption; try reflexivity; intros;
        contradiction || discriminate. }
  destruct (Z.geb_spec (Z.of_nat n) dstBufferLength) as [Hlong|Hfits].
  { cbn [memory set_memory]. split; [exact Hcleared|].
    split; [intros Hne; contradiction|]. split; [intros _ Hnone; discriminate|].
    split.
    - intros n' f' _ _ _. split; reflexivity.
    - intros n' b _ [= <- _] Hlt. lia. }
  assert (fastCopy = false ->
          forall b, head (tail (bufferPtr c)) = Some b -> b <> BACKSLASH ->
          snd (decodeEscapes (take n (tail (bufferPtr c))) dstBuffer
                 (<[dstBuffer := NUL]> (memory c))) !! dstBuffer = Some b) as Hwalk.
  { intros -> b Hhead Hb.
    destruct (tail (bufferPtr c)) as [|b' src'] eqn:Hsrc; [discriminate|].
    injection Hhead as ->.
    assert (exists n0, n = S n0) as [n0 ->].
    { cbn [scanString] in Hscan. destruct (Ascii.eqb b DQUOTE); [discriminate|].
      destruct (Ascii.eqb b BACKSLASH).
      - destruct src' as [|e src2]; [discriminate|].
        destruct (scanString src2 false) as [[m f]|]; [|discriminate].
        injection Hscan as <- _. eauto.
      - destruct (scanString src' true) as [[m f]|]; [|discriminate].
        injection Hscan as <- _. eauto. }
    cbn [take decodeEscapes].
    apply Ascii.eqb_neq in Hb. rewrite Hb. cbn [negb].
    rewrite (decodeEscapes_sameBelow (take n0 src') (S dstBuffer)
               (<[dstBuffer := b]> (<[dstBuffer := NUL]> (memory c)))
               dstBuffer (Nat.lt_succ_diag_r dstBuffer)).
    apply list_lookup_insert_eq. rewrite length_insert. exact Hdst. }
  destruct fastCopy.
  - cbn [memory set_memory]. split; [exact Hcleared|].
    split; [intros Hne; contradiction|]. split; [intros _ Hnone; discriminate|].
    split; [intros n' f' _ [= <- _] Hle; lia|].
    intros n' b _ [= _]. 
  - specialize (Hwalk eq_refl).
    destruct (decodeEscapes _ _ _) as [result m']. cbn [snd memory set_memory] in *.
    split; [exact Hcleared|].
    split; [intros Hne; contradiction|]. split; [intros _ Hnone; discriminate|].
    split; [intros n' f' _ [= <- _] Hle; lia|].
    intros n' b _ _ _ Hhead Hb. apply Hwalk; assumption.
Qed.

(** ** The whole decode *)

(** [ttsdkjson_decode] returns on every input: the element decoder returns
    [elementResult] in [context], and the outcome is built from it. *)
Lemma ttsdkjson_decode_returns data stringBuffer callbacks (userData : U) errorOffset :
  exists elementResult context outcome,
    decodeElement sscanf_lg (S (length data)) NullName
      (initialContext data stringBuffer callbacks userData)
    = Some (elementResult, context)
    /\ follows (initialContext data stringBuffer callbacks userData) context
    /\ ttsdkjson_decode sscanf_lg data stringBuffer callbacks userData errorOffset
       = Some outcome
    /\ (result outcome, final outcome)
       = (if elementResult =? TTSDKJSON_OK then invoke OnEndData context
          else (elementResult, context))
    /\ errorOffsetValue outcome
       = match errorOffset with
         | Some previous =>
             if negb (result outcome =? TTSDKJSON_OK) then Some 0 else Some previous
         | None => None
         end.
Proof.
  unfold ttsdkjson_decode. cbv zeta.
  set (c0 := initialContext data stringBuffer callbacks userData).
  destruct (decodeElement sscanf_lg (S (length data)) NullName c0)
    as [[elementResult context]|] eqn:Helement.
  2:{ exfalso. revert Helement. apply decodeElement_returns. simpl. lia. }
  pose proof (decodeElement_wellBehaved _ _ _ _ _ Helement) as [Hfollows _].
  destruct (if elementResult =? TTSDKJSON_OK then invoke OnEndData context
            else (elementResult, context)) as [r c] eqn:Hend.
  eexists _, _, _. split; [reflexivity|]. split; [exact Hfollows|].
  split; [reflexivity|]. split; [symmetry; exact Hend|]. simpl.
  destruct errorOffset as [previous|]; [|reflexivity].
  destruct (negb (r =? TTSDKJSON_OK)); [|reflexivity].
  f_equal. lia.
Qed.

(** C10: [onEndData] is invoked exactly when the element decode returned
    OK, and then once, as the last callback; after a decode error the
    callbacks invoked are those of the element decode, [onEndData] is not
    among them, and the decode error is what [ttsdkjson_decode] returns. *)
Theorem onEndData_iff_element_decoded data stringBuffer callbacks (userData : U)
    errorOffset :
  exists elementResult context outcome,
    decodeElement sscanf_lg (S (length data)) NullName
      (initialContext data stringBuffer callbacks userData)
    = Some (elementResult, context)
    /\ ttsdkjson_decode sscanf_lg data stringBuffer callbacks userData errorOffset
       = Some outcome
    /\ (In OnEndData (calls (final outcome)) <-> elementResult = TTSDKJSON_OK)
    /\ (elementResult = TTSDKJSON_OK ->
        calls (final outcome) = calls context ++ [OnEndData]
        /\ result outcome = fst (invoke OnEndData context))
    /\ (elementResult <> TTSDKJSON_OK ->
        calls (final outcome) = calls context /\ result outcome = elementResult).
Proof.
  destruct (ttsdkjson_decode_returns data stringBuffer callbacks userData errorOffset)
    as (elementResult & context & outcome & Helement & Hfollows & Hdecode & Hend & _).
  exists elementResult, context, outcome.
  split; [exact Helement|]. split; [exact Hdecode|].
  destruct Hfollows as [_ (new & Hcalls & Hnew)]. simpl in Hcalls.
  destruct (elementResult =? TTSDKJSON_OK) eqn:Hok.
  - apply Z.eqb_eq in Hok.
    assert (final outcome = snd (invoke OnEndData context)) as Hfinal
      by (rewrite <- Hend; reflexivity).
    assert (result outcome = fst (invoke OnEndData context)) as Hresult
      by (rewrite <- Hend; reflexivity).
    rewrite Hfinal, calls_invoke, Hresult.
    split; [|split].
    + split; [intros _; exact Hok|]. intros _. apply in_or_app. right. left. reflexivity.
    + intros _. split; reflexivity.
    + intros Hne. contradiction.
  - apply Z.eqb_neq in Hok. injection Hend as Hresult Hfinal.
    rewrite Hfinal, Hresult, Hcalls.
    split; [|split].
    + split; [intros Hin; contradiction | intros Heq; contradiction].
    + intros Heq. contradiction.
    + intros _. split; reflexivity.
Qed.

(** ** The largest unsigned integer *)

(** C4, as the code has it: the digits of UINT64_MAX followed by a byte that
    is not a floating-point character go to [onUnsignedIntegerElement] with
    the value 18446744073709551615, first of all callbacks; the decode then
    ends with [onEndData] and returns its status when the callback returned
    OK, and returns the callback's status otherwise. *)
Theorem decode_UINT64_MAX_before_delimiter (ch : ascii) (rest stringBuffer : bytes)
    callbacks (userData : U) errorOffset :
  isFPChar ch = false ->
  exists outcome,
    ttsdkjson_decode sscanf_lg (digits_UINT64_MAX ++ ch :: rest) stringBuffer
      callbacks userData errorOffset = Some outcome
    /\ let (status, userData') :=
         onUnsignedIntegerElement callbacks None 18446744073709551615 userData in
       if status =? TTSDKJSON_OK
       then calls (final outcome)
            = [OnUnsignedIntegerElement None 18446744073709551615; OnEndData]
            /\ result outcome = fst (onEndData callbacks userData')
       else calls (final outcome) = [OnUnsignedIntegerElement None 18446744073709551615]
            /\ result outcome = status.
Proof.
  intros Hch.
  destruct (ttsdkjson_decode_returns (digits_UINT64_MAX ++ ch :: rest)
              stringBuffer callbacks userData errorOffset)
    as (elementResult & context & outcome & Helement & _ & Hdecode & Hend & _).
  exists outcome. split; [exact Hdecode|].
  set (c0 := initialContext (digits_UINT64_MAX ++ ch :: rest) stringBuffer
               callbacks userData) in *.
  erewrite decodeElement_digit in Helement; [|reflexivity..].
  assert (decodeNumber sscanf_lg 1 NullName c0
          = invoke (OnUnsignedIntegerElement None 18446744073709551615)
              (set_bufferPtr (ch :: rest) c0)) as Hnumber.
  { unfold decodeNumber.
    change (bufferPtr c0) with (digits_UINT64_MAX ++ ch :: rest).
    rewrite scanDigits_local by (apply isFPChar_not_digit; exact Hch).
    change (scanDigits digits_UINT64_MAX 0 false)
      with (@nil ascii, 18446744073709551615, false).
    cbv beta iota zeta. cbn [app peek hd]. rewrite Hch. reflexivity. }
  rewrite Hnumber in Helement. clear Hnumber.
  unfold invoke in Helement. subst c0. cbn [Decode.callbacks Decode.userData set_bufferPtr initialContext] in Helement.
  destruct (onUnsignedIntegerElement callbacks None 18446744073709551615 userData)
    as [status userData'].
  injection Helement as <- <-.
  destruct (status =? TTSDKJSON_OK).
  - unfold invoke in Hend. cbn in Hend. destruct (onEndData callbacks userData').
    injection Hend as -> ->. split; reflexivity.
  - injection Hend as -> ->. split; reflexivity.
Qed.

(** ** Contexts up to [bufferPtr] *)

Lemma set_bufferPtr_twice p q (c : Context) :
  set_bufferPtr p (set_bufferPtr q c) = set_bufferPtr p c.
Proof. reflexivity. Qed.

Lemma set_memory_set_bufferPtr m p (c : Context) :
  set_memory m (set_bufferPtr p c) = set_bufferPtr p (set_memory m c).
Proof. reflexivity. Qed.

Lemma bufferPtr_set_bufferPtr p (c : Context) : bufferPtr (set_bufferPtr p c) = p.
Proof. reflexivity. Qed.

Lemma memory_set_bufferPtr p (c : Context) : memory (set_bufferPtr p c) = memory c.
Proof. reflexivity. Qed.

Lemma stringBuffer_set_bufferPtr p (c : Context) :
  stringBuffer (set_bufferPtr p c) = stringBuffer c.
Proof. reflexivity. Qed.

Lemma stringBufferLength_set_bufferPtr p (c : Context) :
  stringBufferLength (set_bufferPtr p c) = stringBufferLength c.
Proof. reflexivity. Qed.

Lemma nameBuffer_set_bufferPtr p (c : Context) :
  nameBuffer (set_bufferPtr p c) = nameBuffer c.
Proof. reflexivity. Qed.

Lemma nameBufferLength_set_bufferPtr p (c : Context) :
  nameBufferLength (set_bufferPtr p c) = nameBufferLength c.
Proof. reflexivity. Qed.

Lemma readName_set_bufferPtr name p (c : Context) :
  readName name (set_bufferPtr p c) = readName name c.
Proof. reflexivity. Qed.

Ltac normalize_context :=
  rewrite ?set_bufferPtr_twice, ?set_memory_set_bufferPtr, ?bufferPtr_set_bufferPtr,
    ?memory_set_bufferPtr, ?stringBuffer_set_bufferPtr, ?stringBufferLength_set_bufferPtr,
    ?nameBuffer_set_bufferPtr, ?nameBufferLength_set_bufferPtr, ?readName_set_bufferPtr.

(** ** Tokens do not depend on what follows them *)

Lemma scanString_body body rest :
  forall fastCopy fastCopy',
    scanBody body fastCopy = Some fastCopy' ->
    scanString (body ++ DQUOTE :: rest) fastCopy = Some (length body, fastCopy').
Proof.
  remember (length body) as k eqn:Hk. revert body Hk.
  induction k as [k IH] using lt_wf_ind. intros body Hk fastCopy fastCopy'.
  destruct body as [|c body1]; cbn [scanBody app scanString].
  { intros [= <-]. rewrite Ascii.eqb_refl. subst k. reflexivity. }
  destruct (Ascii.eqb c DQUOTE); [discriminate|].
  destruct (Ascii.eqb c BACKSLASH).
  - destruct body1 as [|e body2]; [discriminate|]. intros Hbody.
    cbn [app]. simpl in Hk.
    assert (length body2 < k)%nat as Hlt by lia.
    rewrite (IH (length body2) Hlt body2 eq_refl _ _ Hbody). subst k. reflexivity.
  - intros Hbody. simpl in Hk.
    assert (length body1 < k)%nat as Hlt by lia.
    rewrite (IH (length body1) Hlt body1 eq_refl _ _ Hbody). subst k. reflexivity.
Qed.

Lemma decodeString_local dstBuffer dstBufferLength body fastCopy rest (c : Context) :
  scanBody body true = Some fastCopy ->
  exists p,
    decodeString dstBuffer dstBufferLength
      (set_bufferPtr (DQUOTE :: body ++ DQUOTE :: rest) c)
    = (fst (decodedBody dstBuffer dstBufferLength body fastCopy (memory c)),
       set_bufferPtr p
         (set_memory (snd (decodedBody dstBuffer dstBufferLength body fastCopy (memory c))) c))
    /\ (fst (decodedBody dstBuffer dstBufferLength body fastCopy (memory c)) = TTSDKJSON_OK ->
        p = rest).
Proof.
  intros Hbody. unfold decodeString, decodedBody. cbv zeta.
  cbn [bufferPtr set_bufferPtr set_memory memory peek hd tail].
  rewrite Ascii.eqb_refl. cbn [negb].
  rewrite (scanString_body body rest true fastCopy Hbody).
  destruct (Z.of_nat (length body) >=? dstBufferLength).
  { eexists. split; [reflexivity | discriminate]. }
  rewrite take_app_length.
  replace (drop (S (length body)) (body ++ DQUOTE :: rest)) with rest.
  2:{ change (S (length body)) with (1 + length body)%nat.
      rewrite Nat.add_comm, <- drop_drop, drop_app_length. reflexivity. }
  destruct fastCopy.
  - exists rest. split; reflexivity.
  - destruct (decodeEscapes body dstBuffer _) as [result m].
    exists rest. split; reflexivity.
Qed.

Lemma invoke_set_bufferPtr call p (c : Context) :
  invoke call (set_bufferPtr p c)
  = (fst (invoke call c), set_bufferPtr p (snd (invoke call c))).
Proof.
  unfold invoke. cbn [callbacks userData set_bufferPtr].
  destruct call; destruct_callback; reflexivity.
Qed.

Lemma scanDigits_FPChars t accum isOverflow :
  forallb isFPChar t = true ->
  forallb isFPChar (fst (fst (scanDigits t accum isOverflow))) = true.
Proof.
  revert accum isOverflow. induction t as [|d t IH]; intros accum isOverflow Ht;
    [reflexivity|].
  cbn [scanDigits]. cbn [forallb] in Ht. apply andb_prop in Ht as [Hd Ht].
  destruct (isdigit d); [|cbn [fst forallb]; rewrite Hd, Ht; reflexivity].
  destruct (accum >? ULLONG_MAX / 10);
    [cbn [fst forallb]; rewrite Hd, Ht; reflexivity|].
  cbv zeta. destruct (uint64 (accum * 10) >? _);
    [cbn [fst forallb]; rewrite Hd, Ht; reflexivity|].
  apply IH, Ht.
Qed.

(** A number is decoded the same way before any two delimiters. *)
Lemma decodeNumber_local sign name text r1 r2 (c : Context) :
  forallb isFPChar text = true -> delimited r1 -> delimited r2 ->
  exists res c' p1 p2,
    decodeNumber sscanf_lg sign name (set_bufferPtr (text ++ r1) c)
    = (res, set_bufferPtr p1 c')
    /\ decodeNumber sscanf_lg sign name (set_bufferPtr (text ++ r2) c)
       = (res, set_bufferPtr p2 c')
    /\ (res = TTSDKJSON_OK -> p1 = r1 /\ p2 = r2).
Proof.
  intros Htext [Hr1 Hd1] [Hr2 Hd2]. unfold decodeNumber.
  rewrite !bufferPtr_set_bufferPtr.
  rewrite !scanDigits_local by (apply isFPChar_not_digit; assumption).
  pose proof (scanDigits_FPChars text 0 false Htext) as Hq.
  destruct (scanDigits text 0 false) as [[q accum] isOverflow]. cbn [fst] in Hq.
  destruct r1 as [|ch1 r1']; [contradiction|].
  destruct r2 as [|ch2 r2']; [contradiction|].
  cbn [peek hd] in Hd1, Hd2.
  assert (forall r ch r', r = ch :: r' -> isFPChar ch = false ->
            skipFPChars (q ++ r) = r) as Hskip.
  { intros r ch r' -> Hch.
    rewrite skipFPChars_local by exact Hch. rewrite (skipFPChars_all q Hq). reflexivity. }
  assert (forall r, Z.to_nat (Z.of_nat (length (text ++ r)) - Z.of_nat (length r))
                    = length text) as Hlen
    by (intros r; rewrite length_app; lia).
  assert (forall r, Z.of_nat (length (text ++ r)) - Z.of_nat (length r)
                    = Z.of_nat (length text)) as Hlen'
    by (intros r; rewrite length_app; lia).
  destruct q as [|d q'].
  - cbn [app peek hd]. rewrite Hd1, Hd2. cbn [negb andb].
    normalize_context. cbn [skipFPChars]. rewrite Hd1, Hd2.
    normalize_context.
    rewrite !Hlen, !Hlen', !take_app_length.
    destruct (negb isOverflow).
    + destruct (sign >? 0).
      * destruct (accum <=? LLONG_MAX); rewrite !invoke_set_bufferPtr;
          (same_run; auto).
      * destruct (accum <=? LLONG_MAX + 1).
        { rewrite !invoke_set_bufferPtr.
          same_run; auto. }
        destruct (Z.of_nat (length text) >=? stringBufferLength c).
        { same_run_at c; discriminate. }
        rewrite !invoke_set_bufferPtr.
        same_run; auto.
    + destruct (Z.of_nat (length text) >=? stringBufferLength c).
      { same_run_at c; discriminate. }
      rewrite !invoke_set_bufferPtr.
      same_run; auto.
  - cbn [forallb] in Hq. apply andb_prop in Hq as [Hd Hq'].
    change ((d :: q') ++ ch1 :: r1') with (d :: q' ++ ch1 :: r1').
    change ((d :: q') ++ ch2 :: r2') with (d :: q' ++ ch2 :: r2').
    cbn [peek hd]. rewrite Hd. cbn [negb andb].
    change (d :: q' ++ ch1 :: r1') with ((d :: q') ++ ch1 :: r1').
    change (d :: q' ++ ch2 :: r2') with ((d :: q') ++ ch2 :: r2').
    normalize_context.
    rewrite (Hskip (ch1 :: r1') ch1 r1' eq_refl Hd1).
    rewrite (Hskip (ch2 :: r2') ch2 r2' eq_refl Hd2).
    normalize_context.
    rewrite !Hlen, !Hlen', !take_app_length.
    destruct (Z.of_nat (length text) >=? stringBufferLength c).
    { same_run_at c; discriminate. }
    rewrite !invoke_set_bufferPtr.
    same_run; auto.
Qed.

Lemma decodeLiteral_local literal call r (c : Context) :
  decodeLiteral literal call (set_bufferPtr (literal ++ r) c)
  = (fst (invoke call c), set_bufferPtr r (snd (invoke call c))).
Proof.
  unfold decodeLiteral. rewrite bufferPtr_set_bufferPtr.
  destruct (Z.ltb_spec (Z.of_nat (length (literal ++ r))) (Z.of_nat (length literal)))
    as [Hshort|_]; [rewrite length_app in Hshort; lia|].
  assert (forallb (fun i => Ascii.eqb (at_index (literal ++ r) i) (at_index literal i))
            (seq 1 (length literal - 1)) = true) as ->.
  { apply forallb_forall. intros i Hi. apply in_seq in Hi.
    unfold at_index. rewrite app_nth1 by lia. apply Ascii.eqb_refl. }
  cbn [negb]. rewrite drop_app_length, set_bufferPtr_twice.
  apply invoke_set_bufferPtr.
Qed.

(** ** Dispatch on the first byte of an element *)

Lemma decodeElement_string depth name (c : Context) p :
  bufferPtr c = DQUOTE :: p ->
  decodeElement sscanf_lg (S depth) name c
  = let (result, context) := decodeString (stringBuffer c) (stringBufferLength c) c in
    if negb (result =? TTSDKJSON_OK) then Some (result, context)
    else Some (invoke (OnStringElement (readName name context)
                         (cstring (drop (stringBuffer context) (memory context))))
                      context).
Proof.
  intros Hp. cbn [decodeElement]. cbv zeta.
  rewrite (SKIP_WHITESPACE_at_token c DQUOTE p Hp eq_refl), Hp. reflexivity.
Qed.

Lemma decodeElement_literal depth name (c : Context) ch p :
  bufferPtr c = ch :: p ->
  decodeElement sscanf_lg (S depth) name c
  = if Ascii.eqb ch "f"
    then Some (decodeLiteral (bytes_of "false")
                 (OnBooleanElement (readName name c) false) c)
    else if Ascii.eqb ch "t"
    then Some (decodeLiteral (bytes_of "true")
                 (OnBooleanElement (readName name c) true) c)
    else if Ascii.eqb ch "n"
    then Some (decodeLiteral (bytes_of "null") (OnNullElement (readName name c)) c)
    else decodeElement sscanf_lg (S depth) name c.
Proof.
  intros Hp.
  destruct (Ascii.eqb_spec ch "f") as [->|_];
    [|destruct (Ascii.eqb_spec ch "t") as [->|_];
      [|destruct (Ascii.eqb_spec ch "n") as [->|_]; [|reflexivity]]];
    cbn [decodeElement]; cbv zeta;
    rewrite (SKIP_WHITESPACE_at_token c _ p Hp eq_refl), Hp; reflexivity.
Qed.

Lemma decodeElement_minus depth name (c : Context) p :
  bufferPtr c = "-"%char :: p ->
  decodeElement sscanf_lg (S depth) name c
  = if negb (isdigit (peek p))
    then Some (TTSDKJSON_ERROR_INVALID_CHARACTER, set_bufferPtr p c)
    else Some (decodeNumber sscanf_lg (-1) name (set_bufferPtr p c)).
Proof.
  intros Hp. cbn [decodeElement]. cbv zeta.
  rewrite (SKIP_WHITESPACE_at_token c _ p Hp eq_refl), Hp. reflexivity.
Qed.

Lemma decodeElement_array depth name (c : Context) p :
  bufferPtr c = "["%char :: p ->
  decodeElement sscanf_lg (S depth) name c
  = let (result, context) :=
      invoke (OnBeginArray (readName name (set_bufferPtr p c))) (set_bufferPtr p c) in
    if negb (result =? TTSDKJSON_OK) then Some (result, context)
    else arrayLoop (decodeElement sscanf_lg depth) depth context.
Proof.
  intros Hp. cbn [decodeElement]. cbv zeta.
  rewrite (SKIP_WHITESPACE_at_token c _ p Hp eq_refl), Hp. reflexivity.
Qed.

Lemma decodeElement_object depth name (c : Context) p :
  bufferPtr c = "{"%char :: p ->
  decodeElement sscanf_lg (S depth) name c
  = let (result, context) :=
      invoke (OnBeginObject (readName name (set_bufferPtr p c))) (set_bufferPtr p c) in
    if negb (result =? TTSDKJSON_OK) then Some (result, context)
    else objectLoop (decodeElement sscanf_lg depth) depth context.
Proof.
  intros Hp. cbn [decodeElement]. cbv zeta.
  rewrite (SKIP_WHITESPACE_at_token c _ p Hp eq_refl), Hp. reflexivity.
Qed.

(** ** Elements of a layout *)

Lemma decodesAs_scalar s name (c : Context) :
  wellFormedScalar s = true ->
  exists res c', decodesAs (renderScalar s) true name c res c'.
Proof.
  intros Hs. destruct s as [body| | | |negative text]; cbn [renderScalar].
  - (* a string *)
    unfold wellFormedScalar, wellFormedString in Hs.
    destruct (scanBody body true) as [fastCopy|] eqn:Hbody; [clear Hs|discriminate].
    set (X := decodedBody (stringBuffer c) (stringBufferLength c) body fastCopy (memory c)).
    destruct (negb (fst X =? TTSDKJSON_OK)) eqn:HX.
    + exists (fst X), (set_memory (snd X) c). intros depth r Hdepth _.
      destruct depth as [|depth]; [lia|].
      cbn [app]. rewrite <- app_assoc. cbn [app].
      erewrite decodeElement_string by reflexivity. normalize_context.
      destruct (decodeString_local (stringBuffer c) (stringBufferLength c) body
                  fastCopy r c Hbody) as (p & -> & Hp).
      fold X. rewrite HX. exists p. split; [reflexivity | exact Hp].
    + eexists _, _. intros depth r Hdepth _.
      destruct depth as [|depth]; [lia|].
      cbn [app]. rewrite <- app_assoc. cbn [app].
      erewrite decodeElement_string by reflexivity. normalize_context.
      destruct (decodeString_local (stringBuffer c) (stringBufferLength c) body
                  fastCopy r c Hbody) as (p & -> & Hp).
      fold X. rewrite HX. normalize_context. rewrite invoke_set_bufferPtr.
      exists p. split; [reflexivity|]. intros _. apply Hp.
      apply negb_false_iff, Z.eqb_eq in HX. exact HX.
  - eexists _, _. intros depth r Hdepth _. destruct depth as [|depth]; [lia|].
    erewrite decodeElement_literal by reflexivity. cbn [Ascii.eqb Bool.eqb andb].
    normalize_context. rewrite decodeLiteral_local.
    exists r. split; [reflexivity | auto].
  - eexists _, _. intros depth r Hdepth _. destruct depth as [|depth]; [lia|].
    erewrite decodeElement_literal by reflexivity. cbn [Ascii.eqb Bool.eqb andb].
    normalize_context. rewrite decodeLiteral_local.
    exists r. split; [reflexivity | auto].
  - eexists _, _. intros depth r Hdepth _. destruct depth as [|depth]; [lia|].
    erewrite decodeElement_literal by reflexivity. cbn [Ascii.eqb Bool.eqb andb].
    normalize_context. rewrite decodeLiteral_local.
    exists r. split; [reflexivity | auto].
  - (* a number *)
    cbn [wellFormedScalar] in Hs. apply andb_prop in Hs as [Hdigit Htext].
    assert (delimited [","%char]) as Hcomma by (split; [discriminate | reflexivity]).
    destruct text as [|d text']; [discriminate|]. cbn [peek hd] in Hdigit.
    set (sign := if negative then -1 else 1).
    exists (fst (decodeNumber sscanf_lg sign name
                   (set_bufferPtr ((d :: text') ++ [","%char]) c))),
           (snd (decodeNumber sscanf_lg sign name
                   (set_bufferPtr ((d :: text') ++ [","%char]) c))).
    intros depth r Hdepth Hr. specialize (Hr eq_refl).
    destruct depth as [|depth]; [lia|].
    destruct (decodeNumber_local sign name (d :: text') r [","%char] c Htext Hr Hcomma)
      as (res & c' & p1 & p2 & H1 & H2 & Hp).
    rewrite H2. cbn [fst snd].
    exists p1. rewrite set_bufferPtr_twice. split; [|intros Hok; apply Hp, Hok].
    rewrite <- H1. subst sign. destruct negative.
    + cbn [app]. erewrite decodeElement_minus by reflexivity.
      cbn [peek hd]. rewrite Hdigit. reflexivity.
    + cbn [app]. erewrite decodeElement_digit by (reflexivity || exact Hdigit).
      reflexivity.
Qed.

(** ** One round of the loops *)

Lemma skipWhitespace_skip w ch tl :
  whitespace w = true -> isspace ch = false ->
  skipWhitespace (w ++ ch :: tl) = ch :: tl.
Proof.
  intros Hw Hch. induction w as [|x w IH]; cbn [app skipWhitespace].
  - rewrite Hch. reflexivity.
  - cbn [whitespace forallb] in Hw. apply andb_prop in Hw as [Hx Hw].
    rewrite Hx. apply IH, Hw.
Qed.

Lemma SKIP_WHITESPACE_skip w ch tl (c : Context) :
  whitespace w = true -> isspace ch = false ->
  SKIP_WHITESPACE (set_bufferPtr (w ++ ch :: tl) c) = set_bufferPtr (ch :: tl) c.
Proof.
  intros Hw Hch. unfold SKIP_WHITESPACE.
  rewrite bufferPtr_set_bufferPtr, skipWhitespace_skip by assumption. reflexivity.
Qed.

Lemma app_cons_not_nil {A} (w : list A) x tl : w ++ x :: tl <> [].
Proof. destruct w; discriminate. Qed.

Lemma arrayLoop_step decode rounds w ch tl (c : Context) :
  whitespace w = true -> isspace ch = false ->
  arrayLoop decode (S rounds) (set_bufferPtr (w ++ ch :: tl) c)
  = if Ascii.eqb ch "]"
    then Some (invoke OnEndContainer (set_bufferPtr tl c))
    else
      match decode NullName (set_bufferPtr (ch :: tl) c) with
      | None => None
      | Some (result, context) =>
          if negb (result =? TTSDKJSON_OK) then Some (result, context)
          else
            match bufferPtr (SKIP_WHITESPACE context) with
            | [] => Some (TTSDKJSON_ERROR_INCOMPLETE, SKIP_WHITESPACE context)
            | c0 :: p' =>
                arrayLoop decode rounds
                  (if Ascii.eqb c0 "," then set_bufferPtr p' (SKIP_WHITESPACE context)
                   else SKIP_WHITESPACE context)
            end
      end.
Proof.
  intros Hw Hch. cbn [arrayLoop]. rewrite bufferPtr_set_bufferPtr.
  destruct (w ++ ch :: tl) as [|x xs] eqn:Hx; [destruct (app_cons_not_nil _ _ _ Hx)|].
  rewrite <- Hx. clear Hx. cbv zeta.
  rewrite SKIP_WHITESPACE_skip by assumption. rewrite bufferPtr_set_bufferPtr.
  rewrite set_bufferPtr_twice. reflexivity.
Qed.

Lemma objectLoop_step decode rounds w tl (c : Context) :
  whitespace w = true ->
  objectLoop decode (S rounds) (set_bufferPtr (w ++ DQUOTE :: tl) c)
  = let (result, context) :=
      decodeString (nameBuffer c) (nameBufferLength c) (set_bufferPtr (DQUOTE :: tl) c) in
    if negb (result =? TTSDKJSON_OK) then Some (result, context)
    else
      match bufferPtr (SKIP_WHITESPACE context) with
      | [] => Some (TTSDKJSON_ERROR_INCOMPLETE, SKIP_WHITESPACE context)
      | c0 :: p' =>
          if negb (Ascii.eqb c0 ":")
          then Some (TTSDKJSON_ERROR_INVALID_CHARACTER, SKIP_WHITESPACE context)
          else
            match decode NameBuffer
                    (SKIP_WHITESPACE (set_bufferPtr p' (SKIP_WHITESPACE context))) with
            | None => None
            | Some (result, context) =>
                if negb (result =? TTSDKJSON_OK) then Some (result, context)
                else
                  match bufferPtr (SKIP_WHITESPACE context) with
                  | [] => Some (TTSDKJSON_ERROR_INCOMPLETE, SKIP_WHITESPACE context)
                  | c0 :: p' =>
                      objectLoop decode rounds
                        (if Ascii.eqb c0 ","
                         then set_bufferPtr p' (SKIP_WHITESPACE context)
                         else SKIP_WHITESPACE context)
                  end
            end
      end.
Proof.
  intros Hw. cbn [objectLoop]. rewrite bufferPtr_set_bufferPtr.
  destruct (w ++ DQUOTE :: tl) as [|x xs] eqn:Hx; [destruct (app_cons_not_nil _ _ _ Hx)|].
  rewrite <- Hx. clear Hx. cbv zeta.
  rewrite SKIP_WHITESPACE_skip by (assumption || reflexivity).
  rewrite bufferPtr_set_bufferPtr.
  change (Ascii.eqb DQUOTE "}") with false. cbv iota.
  normalize_context. reflexivity.
Qed.

Lemma objectLoop_end decode rounds w tl (c : Context) :
  whitespace w = true ->
  objectLoop decode (S rounds) (set_bufferPtr (w ++ "}"%char :: tl) c)
  = Some (invoke OnEndContainer (set_bufferPtr tl c)).
Proof.
  intros Hw. cbn [objectLoop]. rewrite bufferPtr_set_bufferPtr.
  destruct (w ++ "}"%char :: tl) as [|x xs] eqn:Hx;
    [destruct (app_cons_not_nil _ _ _ Hx)|].
  rewrite <- Hx. clear Hx. cbv zeta.
  rewrite SKIP_WHITESPACE_skip by (assumption || reflexivity).
  rewrite bufferPtr_set_bufferPtr, set_bufferPtr_twice. reflexivity.
Qed.

(** After an element: the separator is passed, with or without its comma,
    and the next round starts in front of some whitespace [w'] and the
    text that follows the separator. *)
Lemma separator_step strict last sep ch tl (c : Context) :
  wellFormedSeparator last sep = true ->
  isspace ch = false -> Ascii.eqb ch "," = false ->
  exists c0 p' w',
    bufferPtr (SKIP_WHITESPACE
                 (set_bufferPtr (renderSeparator strict last sep ++ ch :: tl) c))
    = c0 :: p'
    /\ (if Ascii.eqb c0 ","
        then set_bufferPtr p'
               (SKIP_WHITESPACE
                  (set_bufferPtr (renderSeparator strict last sep ++ ch :: tl) c))
        else SKIP_WHITESPACE
               (set_bufferPtr (renderSeparator strict last sep ++ ch :: tl) c))
       = set_bufferPtr (w' ++ ch :: tl) c
    /\ whitespace w' = true
    /\ (length w' <= length (renderSeparator strict last sep))%nat.
Proof.
  intros Hsep Hch Hcomma. unfold wellFormedSeparator in Hsep.
  apply andb_prop in Hsep as [Hsep _]. apply andb_prop in Hsep as [Hbefore Hafter].
  unfold renderSeparator.
  destruct (if strict then negb last else comma sep).
  - rewrite <- !app_assoc. cbn [app].
    rewrite SKIP_WHITESPACE_skip by (assumption || reflexivity).
    exists ","%char, (after sep ++ ch :: tl), (after sep).
    rewrite bufferPtr_set_bufferPtr, set_bufferPtr_twice.
    split; [reflexivity|]. split; [reflexivity|]. split; [exact Hafter|].
    rewrite !length_app. cbn [length]. lia.
  - cbn [app]. rewrite SKIP_WHITESPACE_skip.
    + exists ch, tl, []. rewrite bufferPtr_set_bufferPtr, Hcomma.
      split; [reflexivity|]. split; [reflexivity|]. split; [reflexivity|].
      simpl. lia.
    + unfold whitespace in *. rewrite forallb_app, Hbefore, Hafter. reflexivity.
    + exact Hch.
Qed.

(** ** How a layout starts and what follows an element *)

Lemma isdigit_starts d :
  isdigit d = true ->
  Ascii.eqb d "]" = false /\ Ascii.eqb d "}" = false /\ Ascii.eqb d "," = false.
Proof.
  destruct d as [[] [] [] [] [] [] [] []]; intros H; vm_compute in H;
    try discriminate H; vm_compute; repeat split; reflexivity.
Qed.

Lemma render_starts strict d : wellFormed d = true -> startsElement (render strict d).
Proof.
  intros Hd. destruct d as [s|lead items|lead members]; cbn [render].
  - destruct s as [body| | | |negative text]; cbn [renderScalar];
      try (eexists _, _; repeat split; reflexivity).
    cbn [wellFormed wellFormedScalar] in Hd. apply andb_prop in Hd as [Hdigit _].
    destruct negative; [eexists _, _; repeat split; reflexivity|].
    destruct text as [|d text']; [discriminate|]. cbn [peek hd] in Hdigit.
    destruct (isdigit_dispatch d Hdigit) as (Hsp & _).
    destruct (isdigit_starts d Hdigit) as (H1 & H2 & H3).
    exists d, text'. cbn [app]. repeat split; assumption.
  - eexists _, _; repeat split; reflexivity.
  - eexists _, _; repeat split; reflexivity.
Qed.

Lemma delimited_whitespace w x : whitespace w = true -> delimited x -> delimited (w ++ x).
Proof.
  intros Hw Hx. destruct w as [|ch w']; [exact Hx|].
  cbn [whitespace forallb] in Hw. apply andb_prop in Hw as [Hch _].
  split; [discriminate|]. apply isspace_not_FPChar, Hch.
Qed.

Lemma delimited_whitespace_nonempty w x :
  whitespace w = true -> w <> [] -> delimited (w ++ x).
Proof.
  intros Hw Hne. destruct w as [|ch w']; [contradiction|].
  cbn [whitespace forallb] in Hw. apply andb_prop in Hw as [Hch _].
  split; [discriminate|]. apply isspace_not_FPChar, Hch.
Qed.

(** What follows an element is a delimiter: the separator, or the closing
    bracket behind the last element. *)
Lemma delimited_separator strict last sep next :
  wellFormedSeparator last sep = true ->
  (last = true -> delimited next) ->
  delimited (renderSeparator strict last sep ++ next).
Proof.
  intros Hsep Hnext. unfold wellFormedSeparator in Hsep.
  apply andb_prop in Hsep as [Hsep Hbetween].
  apply andb_prop in Hsep as [Hbefore Hafter].
  unfold renderSeparator. rewrite <- !app_assoc.
  destruct (before sep) as [|b before'] eqn:Hb.
  2:{ apply delimited_whitespace_nonempty; [exact Hbefore | discriminate]. }
  cbn [app] in *.
  destruct (if strict then negb last else comma sep) eqn:Hcomma;
    [split; [discriminate | reflexivity]|].
  cbn [app].
  destruct (after sep) as [|a after'] eqn:Ha.
  2:{ apply delimited_whitespace_nonempty; [exact Hafter | discriminate]. }
  cbn [app]. apply Hnext.
  destruct last; [reflexivity|]. destruct strict; [discriminate|].
  rewrite Hcomma in Hbetween. discriminate.
Qed.

Lemma delimited_bracket ch r : isFPChar ch = false -> delimited (ch :: r).
Proof. intros Hch. split; [discriminate | exact Hch]. Qed.

(** The items and the closing bracket behind them start with a byte that
    is neither whitespace nor a comma. *)
Lemma renderItems_starts strict items r :
  wellFormedItems items = true ->
  exists ch tl,
    renderItems strict items ++ "]"%char :: r = ch :: tl
    /\ isspace ch = false /\ Ascii.eqb ch "," = false.
Proof.
  intros Hitems. destruct items as [|item sep rest]; cbn [renderItems].
  - eexists _, _. repeat split; reflexivity.
  - cbn [wellFormedItems] in Hitems.
    apply andb_prop in Hitems as [Hitems _]. apply andb_prop in Hitems as [Hitem _].
    destruct (render_starts strict item Hitem) as (ch & tl & -> & Hsp & _ & _ & Hcm).
    eexists _, _. cbn [app]. repeat split; [exact Hsp | exact Hcm].
Qed.

Lemma renderMembers_starts strict members r :
  exists ch tl,
    renderMembers strict members ++ "}"%char :: r = ch :: tl
    /\ isspace ch = false /\ Ascii.eqb ch "," = false.
Proof.
  destruct members as [|key afterKey afterColon value sep rest]; cbn [renderMembers];
    eexists _, _; repeat split; reflexivity.
Qed.

(** ** The loops on a layout *)

Lemma arrayLoopsAs_nil strict (c : Context) :
  arrayLoopsAs strict INil c (fst (invoke OnEndContainer c))
    (snd (invoke OnEndContainer c)).
Proof.
  intros rounds depth w r Hw Hrounds _. cbn [renderItems app] in *.
  destruct rounds as [|rounds]; [lia|].
  rewrite arrayLoop_step by (assumption || reflexivity).
  change (Ascii.eqb "]" "]") with true. cbv iota.
  rewrite invoke_set_bufferPtr. exists r. split; [reflexivity | auto].
Qed.

Lemma arrayLoopsAs_cons strict item sep rest (c : Context) res_item c_item res c' :
  wellFormed item = true ->
  wellFormedSeparator (lastItem rest) sep = true ->
  wellFormedItems rest = true ->
  decodesAs (render strict item) (negb (isContainer item)) NullName c res_item c_item ->
  (res_item = TTSDKJSON_OK -> arrayLoopsAs strict rest c_item res c') ->
  arrayLoopsAs strict (ICons item sep rest) c
    (if res_item =? TTSDKJSON_OK then res else res_item)
    (if res_item =? TTSDKJSON_OK then c' else c_item).
Proof.
  intros Hitem Hsep Hrest Hdecodes Hloops rounds depth w r Hw Hrounds Hdepth.
  cbn [renderItems] in *.
  set (following := renderSeparator strict (lastItem rest) sep
                    ++ renderItems strict rest ++ "]"%char :: r).
  assert (w ++ (render strict item
                ++ renderSeparator strict (lastItem rest) sep
                ++ renderItems strict rest) ++ "]"%char :: r
          = w ++ render strict item ++ following) as Htext
    by (unfold following; rewrite <- !app_assoc; reflexivity).
  rewrite Htext in *. clear Htext.
  destruct (render_starts strict item Hitem) as (ch & tl & Hrender & Hsp & Hbr & _ & _).
  destruct rounds as [|rounds]; [lia|].
  assert (w ++ render strict item ++ following = w ++ ch :: tl ++ following) as Hstart
    by (rewrite Hrender; reflexivity).
  rewrite Hstart. rewrite arrayLoop_step by assumption. rewrite Hbr.
  replace (ch :: tl ++ following) with (render strict item ++ following)
    by (rewrite Hrender; reflexivity).
  assert (delimited following) as Hdelimited.
  { apply delimited_separator; [exact Hsep|]. intros Hlast.
    destruct rest; [|discriminate]. apply delimited_bracket. reflexivity. }
  destruct (Hdecodes depth following) as (p & -> & Hp).
  { rewrite length_app in Hdepth. lia. }
  { intros _. exact Hdelimited. }
  destruct (Z.eqb_spec res_item TTSDKJSON_OK) as [Hok|Hfailed]; cbn [negb].
  2:{ exists p. split; [reflexivity | intros ->; contradiction]. }
  rewrite (Hp Hok). clear p Hp.
  destruct (renderItems_starts strict rest r Hrest) as (ch' & tl' & Hnext & Hsp' & Hcm').
  unfold following. rewrite Hnext.
  destruct (separator_step strict (lastItem rest) sep ch' tl' c_item Hsep Hsp' Hcm')
    as (c0 & p' & w' & -> & -> & Hw' & Hlen).
  rewrite <- Hnext.
  apply (Hloops Hok); [exact Hw'| |].
  - rewrite Hstart in Hrounds. unfold following in Hrounds.
    lengths.
  - rewrite Hstart in Hdepth. unfold following in Hdepth.
    lengths.
Qed.

Lemma objectLoopsAs_nil strict (c : Context) :
  objectLoopsAs strict MNil c (fst (invoke OnEndContainer c))
    (snd (invoke OnEndContainer c)).
Proof.
  intros rounds depth w r Hw Hrounds _. cbn [renderMembers app] in *.
  destruct rounds as [|rounds]; [lia|].
  rewrite objectLoop_end by assumption.
  rewrite invoke_set_bufferPtr. exists r. split; [reflexivity | auto].
Qed.

Lemma objectLoopsAs_cons strict key afterKey afterColon value sep rest (c : Context)
    fastCopy res_value c_value res c' :
  scanBody key true = Some fastCopy ->
  whitespace afterKey = true -> whitespace afterColon = true ->
  wellFormed value = true ->
  wellFormedSeparator (lastMember rest) sep = true ->
  let decoded := decodedBody (nameBuffer c) (nameBufferLength c) key fastCopy (memory c) in
  (fst decoded = TTSDKJSON_OK ->
   decodesAs (render strict value) (negb (isContainer value)) NameBuffer
     (set_memory (snd decoded) c) res_value c_value) ->
  (fst decoded = TTSDKJSON_OK -> res_value = TTSDKJSON_OK ->
   objectLoopsAs strict rest c_value res c') ->
  objectLoopsAs strict (MCons key afterKey afterColon value sep rest) c
    (if fst decoded =? TTSDKJSON_OK
     then if res_value =? TTSDKJSON_OK then res else res_value
     else fst decoded)
    (if fst decoded =? TTSDKJSON_OK
     then if res_value =? TTSDKJSON_OK then c' else c_value
     else set_memory (snd decoded) c).
Proof.
  intros Hkey HafterKey HafterColon Hvalue Hsep decoded Hdecodes Hloops
    rounds depth w r Hw Hrounds Hdepth.
  cbn [renderMembers] in *.
  set (following := renderSeparator strict (lastMember rest) sep
                    ++ renderMembers strict rest ++ "}"%char :: r).
  set (afterTheColon := afterColon ++ render strict value ++ following).
  assert (w ++ (DQUOTE :: key ++ DQUOTE :: afterKey ++ ":"%char :: afterColon
                ++ render strict value
                ++ renderSeparator strict (lastMember rest) sep
                ++ renderMembers strict rest) ++ "}"%char :: r
          = w ++ DQUOTE :: key ++ DQUOTE :: afterKey ++ ":"%char :: afterTheColon)
    as Htext.
  { unfold afterTheColon, following. cbn [app].
    repeat (rewrite <- ?app_assoc; cbn [app]). reflexivity. }
  rewrite Htext in *. clear Htext.
  destruct rounds as [|rounds]; [lia|].
  rewrite objectLoop_step by assumption.
  destruct (decodeString_local (nameBuffer c) (nameBufferLength c) key fastCopy
              (afterKey ++ ":"%char :: afterTheColon) c Hkey) as (p & -> & Hp).
  fold decoded in Hp |- *.
  destruct (Z.eqb_spec (fst decoded) TTSDKJSON_OK) as [Hok|Hfailed]; cbn [negb].
  2:{ exists p. split; [reflexivity | intros Heq; contradiction]. }
  rewrite (Hp Hok). clear p Hp.
  rewrite SKIP_WHITESPACE_skip by (assumption || reflexivity).
  rewrite bufferPtr_set_bufferPtr. change (Ascii.eqb ":" ":") with true. cbn [negb].
  rewrite set_bufferPtr_twice.
  destruct (render_starts strict value Hvalue) as (ch & tl & Hrender & Hsp & _).
  assert (afterTheColon = afterColon ++ ch :: tl ++ following) as Hstart
    by (unfold afterTheColon; rewrite Hrender; reflexivity).
  rewrite Hstart. rewrite SKIP_WHITESPACE_skip by assumption.
  replace (ch :: tl ++ following) with (render strict value ++ following)
    by (rewrite Hrender; reflexivity).
  assert (delimited following) as Hdelimited.
  { apply delimited_separator; [exact Hsep|]. intros Hlast.
    destruct rest; [|discriminate]. apply delimited_bracket. reflexivity. }
  destruct (Hdecodes Hok depth following) as (p & -> & Hp).
  { rewrite Hstart in Hdepth. rewrite Hrender. lengths. }
  { intros _. exact Hdelimited. }
  destruct (Z.eqb_spec res_value TTSDKJSON_OK) as [Hok'|Hfailed]; cbn [negb].
  2:{ exists p. split; [reflexivity | intros ->; contradiction]. }
  rewrite (Hp Hok'). clear p Hp.
  destruct (renderMembers_starts strict rest r) as (ch' & tl' & Hnext & Hsp' & Hcm').
  unfold following. rewrite Hnext.
  destruct (separator_step strict (lastMember rest) sep ch' tl' c_value Hsep Hsp' Hcm')
    as (c0 & p' & w' & -> & -> & Hw' & Hlen).
  rewrite <- Hnext.
  apply (Hloops Hok Hok'); [exact Hw'| |].
  - rewrite Hstart in Hrounds. unfold following in Hrounds. lengths.
  - rewrite Hstart in Hdepth. unfold following in Hdepth. lengths.
Qed.

(** ** Containers *)

Lemma decodesAs_array strict lead items name (c : Context) res c' :
  whitespace lead = true ->
  let begun := invoke (OnBeginArray (readName name c)) c in
  (fst begun = TTSDKJSON_OK -> arrayLoopsAs strict items (snd begun) res c') ->
  decodesAs (render strict (DArray lead items)) false name c
    (if fst begun =? TTSDKJSON_OK then res else fst begun)
    (if fst begun =? TTSDKJSON_OK then c' else snd begun).
Proof.
  intros Hlead begun Hloops depth r Hdepth _. cbn [render] in *.
  assert (("["%char :: lead ++ renderItems strict items ++ ["]"%char]) ++ r
          = "["%char :: lead ++ renderItems strict items ++ "]"%char :: r) as Htext
    by (cbn [app]; rewrite <- !app_assoc; reflexivity).
  rewrite Htext in *. clear Htext.
  destruct depth as [|depth]; [lia|].
  erewrite decodeElement_array by reflexivity.
  normalize_context. rewrite invoke_set_bufferPtr. fold begun.
  destruct (Z.eqb_spec (fst begun) TTSDKJSON_OK) as [Hok|Hfailed]; cbn [negb].
  2:{ eexists. split; [reflexivity | intros Heq; contradiction]. }
  apply (Hloops Hok); [exact Hlead | |]; cbn [length] in Hdepth; lia.
Qed.

Lemma decodesAs_object strict lead members name (c : Context) res c' :
  whitespace lead = true ->
  let begun := invoke (OnBeginObject (readName name c)) c in
  (fst begun = TTSDKJSON_OK -> objectLoopsAs strict members (snd begun) res c') ->
  decodesAs (render strict (DObject lead members)) false name c
    (if fst begun =? TTSDKJSON_OK then res else fst begun)
    (if fst begun =? TTSDKJSON_OK then c' else snd begun).
Proof.
  intros Hlead begun Hloops depth r Hdepth _. cbn [render] in *.
  assert (("{"%char :: lead ++ renderMembers strict members ++ ["}"%char]) ++ r
          = "{"%char :: lead ++ renderMembers strict members ++ "}"%char :: r) as Htext
    by (cbn [app]; rewrite <- !app_assoc; reflexivity).
  rewrite Htext in *. clear Htext.
  destruct depth as [|depth]; [lia|].
  erewrite decodeElement_object by reflexivity.
  normalize_context. rewrite invoke_set_bufferPtr. fold begun.
  destruct (Z.eqb_spec (fst begun) TTSDKJSON_OK) as [Hok|Hfailed]; cbn [negb].
  2:{ eexists. split; [reflexivity | intros Heq; contradiction]. }
  apply (Hloops Hok); [exact Hlead | |]; cbn [length] in Hdepth; lia.
Qed.

(** ** The written form and the strict form decode alike *)

Lemma layouts_decode_alike :
  (forall d, wellFormed d = true ->
     forall name (c : Context), exists res c',
       decodesAs (render false d) (negb (isContainer d)) name c res c'
       /\ decodesAs (render true d) (negb (isContainer d)) name c res c')
  /\ (forall items, wellFormedItems items = true ->
       forall c : Context, exists res c',
         arrayLoopsAs false items c res c' /\ arrayLoopsAs true items c res c')
  /\ (forall members, wellFormedMembers members = true ->
       forall c : Context, exists res c',
         objectLoopsAs false members c res c' /\ objectLoopsAs true members c res c').
Proof.
  apply Document_mutind.
  - intros s Hs name c. destruct (decodesAs_scalar s name c Hs) as (res & c' & H).
    exists res, c'. split; exact H.
  - intros lead items IH Hd name c. cbn [wellFormed] in Hd.
    apply andb_prop in Hd as [Hlead Hitems].
    set (begun := invoke (OnBeginArray (readName name c)) c).
    destruct (IH Hitems (snd begun)) as (res & c' & Hlax & Hstrict).
    exists (if fst begun =? TTSDKJSON_OK then res else fst begun),
           (if fst begun =? TTSDKJSON_OK then c' else snd begun).
    split; apply decodesAs_array; auto.
  - intros lead members IH Hd name c. cbn [wellFormed] in Hd.
    apply andb_prop in Hd as [Hlead Hmembers].
    set (begun := invoke (OnBeginObject (readName name c)) c).
    destruct (IH Hmembers (snd begun)) as (res & c' & Hlax & Hstrict).
    exists (if fst begun =? TTSDKJSON_OK then res else fst begun),
           (if fst begun =? TTSDKJSON_OK then c' else snd begun).
    split; apply decodesAs_object; auto.
  - intros _ c. eexists _, _. split; apply arrayLoopsAs_nil.
  - intros item IHitem sep rest IHrest Hitems c. cbn [wellFormedItems] in Hitems.
    apply andb_prop in Hitems as [Hitems Hrest].
    apply andb_prop in Hitems as [Hitem Hsep].
    destruct (IHitem Hitem NullName c) as (res_item & c_item & Hlax & Hstrict).
    destruct (IHrest Hrest c_item) as (res & c' & Hlax' & Hstrict').
    exists (if res_item =? TTSDKJSON_OK then res else res_item),
           (if res_item =? TTSDKJSON_OK then c' else c_item).
    split; apply arrayLoopsAs_cons; auto.
  - intros _ c. eexists _, _. split; apply objectLoopsAs_nil.
  - intros key afterKey afterColon value IHvalue sep rest IHrest Hmembers c.
    cbn [wellFormedMembers] in Hmembers.
    repeat match goal with
           | H : _ && _ = true |- _ => apply andb_prop in H as [? ?]
           end.
    match goal with
    | H : wellFormedString key = true |- _ =>
        unfold wellFormedString in H;
        destruct (scanBody key true) as [fastCopy|] eqn:Hkey; [clear H | discriminate H]
    end.
    set (decoded := decodedBody (nameBuffer c) (nameBufferLength c) key fastCopy (memory c)).
    destruct (IHvalue ltac:(assumption) NameBuffer (set_memory (snd decoded) c))
      as (res_value & c_value & Hlax & Hstrict).
    destruct (IHrest ltac:(assumption) c_value) as (res & c' & Hlax' & Hstrict').
    exists (if fst decoded =? TTSDKJSON_OK
            then if res_value =? TTSDKJSON_OK then res else res_value
            else fst decoded),
           (if fst decoded =? TTSDKJSON_OK
            then if res_value =? TTSDKJSON_OK then c' else c_value
            else set_memory (snd decoded) c).
    split; apply objectLoopsAs_cons; auto.
Qed.

(** The written form of an array or an object and its strict form, where a
    comma stands between two siblings and nowhere else, decode alike,
    whatever the callbacks return: same return value, same callbacks with
    the same arguments in the same order, same user data, and the same
    decoded bytes in the caller's buffer. *)
Lemma separators_decode_alike (d : Document) stringBuffer callbacks
    (userData : U) errorOffset :
  wellFormed d = true -> isContainer d = true ->
  exists written strict,
    ttsdkjson_decode sscanf_lg (render false d) stringBuffer callbacks userData
      errorOffset = Some written
    /\ ttsdkjson_decode sscanf_lg (render true d) stringBuffer callbacks userData
         errorOffset = Some strict
    /\ result written = result strict
    /\ calls (final written) = calls (final strict)
    /\ Decode.userData (final written) = Decode.userData (final strict)
    /\ memory (final written) = memory (final strict)
    /\ errorOffsetValue written = errorOffsetValue strict.
Proof.
  intros Hd Hcontainer.
  destruct layouts_decode_alike as (Hdocuments & _ & _).
  destruct (Hdocuments d Hd NullName (initialContext [] stringBuffer callbacks userData))
    as (res & c' & Hwritten & Hstrict).
  rewrite Hcontainer in Hwritten, Hstrict. cbn [negb] in Hwritten, Hstrict.
  destruct (Hwritten (S (length (render false d))) []) as (p1 & H1 & _);
    [rewrite app_nil_r; lia | discriminate |].
  destruct (Hstrict (S (length (render true d))) []) as (p2 & H2 & _);
    [rewrite app_nil_r; lia | discriminate |].
  rewrite app_nil_r in H1, H2.
  unfold ttsdkjson_decode. cbv zeta.
  change (initialContext (render false d) stringBuffer callbacks userData)
    with (set_bufferPtr (render false d) (initialContext [] stringBuffer callbacks userData)).
  change (initialContext (render true d) stringBuffer callbacks userData)
    with (set_bufferPtr (render true d) (initialContext [] stringBuffer callbacks userData)).
  rewrite H1, H2. rewrite !invoke_set_bufferPtr.
  destruct (res =? TTSDKJSON_OK); eexists _, _;
    (split; [reflexivity|]); (split; [reflexivity|]); cbn [result final errorOffsetValue];
    repeat split; try reflexivity;
    destruct errorOffset as [previous|]; try reflexivity;
    destruct (negb _); try reflexivity; f_equal; lia.
Qed.

End DecoderFacts.

(** * Round trips *)

(** ** Copies into the memory *)

Section MemoryFacts.
Import Decode.

Lemma memcpy_length src : forall dst m, length (memcpy dst src m) = length m.
Proof.
  induction src as [|c src IH]; intros dst m; simpl; [reflexivity|].
  rewrite IH. apply length_insert.
Qed.

Lemma store_written dst (c : ascii) m :
  (dst < length m)%nat -> <[dst := c]> m = (take dst m ++ [c]) ++ drop (S dst) m.
Proof. intros H. rewrite <- app_assoc. apply insert_take_drop. exact H. Qed.

Lemma length_take_store dst (c : ascii) (m : bytes) :
  (dst < length m)%nat -> length (take dst m ++ [c]) = S dst.
Proof. intros H. rewrite length_app, length_take. simpl. lia. Qed.

Lemma memcpy_written src :
  forall dst m,
    (dst + length src <= length m)%nat ->
    memcpy dst src m = take dst m ++ src ++ drop (dst + length src) m.
Proof.
  induction src as [|c src IH]; intros dst m Hroom; cbn [memcpy length] in *.
  - rewrite Nat.add_0_r. symmetry. apply take_drop.
  - rewrite IH by (rewrite length_insert; lia).
    rewrite store_written by lia.
    rewrite take_app_length' by (rewrite length_take_store; lia).
    rewrite (drop_app_add' _ _ (S dst)) by (rewrite length_take_store; lia).
    rewrite drop_drop, <- !app_assoc. cbn [app].
    do 4 f_equal. lia.
Qed.

(** The C string at [dst] after a copy of [src] that is closed by a NUL. *)
Lemma cstring_written (src : bytes) r :
  Forall (fun c => c <> NUL) src -> cstring (src ++ NUL :: r) = src.
Proof.
  induction 1 as [|c src Hc _ IH]; cbn [app cstring].
  - reflexivity.
  - destruct (Ascii.eqb c NUL) eqn:E; [apply Ascii.eqb_eq in E; contradiction|].
    rewrite IH. reflexivity.
Qed.

Lemma cstring_memcpy dst src m :
  (dst + length src < length m)%nat -> Forall (fun c => c <> NUL) src ->
  cstring (drop dst (<[(dst + length src)%nat := NUL]> (memcpy dst src m))) = src.
Proof.
  intros Hroom Hsrc.
  rewrite memcpy_written by lia.
  assert (length (take dst m) = dst) as Hdst by (rewrite length_take; lia).
  rewrite app_assoc.
  replace (dst + length src)%nat with (length (take dst m ++ src) + 0)%nat
    by (rewrite length_app, Hdst; lia).
  rewrite insert_app_r.
  rewrite <- app_assoc, drop_app_length' by (symmetry; exact Hdst).
  destruct (drop _ m) as [|x r] eqn:Hdrop.
  - apply (f_equal length) in Hdrop. rewrite length_drop, length_app, Hdst in Hdrop.
    simpl in Hdrop. lia.
  - cbn [insert list_insert]. apply cstring_written. exact Hsrc.
Qed.

End MemoryFacts.

(** ** Escaped text *)

Section EscapeFacts.
Import Encode.
Context {U : Type}.
Local Abbreviation M := (M U).
Local Abbreviation Session := (Session U).

Lemma option_map_app_nil (x : option bytes) : option_map (app []) x = x.
Proof. destruct x; reflexivity. Qed.

Lemma option_map_app_cons c copied (x : option bytes) :
  option_map (app [c]) (option_map (app copied) x) = option_map (app (c :: copied)) x.
Proof. destruct x; reflexivity. Qed.

(** A byte that the first loop copies is copied by the second loop too. *)
Lemma complicatedCase_simple c string :
  negb (Ascii.eqb c BACKSLASH) && negb (Ascii.eqb c DQUOTE) && (32 <=? code c) = true ->
  complicatedCase (c :: string) = option_map (app [c]) (complicatedCase string).
Proof.
  intros H. apply andb_prop in H as [H Hc]. apply andb_prop in H as [Hb Hq].
  apply negb_true_iff in Hb, Hq.
  assert ((code c <? 32) = false) as Hlt by lia.
  cbn [complicatedCase]. rewrite Hb, Hq, Hlt. cbn [orb].
  destruct (Ascii.eqb c "008") eqn:E1.
  { apply Ascii.eqb_eq in E1. subst c. discriminate. }
  destruct (Ascii.eqb c "012") eqn:E2.
  { apply Ascii.eqb_eq in E2. subst c. discriminate. }
  destruct (Ascii.eqb c "010") eqn:E3.
  { apply Ascii.eqb_eq in E3. subst c. discriminate. }
  destruct (Ascii.eqb c "013") eqn:E4.
  { apply Ascii.eqb_eq in E4. subst c. discriminate. }
  destruct (Ascii.eqb c "009") eqn:E5.
  { apply Ascii.eqb_eq in E5. subst c. discriminate. }
  reflexivity.
Qed.

Lemma simpleCase_complicatedCase string :
  complicatedCase string
  = option_map (app (fst (simpleCase string))) (complicatedCase (snd (simpleCase string))).
Proof.
  induction string as [|c string IH].
  - reflexivity.
  - cbn [simpleCase].
    destruct (negb (Ascii.eqb c BACKSLASH) && negb (Ascii.eqb c DQUOTE) && (32 <=? code c))
      eqn:Hsimple.
    + rewrite (complicatedCase_simple _ _ Hsimple), IH.
      destruct (simpleCase string) as [copied src]. cbn [fst snd].
      apply option_map_app_cons.
    + cbn [fst snd]. symmetry. apply option_map_app_nil.
Qed.

(** What [appendEscapedString] hands to the sink is the escaped text of the
    whole portion, in one chunk; a control character that has no escape
    makes it return before the sink is called. *)
Lemma appendEscapedString_escaped string (s : Session) :
  appendEscapedString string s
  = match complicatedCase string with
    | Some escaped => addJSONData escaped s
    | None => (TTSDKJSON_ERROR_INVALID_CHARACTER, s)
    end.
Proof.
  unfold appendEscapedString. rewrite (simpleCase_complicatedCase string).
  destruct (simpleCase string) as [copied src]. cbn [fst snd].
  destruct (complicatedCase src); reflexivity.
Qed.

Lemma complicatedCase_app a b :
  complicatedCase (a ++ b)
  = match complicatedCase a, complicatedCase b with
    | Some x, Some y => Some (x ++ y)
    | _, _ => None
    end.
Proof.
  induction a as [|c a IH].
  - simpl. destruct (complicatedCase b); reflexivity.
  - cbn [app complicatedCase]. rewrite IH.
    destruct (complicatedCase a) as [x|], (complicatedCase b) as [y|];
      repeat match goal with
             | |- context [if ?g then _ else _] =>
                 lazymatch type of g with bool => destruct g end
             end;
      reflexivity.
Qed.

End EscapeFacts.

Section EscapedStrings.
Import Encode Decode Layout.

(** One byte of a string and its escaped text: the byte itself, or a
    backslash and a letter that the decoder maps back to the byte. *)
Lemma complicatedCase_step c s e :
  complicatedCase (c :: s) = Some e ->
  exists e',
    complicatedCase s = Some e' /\ c <> NUL
    /\ ((e = c :: e' /\ Ascii.eqb c BACKSLASH = false /\ Ascii.eqb c DQUOTE = false)
        \/ exists x,
             e = BACKSLASH :: x :: e'
             /\ forall dst m,
                  decodeEscapes (BACKSLASH :: x :: e') dst m
                  = decodeEscapes e' (S dst) (<[dst := c]> m)).
Proof.
  cbn [complicatedCase].
  destruct (complicatedCase s) as [e'|];
    [|repeat match goal with
             | |- context [if ?g then _ else _] =>
                 lazymatch type of g with bool => destruct g end
             end; discriminate].
  intros H. exists e'. split; [reflexivity|].
  destruct (Ascii.eqb c BACKSLASH) eqn:Hb.
  { apply Ascii.eqb_eq in Hb. subst c. injection H as <-.
    split; [discriminate|]. right. exists BACKSLASH. split; reflexivity. }
  destruct (Ascii.eqb c DQUOTE) eqn:Hq.
  { apply Ascii.eqb_eq in Hq. subst c. injection H as <-.
    split; [discriminate|]. right. exists DQUOTE. split; reflexivity. }
  cbn [orb] in H.
  destruct (Ascii.eqb c "008") eqn:E1.
  { apply Ascii.eqb_eq in E1. subst c. injection H as <-.
    split; [discriminate|]. right. exists "b"%char. split; reflexivity. }
  destruct (Ascii.eqb c "012") eqn:E2.
  { apply Ascii.eqb_eq in E2. subst c. injection H as <-.
    split; [discriminate|]. right. exists "f"%char. split; reflexivity. }
  destruct (Ascii.eqb c "010") eqn:E3.
  { apply Ascii.eqb_eq in E3. subst c. injection H as <-.
    split; [discriminate|]. right. exists "n"%char. split; reflexivity. }
  destruct (Ascii.eqb c "013") eqn:E4.
  { apply Ascii.eqb_eq in E4. subst c. injection H as <-.
    split; [discriminate|]. right. exists "r"%char. split; reflexivity. }
  destruct (Ascii.eqb c "009") eqn:E5.
  { apply Ascii.eqb_eq in E5. subst c. injection H as <-.
    split; [discriminate|]. right. exists "t"%char. split; reflexivity. }
  destruct (code c <? 32) eqn:Hc; [discriminate|]. injection H as <-.
  split; [intros ->; discriminate|]. left. repeat split.
Qed.

Lemma complicatedCase_no_NUL s :
  forall e, complicatedCase s = Some e -> Forall (fun c => c <> NUL) s.
Proof.
  induction s as [|c s IH]; intros e H; [constructor|].
  apply complicatedCase_step in H as (e' & He' & Hc & _).
  constructor; [exact Hc | exact (IH _ He')].
Qed.

Lemma complicatedCase_length s :
  forall e, complicatedCase s = Some e -> (length s <= length e <= 2 * length s)%nat.
Proof.
  induction s as [|c s IH]; intros e H.
  - injection H as <-. simpl. lia.
  - apply complicatedCase_step in H as (e' & He' & _ & [(-> & _)|(x & -> & _)]);
      specialize (IH _ He'); simpl; lia.
Qed.

(** The escaped text has no bare quote and no backslash at its end, and
    it is the string itself when it has no backslash at all. *)
Lemma scanBody_escaped s :
  forall e fastCopy,
    complicatedCase s = Some e ->
    exists fastCopy',
      scanBody e fastCopy = Some fastCopy' /\ (fastCopy' = true -> e = s).
Proof.
  assert (forall e fc, scanBody e false = Some fc -> fc = false) as Hfalse.
  { intros e. remember (length e) as n eqn:Hn. revert e Hn.
    induction n as [n IHn] using lt_wf_ind. intros e Hn fc H.
    destruct e as [|c e]; cbn [scanBody] in H; [congruence|].
    destruct (Ascii.eqb c DQUOTE); [discriminate|].
    destruct (Ascii.eqb c BACKSLASH).
    - destruct e as [|x e]; [discriminate|].
      apply (IHn (length e)) with (e := e); [simpl in Hn; lia | reflexivity | exact H].
    - apply (IHn (length e)) with (e := e); [simpl in Hn; lia | reflexivity | exact H]. }
  induction s as [|c s IH]; intros e fastCopy H.
  - injection H as <-. exists fastCopy. split; reflexivity.
  - apply complicatedCase_step in H as (e' & He' & _ & [(-> & Hb & Hq)|(x & -> & _)]).
    + destruct (IH e' fastCopy He') as (fc' & Hscan & Hsame).
      exists fc'. cbn [scanBody]. rewrite Hb, Hq. split; [exact Hscan|].
      intros Hfc. rewrite Hsame by exact Hfc. reflexivity.
    + destruct (IH e' false He') as (fc' & Hscan & _).
      exists fc'. cbn [scanBody].
      change (Ascii.eqb BACKSLASH DQUOTE) with false.
      change (Ascii.eqb BACKSLASH BACKSLASH) with true. cbv iota.
      split; [exact Hscan|]. intros ->. apply Hfalse in Hscan. discriminate.
Qed.

(** The decoder's escape loop takes the escaped text back to the string. *)
Lemma decodeEscapes_escaped s :
  forall e dst m,
    complicatedCase s = Some e ->
    decodeEscapes e dst m
    = (TTSDKJSON_OK, <[(dst + length s)%nat := NUL]> (memcpy dst s m)).
Proof.
  induction s as [|c s IH]; intros e dst m H.
  - injection H as <-. cbn [decodeEscapes memcpy length]. rewrite Nat.add_0_r. reflexivity.
  - apply complicatedCase_step in H as (e' & He' & _ & [(-> & Hb & Hq)|(x & -> & Hx)]).
    + cbn [decodeEscapes]. rewrite Hb. cbn [negb].
      rewrite (IH _ _ _ He'). cbn [memcpy length]. do 2 f_equal. lia.
    + rewrite Hx, (IH _ _ _ He'). cbn [memcpy length]. do 2 f_equal. lia.
Qed.

End EscapedStrings.

(** ** What the string calls hand to the sink *)

Section EncoderOutput.
Import Encode Sink.
Context {U : Type}.
Local Abbreviation M := (M U).
Local Abbreviation Session := (Session U).

Lemma output_addJSONData data (s : Session) :
  output (snd (addJSONData data s)) = output s ++ data.
Proof.
  unfold addJSONData, output. destruct (addJSONDataFunc _ _ _). cbn [snd emitted].
  rewrite concat_app. cbn [concat]. rewrite app_nil_r. reflexivity.
Qed.

Lemma portion_split string offset a b :
  0 <= offset -> 0 <= a -> 0 <= b ->
  portion string offset (a + b) = portion string offset a ++ portion string (offset + a) b.
Proof.
  intros Ho Ha Hb. unfold portion.
  rewrite !Z2Nat.inj_add by lia. rewrite <- drop_drop. apply eq_sym, take_take_drop.
Qed.

Lemma addEscapedString_loop_output rounds string length :
  forall offset result (s : Session),
    0 <= offset -> (Z.to_nat (length - offset) <= rounds)%nat ->
    fst (addEscapedString_loop rounds string length offset result s) = TTSDKJSON_OK ->
    exists escaped,
      complicatedCase (portion string offset (length - offset)) = Some escaped
      /\ output (snd (addEscapedString_loop rounds string length offset result s))
         = output s ++ escaped.
Proof.
  induction rounds as [|rounds IH]; intros offset result s Hoffset Hrounds Hresult.
  - exists []. unfold portion. replace (Z.to_nat (length - offset)) with O by lia.
    rewrite take_0. cbn. rewrite app_nil_r. split; reflexivity.
  - cbn [addEscapedString_loop] in *.
    destruct (offset <? length) eqn:Hmore.
    2:{ exists []. unfold portion. replace (Z.to_nat (length - offset)) with O by lia.
        rewrite take_0. cbn. rewrite app_nil_r. split; reflexivity. }
    set (toAdd := if length - offset >? TTSDKJSONCODEC_WorkBufferSize / 2
                  then TTSDKJSONCODEC_WorkBufferSize / 2 else length - offset) in *.
    assert (0 < toAdd <= length - offset) as HtoAdd.
    { subst toAdd. change (TTSDKJSONCODEC_WorkBufferSize / 2) with 256.
      destruct (length - offset >? 256) eqn:E; lia. }
    clearbody toAdd.
    rewrite appendEscapedString_escaped in *.
    destruct (complicatedCase (portion string offset toAdd)) as [e1|] eqn:He1;
      [|discriminate Hresult].
    pose proof (output_addJSONData e1 s) as Hout.
    destruct (addJSONData e1 s) as [r s1]. cbn [snd] in Hout.
    destruct (negb (r =? TTSDKJSON_OK)) eqn:Hr.
    { cbn [fst] in Hresult. subst r. discriminate Hr. }
    destruct (IH (offset + toAdd) r s1) as (e2 & He2 & Hout2); [lia | lia | exact Hresult |].
    exists (e1 ++ e2). split.
    + replace (length - offset) with (toAdd + (length - (offset + toAdd))) by lia.
      rewrite portion_split, complicatedCase_app, He1, He2 by lia. reflexivity.
    + rewrite Hout2, Hout, app_assoc. reflexivity.
Qed.

(** When [addEscapedString] returns OK, the chunks it handed to the sink
    are, put together, the escaped text of the whole string. *)
Lemma addEscapedString_output string length (s : Session) :
  fst (addEscapedString string length s) = TTSDKJSON_OK ->
  exists escaped,
    complicatedCase (take (Z.to_nat length) string) = Some escaped
    /\ output (snd (addEscapedString string length s)) = output s ++ escaped.
Proof.
  intros H. unfold addEscapedString in *.
  destruct (addEscapedString_loop_output (Z.to_nat length) string length 0 TTSDKJSON_OK s
              ltac:(lia) ltac:(lia) H) as (e & He & Hout).
  exists e. split; [|exact Hout].
  unfold portion in He. rewrite Z.sub_0_r in He.
  change (Z.to_nat 0) with O in He. rewrite drop_0 in He. exact He.
Qed.

Lemma c_lor_OK a b : c_lor a b = TTSDKJSON_OK -> a = TTSDKJSON_OK /\ b = TTSDKJSON_OK.
Proof.
  unfold c_lor, TTSDKJSON_OK. destruct (Z.eqb_spec a 0), (Z.eqb_spec b 0); cbn; intros; lia.
Qed.

Lemma addQuotedEscapedString_output string length (s : Session) :
  fst (addQuotedEscapedString string length s) = TTSDKJSON_OK ->
  exists escaped,
    complicatedCase (take (Z.to_nat length) string) = Some escaped
    /\ output (snd (addQuotedEscapedString string length s))
       = output s ++ DQUOTE :: escaped ++ [DQUOTE].
Proof.
  unfold addQuotedEscapedString.
  pose proof (output_addJSONData [DQUOTE] s) as H1.
  destruct (addJSONData [DQUOTE] s) as [r1 s1]. cbn [snd] in H1.
  destruct (negb (r1 =? TTSDKJSON_OK)) eqn:Hr1.
  { cbn [fst]. intros ->. discriminate Hr1. }
  pose proof (addEscapedString_output string length s1) as H2.
  destruct (addEscapedString string length s1) as [r2 s2]. cbn [fst snd] in H2.
  pose proof (output_addJSONData [DQUOTE] s2) as H3.
  destruct (addJSONData [DQUOTE] s2) as [r3 s3]. cbn [fst snd] in *.
  intros Hor. apply c_lor_OK in Hor as [-> ->].
  destruct (H2 eq_refl) as (e & He & Hout). exists e. split; [exact He|].
  rewrite H3, Hout, H1, <- !app_assoc. reflexivity.
Qed.

End EncoderOutput.

Section Rejected.
Import Encode Sink.
Context {U : Type}.
Local Abbreviation Session := (Session U).

(** Every byte of a string that has an escaped text is a printable byte
    or one of the five control characters with an escape. *)
Lemma complicatedCase_bytes string :
  forall escaped c,
    complicatedCase string = Some escaped -> In c string ->
    32 <= code c \/ In (code c) [8; 9; 10; 12; 13].
Proof.
  induction string as [|b string IH]; intros escaped c H Hin; [contradiction|].
  destruct Hin as [->|Hin].
  - clear IH. cbn [complicatedCase] in H.
    destruct (Ascii.eqb c BACKSLASH) eqn:Hb.
    { apply Ascii.eqb_eq in Hb. subst c. left. cbv. discriminate. }
    destruct (Ascii.eqb c DQUOTE) eqn:Hq.
    { apply Ascii.eqb_eq in Hq. subst c. left. cbv. discriminate. }
    cbn [orb] in H.
    destruct (Ascii.eqb c "008") eqn:E1.
    { apply Ascii.eqb_eq in E1. subst c. right. cbn. tauto. }
    destruct (Ascii.eqb c "012") eqn:E2.
    { apply Ascii.eqb_eq in E2. subst c. right. cbn. tauto. }
    destruct (Ascii.eqb c "010") eqn:E3.
    { apply Ascii.eqb_eq in E3. subst c. right. cbn. tauto. }
    destruct (Ascii.eqb c "013") eqn:E4.
    { apply Ascii.eqb_eq in E4. subst c. right. cbn. tauto. }
    destruct (Ascii.eqb c "009") eqn:E5.
    { apply Ascii.eqb_eq in E5. subst c. right. cbn. tauto. }
    destruct (Z.ltb_spec (code c) 32); [discriminate|]. left. assumption.
  - apply complicatedCase_step in H as (e' & He' & _). exact (IH _ _ He' Hin).
Qed.

Lemma sink_addJSONData data (s : Session) :
  addJSONDataFunc (context (snd (addJSONData data s))) = addJSONDataFunc (context s).
Proof. unfold addJSONData. destruct (addJSONDataFunc _ _ _). reflexivity. Qed.

Lemma accepted_addJSONData data (s : Session) :
  accepts (addJSONDataFunc (context s)) -> fst (addJSONData data s) = TTSDKJSON_OK.
Proof.
  intros H. unfold addJSONData. specialize (H data (userData (context s))).
  destruct (addJSONDataFunc _ _ _). exact H.
Qed.

Lemma addEscapedString_loop_status rounds string length :
  forall offset (s : Session),
    accepts (addJSONDataFunc (context s)) ->
    fst (addEscapedString_loop rounds string length offset TTSDKJSON_OK s) = TTSDKJSON_OK
    \/ fst (addEscapedString_loop rounds string length offset TTSDKJSON_OK s)
       = TTSDKJSON_ERROR_INVALID_CHARACTER.
Proof.
  induction rounds as [|rounds IH]; intros offset s Hsink; cbn [addEscapedString_loop].
  - left. reflexivity.
  - destruct (offset <? length); [|left; reflexivity].
    rewrite appendEscapedString_escaped.
    destruct (complicatedCase _) as [e|]; [|right; reflexivity].
    pose proof (accepted_addJSONData e s Hsink) as Hr.
    pose proof (sink_addJSONData e s) as Hs.
    destruct (addJSONData e s) as [r s1]. cbn [fst snd] in Hr, Hs. subst r.
    change (negb (TTSDKJSON_OK =? TTSDKJSON_OK)) with false. cbv iota.
    apply IH. rewrite Hs. exact Hsink.
Qed.

(** X2: a control character without an escape makes the string calls fail. *)
Theorem control_character_is_rejected (value : bytes) (length : Z) (c : ascii)
    (s : Session) :
  In c (take (Z.to_nat length) value) ->
  code c < 32 -> ~ In (code c) [8; 9; 10; 12; 13] ->
  fst (ttsdkjson_appendStringElement value length s) <> TTSDKJSON_OK
  /\ (accepts (addJSONDataFunc (context s)) ->
      fst (ttsdkjson_appendStringElement value length s)
      = TTSDKJSON_ERROR_INVALID_CHARACTER).
Proof.
  intros Hin Hcontrol Hescape. unfold ttsdkjson_appendStringElement.
  assert (fst (addEscapedString value length s) <> TTSDKJSON_OK) as Hfails.
  { intros Hok. destruct (addEscapedString_output value length s Hok) as (e & He & _).
    destruct (complicatedCase_bytes _ _ c He Hin); [lia | contradiction]. }
  split; [exact Hfails|]. intros Hsink.
  destruct (addEscapedString_loop_status (Z.to_nat length) value length 0 s Hsink)
    as [Hok|Hinvalid]; [contradiction | exact Hinvalid].
Qed.

End Rejected.

(** ** A string element, encoded and decoded *)

Section StringRoundTrip.
Import Encode Decode Layout Sink.
Context {V U : Type}.
Variable sscanf_lg : bytes -> float.

Local Abbreviation Context := (TTSDKJSONDecodeContext U).

(** The text of a quoted string that the encoder wrote decodes to the
    string, as a C string at the destination. *)
Lemma decodeString_escaped string escaped dst dstLength rest (c : Context) :
  complicatedCase string = Some escaped ->
  Z.of_nat (length escaped) < dstLength ->
  (dst + length string < length (memory c))%nat ->
  exists memory',
    decodeString dst dstLength (set_bufferPtr (DQUOTE :: escaped ++ DQUOTE :: rest) c)
    = (TTSDKJSON_OK, set_bufferPtr rest (set_memory memory' c))
    /\ cstring (drop dst memory') = string
    /\ length memory' = length (memory c)
    /\ sameBelow dst (memory c) memory'.
Proof.
  intros Hescaped Hfits Hroom.
  destruct (scanBody_escaped string escaped true Hescaped) as (fastCopy & Hscan & Hsame).
  destruct (decodeString_local dst dstLength escaped fastCopy rest c Hscan)
    as (p & Hdecode & Hp).
  assert (decodedBody dst dstLength escaped fastCopy (memory c)
          = (TTSDKJSON_OK,
             <[(dst + length string)%nat := NUL]>
               (memcpy dst string (<[dst := NUL]> (memory c))))) as Hbody.
  { unfold decodedBody.
    destruct (Z.of_nat (length escaped) >=? dstLength) eqn:E; [lia|].
    destruct fastCopy.
    - rewrite (Hsame eq_refl). reflexivity.
    - apply decodeEscapes_escaped. exact Hescaped. }
  rewrite Hbody in Hdecode, Hp. cbn [fst snd] in Hdecode, Hp.
  rewrite (Hp eq_refl) in Hdecode.
  eexists. split; [exact Hdecode|]. split; [|split].
  - apply cstring_memcpy.
    + rewrite length_insert. exact Hroom.
    + exact (complicatedCase_no_NUL _ _ Hescaped).
  - rewrite length_insert, memcpy_length, length_insert. reflexivity.
  - intros i Hi. rewrite list_lookup_insert_ne by lia.
    rewrite memcpy_written by (rewrite length_insert; lia).
    rewrite lookup_app_l by (rewrite length_take, length_insert; lia).
    rewrite lookup_take_lt by lia. apply list_lookup_insert_ne. lia.
Qed.

End StringRoundTrip.

Section FirstElement.
Import Encode Sink.
Context {U : Type}.
Local Abbreviation Session := (Session U).

(** The first element of a session: no comma, no indentation, no name. *)
Lemma beginElement_first isObjectWidth pretty sink (u : U) name :
  ttsdkjson_beginElement name (ttsdkjson_beginEncode isObjectWidth pretty sink u)
  = (TTSDKJSON_OK,
     snd (update (set_containerFirstEntry false)
            (ttsdkjson_beginEncode isObjectWidth pretty sink u))).
Proof.
  unfold ttsdkjson_beginElement, orReturn. cbn [ttsdkjson_beginEncode context containerFirstEntry].
  cbn [update snd context set_containerFirstEntry prettyPrint containerLevel].
  change (TTSDKJSON_OK =? TTSDKJSON_OK) with true. cbv iota.
  change (0 >? 0) with false. rewrite andb_false_r.
  change (TTSDKJSON_OK =? TTSDKJSON_OK) with true. cbv iota.
  unfold isObject_at. cbn [isObject containerLevel]. change (0 <? 0) with false. cbv iota.
  change (Z.to_nat 0) with O.
  destruct isObjectWidth; reflexivity.
Qed.

End FirstElement.

Section StringElement.
Import Encode Decode Layout Sink.
Context {V U : Type}.
Variable sscanf_lg : bytes -> float.

(** X1: a string element, encoded first in a fresh session and decoded
    from what the sink was given: when the encoder returned OK and the
    caller's buffer has room, [onStringElement] is invoked with the very
    string and no name; [onEndData] follows when it returned OK. *)
Theorem string_element_round_trip (string : bytes) (isObjectWidth : nat) (pretty : bool)
    (sink : TTSDKJSONAddDataFunc V) (v : V) (stringBuffer : bytes) callbacks
    (userData : U) errorOffset :
  let encoded :=
    ttsdkjson_addStringElement None (Some string) (Z.of_nat (length string))
      (ttsdkjson_beginEncode isObjectWidth pretty sink v) in
  fst encoded = TTSDKJSON_OK ->
  (8 * length string < 3 * length stringBuffer)%nat ->
  exists outcome,
    ttsdkjson_decode sscanf_lg (output (snd encoded)) stringBuffer callbacks userData
      errorOffset = Some outcome
    /\ let (status, userData') := onStringElement callbacks None string userData in
       if status =? TTSDKJSON_OK
       then calls (final outcome) = [OnStringElement None string; OnEndData]
            /\ result outcome = fst (onEndData callbacks userData')
       else calls (final outcome) = [OnStringElement None string]
            /\ result outcome = status.
Proof.
  intros encoded Hencoded Hfits.
  assert (exists escaped,
            complicatedCase string = Some escaped
            /\ output (snd encoded) = DQUOTE :: escaped ++ [DQUOTE]) as (escaped & Hescaped & Hout).
  { subst encoded. unfold ttsdkjson_addStringElement, orReturn in *.
    rewrite beginElement_first in *.
    change (TTSDKJSON_OK =? TTSDKJSON_OK) with true in *. cbv iota in *.
    destruct (Z.eqb_spec (Z.of_nat (length string)) TTSDKJSON_SIZE_AUTOMATIC) as [E|_];
      [unfold TTSDKJSON_SIZE_AUTOMATIC in E; lia|].
    destruct (addQuotedEscapedString_output _ _ _ Hencoded) as (e & He & Hout).
    rewrite Nat2Z.id, firstn_all in He. exists e. split; [exact He|].
    rewrite Hout. reflexivity. }
  rewrite Hout.
  pose proof (complicatedCase_length _ _ Hescaped) as Hlength.
  destruct (ttsdkjson_decode_returns sscanf_lg (DQUOTE :: escaped ++ [DQUOTE])
              stringBuffer callbacks userData errorOffset)
    as (elementResult & context & outcome & Helement & _ & Hdecode & Hend & _).
  exists outcome. split; [exact Hdecode|].
  set (c0 := initialContext (DQUOTE :: escaped ++ [DQUOTE]) stringBuffer callbacks userData)
    in *.
  erewrite decodeElement_string in Helement by reflexivity.
  assert (Z.quot (Z.of_nat (length stringBuffer)) 4 * 4 <= Z.of_nat (length stringBuffer)
          /\ 0 <= Z.quot (Z.of_nat (length stringBuffer)) 4) as Hquarter.
  { pose proof (Z.quot_pos (Z.of_nat (length stringBuffer)) 4 ltac:(lia) ltac:(lia)).
    pose proof (Z.mul_quot_le (Z.of_nat (length stringBuffer)) 4 ltac:(lia) ltac:(lia)). lia. }
  destruct (decodeString_escaped string escaped (Decode.stringBuffer c0) (Decode.stringBufferLength c0)
              [] c0 Hescaped) as (memory' & Hstring & Hcstring & _).
  { subst c0. cbn [Decode.stringBufferLength initialContext]. lia. }
  { subst c0. cbn [Decode.stringBuffer initialContext memory]. lia. }
  change (set_bufferPtr (DQUOTE :: escaped ++ [DQUOTE]) c0) with c0 in Hstring.
  rewrite Hstring in Helement.
  change (negb (TTSDKJSON_OK =? TTSDKJSON_OK)) with false in Helement. cbv iota in Helement.
  cbn [Decode.stringBuffer set_bufferPtr set_memory memory readName] in Helement.
  rewrite Hcstring in Helement.
  unfold invoke in Helement. subst c0.
  cbn [Decode.callbacks Decode.userData set_bufferPtr set_memory initialContext] in Helement.
  destruct (onStringElement callbacks None string userData) as [status userData'].
  injection Helement as <- <-.
  destruct (status =? TTSDKJSON_OK).
  - unfold invoke in Hend. cbn in Hend. destruct (onEndData callbacks userData').
    injection Hend as -> ->. split; reflexivity.
  - injection Hend as -> ->. split; reflexivity.
Qed.

End StringElement.

(** ** Decimal numerals *)

Section Decimals.
Import Encode Decode.

(** The characters of a decimal numeral. *)
Local Abbreviation numeral d := (bytes_of (NilEmpty.string_of_uint d)).

Lemma of_uint_acc_grows d :
  forall acc,
    Z.pos acc * 10 ^ Z.of_nat (Decimal.nb_digits d) <= Z.pos (Pos.of_uint_acc d acc).
Proof.
  induction d; intros acc; cbn [Pos.of_uint_acc Decimal.nb_digits];
    try (etransitivity; [|apply IHd]; rewrite Nat2Z.inj_succ, Z.pow_succ_r by lia; nia).
  rewrite Z.pow_0_r. lia.
Qed.

Lemma of_uint_acc_ge d acc : Z.pos acc <= Z.pos (Pos.of_uint_acc d acc).
Proof.
  pose proof (of_uint_acc_grows d acc).
  assert (0 < 10 ^ Z.of_nat (Decimal.nb_digits d)) by (apply Z.pow_pos_nonneg; lia).
  nia.
Qed.

Lemma numeral_length d : length (numeral d) = Decimal.nb_digits d.
Proof. unfold bytes_of. induction d; simpl; congruence. Qed.

(** One round of the digit loop that does not overflow. *)
Lemma scanDigits_digit k (p : bytes) accum isOverflow :
  0 <= k <= 9 -> 0 <= accum -> 10 * accum + k <= ULLONG_MAX ->
  scanDigits (char_of (48 + k) :: p) accum isOverflow
  = scanDigits p (10 * accum + k) false.
Proof.
  intros Hk Haccum Hmax. unfold ULLONG_MAX in Hmax.
  assert (isdigit (char_of (48 + k)) = true /\ code (char_of (48 + k)) = 48 + k) as [Hd Hc].
  { assert (k = 0 \/ k = 1 \/ k = 2 \/ k = 3 \/ k = 4 \/ k = 5 \/ k = 6 \/ k = 7
            \/ k = 8 \/ k = 9) as Hcases by lia.
    repeat (destruct Hcases as [->|Hcases]; [split; reflexivity|]). subst k.
    split; reflexivity. }
  cbn [scanDigits]. rewrite Hd, Hc.
  change (code "0") with 48. replace (48 + k - 48) with k by lia.
  change (ULLONG_MAX / 10) with 1844674407370955161. unfold ULLONG_MAX, uint64.
  destruct (Z.gtb_spec accum 1844674407370955161); [lia|].
  rewrite (Z.mod_small (accum * 10)) by lia.
  rewrite (Z.mod_small k) by lia.
  destruct (Z.gtb_spec (accum * 10) (2 ^ 64 - 1 - k)); [lia|].
  rewrite Z.mod_small by lia. f_equal. lia.
Qed.

Lemma scanDigits_of_uint_acc d :
  forall acc r,
    isdigit (peek r) = false ->
    Z.pos (Pos.of_uint_acc d acc) <= ULLONG_MAX ->
    scanDigits (numeral d ++ r) (Z.pos acc) false
    = (r, Z.pos (Pos.of_uint_acc d acc), false).
Proof.
  induction d; intros acc r Hr Hmax; cbn [Pos.of_uint_acc] in *;
    try (match goal with
         | |- context [numeral (?D d)] =>
             let k := eval cbv in (code (peek (numeral (D Decimal.Nil))) - 48) in
             change (numeral (D d) ++ r) with (char_of (48 + k) :: numeral d ++ r);
             match type of Hmax with
             | Z.pos (Pos.of_uint_acc d ?acc') <= _ =>
                 pose proof (of_uint_acc_ge d acc');
                 rewrite scanDigits_digit by lia;
                 replace (10 * Z.pos acc + k) with (Z.pos acc') by lia;
                 apply IHd; assumption
             end
         end).
  change (numeral Decimal.Nil ++ r) with r.
  destruct r as [|c r]; cbn [scanDigits]; [reflexivity|].
  cbn [peek hd] in Hr. rewrite Hr. reflexivity.
Qed.

Lemma scanDigits_of_uint d :
  forall r,
    isdigit (peek r) = false ->
    Z.of_N (Pos.of_uint d) <= ULLONG_MAX ->
    scanDigits (numeral d ++ r) 0 false = (r, Z.of_N (Pos.of_uint d), false).
Proof.
  induction d; intros r Hr Hmax; cbn [Pos.of_uint] in *;
    try (match goal with
         | |- context [numeral (?D d)] =>
             let k := eval cbv in (code (peek (numeral (D Decimal.Nil))) - 48) in
             change (numeral (D d) ++ r) with (char_of (48 + k) :: numeral d ++ r);
             match type of Hmax with
             | Z.of_N (N.pos (Pos.of_uint_acc d ?acc')) <= _ =>
                 pose proof (of_uint_acc_ge d acc');
                 rewrite scanDigits_digit by (cbn in *; lia);
                 apply (scanDigits_of_uint_acc d acc' r Hr Hmax)
             end
         end).
  - change (numeral Decimal.Nil ++ r) with r.
    destruct r as [|c r]; cbn [scanDigits]; [reflexivity|].
    cbn [peek hd] in Hr. rewrite Hr. reflexivity.
  - change (numeral (Decimal.D0 d) ++ r) with (char_of (48 + 0) :: numeral d ++ r).
    rewrite scanDigits_digit by (unfold ULLONG_MAX; lia).
    apply IHd; assumption.
Qed.

End Decimals.

Section Integers.
Import Encode Decode.

Local Abbreviation numeral d := (bytes_of (NilEmpty.string_of_uint d)).

Lemma numeral_starts d :
  d <> Decimal.Nil -> exists ch tl, numeral d = ch :: tl /\ isdigit ch = true.
Proof. destruct d; intros H; [contradiction|..]; eexists _, _; split; reflexivity. Qed.

Lemma decimal_pos p : decimal (Z.pos p) = numeral (Pos.to_uint p).
Proof.
  unfold decimal. cbn [Z.to_int NilZero.string_of_int]. unfold NilZero.string_of_uint.
  pose proof (DecimalPos.Unsigned.to_uint_nonnil p). destruct (Pos.to_uint p); [contradiction|..];
    reflexivity.
Qed.

Lemma decimal_neg p : decimal (Z.neg p) = "-"%char :: numeral (Pos.to_uint p).
Proof.
  unfold decimal. cbn [Z.to_int NilZero.string_of_int]. unfold NilZero.string_of_uint.
  pose proof (DecimalPos.Unsigned.to_uint_nonnil p). destruct (Pos.to_uint p); [contradiction|..];
    reflexivity.
Qed.

(** The number of digits: a value below [10 ^ n] has at most [n]. *)
Lemma to_uint_short p n :
  Z.pos p < 10 ^ Z.of_nat n -> (Decimal.nb_digits (Pos.to_uint p) <= n)%nat.
Proof.
  intros Hp.
  pose proof (DecimalPos.Unsigned.of_to p) as Hof.
  pose proof (DecimalPos.Unsigned.to_of (Pos.to_uint p)) as Hnorm.
  rewrite Hof in Hnorm. cbn [N.to_uint] in Hnorm.
  pose proof (DecimalPos.Unsigned.to_uint_nonzero p) as Hnonzero.
  destruct (Pos.to_uint p) as [|d|d|d|d|d|d|d|d|d|d] eqn:Hd;
    cbn [Decimal.nb_digits]; [lia|..];
    try (cbn [Pos.of_uint] in Hof; injection Hof as Hof;
         match type of Hof with
         | Pos.of_uint_acc d ?acc = p =>
             pose proof (of_uint_acc_grows d acc) as Hgrows; rewrite Hof in Hgrows
         end;
         destruct (Nat.le_gt_cases (S (Decimal.nb_digits d)) n) as [|Hlong]; [assumption|];
         assert (10 ^ Z.of_nat n <= 10 ^ Z.of_nat (Decimal.nb_digits d))
           by (apply Z.pow_le_mono_r; lia);
         nia).
  (* a zero in front *)
  change (Decimal.unorm (Decimal.D0 d)) with (Decimal.unorm d) in Hnorm.
  destruct (Decimal.uint_eq_dec d Decimal.Nil) as [->|Hnil]; [contradiction|].
  pose proof (nb_digits_unorm d Hnil) as Hshort. rewrite <- Hnorm in Hshort.
  cbn [Decimal.nb_digits] in Hshort. lia.
Qed.

Lemma decimal_length_unsigned v :
  0 <= v <= UINT64_MAX -> (length (decimal v) <= 20)%nat.
Proof.
  intros Hv. destruct v as [|p|p]; [cbn; lia| |lia].
  rewrite decimal_pos, numeral_length. apply to_uint_short.
  unfold UINT64_MAX in Hv. change (10 ^ Z.of_nat 20) with 100000000000000000000. lia.
Qed.

Lemma decimal_length_signed v :
  INT64_MIN <= v <= INT64_MAX -> (length (decimal v) <= 20)%nat.
Proof.
  unfold INT64_MIN, INT64_MAX. intros Hv. destruct v as [|p|p]; [cbn; lia|..].
  - rewrite decimal_pos, numeral_length.
    etransitivity; [apply (to_uint_short p 19)|lia].
    change (10 ^ Z.of_nat 19) with 10000000000000000000. lia.
  - rewrite decimal_neg. cbn [length]. rewrite numeral_length.
    apply le_n_S. apply (to_uint_short p 19).
    change (10 ^ Z.of_nat 19) with 10000000000000000000. lia.
Qed.

End Integers.

(** ** Integers as text *)

Section IntegerText.
Import Encode Decode.
Context {U : Type}.
Variable sscanf_lg : bytes -> float.
Local Abbreviation Context := (TTSDKJSONDecodeContext U).
Local Abbreviation numeral d := (bytes_of (NilEmpty.string_of_uint d)).

Lemma formatInt64_decimal value bytesWritten :
  INT64_MIN <= value <= INT64_MAX ->
  formatInt64 21 value bytesWritten
  = (TTSDKJSON_OK, decimal value, Z.of_nat (length (decimal value))).
Proof.
  intros Hv. pose proof (decimal_length_signed value Hv).
  unfold formatInt64. rewrite snprintf_fits, checkWriteResult_fits by lia. reflexivity.
Qed.

Lemma formatUint64_decimal value bytesWritten :
  0 <= value <= UINT64_MAX ->
  formatUint64 21 value bytesWritten
  = (TTSDKJSON_OK, decimal value, Z.of_nat (length (decimal value))).
Proof.
  intros Hv. pose proof (decimal_length_unsigned value Hv).
  unfold formatUint64. rewrite snprintf_fits, checkWriteResult_fits by lia. reflexivity.
Qed.

(** The digits case on a digit string that is followed by a byte that is
    no part of a number and whose value fits 64 bits. *)
Lemma decodeNumber_numeral sign name d ch rest (c : Context) :
  isFPChar ch = false ->
  Z.of_N (Pos.of_uint d) <= ULLONG_MAX ->
  (sign >? 0) = true \/ Z.of_N (Pos.of_uint d) <= LLONG_MAX + 1 ->
  decodeNumber sscanf_lg sign name (set_bufferPtr (numeral d ++ ch :: rest) c)
  = let value := Z.of_N (Pos.of_uint d) in
    let after := set_bufferPtr (ch :: rest) c in
    if sign >? 0 then
      if value <=? LLONG_MAX
      then invoke (OnIntegerElement (readName name c) value) after
      else invoke (OnUnsignedIntegerElement (readName name c) value) after
    else invoke (OnIntegerElement (readName name c) (- value)) after.
Proof.
  intros Hch Hmax Hsign. cbv zeta. unfold decodeNumber.
  rewrite bufferPtr_set_bufferPtr.
  rewrite scanDigits_of_uint by (try apply isFPChar_not_digit; assumption).
  cbv beta iota zeta. rewrite set_bufferPtr_twice. cbn [peek hd]. rewrite Hch. cbn [negb andb].
  rewrite readName_set_bufferPtr.
  assert (0 <= Z.of_N (Pos.of_uint d)) as Hpos by lia.
  unfold ULLONG_MAX in Hmax.
  destruct (sign >? 0).
  - destruct (Z.leb_spec (Z.of_N (Pos.of_uint d)) LLONG_MAX) as [Hle|Hgt]; [|reflexivity].
    unfold LLONG_MAX in Hle. unfold int64.
    rewrite Z.mod_small by lia. rewrite Z.add_simpl_r. reflexivity.
  - destruct Hsign as [Hsign|Hle]; [discriminate|].
    destruct (Z.leb_spec (Z.of_N (Pos.of_uint d)) (LLONG_MAX + 1)) as [_|Hgt]; [|lia].
    unfold LLONG_MAX in Hle.
    assert (int64 (- int64 (Z.of_N (Pos.of_uint d))) = - Z.of_N (Pos.of_uint d)) as ->;
      [|reflexivity].
    unfold int64.
    destruct (Z.eq_dec (Z.of_N (Pos.of_uint d)) (2 ^ 63)) as [->|Hne]; [reflexivity|].
    rewrite (Z.mod_small (Z.of_N (Pos.of_uint d) + 2 ^ 63)) by lia.
    replace (- (Z.of_N (Pos.of_uint d) + 2 ^ 63 - 2 ^ 63) + 2 ^ 63)
      with (2 ^ 63 - Z.of_N (Pos.of_uint d)) by lia.
    rewrite Z.mod_small by lia. lia.
Qed.

(** X3: for every value of an [int64_t] or a [uint64_t] the 21 bytes that
    the integer calls format into are enough: the call is the element
    begin followed by the decimal digits of the value, in one chunk. *)
Theorem integer_elements_write_decimal (V : Type) (name : option bytes) (value : Z) :
  (INT64_MIN <= value <= INT64_MAX ->
   ttsdkjson_addIntegerElement (U:=V) name value
   = orReturn (ttsdkjson_beginElement name) (addJSONData (decimal value)))
  /\ (0 <= value <= UINT64_MAX ->
      ttsdkjson_addUIntegerElement (U:=V) name value
      = orReturn (ttsdkjson_beginElement name) (addJSONData (decimal value))).
Proof.
  split; intros Hvalue.
  - unfold ttsdkjson_addIntegerElement. rewrite formatInt64_decimal by exact Hvalue.
    change (negb (TTSDKJSON_OK =? TTSDKJSON_OK)) with false. cbv iota.
    unfold addFormattedNumber. rewrite Nat2Z.id, firstn_all. reflexivity.
  - unfold ttsdkjson_addUIntegerElement. rewrite formatUint64_decimal by exact Hvalue.
    change (negb (TTSDKJSON_OK =? TTSDKJSON_OK)) with false. cbv iota.
    unfold addFormattedNumber. rewrite Nat2Z.id, firstn_all. reflexivity.
Qed.

(** The element decoder on a digit string. *)
Lemma decodeElement_numeral depth name d ch rest (c : Context) :
  d <> Decimal.Nil -> isFPChar ch = false ->
  Z.of_N (Pos.of_uint d) <= ULLONG_MAX ->
  decodeElement sscanf_lg (S depth) name (set_bufferPtr (numeral d ++ ch :: rest) c)
  = Some (invoke
            (if Z.of_N (Pos.of_uint d) <=? LLONG_MAX
             then OnIntegerElement (readName name c) (Z.of_N (Pos.of_uint d))
             else OnUnsignedIntegerElement (readName name c) (Z.of_N (Pos.of_uint d)))
            (set_bufferPtr (ch :: rest) c)).
Proof.
  intros Hd Hch Hmax.
  destruct (numeral_starts d Hd) as (first & tl & Hnumeral & Hfirst).
  erewrite decodeElement_digit
    by (try exact Hfirst; rewrite bufferPtr_set_bufferPtr, Hnumeral; reflexivity).
  rewrite decodeNumber_numeral by (try assumption; left; reflexivity).
  cbv zeta. change (1 >? 0) with true. cbv iota.
  destruct (Z.of_N (Pos.of_uint d) <=? LLONG_MAX); reflexivity.
Qed.

Lemma decodeElement_negative_numeral depth name d ch rest (c : Context) :
  d <> Decimal.Nil -> isFPChar ch = false ->
  Z.of_N (Pos.of_uint d) <= LLONG_MAX + 1 ->
  decodeElement sscanf_lg (S depth) name
    (set_bufferPtr ("-"%char :: numeral d ++ ch :: rest) c)
  = Some (invoke (OnIntegerElement (readName name c) (- Z.of_N (Pos.of_uint d)))
            (set_bufferPtr (ch :: rest) c)).
Proof.
  intros Hd Hch Hmax.
  destruct (numeral_starts d Hd) as (first & tl & Hnumeral & Hfirst).
  erewrite decodeElement_minus by (rewrite bufferPtr_set_bufferPtr; reflexivity).
  rewrite Hnumeral at 1. cbn [app peek hd]. rewrite Hfirst. cbn [negb].
  rewrite set_bufferPtr_twice.
  rewrite decodeNumber_numeral
    by first [assumption | right; assumption | unfold ULLONG_MAX, LLONG_MAX in *; lia].
  cbv zeta. change (-1 >? 0) with false. cbv iota. reflexivity.
Qed.

(** X4: a string of decimal digits, zeros in front or not, that is followed
    by a byte that is no part of a number, is decoded as an integer when
    its value fits 64 bits: [onIntegerElement] up to INT64_MAX,
    [onUnsignedIntegerElement] above; with a minus sign in front,
    [onIntegerElement] of the negated value down to INT64_MIN. *)
Theorem digits_decode_as_integers (depth : nat) (name : NamePointer) (d : Decimal.uint)
    (ch : ascii) (rest : bytes) (c : Context) :
  d <> Decimal.Nil -> isFPChar ch = false ->
  let value := Z.of_N (Pos.of_uint d) in
  let digits := bytes_of (NilEmpty.string_of_uint d) in
  let after := set_bufferPtr (ch :: rest) c in
  (value <= LLONG_MAX ->
   decodeElement sscanf_lg (S depth) name (set_bufferPtr (digits ++ ch :: rest) c)
   = Some (invoke (OnIntegerElement (readName name c) value) after))
  /\ (LLONG_MAX < value <= ULLONG_MAX ->
      decodeElement sscanf_lg (S depth) name (set_bufferPtr (digits ++ ch :: rest) c)
      = Some (invoke (OnUnsignedIntegerElement (readName name c) value) after))
  /\ (value <= LLONG_MAX + 1 ->
      decodeElement sscanf_lg (S depth) name
        (set_bufferPtr ("-"%char :: digits ++ ch :: rest) c)
      = Some (invoke (OnIntegerElement (readName name c) (- value)) after)).
Proof.
  intros Hd Hch value digits after. subst value digits after.
  split; [|split]; intros Hvalue.
  - rewrite decodeElement_numeral
      by (try assumption; unfold ULLONG_MAX, LLONG_MAX in *; lia).
    destruct (Z.leb_spec (Z.of_N (Pos.of_uint d)) LLONG_MAX); [reflexivity|lia].
  - rewrite decodeElement_numeral by (try assumption; lia).
    destruct (Z.leb_spec (Z.of_N (Pos.of_uint d)) LLONG_MAX); [lia|reflexivity].
  - apply decodeElement_negative_numeral; assumption.
Qed.

End IntegerText.

(** * More on the encoder *)

(** ** Closing the containers *)

Section Closing.
Import Encode Sink.
Context {U : Type}.
Local Abbreviation Session := (Session U).
Local Abbreviation level s := (containerLevel (context s)).

Lemma sameContext_refl (s : Session) : sameContext s s.
Proof. repeat split. Qed.

Lemma sameContext_trans (s1 s2 s3 : Session) :
  sameContext s1 s2 -> sameContext s2 s3 -> sameContext s1 s3.
Proof. unfold sameContext. intuition congruence. Qed.

Lemma sameContext_addJSONData data (s : Session) : sameContext s (snd (addJSONData data s)).
Proof. unfold addJSONData. destruct (addJSONDataFunc _ _ _). repeat split. Qed.

Lemma accepted_indent n :
  forall s : Session,
    accepts (addJSONDataFunc (context s)) ->
    fst (indent n s) = TTSDKJSON_OK /\ sameContext s (snd (indent n s)).
Proof.
  induction n as [|n IH]; intros s Hsink; cbn [indent].
  - split; [reflexivity | apply sameContext_refl].
  - unfold orReturn.
    pose proof (accepted_addJSONData (bytes_of "    ") s Hsink) as Hr.
    pose proof (sameContext_addJSONData (bytes_of "    ") s) as Hs.
    destruct (addJSONData (bytes_of "    ") s) as [r s1]. cbn [fst snd] in Hr, Hs. subst r.
    change (TTSDKJSON_OK =? TTSDKJSON_OK) with true. cbv iota.
    destruct (IH s1) as [Hok Hsame]; [rewrite (proj1 Hs); exact Hsink|].
    split; [exact Hok | exact (sameContext_trans _ _ _ Hs Hsame)].
Qed.

(** The container close on a sink that accepts: one level down, the
    closing bracket of the kind that was opened as the last byte, and
    without pretty printing as the only one. *)
Lemma endContainer_accepted (s : Session) :
  accepts (addJSONDataFunc (context s)) -> 0 < level s ->
  let closing := if isObject_at (context s) (level s) then "}"%char else "]"%char in
  exists s',
    ttsdkjson_endContainer s = (TTSDKJSON_OK, s')
    /\ addJSONDataFunc (context s') = addJSONDataFunc (context s)
    /\ level s' = level s - 1
    /\ isObject (context s') = isObject (context s)
    /\ prettyPrint (context s') = prettyPrint (context s)
    /\ containerFirstEntry (context s') = false
    /\ (prettyPrint (context s) = false -> output s' = output s ++ [closing]).
Proof.
  intros Hsink Hlevel closing. unfold ttsdkjson_endContainer.
  destruct (Z.leb_spec (level s) 0) as [|_]; [lia|]. cbv zeta. fold closing.
  set (s0 := snd (update _ s)).
  assert (addJSONDataFunc (context s0) = addJSONDataFunc (context s)
          /\ level s0 = level s - 1
          /\ isObject (context s0) = isObject (context s)
          /\ prettyPrint (context s0) = prettyPrint (context s)
          /\ output s0 = output s)
    as (Hsink0 & Hlevel0 & Hflags0 & Hpretty0 & Hout0) by (repeat split).
  clearbody s0. unfold orReturn at 1. cbv beta.
  assert (exists s1,
            (if prettyPrint (context s0) && negb (containerFirstEntry (context s0))
             then orReturn (addJSONData ["010"%char])
                    (indent (Z.to_nat (containerLevel (context s0)))) s0
             else (TTSDKJSON_OK, s0)) = (TTSDKJSON_OK, s1)
            /\ sameContext s0 s1
            /\ (prettyPrint (context s0) = false -> s1 = s0)) as (s1 & -> & Hsame1 & Hplain).
  { destruct (prettyPrint (context s0)) eqn:Hpretty; cbn [andb].
    2:{ exists s0. repeat split. }
    destruct (containerFirstEntry (context s0)); cbn [negb].
    { exists s0. split; [reflexivity|]. split; [apply sameContext_refl | discriminate]. }
    unfold orReturn.
    pose proof (accepted_addJSONData ["010"%char] s0 ltac:(rewrite Hsink0; exact Hsink)) as Hr.
    pose proof (sameContext_addJSONData ["010"%char] s0) as Hs.
    destruct (addJSONData ["010"%char] s0) as [r t]. cbn [fst snd] in Hr, Hs. subst r.
    change (TTSDKJSON_OK =? TTSDKJSON_OK) with true. cbv iota.
    destruct (accepted_indent (Z.to_nat (containerLevel (context s0))) t) as [Hok Hsame];
      [rewrite (proj1 Hs), Hsink0; exact Hsink|].
    destruct (indent _ t) as [r t']. cbn [fst snd] in Hok, Hsame. subst r.
    exists t'. split; [reflexivity|].
    split; [exact (sameContext_trans _ _ _ Hs Hsame) | discriminate]. }
  change (TTSDKJSON_OK =? TTSDKJSON_OK) with true. cbv iota.
  destruct Hsame1 as (Hsink1 & Hlevel1 & Hflags1 & _ & Hpretty1).
  set (s2 := snd (update (set_containerFirstEntry false) s1)).
  assert (addJSONDataFunc (context s2) = addJSONDataFunc (context s1)
          /\ level s2 = level s1 /\ isObject (context s2) = isObject (context s1)
          /\ prettyPrint (context s2) = prettyPrint (context s1)
          /\ containerFirstEntry (context s2) = false
          /\ output s2 = output s1) as (Hsink2 & Hlevel2 & Hflags2 & Hpretty2 & Hfirst2 & Hout2)
    by (repeat split).
  clearbody s2.
  pose proof (accepted_addJSONData [closing] s2
                ltac:(rewrite Hsink2, Hsink1, Hsink0; exact Hsink)) as Hr.
  destruct (sameContext_addJSONData [closing] s2)
    as (Hsink3 & Hlevel3 & Hflags3 & Hfirst3 & Hpretty3).
  pose proof (output_addJSONData [closing] s2) as Hout3.
  destruct (addJSONData [closing] s2) as [r s3]. cbn [fst snd] in *. subst r.
  exists s3. split; [reflexivity|].
  repeat split; try congruence.
  intros Hplain0. rewrite Hout3, Hout2.
  rewrite Hplain by congruence. rewrite Hout0. reflexivity.
Qed.

Lemma endEncode_loop_accepted rounds :
  forall (s : Session) result,
    accepts (addJSONDataFunc (context s)) ->
    result = TTSDKJSON_OK ->
    (Z.to_nat (level s) <= rounds)%nat ->
    fst (endEncode_loop rounds result s) = TTSDKJSON_OK
    /\ level (snd (endEncode_loop rounds result s)) = Z.min (level s) 0
    /\ (prettyPrint (context s) = false ->
        output (snd (endEncode_loop rounds result s))
        = output s ++ closings s (Z.to_nat (level s))).
Proof.
  induction rounds as [|rounds IH]; intros s result Hsink -> Hrounds;
    cbn [endEncode_loop].
  - unfold ret. cbn [fst snd]. replace (Z.to_nat (level s)) with O by lia.
    split; [reflexivity|]. split; [lia|]. intros _. cbn. rewrite app_nil_r. reflexivity.
  - destruct (Z.gtb_spec (level s) 0) as [Hopen|Hclosed].
    2:{ cbn [fst snd]. replace (Z.to_nat (level s)) with O by lia.
        split; [reflexivity|]. split; [lia|]. intros _. cbn. rewrite app_nil_r.
        reflexivity. }
    destruct (endContainer_accepted s Hsink ltac:(lia))
      as (s1 & -> & Hsink1 & Hlevel1 & Hflags1 & Hpretty1 & _ & Hout1).
    change (negb (TTSDKJSON_OK =? TTSDKJSON_OK)) with false. cbv iota.
    destruct (IH s1 TTSDKJSON_OK) as (Hok' & Hlevel' & Hout');
      [rewrite Hsink1; exact Hsink | reflexivity | lia |].
    split; [exact Hok'|]. split; [lia|].
    intros Hplain. rewrite Hout', Hout1 by congruence.
    rewrite <- app_assoc. f_equal.
    replace (Z.to_nat (level s)) with (S (Z.to_nat (level s1))) by lia.
    unfold closings. rewrite seq_S, rev_app_distr. cbn [rev app map].
    f_equal.
    + unfold isObject_at.
      replace (Z.of_nat (1 + Z.to_nat (level s1))) with (level s) by lia. reflexivity.
    + apply map_ext. intros i. unfold isObject_at. rewrite Hflags1. reflexivity.
Qed.

(** X5: on a sink that accepts, end-encode returns OK and leaves no
    container open; without pretty printing, what it hands to the sink is
    one closing bracket for every open level, the innermost first, each of
    the kind the level was opened with. *)
Theorem endEncode_closes_every_container (s : Session) :
  accepts (addJSONDataFunc (context s)) -> 0 <= containerLevel (context s) ->
  fst (ttsdkjson_endEncode s) = TTSDKJSON_OK
  /\ containerLevel (context (snd (ttsdkjson_endEncode s))) = 0
  /\ (prettyPrint (context s) = false ->
      output (snd (ttsdkjson_endEncode s))
      = output s
        ++ map (fun i => if isObject_at (context s) (Z.of_nat i) then "}"%char else "]"%char)
               (rev (seq 1 (Z.to_nat (containerLevel (context s)))))).
Proof.
  intros Hsink Hlevel. unfold ttsdkjson_endEncode.
  destruct (endEncode_loop_accepted (Z.to_nat (level s)) s TTSDKJSON_OK Hsink eq_refl
              ltac:(lia)) as (Hok & Hzero & Hout).
  split; [exact Hok|]. split; [lia | exact Hout].
Qed.

End Closing.

(** ** A sink that refuses *)

Section Refusal.
Import Encode Sink.
Context {U : Type}.
Variable printf_g : Z -> float -> bytes.
Variable printf_f1 : float -> bytes.
Variable to_float : float -> float.
Local Abbreviation Session := (Session U).
Local Abbreviation quiet := (Sink.quiet (U:=U)).

Lemma quiet_pure (f : Session -> Z * Session) :
  (forall s, emitted (snd (f s)) = emitted s
             /\ addJSONDataFunc (context (snd (f s))) = addJSONDataFunc (context s)) ->
  quiet f.
Proof. intros H s _ _. apply H. Qed.

Lemma quiet_ret result : quiet (ret result).
Proof. apply quiet_pure. intros s. split; reflexivity. Qed.

Lemma refused_addJSONData data (s : Session) :
  refuses (addJSONDataFunc (context s)) -> fst (addJSONData data s) <> TTSDKJSON_OK.
Proof.
  intros Hsink. unfold addJSONData. specialize (Hsink data (userData (context s))).
  destruct (addJSONDataFunc _ _ _). exact Hsink.
Qed.

Lemma quiet_addJSONData data : quiet (addJSONData data).
Proof. intros s Hsink Hok. destruct (refused_addJSONData data s Hsink Hok). Qed.

Lemma quiet_orReturn (m k : M U Z) : quiet m -> quiet k -> quiet (orReturn m k).
Proof.
  intros Hm Hk s Hsink. unfold orReturn. specialize (Hm s Hsink).
  destruct (m s) as [r s1]. cbn [fst snd] in Hm.
  destruct (Z.eqb_spec r TTSDKJSON_OK) as [->|Hr].
  - destruct (Hm eq_refl) as [Hlog Hsame]. intros Hok.
    destruct (Hk s1 ltac:(rewrite Hsame; exact Hsink) Hok) as [Hlog' Hsame'].
    split; congruence.
  - cbn [fst]. intros Hok. contradiction.
Qed.

Lemma quiet_if (b : bool) (m k : M U Z) : quiet m -> quiet k -> quiet (if b then m else k).
Proof. destruct b; auto. Qed.

Lemma quiet_indent n : quiet (indent n).
Proof.
  induction n; cbn [indent].
  - apply quiet_ret.
  - apply quiet_orReturn; [apply quiet_addJSONData | assumption].
Qed.

Lemma quiet_appendEscapedString string : quiet (appendEscapedString string).
Proof.
  intros s Hsink. rewrite appendEscapedString_escaped.
  destruct (complicatedCase string); [apply quiet_addJSONData; exact Hsink|].
  cbn [fst]. discriminate.
Qed.

Lemma quiet_addEscapedString_loop rounds string length :
  forall offset, quiet (addEscapedString_loop rounds string length offset TTSDKJSON_OK).
Proof.
  induction rounds as [|rounds IH]; intros offset; cbn [addEscapedString_loop].
  - apply quiet_ret.
  - destruct (offset <? length); [|apply quiet_ret].
    intros s Hsink.
    pose proof (quiet_appendEscapedString
                  (portion string offset
                     (if length - offset >? TTSDKJSONCODEC_WorkBufferSize / 2
                      then TTSDKJSONCODEC_WorkBufferSize / 2 else length - offset))
                  s Hsink) as H.
    destruct (appendEscapedString _ s) as [r s1]. cbn [fst snd] in H.
    destruct (Z.eqb_spec r TTSDKJSON_OK) as [->|Hr]; cbn [negb].
    + destruct (H eq_refl) as [Hlog Hsame]. intros Hok.
      destruct (IH _ s1 ltac:(rewrite Hsame; exact Hsink) Hok). split; congruence.
    + cbn [fst]. intros Hok. contradiction.
Qed.

Lemma quiet_addEscapedString string length : quiet (addEscapedString string length).
Proof. apply quiet_addEscapedString_loop. Qed.

Lemma quiet_addQuotedEscapedString string length :
  quiet (addQuotedEscapedString string length).
Proof.
  intros s Hsink Hok. exfalso. unfold addQuotedEscapedString in Hok.
  pose proof (refused_addJSONData [DQUOTE] s Hsink) as H.
  destruct (addJSONData [DQUOTE] s) as [r s1]. cbn [fst] in H.
  destruct (Z.eqb_spec r TTSDKJSON_OK) as [->|Hr]; [contradiction|].
  cbn [negb fst] in Hok. contradiction.
Qed.

Lemma quiet_beginElement name : quiet (ttsdkjson_beginElement name).
Proof.
  unfold ttsdkjson_beginElement. repeat apply quiet_orReturn.
  - intros s. destruct (containerFirstEntry (context s)).
    + intros _ _. split; reflexivity.
    + apply quiet_addJSONData.
  - intros s. cbv zeta. destruct (prettyPrint (context s) && _).
    + apply quiet_orReturn; [apply quiet_addJSONData | apply quiet_indent].
    + intros _ _. split; reflexivity.
  - intros s. cbv zeta. destruct (isObject_at (context s) _).
    + destruct name as [name|]; [|cbn [fst]; discriminate].
      apply quiet_orReturn; [apply quiet_addQuotedEscapedString|].
      destruct (prettyPrint (context s)); apply quiet_addJSONData.
    + intros _ _. split; reflexivity.
Qed.

Lemma quiet_appendDataElement_loop value : quiet (appendDataElement_loop value TTSDKJSON_OK).
Proof.
  destruct value as [|b value]; cbn [appendDataElement_loop]; [apply quiet_ret|].
  intros s Hsink Hok. exfalso.
  match type of Hok with context [addJSONData ?d s] =>
    pose proof (refused_addJSONData d s Hsink) as H;
    destruct (addJSONData d s) as [r s1]
  end.
  cbn [fst] in H.
  destruct (Z.eqb_spec r TTSDKJSON_OK) as [->|Hr]; [contradiction|].
  cbn [negb fst] in Hok. contradiction.
Qed.

Lemma quiet_open kind (opening : bytes) name :
  quiet (orReturn
           (fun s => if containerLevel (context s) >=? 0 then ttsdkjson_beginElement name s
                     else (TTSDKJSON_OK, s))
           (fun s => addJSONData opening (snd (update (pushLevel kind) s)))).
Proof.
  apply quiet_orReturn.
  - intros t. destruct (containerLevel (context t) >=? 0).
    + apply quiet_beginElement.
    + intros _ _. split; reflexivity.
  - intros s Hsink Hok. exfalso. revert Hok. apply refused_addJSONData.
    unfold update, pushLevel, isObject_store. cbn.
    destruct (_ <? 0); exact Hsink.
Qed.

Lemma quiet_endContainer : quiet ttsdkjson_endContainer.
Proof.
  intros s Hsink. unfold ttsdkjson_endContainer.
  destruct (containerLevel (context s) <=? 0); [intros _; split; reflexivity|].
  cbv zeta.
  match goal with
  | |- context [orReturn ?A ?B ?s0] =>
      assert (quiet (orReturn A B)) as Hq; [|exact (Hq s0 Hsink)]
  end.
  apply quiet_orReturn.
  - intros t. cbv zeta. destruct (prettyPrint (context t) && _).
    + apply quiet_orReturn; [apply quiet_addJSONData | apply quiet_indent].
    + intros _ _. split; reflexivity.
  - intros t Ht Hok. exfalso. revert Hok. apply refused_addJSONData. exact Ht.
Qed.

Lemma quiet_endEncode_loop rounds : quiet (endEncode_loop rounds TTSDKJSON_OK).
Proof.
  induction rounds as [|rounds IH]; cbn [endEncode_loop]; [apply quiet_ret|].
  intros s Hsink. destruct (containerLevel (context s) >? 0); [|intros _; split; reflexivity].
  pose proof (quiet_endContainer s Hsink) as H.
  destruct (ttsdkjson_endContainer s) as [r s1]. cbn [fst snd] in H.
  destruct (Z.eqb_spec r TTSDKJSON_OK) as [->|Hr]; cbn [negb].
  - destruct (H eq_refl) as [Hlog Hsame]. intros Hok.
    destruct (IH s1 ltac:(rewrite Hsame; exact Hsink) Hok). split; congruence.
  - cbn [fst]. intros Hok. contradiction.
Qed.

(** X6: the refusal of the sink is never swallowed: on a sink that
    refuses every chunk, an operation returns OK only when it handed
    nothing to the sink. *)
Theorem refusal_is_reported (op : Operation) (s : Session) :
  refuses (addJSONDataFunc (context s)) ->
  fst (perform printf_g printf_f1 to_float op s) = TTSDKJSON_OK ->
  emitted (snd (perform printf_g printf_f1 to_float op s)) = emitted s.
Proof.
  intros Hsink Hok.
  assert (quiet (perform printf_g printf_f1 to_float op)) as Hq; [|exact (proj1 (Hq s Hsink Hok))].
  clear s Hsink Hok.
  destruct op; cbn [perform];
    unfold ttsdkjson_addRawJSONData, ttsdkjson_addBooleanElement,
      ttsdkjson_addFloatingPointElement, ttsdkjson_addIntegerElement,
      ttsdkjson_addUIntegerElement, ttsdkjson_addNullElement,
      ttsdkjson_addStringElement, ttsdkjson_beginStringElement,
      ttsdkjson_appendStringElement, ttsdkjson_endStringElement,
      ttsdkjson_addDataElement, ttsdkjson_beginDataElement,
      ttsdkjson_appendDataElement, ttsdkjson_endDataElement,
      ttsdkjson_beginStringElement, ttsdkjson_endStringElement,
      ttsdkjson_addNullElement, ttsdkjson_beginArray, ttsdkjson_beginObject,
      addFormattedNumber;
    repeat first
      [ apply quiet_beginElement | apply quiet_addJSONData | apply quiet_ret
      | apply quiet_addEscapedString | apply quiet_addQuotedEscapedString
      | apply quiet_appendDataElement_loop | apply quiet_open | apply quiet_endContainer
      | apply quiet_orReturn | apply quiet_if ].
  - destruct (formatDouble _ _ _ _ _ _) as [[r b] w].
    destruct (negb _); [apply quiet_ret|].
    apply quiet_orReturn; [apply quiet_beginElement | apply quiet_addJSONData].
  - destruct (formatInt64 _ _ _) as [[r b] w].
    destruct (negb _); [apply quiet_ret|].
    apply quiet_orReturn; [apply quiet_beginElement | apply quiet_addJSONData].
  - destruct (formatUint64 _ _ _) as [[r b] w].
    destruct (negb _); [apply quiet_ret|].
    apply quiet_orReturn; [apply quiet_beginElement | apply quiet_addJSONData].
  - destruct value; unfold ttsdkjson_addNullElement;
      repeat first [ apply quiet_beginElement | apply quiet_addJSONData
                   | apply quiet_addQuotedEscapedString | apply quiet_orReturn ].
  - intros s. unfold ttsdkjson_endEncode. apply quiet_endEncode_loop.
Qed.

End Refusal.

(** ** Names inside an object *)

Section Names.
Import Encode Sink.
Context {U : Type}.
Variable printf_g : Z -> float -> bytes.
Variable printf_f1 : float -> bytes.
Variable to_float : float -> float.
Local Abbreviation Session := (Session U).
Local Abbreviation level s := (containerLevel (context s)).

(** The element begin without a name, inside an object: whatever the sink
    does, the result is not OK; on a sink that accepts it is
    [TTSDKJSON_ERROR_INVALID_DATA]. *)
Lemma beginElement_unnamed (s : Session) :
  isObject_at (context s) (level s) = true ->
  fst (ttsdkjson_beginElement None s) <> TTSDKJSON_OK
  /\ (accepts (addJSONDataFunc (context s)) ->
      fst (ttsdkjson_beginElement None s) = TTSDKJSON_ERROR_INVALID_DATA).
Proof.
  intros Hobject. unfold ttsdkjson_beginElement.
  set (comma := fun s : Session => if containerFirstEntry (context s)
                 then (TTSDKJSON_OK, snd (update (set_containerFirstEntry false) s))
                 else addJSONData [","%char] s).
  set (pretty := fun s : Session => let c := context s in
                 if prettyPrint c && (containerLevel c >? 0)
                 then orReturn (addJSONData ["010"%char])
                        (indent (Z.to_nat (containerLevel c))) s
                 else (TTSDKJSON_OK, s)).
  assert (forall t : Session,
             isObject_at (context t) (level t) = true ->
             isObject_at (context (snd (comma t))) (level (snd (comma t))) = true
             /\ addJSONDataFunc (context (snd (comma t))) = addJSONDataFunc (context t)
             /\ (accepts (addJSONDataFunc (context t)) -> fst (comma t) = TTSDKJSON_OK))
    as Hcomma.
  { intros t Ht. subst comma. cbv beta.
    destruct (containerFirstEntry (context t)).
    - cbn. repeat split. exact Ht.
    - destruct (sameContext_addJSONData [","%char] t) as (Hs & Hl & Hf & _).
      split; [|split; [exact Hs | apply accepted_addJSONData]].
      unfold isObject_at in *. rewrite Hl, Hf. exact Ht. }
  assert (forall t : Session,
             isObject_at (context t) (level t) = true ->
             isObject_at (context (snd (pretty t))) (level (snd (pretty t))) = true
             /\ (accepts (addJSONDataFunc (context t)) -> fst (pretty t) = TTSDKJSON_OK))
    as Hpretty.
  { intros t Ht. subst pretty. cbv beta zeta.
    destruct (prettyPrint (context t) && _); [|split; [exact Ht | reflexivity]].
    unfold orReturn.
    pose proof (sameContext_addJSONData ["010"%char] t) as Hs.
    pose proof (accepted_addJSONData ["010"%char] t) as Ha.
    destruct (addJSONData ["010"%char] t) as [r t1]. cbn [fst snd] in Hs, Ha.
    destruct Hs as (Hs & Hl & Hf & _).
    destruct (Z.eqb_spec r TTSDKJSON_OK) as [->|Hr].
    - pose proof (accepted_indent (Z.to_nat (level t)) t1) as Hi.
      assert (sameContext t1 (snd (indent (Z.to_nat (level t)) t1))) as (_ & Hl' & Hf' & _).
      { clear. generalize (Z.to_nat (level t)). intros n. revert t1.
        induction n as [|n IH]; intros t1; cbn [indent]; [apply sameContext_refl|].
        unfold orReturn.
        pose proof (sameContext_addJSONData (bytes_of "    ") t1) as Hs.
        destruct (addJSONData (bytes_of "    ") t1) as [r t2]. cbn [snd] in Hs.
        destruct (r =? TTSDKJSON_OK); [|exact Hs].
        exact (sameContext_trans _ _ _ Hs (IH t2)). }
      split.
      + unfold isObject_at in *. rewrite Hl', Hf', Hl, Hf. exact Ht.
      + intros Hsink. apply Hi. rewrite Hs. exact Hsink.
    - cbn [fst snd]. split.
      + unfold isObject_at in *. rewrite Hl, Hf. exact Ht.
      + intros Hsink. specialize (Ha Hsink). contradiction. }
  unfold orReturn.
  destruct (Hcomma s Hobject) as (Hobject1 & Hsink1 & Hok1).
  destruct (comma s) as [r1 s1]. cbn [fst snd] in *.
  destruct (Z.eqb_spec r1 TTSDKJSON_OK) as [->|Hr1].
  2:{ cbn [fst]. split; [exact Hr1|]. intros Hsink. specialize (Hok1 Hsink). contradiction. }
  destruct (Hpretty s1 Hobject1) as (Hobject2 & Hok2).
  destruct (pretty s1) as [r2 s2]. cbn [fst snd] in *.
  destruct (Z.eqb_spec r2 TTSDKJSON_OK) as [->|Hr2].
  2:{ cbn [fst]. split; [exact Hr2|]. intros Hsink.
      rewrite Hsink1 in Hok2. specialize (Hok2 Hsink). contradiction. }
  rewrite Hobject2. cbn [fst]. split; [discriminate | reflexivity].
Qed.

(** X7: inside an object every call that takes a name and is given [NULL]
    fails and leaves the nesting level as it is: no container is opened. *)
Theorem name_is_required_in_object (op : Operation) (s : Session) :
  0 <= containerLevel (context s) ->
  isObject_at (context s) (containerLevel (context s)) = true ->
  unnamed op = true ->
  fst (perform printf_g printf_f1 to_float op s) <> TTSDKJSON_OK
  /\ containerLevel (context (snd (perform printf_g printf_f1 to_float op s)))
     = containerLevel (context s)
  /\ (accepts (addJSONDataFunc (context s)) ->
      fst (ttsdkjson_beginElement None s) = TTSDKJSON_ERROR_INVALID_DATA).
Proof.
  intros Hlevel Hobject Hop.
  destruct (beginElement_unnamed s Hobject) as [Hfails Hinvalid].
  split; [|split; [|exact Hinvalid]].
  - destruct op as [[?|]|?|[?|] ?|[?|] ?|[?|] ?|[?|] ?|[?|]|[?|] ? ?|[?|]|? ?| |[?|] ? ?|[?|]
                    |? ?| |[?|]|[?|]| | ]; try discriminate Hop; cbn [perform];
      unfold ttsdkjson_addBooleanElement, ttsdkjson_addFloatingPointElement,
        ttsdkjson_addIntegerElement, ttsdkjson_addUIntegerElement,
        ttsdkjson_addNullElement, ttsdkjson_addStringElement, ttsdkjson_addDataElement,
        ttsdkjson_beginDataElement, ttsdkjson_beginStringElement,
        ttsdkjson_beginArray, ttsdkjson_beginObject, addFormattedNumber;
      try (destruct (formatDouble _ _ _ _ _ _) as [[r b] w]);
      try (destruct (formatInt64 _ _ _) as [[r b] w]);
      try (destruct (formatUint64 _ _ _) as [[r b] w]);
      try (destruct (Z.eqb_spec r TTSDKJSON_OK) as [->|Hr]; cbn [negb];
           [|unfold ret; cbn [fst]; exact Hr]);
      try match goal with |- context [match ?v with Some _ => _ | None => _ end] =>
            destruct v; unfold ttsdkjson_addNullElement end;
      unfold orReturn;
      try (destruct (Z.geb_spec (level s) 0) as [_|]; [|lia]);
      destruct (ttsdkjson_beginElement None s) as [r1 s1]; cbn [fst] in *;
      repeat (cbv beta iota;
              match goal with
              | |- context [r1 =? TTSDKJSON_OK] =>
                  destruct (Z.eqb_spec r1 TTSDKJSON_OK) as [->|?]; [contradiction|]
              end);
      cbn [fst]; exact Hfails.
  - pose proof (keepsLevel_element (U:=U) printf_g printf_f1 to_float op) as Hkeeps.
    destruct op as [[?|]|?|[?|] ?|[?|] ?|[?|] ?|[?|] ?|[?|]|[?|] ? ?|[?|]|? ?| |[?|] ? ?|[?|]
                    |? ?| |[?|]|[?|]| | ]; try discriminate Hop;
      try (apply Hkeeps); cbn [perform];
      unfold ttsdkjson_beginArray, ttsdkjson_beginObject, orReturn;
      (destruct (Z.geb_spec (level s) 0) as [_|]; [|lia]);
      pose proof (keepsLevel_beginElement (U:=U) None s) as Hsame;
      destruct (ttsdkjson_beginElement None s) as [r1 s1]; cbn [fst snd] in *;
      (destruct (Z.eqb_spec r1 TTSDKJSON_OK) as [->|_]; [contradiction|]);
      exact Hsame.
Qed.

End Names.

(** * More on the decoder *)

(** ** Inputs that are no element *)

Section Edges.
Import Decode Layout.
Context {U : Type}.
Variable sscanf_lg : bytes -> float.
Local Abbreviation Context := (TTSDKJSONDecodeContext U).

Lemma skipWhitespace_blank w : whitespace w = true -> skipWhitespace w = [].
Proof.
  induction w as [|ch w IH]; cbn [whitespace forallb skipWhitespace]; [reflexivity|].
  intros H. apply andb_prop in H as [-> H]. exact (IH H).
Qed.

(** X8: an input that is empty or holds only whitespace is incomplete: no
    callback is invoked, the caller's buffer and user data are as they
    were, and the error offset is 0. *)
Theorem blank_input_is_incomplete (data stringBuffer : bytes) callbacks (userData : U)
    errorOffset :
  forallb isspace data = true ->
  exists outcome,
    ttsdkjson_decode sscanf_lg data stringBuffer callbacks userData errorOffset
    = Some outcome
    /\ result outcome = TTSDKJSON_ERROR_INCOMPLETE
    /\ calls (final outcome) = []
    /\ memory (final outcome) = stringBuffer
    /\ Decode.userData (final outcome) = userData
    /\ errorOffsetValue outcome = option_map (fun _ => 0) errorOffset.
Proof.
  intros Hblank. unfold ttsdkjson_decode. cbn [decodeElement].
  unfold SKIP_WHITESPACE. cbn [bufferPtr initialContext set_bufferPtr].
  rewrite (skipWhitespace_blank data Hblank).
  change (TTSDKJSON_ERROR_INCOMPLETE =? TTSDKJSON_OK) with false. cbv iota.
  eexists. split; [reflexivity|]. cbn [result final calls memory Decode.userData errorOffsetValue].
  repeat split. destruct errorOffset; cbn [negb option_map]; [|reflexivity].
  f_equal. lia.
Qed.

(** X9: a first byte that starts no element: the result is
    [TTSDKJSON_ERROR_INVALID_CHARACTER] and no callback is invoked; so it
    is for a minus sign in front of a byte of the data that is no
    digit. *)
Theorem unexpected_first_byte (w : bytes) (ch : ascii) (rest stringBuffer : bytes)
    callbacks (userData : U) errorOffset :
  forallb isspace w = true -> isspace ch = false ->
  ~ In ch (DQUOTE :: bytes_of "[{ftn-0123456789")
  \/ (ch = "-"%char /\ rest <> [] /\ isdigit (peek rest) = false) ->
  exists outcome,
    ttsdkjson_decode sscanf_lg (w ++ ch :: rest) stringBuffer callbacks userData errorOffset
    = Some outcome
    /\ result outcome = TTSDKJSON_ERROR_INVALID_CHARACTER
    /\ calls (final outcome) = []
    /\ Decode.userData (final outcome) = userData.
Proof.
  intros Hblank Hch Hstart. unfold ttsdkjson_decode. cbn [decodeElement].
  set (c0 := initialContext (w ++ ch :: rest) stringBuffer callbacks userData).
  change c0 with (set_bufferPtr (w ++ ch :: rest) c0) at 1 2 3 4 5.
  rewrite (SKIP_WHITESPACE_skip w ch rest c0 Hblank Hch).
  cbn [bufferPtr set_bufferPtr].
  assert (forall x, In x (DQUOTE :: bytes_of "[{ftn-0123456789")
                    \/ (Ascii.eqb x "[" = false /\ Ascii.eqb x "{" = false
                        /\ Ascii.eqb x DQUOTE = false /\ Ascii.eqb x "f" = false
                        /\ Ascii.eqb x "t" = false /\ Ascii.eqb x "n" = false
                        /\ Ascii.eqb x "-" = false /\ isdigit x = false)) as Hcases.
  { intros x. destruct x as [[] [] [] [] [] [] [] []];
      first [ right; repeat split; reflexivity
            | left; repeat (first [left; reflexivity | right]) ]. }
  destruct Hstart as [Hnone|(-> & _ & Hdigit)].
  - destruct (Hcases ch) as [Hin|(H1 & H2 & H3 & H4 & H5 & H6 & H7 & H8)].
    + contradiction.
    + rewrite H1, H2, H3, H4, H5, H6, H7, H8.
      change (TTSDKJSON_ERROR_INVALID_CHARACTER =? TTSDKJSON_OK) with false. cbv iota.
      eexists. split; [reflexivity|]. repeat split.
  - cbn [Ascii.eqb Bool.eqb]. cbv iota. rewrite Hdigit. cbn [negb].
    change (TTSDKJSON_ERROR_INVALID_CHARACTER =? TTSDKJSON_OK) with false. cbv iota.
    eexists. split; [reflexivity|]. repeat split.
Qed.

End Edges.

(** ** The three literals *)

Section Literals.
Import Decode Layout.
Context {U : Type}.
Variable sscanf_lg : bytes -> float.
Local Abbreviation Context := (TTSDKJSONDecodeContext U).

Ltac literal_bytes p :=
  destruct p as [|? [|? [|? [|? [|? p]]]]];
  cbn [length] in *; try lia.

Ltac compare_bytes :=
  repeat match goal with
         | |- context [Ascii.eqb ?a ?b] =>
             let E := fresh "E" in
             destruct (Ascii.eqb a b) eqn:E;
             [apply Ascii.eqb_eq in E; subst|apply Ascii.eqb_neq in E]
         end.

(** What the element decoder does at a byte that starts a literal. *)
Lemma decodeElement_word depth name (c : Context) word call :
  (word = bytes_of "true" /\ call = OnBooleanElement (readName name c) true)
  \/ (word = bytes_of "false" /\ call = OnBooleanElement (readName name c) false)
  \/ (word = bytes_of "null" /\ call = OnNullElement (readName name c)) ->
  peek (bufferPtr c) = peek word ->
  decodeElement sscanf_lg (S depth) name c = Some (decodeLiteral word call c).
Proof.
  intros Hword Hfirst.
  destruct (bufferPtr c) as [|ch p] eqn:Hp.
  { destruct Hword as [[-> _]|[[-> _]|[-> _]]]; discriminate Hfirst. }
  cbn [peek hd] in Hfirst.
  rewrite (decodeElement_literal sscanf_lg depth name c ch p Hp).
  destruct Hword as [[-> ->]|[[-> ->]|[-> ->]]]; cbn in Hfirst; subst ch; reflexivity.
Qed.

(** X10: a literal is checked in full and nothing behind it is looked at:
    with fewer bytes left than the word has, the result is
    [TTSDKJSON_ERROR_INCOMPLETE]; with other bytes than the word's,
    [TTSDKJSON_ERROR_INVALID_CHARACTER]; and the word itself invokes its
    callback with the buffer pointer behind it, whatever follows. *)
Theorem literal_is_checked_in_full (depth : nat) (name : NamePointer) (c : Context)
    (word : bytes) (call : Call) :
  (word = bytes_of "true" /\ call = OnBooleanElement (readName name c) true)
  \/ (word = bytes_of "false" /\ call = OnBooleanElement (readName name c) false)
  \/ (word = bytes_of "null" /\ call = OnNullElement (readName name c)) ->
  peek (bufferPtr c) = peek word ->
  let p := bufferPtr c in
  ((length p < length word)%nat ->
   decodeElement sscanf_lg (S depth) name c = Some (TTSDKJSON_ERROR_INCOMPLETE, c))
  /\ ((length word <= length p)%nat -> take (length word) p <> word ->
      decodeElement sscanf_lg (S depth) name c = Some (TTSDKJSON_ERROR_INVALID_CHARACTER, c))
  /\ (take (length word) p = word ->
      decodeElement sscanf_lg (S depth) name c
      = Some (invoke call (set_bufferPtr (drop (length word) p) c))).
Proof.
  intros Hword Hfirst p.
  rewrite (decodeElement_word depth name c word call Hword Hfirst).
  split; [|split].
  - intros Hshort. unfold decodeLiteral. fold p.
    destruct (Z.ltb_spec (Z.of_nat (length p)) (Z.of_nat (length word))); [reflexivity|lia].
  - intros Hlong Hother. unfold decodeLiteral. fold p.
    change (bufferPtr c) with p in Hfirst. clearbody p.
    destruct (Z.ltb_spec (Z.of_nat (length p)) (Z.of_nat (length word))); [lia|].
    destruct Hword as [[-> _]|[[-> _]|[-> _]]];
      cbn [bytes_of list_ascii_of_string length] in *;
      literal_bytes p; cbn [seq forallb at_index nth Nat.sub];
      cbn [peek hd] in Hfirst; subst;
      compare_bytes; cbn [andb negb]; try reflexivity;
      exfalso; apply Hother; reflexivity.
  - intros Htake.
    assert (bufferPtr c = word ++ drop (length word) p) as Hp
      by (rewrite <- Htake at 1; symmetry; apply take_drop).
    set (r := drop (length word) p) in *. clearbody r.
    rewrite <- (set_bufferPtr_same c) at 1. rewrite Hp.
    rewrite decodeLiteral_local, invoke_set_bufferPtr. reflexivity.
Qed.

End Literals.

(** ** UTF-8 *)

Section UTF8.
Import Decode.

(** A property of the integers below [n] that a computation confirms. *)
Lemma checked_below (f : Z -> bool) (n : nat) :
  forallb f (map Z.of_nat (seq 0 n)) = true ->
  forall x, 0 <= x < Z.of_nat n -> f x = true.
Proof.
  intros Hall x Hx. rewrite forallb_forall in Hall. apply Hall.
  apply in_map_iff. exists (Z.to_nat x). split; [lia|]. apply in_seq. lia.
Qed.

(** The tag of a byte and its payload share no bit. *)
Lemma tagged tag width x :
  In (tag, width) [(0x80, 64%nat); (0xc0, 32%nat); (0xe0, 16%nat); (0xf0, 8%nat)] ->
  0 <= x < Z.of_nat width -> Z.lor tag x = tag + x.
Proof.
  intros Htag Hx.
  assert (forallb (fun x => Z.lor tag x =? tag + x) (map Z.of_nat (seq 0 width)) = true)
    as Hall.
  { cbn [In] in Htag.
    destruct Htag as [H|[H|[H|[H|[]]]]]; injection H as <- <-; vm_compute; reflexivity. }
  apply Z.eqb_eq. exact (checked_below _ _ Hall x Hx).
Qed.

Lemma continuation x : Z.land x 0x3f = x mod 64.
Proof. change 0x3f with (Z.ones 6). rewrite Z.land_ones by lia. reflexivity. Qed.

Lemma shifted x n : 0 <= n -> Z.shiftr x n = x / 2 ^ n.
Proof. intros Hn. apply Z.shiftr_div_pow2. exact Hn. Qed.

(** X11: [writeUTF8] writes the UTF-8 form of the character: one byte up to
    0x7f, two up to 0x7ff, three up to 0xffff, four up to 0x10ffff, each
    with its tag and its six-bit groups, and moves [dst] behind them;
    above 0x10ffff it writes nothing and returns
    [TTSDKJSON_ERROR_INVALID_CHARACTER].  The rest of the memory is as it
    was. *)
Theorem writeUTF8_is_UTF8 (character : Z) (dst : nat) (memory : bytes) :
  0 <= character -> (dst + 4 <= length memory)%nat ->
  let '(result, dst', memory') := writeUTF8 character dst memory in
  let written :=
    if character <=? 0x7f then [character]
    else if character <=? 0x7ff then [0xc0 + character / 64; 0x80 + character mod 64]
    else if character <=? 0xffff
    then [0xe0 + character / 4096; 0x80 + character / 64 mod 64; 0x80 + character mod 64]
    else if character <=? 0x10ffff
    then [0xf0 + character / 262144; 0x80 + character / 4096 mod 64;
          0x80 + character / 64 mod 64; 0x80 + character mod 64]
    else [] in
  result = (if character <=? 0x10ffff then TTSDKJSON_OK
            else TTSDKJSON_ERROR_INVALID_CHARACTER)
  /\ dst' = (dst + length written)%nat
  /\ Forall (fun b => 0 <= b < 256) written
  /\ memory' = take dst memory ++ map char_of written ++ drop dst' memory.
Proof.
  intros Hpos Hroom. unfold writeUTF8.
  destruct (Z.leb_spec character 0x7f) as [H1|H1].
  { cbn [length map]. split; [|split; [|split]].
    - destruct (Z.leb_spec character 0x10ffff); [reflexivity|lia].
    - lia.
    - repeat constructor; lia.
    - change (<[dst := char_of character]> memory)
        with (memcpy dst [char_of character] memory).
      rewrite memcpy_written by (cbn [length]; lia). cbn [length].
      do 3 f_equal. lia. }
  destruct (Z.leb_spec character 0x7ff) as [H2|H2].
  { cbn [length map]. split; [|split; [|split]].
    - destruct (Z.leb_spec character 0x10ffff); [reflexivity|lia].
    - reflexivity.
    - assert (0 <= character / 64 < 32)
        by (split; [apply Z.div_pos; lia | apply Z.div_lt_upper_bound; lia]).
      pose proof (Z.mod_pos_bound character 64 ltac:(lia)).
      repeat constructor; lia.
    - rewrite continuation, shifted by lia. change (2 ^ 6) with 64.
      rewrite (tagged 0xc0 32), (tagged 0x80 64).
      + match goal with |- <[_ := ?b]> (<[_ := ?a]> _) = _ =>
          change (<[S dst := b]> (<[dst := a]> memory)) with (memcpy dst [a; b] memory) end.
        rewrite memcpy_written by (cbn [length]; lia). reflexivity.
      + cbn [In]. tauto.
      + apply Z.mod_pos_bound. lia.
      + cbn [In]. tauto.
      + split; [apply Z.div_pos; lia | apply Z.div_lt_upper_bound; lia]. }
  destruct (Z.leb_spec character 0xffff) as [H3|H3].
  { cbn [length map]. split; [|split; [|split]].
    - destruct (Z.leb_spec character 0x10ffff); [reflexivity|lia].
    - reflexivity.
    - assert (0 <= character / 4096 < 16)
        by (split; [apply Z.div_pos; lia | apply Z.div_lt_upper_bound; lia]).
      pose proof (Z.mod_pos_bound character 64 ltac:(lia)).
      pose proof (Z.mod_pos_bound (character / 64) 64 ltac:(lia)).
      repeat constructor; lia.
    - rewrite !continuation, !shifted by lia. change (2 ^ 6) with 64. change (2 ^ 12) with 4096.
      rewrite (tagged 0xe0 16), !(tagged 0x80 64).
      + match goal with |- <[_ := ?c]> (<[_ := ?b]> (<[_ := ?a]> _)) = _ =>
          change (<[S (S dst) := c]> (<[S dst := b]> (<[dst := a]> memory)))
            with (memcpy dst [a; b; c] memory) end.
        rewrite memcpy_written by (cbn [length]; lia). reflexivity.
      + cbn [In]. tauto.
      + apply Z.mod_pos_bound. lia.
      + cbn [In]. tauto.
      + apply Z.mod_pos_bound. lia.
      + cbn [In]. tauto.
      + split; [apply Z.div_pos; lia | apply Z.div_lt_upper_bound; lia]. }
  destruct (Z.leb_spec character 0x10ffff) as [H4|H4].
  { cbn [length map]. split; [|split; [|split]].
    - reflexivity.
    - reflexivity.
    - assert (0 <= character / 262144 < 8)
        by (split; [apply Z.div_pos; lia | apply Z.div_lt_upper_bound; lia]).
      pose proof (Z.mod_pos_bound character 64 ltac:(lia)).
      pose proof (Z.mod_pos_bound (character / 64) 64 ltac:(lia)).
      pose proof (Z.mod_pos_bound (character / 4096) 64 ltac:(lia)).
      repeat constructor; lia.
    - rewrite !continuation, !shifted by lia.
      change (2 ^ 6) with 64. change (2 ^ 12) with 4096. change (2 ^ 18) with 262144.
      rewrite (tagged 0xf0 8), !(tagged 0x80 64).
      + match goal with |- <[_ := ?d]> (<[_ := ?c]> (<[_ := ?b]> (<[_ := ?a]> _))) = _ =>
          change (<[S (S (S dst)) := d]> (<[S (S dst) := c]> (<[S dst := b]> (<[dst := a]> memory))))
            with (memcpy dst [a; b; c; d] memory) end.
        rewrite memcpy_written by (cbn [length]; lia). reflexivity.
      + cbn [In]. tauto.
      + apply Z.mod_pos_bound. lia.
      + cbn [In]. tauto.
      + apply Z.mod_pos_bound. lia.
      + cbn [In]. tauto.
      + apply Z.mod_pos_bound. lia.
      + cbn [In]. tauto.
      + split; [apply Z.div_pos; lia | apply Z.div_lt_upper_bound; lia]. }
  cbn [length map app]. split; [reflexivity|]. split; [lia|]. split; [constructor|].
  symmetry. apply take_drop.
Qed.

End UTF8.

(** ** The bytes a decoded string may touch *)

Section Destination.
Import Decode Buffer.
Context {U : Type}.
Local Abbreviation Context := (TTSDKJSONDecodeContext U).

Lemma sameOutside_refl lo hi m : sameOutside lo hi m m.
Proof. split; reflexivity. Qed.

Lemma sameOutside_trans lo hi lo' hi' m1 m2 m3 :
  (lo <= lo')%nat -> (hi' <= hi)%nat ->
  sameOutside lo hi m1 m2 -> sameOutside lo' hi' m2 m3 -> sameOutside lo hi m1 m3.
Proof.
  intros Hlo Hhi [Hl1 H1] [Hl2 H2]. split; [congruence|].
  intros i Hi. rewrite H2 by lia. apply H1. lia.
Qed.

Lemma sameOutside_store lo hi j (x : ascii) m :
  (lo <= j <= hi)%nat -> sameOutside lo hi m (<[j := x]> m).
Proof.
  intros Hj. split; [apply length_insert|].
  intros i Hi. apply list_lookup_insert_ne. lia.
Qed.

Lemma sameOutside_memcpy src :
  forall lo hi dst m,
    (lo <= dst)%nat -> (dst + length src <= S hi)%nat ->
    sameOutside lo hi m (memcpy dst src m).
Proof.
  induction src as [|c src IH]; intros lo hi dst m Hlo Hhi; cbn [memcpy length] in *.
  - apply sameOutside_refl.
  - apply sameOutside_trans with (lo' := lo) (hi' := hi) (m2 := <[dst := c]> m);
      [lia | lia | apply sameOutside_store; lia | apply IH; lia].
Qed.

Lemma writeUTF8_within character dst m :
  (dst <= snd (fst (writeUTF8 character dst m)) <= dst + 4)%nat
  /\ sameOutside dst (dst + 3) m (snd (writeUTF8 character dst m)).
Proof.
  unfold writeUTF8.
  destruct (character <=? 0x7f); [|destruct (character <=? 0x7ff);
    [|destruct (character <=? 0xffff); [|destruct (character <=? 0x10ffff)]]];
    cbn [fst snd]; (split; [lia|]); (split; [rewrite ?length_insert; reflexivity|]);
    intros i Hi; rewrite ?list_lookup_insert_ne by lia; reflexivity.
Qed.

(** The escape loop stores no further than its source is long. *)
Lemma decodeEscapes_within src :
  forall dst m, sameOutside dst (dst + length src) m (snd (decodeEscapes src dst m)).
Proof.
  remember (length src) as k eqn:Hk. revert src Hk.
  induction k as [k IH] using lt_wf_ind. intros src Hk dst m. subst k.
  assert (forall src' dst' m',
            (dst <= dst')%nat -> (dst' + length src' <= dst + length src)%nat ->
            (length src' < length src)%nat ->
            sameOutside dst (dst + length src) m m' ->
            sameOutside dst (dst + length src) m (snd (decodeEscapes src' dst' m')))
    as Hrec.
  { intros src' dst' m' Hdst Hend Hlen Hm.
    apply sameOutside_trans with (lo' := dst') (hi' := (dst' + length src')%nat) (m2 := m');
      [lia | lia | exact Hm|].
    apply (IH (length src')); [lia | reflexivity]. }
  assert (forall j x, (dst <= j <= dst + length src)%nat ->
            sameOutside dst (dst + length src) m (<[j := x]> m)) as Hstore
    by (intros; apply sameOutside_store; assumption).
  destruct src as [|c src1]; cbn [decodeEscapes snd]; [apply Hstore; lia|].
  destruct (negb (Ascii.eqb c BACKSLASH)).
  { apply Hrec; [lia | cbn [length]; lia | cbn [length]; lia | apply Hstore; cbn [length]; lia]. }
  destruct src1 as [|e src2].
  { cbn [snd].
    apply sameOutside_trans
      with (lo' := dst) (hi' := (dst + length [c])%nat) (m2 := <[dst := DQUOTE]> m);
      [lia | lia | apply Hstore; cbn [length]; lia
      | apply sameOutside_store; cbn [length]; lia]. }
  cbv zeta.
  repeat match goal with
         | |- sameOutside _ _ _ (snd (if Ascii.eqb e ?x then _ else _)) =>
             destruct (Ascii.eqb e x);
             [apply Hrec; [lia | cbn [length]; lia | cbn [length]; lia
                          | apply Hstore; cbn [length]; lia]|]
         end.
  destruct (Ascii.eqb e "u"); [|apply sameOutside_refl].
  destruct src2 as [|h1 [|h2 [|h3 [|h4 src6]]]]; try apply sameOutside_refl.
  destruct (hexAccum h1 h2 h3 h4 >? 65535); [apply sameOutside_refl|].
  destruct ((hexAccum h1 h2 h3 h4 >=? 56320) && _); [apply sameOutside_refl|].
  destruct ((hexAccum h1 h2 h3 h4 >=? 55296) && _).
  - destruct src6 as [|b [|u [|k1 [|k2 [|k3 [|k4 src12]]]]]]; try apply sameOutside_refl.
    destruct (negb (Ascii.eqb b BACKSLASH) || _); [apply sameOutside_refl|].
    destruct ((hexAccum k1 k2 k3 k4 <? 56320) || _); [apply sameOutside_refl|].
    match goal with |- context [writeUTF8 ?a dst m] =>
      pose proof (writeUTF8_within a dst m) as [Hdst Hm];
      destruct (writeUTF8 a dst m) as [[r dst'] m'] end.
    cbn [fst snd] in Hdst, Hm.
    assert (sameOutside dst (dst + length (c :: e :: h1 :: h2 :: h3 :: h4 :: b :: u
                                             :: k1 :: k2 :: k3 :: k4 :: src12)) m m') as Hm'.
    { apply sameOutside_trans with (lo' := dst) (hi' := (dst + 3)%nat) (m2 := m);
        [lia | cbn [length]; lia | apply sameOutside_refl | exact Hm]. }
    destruct (negb (r =? TTSDKJSON_OK)); [exact Hm'|].
    apply Hrec; [lia | cbn [length]; lia | cbn [length]; lia | exact Hm'].
  - match goal with |- context [writeUTF8 ?a dst m] =>
      pose proof (writeUTF8_within a dst m) as [Hdst Hm];
      destruct (writeUTF8 a dst m) as [[r dst'] m'] end.
    cbn [fst snd] in Hdst, Hm.
    assert (sameOutside dst (dst + length (c :: e :: h1 :: h2 :: h3 :: h4 :: src6)) m m')
      as Hm'.
    { apply sameOutside_trans with (lo' := dst) (hi' := (dst + 3)%nat) (m2 := m);
        [lia | cbn [length]; lia | apply sameOutside_refl | exact Hm]. }
    destruct (negb (r =? TTSDKJSON_OK)); [exact Hm'|].
    apply Hrec; [lia | cbn [length]; lia | cbn [length]; lia | exact Hm'].
Qed.

(** X12: a decoded string stays in its destination: whatever the input and
    whatever the result, [decodeString] leaves every byte of the memory
    outside the [dstBufferLength] bytes at [dstBuffer] as it was. *)
Theorem decodeString_stays_in_destination (dstBuffer : nat) (dstBufferLength : Z)
    (c : Context) :
  0 < dstBufferLength ->
  let c' := snd (decodeString dstBuffer dstBufferLength c) in
  length (memory c') = length (memory c)
  /\ forall i,
       (i < dstBuffer \/ dstBuffer + Z.to_nat dstBufferLength <= i)%nat ->
       memory c' !! i = memory c !! i.
Proof.
  intros Hlength. cbv zeta.
  assert (sameOutside dstBuffer (dstBuffer + Z.to_nat dstBufferLength - 1) (memory c)
            (memory (snd (decodeString dstBuffer dstBufferLength c)))) as [Hlen Hsame].
  2:{ split; [exact Hlen|]. intros i Hi. apply Hsame. lia. }
  set (hi := (dstBuffer + Z.to_nat dstBufferLength - 1)%nat).
  assert (sameOutside dstBuffer hi (memory c) (<[dstBuffer := NUL]> (memory c))) as Hcleared
    by (apply sameOutside_store; subst hi; lia).
  unfold decodeString. cbv zeta. cbn [bufferPtr set_memory memory].
  destruct (negb _); [exact Hcleared|].
  destruct (scanString _ true) as [[n fastCopy]|]; [|exact Hcleared].
  destruct (Z.geb_spec (Z.of_nat n) dstBufferLength) as [|Hfits]; [exact Hcleared|].
  cbn [set_bufferPtr memory].
  destruct fastCopy; cbn [snd set_memory memory].
  - apply sameOutside_trans
      with (lo' := dstBuffer) (hi' := hi) (m2 := <[dstBuffer := NUL]> (memory c));
      [lia | lia | exact Hcleared|].
    apply sameOutside_trans
      with (lo' := dstBuffer) (hi' := hi)
           (m2 := memcpy dstBuffer (take n (tail (bufferPtr c))) (<[dstBuffer := NUL]> (memory c)));
      [lia | lia | |apply sameOutside_store; subst hi; lia].
    apply sameOutside_memcpy; [lia|]. rewrite length_take. subst hi. lia.
  - pose proof (decodeEscapes_within (take n (tail (bufferPtr c))) dstBuffer
                  (<[dstBuffer := NUL]> (memory c))) as Hwithin.
    destruct (decodeEscapes _ _ _) as [r m']. cbn [snd memory set_memory] in *.
    apply sameOutside_trans
      with (lo' := dstBuffer) (hi' := (dstBuffer + length (take n (tail (bufferPtr c))))%nat)
           (m2 := <[dstBuffer := NUL]> (memory c));
      [lia | rewrite length_take; subst hi; lia | exact Hcleared | exact Hwithin].
Qed.

End Destination.

(** ** Integers that do not fit 64 bits *)

Section Overflow.
Import Decode.
Context {U : Type}.
Variable sscanf_lg : bytes -> float.
Local Abbreviation Context := (TTSDKJSONDecodeContext U).
Local Abbreviation numeral d := (bytes_of (NilEmpty.string_of_uint d)).

Lemma numeral_FPChars d : forallb isFPChar (numeral d) = true.
Proof. induction d; cbn; try assumption; reflexivity. Qed.

Lemma numeral_no_NUL d : Forall (fun c => c <> NUL) (numeral d).
Proof. induction d; cbn; constructor; try assumption; discriminate. Qed.

(** The digit at which the value leaves 64 bits stops the loop. *)
Lemma scanDigits_stops k (p : bytes) accum isOverflow :
  0 <= k <= 9 -> 0 <= accum -> ULLONG_MAX < 10 * accum + k ->
  fst (fst (scanDigits (char_of (48 + k) :: p) accum isOverflow)) = char_of (48 + k) :: p.
Proof.
  intros Hk Haccum Hmax. unfold ULLONG_MAX in Hmax.
  assert (isdigit (char_of (48 + k)) = true /\ code (char_of (48 + k)) = 48 + k) as [Hd Hc].
  { assert (k = 0 \/ k = 1 \/ k = 2 \/ k = 3 \/ k = 4 \/ k = 5 \/ k = 6 \/ k = 7
            \/ k = 8 \/ k = 9) as Hcases by lia.
    repeat (destruct Hcases as [->|Hcases]; [split; reflexivity|]). subst k.
    split; reflexivity. }
  cbn [scanDigits]. rewrite Hd, Hc.
  change (code "0") with 48. replace (48 + k - 48) with k by lia.
  change (ULLONG_MAX / 10) with 1844674407370955161. unfold ULLONG_MAX, uint64.
  destruct (Z.gtb_spec accum 1844674407370955161); [reflexivity|].
  rewrite (Z.mod_small (accum * 10)) by lia.
  rewrite (Z.mod_small k) by lia.
  destruct (Z.gtb_spec (accum * 10) (2 ^ 64 - 1 - k)); [reflexivity|lia].
Qed.

Lemma scanDigits_overflow_acc d :
  forall acc,
    Z.pos acc <= ULLONG_MAX -> ULLONG_MAX < Z.pos (Pos.of_uint_acc d acc) ->
    fst (fst (scanDigits (numeral d) (Z.pos acc) false)) <> [].
Proof.
  induction d; intros acc Hacc Hmax; cbn [Pos.of_uint_acc] in *; [lia|..];
    match goal with
       | |- context [numeral (?D d)] =>
           let k := eval cbv in (code (peek (numeral (D Decimal.Nil))) - 48) in
           change (numeral (D d)) with (char_of (48 + k) :: numeral d);
           destruct (Z.le_gt_cases (10 * Z.pos acc + k) ULLONG_MAX) as [Hfits|Hover];
           [ rewrite scanDigits_digit by lia;
             match type of Hmax with
             | _ < Z.pos (Pos.of_uint_acc d ?acc') =>
                 replace (10 * Z.pos acc + k) with (Z.pos acc') by lia;
                 apply IHd; [lia | exact Hmax]
             end
           | rewrite scanDigits_stops by lia; discriminate ]
       end.
Qed.

Lemma scanDigits_overflow d :
  ULLONG_MAX < Z.of_N (Pos.of_uint d) ->
  fst (fst (scanDigits (numeral d) 0 false)) <> [].
Proof.
  induction d; intros Hmax; cbn [Pos.of_uint] in *;
    [unfold ULLONG_MAX in Hmax; cbn in Hmax; lia|..];
    try match goal with
       | |- context [numeral (?D d)] =>
           let k := eval cbv in (code (peek (numeral (D Decimal.Nil))) - 48) in
           change (numeral (D d)) with (char_of (48 + k) :: numeral d);
           rewrite scanDigits_digit by (unfold ULLONG_MAX; lia);
           match type of Hmax with
           | _ < Z.of_N (N.pos (Pos.of_uint_acc d ?acc')) =>
               change (10 * 0 + k) with (Z.pos acc');
               apply scanDigits_overflow_acc; [unfold ULLONG_MAX; lia | exact Hmax]
           end
       end.
  change (numeral (Decimal.D0 d)) with (char_of (48 + 0) :: numeral d).
  rewrite scanDigits_digit by (unfold ULLONG_MAX; lia). apply IHd. exact Hmax.
Qed.

(** The digits case when the integer conversion does not apply: the
    digits are handed to [sscanf] as a C string in the string buffer. *)
Lemma decodeNumber_floatingPoint sign name d ch rest (c : Context) :
  isFPChar ch = false ->
  ULLONG_MAX < Z.of_N (Pos.of_uint d)
  \/ ((sign >? 0) = false /\ LLONG_MAX + 1 < Z.of_N (Pos.of_uint d)) ->
  Z.of_nat (length (numeral d)) < stringBufferLength c ->
  (stringBuffer c + length (numeral d) < length (memory c))%nat ->
  let memory' := <[(stringBuffer c + length (numeral d))%nat := NUL]>
                   (memcpy (stringBuffer c) (numeral d) (memory c)) in
  let c' := set_memory memory' (set_bufferPtr (ch :: rest) c) in
  decodeNumber sscanf_lg sign name (set_bufferPtr (numeral d ++ ch :: rest) c)
  = invoke (OnFloatingPointElement (readName name c')
              (PrimFloat.mul (sscanf_lg (numeral d))
                 (if sign >? 0 then 1 else -1)%float)) c'.
Proof.
  intros Hch Hlarge Hfits Hroom memory' c'.
  assert (isdigit (peek (ch :: rest)) = false) as Hnodigit
    by (apply isFPChar_not_digit; exact Hch).
  unfold decodeNumber. rewrite bufferPtr_set_bufferPtr.
  rewrite scanDigits_local by exact Hnodigit.
  pose proof (scanDigits_FPChars (numeral d) 0 false (numeral_FPChars d)) as HFP.
  pose proof (scanDigits_length (numeral d) 0 false) as Hlen.
  assert ((ULLONG_MAX < Z.of_N (Pos.of_uint d) ->
           fst (fst (scanDigits (numeral d) 0 false)) <> [])
          /\ (Z.of_N (Pos.of_uint d) <= ULLONG_MAX ->
              scanDigits (numeral d) 0 false = ([], Z.of_N (Pos.of_uint d), false)))
    as [Hover Hexact].
  { split; [apply scanDigits_overflow|]. intros Hle.
    pose proof (scanDigits_of_uint d [] eq_refl Hle) as H.
    rewrite app_nil_r in H. exact H. }
  destruct (scanDigits (numeral d) 0 false) as [[q accum] isOverflow].
  cbn [fst snd] in *. cbv beta iota zeta.
  rewrite set_bufferPtr_twice.
  assert (skipFPChars (q ++ ch :: rest) = ch :: rest) as Hskip.
  { rewrite skipFPChars_local by exact Hch. rewrite skipFPChars_all by exact HFP.
    reflexivity. }
  assert ((negb (isFPChar (peek (q ++ ch :: rest))) && negb isOverflow
           && ((sign >? 0) || (accum <=? LLONG_MAX + 1)))%bool = false) as Hinteger.
  { destruct (Z.le_gt_cases (Z.of_N (Pos.of_uint d)) ULLONG_MAX) as [Hle|Hgt].
    - destruct Hlarge as [Hlarge|[Hsign Hlarge]]; [lia|].
      injection (Hexact Hle) as -> -> ->. rewrite Hsign.
      destruct (Z.leb_spec (Z.of_N (Pos.of_uint d)) (LLONG_MAX + 1)); [lia|].
      cbn [app peek hd]. rewrite Hch. reflexivity.
    - specialize (Hover Hgt). destruct q as [|q0 q]; [contradiction|].
      cbn [app peek hd forallb] in *. apply andb_prop in HFP as [-> _]. reflexivity. }
  destruct (q ++ ch :: rest) as [|p0 p] eqn:Hp; [destruct q; discriminate Hp|].
  rewrite <- Hp in *. clear Hp.
  match goal with
  | |- (if ?b then _ else ?fp) = _ =>
      transitivity fp;
      [destruct b eqn:E; [|reflexivity];
       try rewrite E in Hinteger; cbn [andb] in Hinteger;
       apply orb_false_iff in Hinteger as [-> ->]; reflexivity|]
  end.
  rewrite !bufferPtr_set_bufferPtr, !Hskip, !set_bufferPtr_twice.
  rewrite ?bufferPtr_set_bufferPtr, ?stringBufferLength_set_bufferPtr.
  assert (Z.of_nat (length (numeral d ++ ch :: rest)) - Z.of_nat (length (ch :: rest))
          = Z.of_nat (length (numeral d))) as -> by (rewrite length_app; lia).
  destruct (Z.geb_spec (Z.of_nat (length (numeral d))) (stringBufferLength c)); [lia|].
  rewrite Nat2Z.id, take_app_length.
  rewrite stringBuffer_set_bufferPtr, memory_set_bufferPtr.
  fold memory'. cbn [stringBuffer memory set_memory].
  rewrite stringBuffer_set_bufferPtr.
  assert (cstring (drop (stringBuffer c) memory') = numeral d) as ->
    by (subst memory'; apply cstring_memcpy; [exact Hroom | apply numeral_no_NUL]).
  reflexivity.
Qed.

(** X13: an integer that does not fit 64 bits is reported as a floating
    point number: the digits, followed by a byte that is no part of a
    number, are copied to the string buffer as a C string, and
    [onFloatingPointElement] is invoked with what [sscanf] reads from it,
    negated behind a minus sign.  Without a sign these are the values
    above UINT64_MAX, with a minus sign those above 2^63. *)
Theorem large_integers_decode_as_floating_point (depth : nat) (name : NamePointer)
    (d : Decimal.uint) (ch : ascii) (rest : bytes) (c : Context) :
  d <> Decimal.Nil -> isFPChar ch = false ->
  let value := Z.of_N (Pos.of_uint d) in
  let digits := bytes_of (NilEmpty.string_of_uint d) in
  Z.of_nat (length digits) < stringBufferLength c ->
  (stringBuffer c + length digits < length (memory c))%nat ->
  let memory' := <[(stringBuffer c + length digits)%nat := NUL]>
                   (memcpy (stringBuffer c) digits (memory c)) in
  let c' := set_memory memory' (set_bufferPtr (ch :: rest) c) in
  (ULLONG_MAX < value ->
   decodeElement sscanf_lg (S depth) name (set_bufferPtr (digits ++ ch :: rest) c)
   = Some (invoke (OnFloatingPointElement (readName name c')
                     (PrimFloat.mul (sscanf_lg digits) 1%float)) c'))
  /\ (LLONG_MAX + 1 < value ->
      decodeElement sscanf_lg (S depth) name
        (set_bufferPtr ("-"%char :: digits ++ ch :: rest) c)
      = Some (invoke (OnFloatingPointElement (readName name c')
                        (PrimFloat.mul (sscanf_lg digits) (-1)%float)) c')).
Proof.
  intros Hd Hch value digits Hfits Hroom memory' c'.
  destruct (numeral_starts d Hd) as (first & tl & Hnumeral & Hfirst).
  split; intros Hvalue.
  - erewrite decodeElement_digit
      by (try exact Hfirst; rewrite bufferPtr_set_bufferPtr; subst digits;
          rewrite Hnumeral; reflexivity).
    subst digits. rewrite decodeNumber_floatingPoint by (try assumption; left; exact Hvalue).
    reflexivity.
  - erewrite decodeElement_minus by (rewrite bufferPtr_set_bufferPtr; reflexivity).
    subst digits. rewrite Hnumeral at 1. cbn [app peek hd]. rewrite Hfirst. cbn [negb].
    rewrite set_bufferPtr_twice.
    rewrite decodeNumber_floatingPoint
      by first [assumption | right; split; [reflexivity | exact Hvalue]].
    reflexivity.
Qed.

End Overflow.

(** ** An invariant of the decoder *)

Section Invariant.
Import Decode Nesting.
Context {U : Type}.
Variable sscanf_lg : bytes -> float.
Variable I : nat -> TTSDKJSONDecodeContext U -> Prop.
Variable R : Z -> Prop.
Hypothesis Hclosed : closed I R.

Local Abbreviation Context := (TTSDKJSONDecodeContext U).
Local Abbreviation kept := (Nesting.kept I R).

Lemma I_bufferPtr d (c : Context) p : I d c -> I d (set_bufferPtr p c).
Proof. apply Hclosed. Qed.

Lemma I_memory d (c : Context) m : I d c -> I d (set_memory m c).
Proof. apply Hclosed. Qed.

Lemma I_SKIP_WHITESPACE d (c : Context) : I d c -> I d (SKIP_WHITESPACE c).
Proof. apply I_bufferPtr. Qed.

Lemma kept_error d (c : Context) result :
  In result [TTSDKJSON_ERROR_INVALID_CHARACTER; TTSDKJSON_ERROR_DATA_TOO_LONG;
             TTSDKJSON_ERROR_INCOMPLETE] ->
  I d c -> kept d (result, c).
Proof.
  intros Hresult Hc. destruct Hclosed as (_ & _ & _ & _ & _ & _ & H1 & H2 & H4).
  split; [|split].
  - destruct Hresult as [<-|[<-|[<-|[]]]]; assumption.
  - cbn [fst]. intros ->. destruct Hresult as [H|[H|[H|[]]]]; discriminate H.
  - exists d. split; [lia | exact Hc].
Qed.

Lemma kept_element d (c : Context) call :
  delta call = 0 -> call <> OnEndData -> I d c -> kept d (invoke call c).
Proof.
  intros Hdelta Hcall Hc. destruct Hclosed as (_ & _ & Helement & _ & _ & Hstatus & _).
  pose proof (Helement d c call Hdelta Hcall Hc) as H.
  split; [exact (Hstatus d c call Hc)|]. split; [intros _; exact H|].
  exists d. split; [lia | exact H].
Qed.

Lemma kept_end d (c : Context) : I (S d) c -> kept d (invoke OnEndContainer c).
Proof.
  intros Hc. destruct Hclosed as (_ & _ & _ & _ & Hend & Hstatus & _).
  pose proof (Hend d c Hc) as H.
  split; [exact (Hstatus (S d) c OnEndContainer Hc)|]. split; [intros _; exact H|].
  exists d. split; [lia | exact H].
Qed.

(** A run one level up counts as a run from the level below when it did
    not return OK. *)
Lemma kept_inside d (run : Z * Context) :
  kept (S d) run -> fst run <> TTSDKJSON_OK -> kept d run.
Proof.
  intros (Hstatus & _ & d' & Hd' & Hc) Hfailed.
  split; [exact Hstatus|]. split; [intros; contradiction|].
  exists d'. split; [lia | exact Hc].
Qed.

Lemma I_decodeString d dstBuffer dstBufferLength (c : Context) :
  I d c ->
  I d (snd (decodeString dstBuffer dstBufferLength c))
  /\ In (fst (decodeString dstBuffer dstBufferLength c))
        [TTSDKJSON_OK; TTSDKJSON_ERROR_INVALID_CHARACTER; TTSDKJSON_ERROR_DATA_TOO_LONG;
         TTSDKJSON_ERROR_INCOMPLETE].
Proof.
  intros Hc. unfold decodeString. cbv zeta.
  pose proof (I_memory d c (<[dstBuffer := NUL]> (memory c)) Hc) as H0.
  set (c0 := set_memory _ c) in *. clearbody c0.
  destruct (negb _); [split; [exact H0 | cbn; tauto]|].
  destruct (scanString _ true) as [[n fastCopy]|]; [|split; [exact H0 | cbn; tauto]].
  destruct (_ >=? dstBufferLength); [split; [exact H0 | cbn; tauto]|].
  destruct fastCopy.
  - split; [apply I_memory, I_bufferPtr, H0 | cbn; tauto].
  - match goal with |- context [decodeEscapes ?s ?dst ?m] =>
      assert (In (fst (decodeEscapes s dst m))
                [TTSDKJSON_OK; TTSDKJSON_ERROR_INVALID_CHARACTER;
                 TTSDKJSON_ERROR_DATA_TOO_LONG; TTSDKJSON_ERROR_INCOMPLETE]) as Hstatus;
      [|destruct (decodeEscapes s dst m) as [r m']]
    end.
    2:{ cbn [fst snd] in *. split; [apply I_memory, I_bufferPtr, H0 | exact Hstatus]. }
    match goal with |- context [decodeEscapes ?s ?dst ?m] =>
      generalize dst, m; generalize s end.
    intros src. remember (length src) as k eqn:Hk. revert src Hk.
    induction k as [k IH] using lt_wf_ind. intros src Hk dst m.
    assert (forall src' dst' m', (length src' < length src)%nat ->
              In (fst (decodeEscapes src' dst' m'))
                 [TTSDKJSON_OK; TTSDKJSON_ERROR_INVALID_CHARACTER;
                  TTSDKJSON_ERROR_DATA_TOO_LONG; TTSDKJSON_ERROR_INCOMPLETE]) as Hrec
      by (intros src' dst' m' Hlen; apply (IH (length src')); [lia | reflexivity]).
    destruct src as [|b src1]; cbn [decodeEscapes fst]; [cbn; tauto|].
    destruct (negb (Ascii.eqb b BACKSLASH)); [apply Hrec; cbn [length]; lia|].
    destruct src1 as [|e src2]; [cbn; tauto|]. cbv zeta.
    repeat match goal with
           | |- In (fst (if Ascii.eqb e ?x then _ else _)) _ =>
               destruct (Ascii.eqb e x); [apply Hrec; cbn [length]; lia|]
           end.
    destruct (Ascii.eqb e "u"); [|cbn; tauto].
    destruct src2 as [|h1 [|h2 [|h3 [|h4 src6]]]]; try (cbn; tauto).
    destruct (hexAccum h1 h2 h3 h4 >? 65535); [cbn; tauto|].
    destruct ((hexAccum h1 h2 h3 h4 >=? 56320) && _); [cbn; tauto|].
    destruct ((hexAccum h1 h2 h3 h4 >=? 55296) && _).
    + destruct src6 as [|b' [|u [|k1 [|k2 [|k3 [|k4 src12]]]]]]; try (cbn; tauto).
      destruct (negb (Ascii.eqb b' BACKSLASH) || _); [cbn; tauto|].
      destruct ((hexAccum k1 k2 k3 k4 <? 56320) || _); [cbn; tauto|].
      match goal with |- context [writeUTF8 ?a dst m] =>
        assert (In (fst (fst (writeUTF8 a dst m)))
                  [TTSDKJSON_OK; TTSDKJSON_ERROR_INVALID_CHARACTER]) as Hw
          by (unfold writeUTF8;
              repeat match goal with |- context [if ?b then _ else _] =>
                       lazymatch type of b with bool => destruct b end end; cbn; tauto);
        destruct (writeUTF8 a dst m) as [[r dst'] m'] end.
      cbn [fst] in Hw. destruct (negb (r =? TTSDKJSON_OK)).
      * cbn [fst]. cbn in Hw |- *. tauto.
      * apply Hrec. cbn [length]. lia.
    + match goal with |- context [writeUTF8 ?a dst m] =>
        assert (In (fst (fst (writeUTF8 a dst m)))
                  [TTSDKJSON_OK; TTSDKJSON_ERROR_INVALID_CHARACTER]) as Hw
          by (unfold writeUTF8;
              repeat match goal with |- context [if ?b then _ else _] =>
                       lazymatch type of b with bool => destruct b end end; cbn; tauto);
        destruct (writeUTF8 a dst m) as [[r dst'] m'] end.
      cbn [fst] in Hw. destruct (negb (r =? TTSDKJSON_OK)).
      * cbn [fst]. cbn in Hw |- *. tauto.
      * apply Hrec. cbn [length]. lia.
Qed.

Lemma kept_decodeString d dstBuffer dstBufferLength (c : Context) :
  I d c ->
  let run := decodeString dstBuffer dstBufferLength c in
  I d (snd run) /\ (fst run <> TTSDKJSON_OK -> kept d run).
Proof.
  intros Hc. cbv zeta. destruct (I_decodeString d dstBuffer dstBufferLength c Hc) as [H Hr].
  split; [exact H|]. intros Hfailed.
  destruct (decodeString dstBuffer dstBufferLength c) as [r c']. cbn [fst snd] in *.
  apply kept_error; [|exact H].
  destruct Hr as [<-|Hr]; [contradiction | exact Hr].
Qed.

Lemma kept_decodeLiteral d literal call (c : Context) :
  delta call = 0 -> call <> OnEndData -> I d c -> kept d (decodeLiteral literal call c).
Proof.
  intros Hdelta Hcall Hc. unfold decodeLiteral.
  destruct (_ <? _); [apply kept_error; [cbn; tauto | exact Hc]|].
  destruct (negb _); [apply kept_error; [cbn; tauto | exact Hc]|].
  apply kept_element; [exact Hdelta | exact Hcall | apply I_bufferPtr, Hc].
Qed.

Lemma kept_decodeNumber d sign name (c : Context) :
  I d c -> kept d (decodeNumber sscanf_lg sign name c).
Proof.
  intros Hc. unfold decodeNumber.
  destruct (scanDigits (bufferPtr c) 0 false) as [[p accum] isOverflow].
  pose proof (I_bufferPtr d c p Hc) as H1.
  set (c1 := set_bufferPtr p c) in *. clearbody c1.
  destruct p as [|ch p']; [apply kept_error; [cbn; tauto | exact H1]|].
  cbv zeta.
  match goal with
  | |- context [if _ then _ else ?fp] =>
      assert (kept d fp) as Hfp; [|set (floatingPoint := fp) in *; clearbody floatingPoint]
  end.
  { pose proof (I_bufferPtr d c1 (skipFPChars (bufferPtr c1)) H1) as H2.
    set (c2 := set_bufferPtr _ c1) in *. clearbody c2.
    destruct (bufferPtr c2); [apply kept_error; [cbn; tauto | exact H2]|].
    destruct (_ >=? stringBufferLength c2); [apply kept_error; [cbn; tauto | exact H2]|].
    apply kept_element; [reflexivity | discriminate | apply I_memory, H2]. }
  destruct (negb (isFPChar (peek (ch :: p'))) && negb isOverflow); [|exact Hfp].
  destruct (sign >? 0).
  - destruct (accum <=? LLONG_MAX);
      apply kept_element; first [reflexivity | discriminate | exact H1].
  - destruct (accum <=? LLONG_MAX + 1); [|exact Hfp].
    apply kept_element; first [reflexivity | discriminate | exact H1].
Qed.

(** What the loops need from the decoder of the elements. *)
Local Abbreviation keeps decode :=
  (forall d name (c : Context) result c',
     I d c -> decode name c = Some (result, c') -> kept d (result, c')).

Lemma I_comma d (c : Context) ch p' :
  I d c -> I d (if Ascii.eqb ch "," then set_bufferPtr p' c else c).
Proof. intros Hc. destruct (Ascii.eqb ch ","); [apply I_bufferPtr|]; exact Hc. Qed.

Lemma arrayLoop_kept decode :
  keeps decode ->
  forall rounds d (c : Context) result c',
    I (S d) c -> arrayLoop decode rounds c = Some (result, c') -> kept d (result, c').
Proof.
  intros Hdecode. induction rounds as [|rounds IH]; intros d c result c' Hc;
    cbn [arrayLoop]; [discriminate|].
  assert (forall r (c0 : Context),
            In r [TTSDKJSON_ERROR_INVALID_CHARACTER; TTSDKJSON_ERROR_DATA_TOO_LONG;
                  TTSDKJSON_ERROR_INCOMPLETE] ->
            I (S d) c0 -> kept d (r, c0)) as Herror.
  { intros r c0 Hr Hc0. apply kept_inside; [apply kept_error; assumption|].
    cbn [fst]. destruct Hr as [<-|[<-|[<-|[]]]]; discriminate. }
  destruct (bufferPtr c) as [|c0 p0].
  { returned. apply Herror; [cbn; tauto | exact Hc]. }
  pose proof (I_SKIP_WHITESPACE _ c Hc) as H1.
  set (c1 := SKIP_WHITESPACE c) in *. clearbody c1.
  destruct (bufferPtr c1) as [|ch p1].
  { returned. apply Herror; [cbn; tauto | exact H1]. }
  destruct (Ascii.eqb ch "]").
  { returned. apply kept_end, I_bufferPtr, H1. }
  destruct (decode NullName c1) as [[r2 c2]|] eqn:Hdec; [|discriminate].
  apply (Hdecode (S d)) in Hdec; [|exact H1].
  destruct (Z.eqb_spec r2 TTSDKJSON_OK) as [->|Hfailed]; cbn [negb].
  2:{ returned. apply kept_inside; [exact Hdec | exact Hfailed]. }
  destruct Hdec as (_ & H2 & _). specialize (H2 eq_refl). cbn [snd] in H2.
  pose proof (I_SKIP_WHITESPACE _ c2 H2) as H3.
  set (c3 := SKIP_WHITESPACE c2) in *. clearbody c3.
  destruct (bufferPtr c3) as [|ch3 p3].
  { returned. apply Herror; [cbn; tauto | exact H3]. }
  apply IH. apply I_comma. exact H3.
Qed.

Lemma objectLoop_kept decode :
  keeps decode ->
  forall rounds d (c : Context) result c',
    I (S d) c -> objectLoop decode rounds c = Some (result, c') -> kept d (result, c').
Proof.
  intros Hdecode. induction rounds as [|rounds IH]; intros d c result c' Hc;
    cbn [objectLoop]; [discriminate|].
  assert (forall r (c0 : Context),
            In r [TTSDKJSON_ERROR_INVALID_CHARACTER; TTSDKJSON_ERROR_DATA_TOO_LONG;
                  TTSDKJSON_ERROR_INCOMPLETE] ->
            I (S d) c0 -> kept d (r, c0)) as Herror.
  { intros r c0 Hr Hc0. apply kept_inside; [apply kept_error; assumption|].
    cbn [fst]. destruct Hr as [<-|[<-|[<-|[]]]]; discriminate. }
  destruct (bufferPtr c) as [|c0 p0].
  { returned. apply Herror; [cbn; tauto | exact Hc]. }
  pose proof (I_SKIP_WHITESPACE _ c Hc) as H1.
  set (c1 := SKIP_WHITESPACE c) in *. clearbody c1.
  destruct (bufferPtr c1) as [|ch p1].
  { returned. apply Herror; [cbn; tauto | exact H1]. }
  destruct (Ascii.eqb ch "}").
  { returned. apply kept_end, I_bufferPtr, H1. }
  destruct (kept_decodeString (S d) (nameBuffer c1) (nameBufferLength c1) c1 H1)
    as [H2 Hname].
  destruct (decodeString (nameBuffer c1) (nameBufferLength c1) c1) as [r2 c2].
  cbn [fst snd] in *.
  destruct (Z.eqb_spec r2 TTSDKJSON_OK) as [->|Hfailed]; cbn [negb].
  2:{ returned. apply kept_inside; [apply Hname | cbn [fst]]; exact Hfailed. }
  pose proof (I_SKIP_WHITESPACE _ c2 H2) as H3.
  set (c3 := SKIP_WHITESPACE c2) in *. clearbody c3.
  destruct (bufferPtr c3) as [|ch3 p3].
  { returned. apply Herror; [cbn; tauto | exact H3]. }
  destruct (negb (Ascii.eqb ch3 ":")).
  { returned. apply Herror; [cbn; tauto | exact H3]. }
  pose proof (I_SKIP_WHITESPACE _ _ (I_bufferPtr _ c3 p3 H3)) as H5.
  set (c5 := SKIP_WHITESPACE (set_bufferPtr p3 c3)) in *. clearbody c5.
  destruct (decode NameBuffer c5) as [[r6 c6]|] eqn:Hdec; [|discriminate].
  apply (Hdecode (S d)) in Hdec; [|exact H5].
  destruct (Z.eqb_spec r6 TTSDKJSON_OK) as [->|Hfailed]; cbn [negb].
  2:{ returned. apply kept_inside; [exact Hdec | exact Hfailed]. }
  destruct Hdec as (_ & H6 & _). specialize (H6 eq_refl). cbn [snd] in H6.
  pose proof (I_SKIP_WHITESPACE _ c6 H6) as H7.
  set (c7 := SKIP_WHITESPACE c6) in *. clearbody c7.
  destruct (bufferPtr c7) as [|ch7 p7].
  { returned. apply Herror; [cbn; tauto | exact H7]. }
  apply IH. apply I_comma. exact H7.
Qed.

(** The element decoder keeps the invariant. *)
Lemma decodeElement_kept depth :
  forall d name (c : Context) result c',
    I d c -> decodeElement sscanf_lg depth name c = Some (result, c') ->
    kept d (result, c').
Proof.
  induction depth as [|depth IH]; intros d name c result c' Hc; cbn [decodeElement];
    [discriminate|].
  pose proof (I_SKIP_WHITESPACE _ c Hc) as H1.
  set (c1 := SKIP_WHITESPACE c) in *. clearbody c1.
  destruct (bufferPtr c1) as [|ch p1].
  { returned. apply kept_error; [cbn; tauto | exact H1]. }
  destruct (Ascii.eqb ch "[").
  { pose proof (I_bufferPtr _ c1 p1 H1) as H2.
    set (c2 := set_bufferPtr p1 c1) in *. clearbody c2.
    destruct Hclosed as (_ & _ & _ & Hbegin & _ & Hstatus & _).
    pose proof (Hbegin d c2 (OnBeginArray (readName name c2)) eq_refl H2) as Hi.
    pose proof (Hstatus d c2 (OnBeginArray (readName name c2)) H2) as Hr.
    destruct (invoke (OnBeginArray (readName name c2)) c2) as [ri ci]. cbn [fst snd] in *.
    destruct (Z.eqb_spec ri TTSDKJSON_OK) as [->|Hfailed]; cbn [negb].
    - apply arrayLoop_kept; [exact IH | exact Hi].
    - returned. split; [exact Hr|]. split; [intros; contradiction|].
      exists (S d). split; [lia | exact Hi]. }
  destruct (Ascii.eqb ch "{").
  { pose proof (I_bufferPtr _ c1 p1 H1) as H2.
    set (c2 := set_bufferPtr p1 c1) in *. clearbody c2.
    destruct Hclosed as (_ & _ & _ & Hbegin & _ & Hstatus & _).
    pose proof (Hbegin d c2 (OnBeginObject (readName name c2)) eq_refl H2) as Hi.
    pose proof (Hstatus d c2 (OnBeginObject (readName name c2)) H2) as Hr.
    destruct (invoke (OnBeginObject (readName name c2)) c2) as [ri ci]. cbn [fst snd] in *.
    destruct (Z.eqb_spec ri TTSDKJSON_OK) as [->|Hfailed]; cbn [negb].
    - apply objectLoop_kept; [exact IH | exact Hi].
    - returned. split; [exact Hr|]. split; [intros; contradiction|].
      exists (S d). split; [lia | exact Hi]. }
  destruct (Ascii.eqb ch DQUOTE).
  { destruct (kept_decodeString d (stringBuffer c1) (stringBufferLength c1) c1 H1)
      as [H2 Hstring].
    destruct (decodeString (stringBuffer c1) (stringBufferLength c1) c1) as [rs cs].
    cbn [fst snd] in *.
    destruct (Z.eqb_spec rs TTSDKJSON_OK) as [->|Hfailed]; cbn [negb].
    - returned. apply kept_element; [reflexivity | discriminate | exact H2].
    - returned. apply Hstring. exact Hfailed. }
  destruct (Ascii.eqb ch "f").
  { returned. apply kept_decodeLiteral; [reflexivity | discriminate | exact H1]. }
  destruct (Ascii.eqb ch "t").
  { returned. apply kept_decodeLiteral; [reflexivity | discriminate | exact H1]. }
  destruct (Ascii.eqb ch "n").
  { returned. apply kept_decodeLiteral; [reflexivity | discriminate | exact H1]. }
  destruct (Ascii.eqb ch "-").
  { pose proof (I_bufferPtr _ c1 p1 H1) as H2.
    destruct (negb (isdigit (peek (bufferPtr (set_bufferPtr p1 c1))))).
    - returned. apply kept_error; [cbn; tauto | exact H2].
    - returned. apply kept_decodeNumber. exact H2. }
  destruct (isdigit ch).
  { returned. apply kept_decodeNumber. exact H1. }
  returned. apply kept_error; [cbn; tauto | exact H1].
Qed.

End Invariant.

(** ** Statuses and nesting *)

Section WellNested.
Import Decode Nesting.
Context {U : Type}.
Variable sscanf_lg : bytes -> float.
Local Abbreviation Context := (TTSDKJSONDecodeContext U).

Lemma callbacks_invoke call (c : Context) : callbacks (snd (invoke call c)) = callbacks c.
Proof. unfold invoke. destruct_callback. reflexivity. Qed.

Lemma nestingFrom_last log :
  forall open call,
    nestingFrom open (log ++ [call])
    = match nestingFrom open log with
      | Some open' => if open' + delta call <? 0 then None else Some (open' + delta call)
      | None => None
      end.
Proof.
  induction log as [|first log IH]; intros open call; cbn [app nestingFrom].
  - destruct (_ <? 0); reflexivity.
  - destruct (_ <? 0); [reflexivity | apply IH].
Qed.

(** X15: the callbacks are well nested: [onEndContainer] is never invoked
    with no container open, and a decode that returns OK has ended every
    container it began. *)
Theorem callbacks_are_well_nested (data stringBuffer : bytes) callbacks (userData : U)
    errorOffset :
  exists outcome open,
    ttsdkjson_decode sscanf_lg data stringBuffer callbacks userData errorOffset
    = Some outcome
    /\ nestingFrom 0 (calls (final outcome)) = Some open
    /\ (result outcome = TTSDKJSON_OK -> open = 0).
Proof.
  destruct (ttsdkjson_decode_returns sscanf_lg data stringBuffer callbacks userData
              errorOffset)
    as (elementResult & context & outcome & Helement & _ & Hdecode & Hend & _).
  set (I := fun (d : nat) (c : Context) => nestingFrom 0 (calls c) = Some (Z.of_nat d)).
  assert (closed I (fun _ => True)) as Hclosed.
  { subst I. repeat split; try (intros; assumption).
    - intros d c call Hdelta _ Hc. rewrite calls_invoke, nestingFrom_last, Hc, Hdelta.
      destruct (Z.ltb_spec (Z.of_nat d + 0) 0); [lia|]. f_equal. lia.
    - intros d c call Hdelta Hc. rewrite calls_invoke, nestingFrom_last, Hc, Hdelta.
      destruct (Z.ltb_spec (Z.of_nat d + 1) 0); [lia|]. f_equal. lia.
    - intros d c Hc. rewrite calls_invoke, nestingFrom_last, Hc. cbn [delta].
      destruct (Z.ltb_spec (Z.of_nat (S d) + -1) 0); [lia|]. f_equal. lia. }
  assert (I 0%nat (initialContext data stringBuffer callbacks userData)) as Hstart
    by reflexivity.
  destruct (decodeElement_kept sscanf_lg I _ Hclosed _ 0%nat _ _ _ _ Hstart Helement)
    as (_ & Hok & d' & _ & Hopen).
  cbn [fst snd] in *. subst I. cbv beta in *.
  destruct (Z.eqb_spec elementResult TTSDKJSON_OK) as [->|Hfailed].
  - exists outcome, 0. split; [exact Hdecode|]. split; [|reflexivity].
    pose proof (calls_invoke OnEndData context) as Hcalls.
    destruct (invoke OnEndData context) as [r c']. injection Hend as _ ->.
    cbn [snd] in Hcalls. rewrite Hcalls, nestingFrom_last, (Hok eq_refl). reflexivity.
  - exists outcome, (Z.of_nat d'). split; [exact Hdecode|].
    injection Hend as -> ->. split; [exact Hopen | intros; contradiction].
Qed.

End WellNested.

(** * Documents, encoded and decoded *)

(** ** What the encoder writes on a sink that takes every chunk *)

Section Written.
Import Encode Sink Layout Tree.
Context {U : Type}.
Variable printf_g : Z -> float -> bytes.
Variable printf_f1 : float -> bytes.
Variable to_float : float -> float.
Local Abbreviation Session := (Session U).
Local Abbreviation M := (M U).
Local Abbreviation lvl s := (containerLevel (context s)).
Local Abbreviation sink s := (addJSONDataFunc (context s)).

Lemma orReturn_run (m k : M Z) (s s1 : Session) run :
  m s = (TTSDKJSON_OK, s1) -> k s1 = run -> orReturn m k s = run.
Proof. intros Hm Hk. unfold orReturn. rewrite Hm. exact Hk. Qed.

Lemma wrote data (s : Session) :
  accepts (sink s) ->
  exists s', addJSONData data s = (TTSDKJSON_OK, s') /\ sameContext s s'
             /\ output s' = output s ++ data.
Proof.
  intros Hsink. pose proof (accepted_addJSONData data s Hsink) as Hok.
  pose proof (sameContext_addJSONData data s) as Hsame.
  pose proof (output_addJSONData data s) as Hout.
  destruct (addJSONData data s) as [r s']. cbn [fst snd] in *. subst r.
  exists s'. auto.
Qed.

Lemma accepts_same (s s' : Session) :
  sameContext s s' -> accepts (sink s) -> accepts (sink s').
Proof. intros (-> & _). auto. Qed.

Lemma wrote_indent n :
  forall s : Session,
    accepts (sink s) ->
    exists s', indent n s = (TTSDKJSON_OK, s') /\ sameContext s s'
               /\ output s' = output s ++ spaces n.
Proof.
  induction n as [|n IH]; intros s Hsink.
  - exists s. cbn. rewrite app_nil_r. split; [reflexivity|]. split; [apply sameContext_refl | reflexivity].
  - cbn [indent].
    destruct (wrote (bytes_of "    ") s Hsink) as (s1 & H1 & Hsame1 & Hout1).
    destruct (IH s1 (accepts_same _ _ Hsame1 Hsink)) as (s2 & H2 & Hsame2 & Hout2).
    exists s2. split; [exact (orReturn_run _ _ _ _ _ H1 H2)|].
    split; [exact (sameContext_trans _ _ _ Hsame1 Hsame2)|].
    rewrite Hout2, Hout1, <- app_assoc. reflexivity.
Qed.

Lemma writable_not_NUL c : writable c = true -> Ascii.eqb c NUL = false.
Proof.
  intros H. destruct (Ascii.eqb_spec c NUL) as [->|]; [discriminate H | reflexivity].
Qed.

Lemma cstring_writable string : forallb writable string = true -> cstring string = string.
Proof.
  induction string as [|c string IH]; cbn [forallb cstring]; [reflexivity|].
  intros H. apply andb_prop in H as [Hc H]. rewrite (writable_not_NUL c Hc), (IH H).
  reflexivity.
Qed.

Lemma take_strlen string : take (Z.to_nat (strlen string)) string = cstring string.
Proof.
  unfold strlen. rewrite Nat2Z.id.
  induction string as [|c string IH]; cbn [cstring]; [reflexivity|].
  destruct (Ascii.eqb c NUL); cbn [length take]; [reflexivity|]. rewrite IH. reflexivity.
Qed.

Lemma writable_escaped string :
  forallb writable string = true -> complicatedCase string = Some (escaped string).
Proof.
  intros H. assert (exists e, complicatedCase string = Some e) as [e He].
  { induction string as [|c string IH]; [eexists; reflexivity|].
    cbn [forallb] in H. apply andb_prop in H as [Hc H].
    destruct (IH H) as [e He]. cbn [complicatedCase]. rewrite He. cbn [option_map].
    repeat match goal with
           | |- context [if ?g then _ else _] =>
               lazymatch type of g with bool => destruct g eqn:? end
           end; try (eexists; reflexivity).
    exfalso. unfold writable in Hc.
    destruct c as [[] [] [] [] [] [] [] []]; cbn in *; discriminate. }
  unfold escaped. rewrite He. reflexivity.
Qed.

Lemma complicatedCase_parts a b e :
  complicatedCase (a ++ b) = Some e ->
  exists x y, complicatedCase a = Some x /\ complicatedCase b = Some y /\ e = x ++ y.
Proof.
  rewrite complicatedCase_app.
  destruct (complicatedCase a) as [x|], (complicatedCase b) as [y|]; try discriminate.
  intros H. injection H as <-. eauto.
Qed.

Lemma wrote_escaped_loop rounds string length :
  forall offset (s : Session) e,
    accepts (sink s) -> 0 <= offset -> (Z.to_nat (length - offset) <= rounds)%nat ->
    complicatedCase (portion string offset (length - offset)) = Some e ->
    exists s',
      addEscapedString_loop rounds string length offset TTSDKJSON_OK s
      = (TTSDKJSON_OK, s')
      /\ sameContext s s' /\ output s' = output s ++ e.
Proof.
  assert (forall (s : Session) offset e,
            (offset <? length) = false ->
            complicatedCase (portion string offset (length - offset)) = Some e ->
            sameContext s s /\ output s = output s ++ e) as Hdone.
  { intros s offset e Hless He. unfold portion in He.
    replace (Z.to_nat (length - offset)) with O in He by lia.
    rewrite take_0 in He. injection He as <-. rewrite app_nil_r.
    split; [apply sameContext_refl | reflexivity]. }
  induction rounds as [|rounds IH]; intros offset s e Hsink Hoffset Hrounds He.
  - exists s. split; [reflexivity|]. apply (Hdone s offset e); [lia | exact He].
  - cbn [addEscapedString_loop].
    destruct (offset <? length) eqn:Hmore.
    2:{ exists s. split; [reflexivity|]. apply (Hdone s offset e); assumption. }
    set (toAdd := if length - offset >? TTSDKJSONCODEC_WorkBufferSize / 2
                  then TTSDKJSONCODEC_WorkBufferSize / 2 else length - offset) in *.
    assert (0 < toAdd <= length - offset) as HtoAdd.
    { subst toAdd. change (TTSDKJSONCODEC_WorkBufferSize / 2) with 256.
      destruct (length - offset >? 256) eqn:E; lia. }
    clearbody toAdd.
    replace (length - offset) with (toAdd + (length - (offset + toAdd))) in He by lia.
    rewrite portion_split in He by lia.
    apply complicatedCase_parts in He as (e1 & e2 & He1 & He2 & ->).
    rewrite appendEscapedString_escaped, He1.
    destruct (wrote e1 s Hsink) as (s1 & -> & Hsame1 & Hout1).
    change (negb (TTSDKJSON_OK =? TTSDKJSON_OK)) with false. cbv iota.
    destruct (IH (offset + toAdd) s1 e2 (accepts_same _ _ Hsame1 Hsink)
                ltac:(lia) ltac:(lia) He2) as (s2 & -> & Hsame2 & Hout2).
    exists s2. split; [reflexivity|].
    split; [exact (sameContext_trans _ _ _ Hsame1 Hsame2)|].
    rewrite Hout2, Hout1, <- app_assoc. reflexivity.
Qed.

Lemma wrote_quoted string length (s : Session) e :
  accepts (sink s) ->
  complicatedCase (take (Z.to_nat length) string) = Some e ->
  exists s',
    addQuotedEscapedString string length s = (TTSDKJSON_OK, s')
    /\ sameContext s s' /\ output s' = output s ++ DQUOTE :: e ++ [DQUOTE].
Proof.
  intros Hsink He. unfold addQuotedEscapedString.
  destruct (wrote [DQUOTE] s Hsink) as (s1 & -> & Hsame1 & Hout1).
  change (negb (TTSDKJSON_OK =? TTSDKJSON_OK)) with false. cbv iota.
  pose proof (accepts_same _ _ Hsame1 Hsink) as Hsink1.
  destruct (wrote_escaped_loop (Z.to_nat length) string length 0 s1 e Hsink1
              ltac:(lia) ltac:(lia)) as (s2 & H2 & Hsame2 & Hout2).
  { unfold portion. rewrite Z.sub_0_r. change (Z.to_nat 0) with O. rewrite drop_0.
    exact He. }
  unfold addEscapedString. rewrite H2.
  pose proof (accepts_same _ _ Hsame2 Hsink1) as Hsink2.
  destruct (wrote [DQUOTE] s2 Hsink2) as (s3 & -> & Hsame3 & Hout3).
  exists s3. split; [reflexivity|].
  split; [exact (sameContext_trans _ _ _ Hsame1 (sameContext_trans _ _ _ Hsame2 Hsame3))|].
  rewrite Hout3, Hout2, Hout1, <- !app_assoc. reflexivity.
Qed.

Lemma agree_refl n (s : Session) : agree n s s.
Proof. split; auto. Qed.

Lemma agree_same n (s s' : Session) : sameContext s s' -> agree n s s'.
Proof.
  intros (_ & _ & H & _). unfold agree, isObject_at. rewrite H. auto.
Qed.

Lemma agree_trans n n' (s1 s2 s3 : Session) :
  n <= n' -> agree n' s1 s2 -> agree n s2 s3 -> agree n s1 s3.
Proof.
  intros Hn [Hl1 H1] [Hl2 H2]. split; [congruence|].
  intros i Hi. rewrite H2, H1 by lia. reflexivity.
Qed.

(** [ttsdkjson_beginElement]: the comma, the line break and the name. *)
Lemma beginElement_added name (s : Session) :
  accepts (sink s) -> named s name ->
  exists s',
    ttsdkjson_beginElement name s = (TTSDKJSON_OK, s') /\ added name [] s s'
    /\ isObject (context s') = isObject (context s).
Proof.
  intros Hsink Hnamed. unfold ttsdkjson_beginElement.
  (* the comma *)
  assert (exists s1 : Session,
            (if containerFirstEntry (context s)
             then (TTSDKJSON_OK, snd (update (set_containerFirstEntry false) s))
             else addJSONData [","%char] s) = (TTSDKJSON_OK, s1)
            /\ sink s1 = sink s /\ lvl s1 = lvl s
            /\ isObject (context s1) = isObject (context s)
            /\ prettyPrint (context s1) = prettyPrint (context s)
            /\ containerFirstEntry (context s1) = false
            /\ output s1
               = output s ++ (if containerFirstEntry (context s) then [] else [","%char]))
    as (s1 & H1 & Hsink1 & Hlvl1 & Hobj1 & Hpretty1 & Hfirst1 & Hout1).
  { destruct (containerFirstEntry (context s)) eqn:Hfirst.
    - eexists. split; [reflexivity|]. cbn. rewrite app_nil_r. repeat split.
    - destruct (wrote [","%char] s Hsink) as (s1 & -> & (? & ? & ? & Hf & ?) & Hout).
      exists s1. rewrite Hf, Hfirst. repeat split; assumption. }
  rewrite (orReturn_run _ _ s s1 _ H1 eq_refl).
  (* the line break *)
  assert (accepts (sink s1)) as Hsinks1 by (rewrite Hsink1; exact Hsink).
  assert (exists s2 : Session,
            (if prettyPrint (context s1) && (lvl s1 >? 0)
             then orReturn (addJSONData ["010"%char]) (indent (Z.to_nat (lvl s1))) s1
             else (TTSDKJSON_OK, s1)) = (TTSDKJSON_OK, s2)
            /\ sameContext s1 s2
            /\ output s2
               = output s1 ++ (if prettyPrint (context s) && (lvl s >? 0)
                               then "010"%char :: spaces (Z.to_nat (lvl s)) else []))
    as (s2 & H2 & Hsame2 & Hout2).
  { rewrite Hpretty1, Hlvl1.
    destruct (prettyPrint (context s) && (lvl s >? 0)).
    - destruct (wrote ["010"%char] s1 Hsinks1) as (sa & Ha & Hsamea & Houta).
      destruct (wrote_indent (Z.to_nat (lvl s)) sa (accepts_same _ _ Hsamea Hsinks1))
        as (sb & Hb & Hsameb & Houtb).
      exists sb. split; [exact (orReturn_run _ _ _ _ _ Ha Hb)|].
      split; [exact (sameContext_trans _ _ _ Hsamea Hsameb)|].
      rewrite Houtb, Houta, <- app_assoc. reflexivity.
    - exists s1. rewrite app_nil_r. split; [reflexivity|].
      split; [apply sameContext_refl | reflexivity]. }
  rewrite (orReturn_run _ _ s1 s2 _ H2 eq_refl). cbv zeta.
  pose proof Hsame2 as (Hsink2 & Hlvl2 & Hobj2 & Hfirst2 & Hpretty2).
  assert (accepts (sink s2)) as Hsinks2 by (rewrite Hsink2; exact Hsinks1).
  assert (isObject_at (context s2) (lvl s2) = isObject_at (context s) (lvl s)) as Hat.
  { unfold isObject_at. rewrite Hlvl2, Hobj2, Hlvl1, Hobj1. reflexivity. }
  (* the name *)
  assert (exists s3 : Session,
            (if isObject_at (context s2) (lvl s2) then
               match name with
               | None => (TTSDKJSON_ERROR_INVALID_DATA, s2)
               | Some name =>
                   orReturn (addQuotedEscapedString name (strlen name))
                     (if prettyPrint (context s2) then addJSONData (bytes_of ": ")
                      else addJSONData [":"%char]) s2
               end
             else (TTSDKJSON_OK, s2)) = (TTSDKJSON_OK, s3)
            /\ sameContext s2 s3
            /\ output s3
               = output s2
                 ++ (if isObject_at (context s) (lvl s)
                     then match name with
                          | Some name =>
                              DQUOTE :: escaped name
                              ++ DQUOTE :: (if prettyPrint (context s) then bytes_of ": "
                                            else [":"%char])
                          | None => []
                          end
                     else []))
    as (s3 & H3 & Hsame3 & Hout3).
  { rewrite Hat. unfold named in Hnamed.
    destruct (isObject_at (context s) (lvl s)).
    - destruct (Hnamed eq_refl) as (key & -> & Hkey).
      destruct (wrote_quoted key (strlen key) s2 (escaped key) Hsinks2)
        as (sa & Ha & Hsamea & Houta).
      { rewrite take_strlen, (cstring_writable key Hkey). apply writable_escaped, Hkey. }
      rewrite Hpretty2, Hpretty1.
      assert (exists sb : Session,
                (if prettyPrint (context s) then addJSONData (bytes_of ": ")
                 else addJSONData [":"%char]) sa = (TTSDKJSON_OK, sb)
                /\ sameContext sa sb
                /\ output sb = output sa ++ (if prettyPrint (context s) then bytes_of ": "
                                             else [":"%char]))
        as (sb & Hb & Hsameb & Houtb).
      { destruct (prettyPrint (context s));
          apply wrote; exact (accepts_same _ _ Hsamea Hsinks2). }
      exists sb. split; [exact (orReturn_run _ _ _ _ _ Ha Hb)|].
      split; [exact (sameContext_trans _ _ _ Hsamea Hsameb)|].
      rewrite Houtb, Houta, <- !app_assoc. cbn [app]. rewrite <- !app_assoc. reflexivity.
    - exists s2. rewrite app_nil_r. split; [reflexivity|].
      split; [apply sameContext_refl | reflexivity]. }
  exists s3. split; [exact H3|].
  destruct Hsame3 as (Hsink3 & Hlvl3 & Hobj3 & Hfirst3 & Hpretty3).
  split; [|congruence].
  unfold added. repeat split; try congruence.
  - unfold isObject_at. intros i _. rewrite Hobj3, Hobj2, Hobj1. reflexivity.
  - rewrite Hout3, Hout2, Hout1. unfold heading. rewrite app_nil_r, <- !app_assoc.
    reflexivity.
Qed.

Lemma added_more name text more (s s1 s2 : Session) :
  added name text s s1 -> sameContext s1 s2 -> output s2 = output s1 ++ more ->
  added name (text ++ more) s s2.
Proof.
  intros (Hsink & Hlvl & Hpretty & Hfirst & Hagree & Hout)
         (Hsink' & Hlvl' & Hobj' & Hfirst' & Hpretty') Hout'.
  unfold added. repeat split; try congruence.
  - destruct Hagree as [Hlength _]. congruence.
  - intros i Hi. unfold isObject_at. rewrite Hobj'. apply Hagree, Hi.
  - rewrite Hout', Hout, <- !app_assoc. reflexivity.
Qed.

(** An element that is written in one piece. *)
Lemma element_added name text (s : Session) :
  accepts (sink s) -> named s name ->
  exists s',
    orReturn (ttsdkjson_beginElement name) (addJSONData text) s = (TTSDKJSON_OK, s')
    /\ added name text s s'.
Proof.
  intros Hsink Hnamed.
  destruct (beginElement_added name s Hsink Hnamed) as (s1 & H1 & Hadded & _).
  assert (accepts (sink s1)) as Hsink1.
  { destruct Hadded as (-> & _). exact Hsink. }
  destruct (wrote text s1 Hsink1) as (s2 & H2 & Hsame & Hout).
  exists s2. split; [exact (orReturn_run _ _ _ _ _ H1 H2)|].
  exact (added_more name [] text s s1 s2 Hadded Hsame Hout).
Qed.

Lemma decimal_number value :
  decimal value = renderScalar (number value).
Proof.
  unfold number, renderScalar. destruct value as [|p|p].
  - reflexivity.
  - reflexivity.
  - change (Z.neg p <? 0) with true. change (Z.abs (Z.neg p)) with (Z.pos p).
    rewrite decimal_neg, decimal_pos. reflexivity.
Qed.

Lemma wrote_hex value :
  forall s : Session,
    accepts (sink s) ->
    exists s',
      appendDataElement_loop value TTSDKJSON_OK s = (TTSDKJSON_OK, s')
      /\ sameContext s s' /\ output s' = output s ++ hex value.
Proof.
  induction value as [|currentByte value IH]; intros s Hsink.
  - exists s. cbn. rewrite app_nil_r. split; [reflexivity|].
    split; [apply sameContext_refl | reflexivity].
  - cbn [appendDataElement_loop].
    destruct (wrote [hexNybble (Z.land (Z.shiftr (code currentByte) 4) 15);
                     hexNybble (Z.land (code currentByte) 15)] s Hsink)
      as (s1 & -> & Hsame1 & Hout1).
    change (negb (TTSDKJSON_OK =? TTSDKJSON_OK)) with false. cbv iota.
    destruct (IH s1 (accepts_same _ _ Hsame1 Hsink)) as (s2 & -> & Hsame2 & Hout2).
    exists s2. split; [reflexivity|].
    split; [exact (sameContext_trans _ _ _ Hsame1 Hsame2)|].
    rewrite Hout2, Hout1, <- app_assoc. reflexivity.
Qed.

(** The operation of a value that is no container. *)
Lemma scalar_added name v (s : Session) level :
  container v = false -> valid v = true ->
  accepts (sink s) -> named s name ->
  exists op,
    operations name v = [op]
    /\ exists s',
         perform printf_g printf_f1 to_float op s = (TTSDKJSON_OK, s')
         /\ added name (render true (layout (prettyPrint (context s)) level v)) s s'.
Proof.
  intros Hscalar Hvalid Hsink Hnamed.
  destruct v as [|value|value|value|value|value|items|fields]; try discriminate Hscalar;
    cbn [operations layout render valid] in *; (eexists; split; [reflexivity|]);
    cbn [perform].
  - destruct (element_added name (bytes_of "null") s Hsink Hnamed) as (s' & H & Hadded).
    exists s'. split; [exact H | exact Hadded].
  - unfold ttsdkjson_addBooleanElement.
    destruct value;
      [destruct (element_added name (bytes_of "true") s Hsink Hnamed) as (s' & H & Hadded)
      |destruct (element_added name (bytes_of "false") s Hsink Hnamed) as (s' & H & Hadded)];
      exists s'; (split; [exact H | exact Hadded]).
  - unfold ttsdkjson_addIntegerElement.
    rewrite formatInt64_decimal by lia.
    change (negb (TTSDKJSON_OK =? TTSDKJSON_OK)) with false. cbv iota.
    unfold addFormattedNumber. rewrite Nat2Z.id, firstn_all.
    destruct (element_added name (decimal value) s Hsink Hnamed) as (s' & H & Hadded).
    exists s'. split; [exact H|].
    rewrite <- decimal_number. exact Hadded.
  - unfold ttsdkjson_addUIntegerElement.
    rewrite formatUint64_decimal by lia.
    change (negb (TTSDKJSON_OK =? TTSDKJSON_OK)) with false. cbv iota.
    unfold addFormattedNumber. rewrite Nat2Z.id, firstn_all.
    destruct (element_added name (decimal value) s Hsink Hnamed) as (s' & H & Hadded).
    exists s'. split; [exact H|].
    rewrite <- decimal_number. exact Hadded.
  - unfold ttsdkjson_addStringElement.
    destruct (Z.eqb_spec (Z.of_nat (length value)) TTSDKJSON_SIZE_AUTOMATIC) as [E|_];
      [unfold TTSDKJSON_SIZE_AUTOMATIC in E; lia|].
    destruct (beginElement_added name s Hsink Hnamed) as (s1 & H1 & Hadded & _).
    assert (accepts (sink s1)) as Hsink1.
    { destruct Hadded as (-> & _). exact Hsink. }
    destruct (wrote_quoted value (Z.of_nat (length value)) s1 (escaped value) Hsink1)
      as (s2 & H2 & Hsame & Hout).
    { rewrite Nat2Z.id, firstn_all. apply writable_escaped, Hvalid. }
    exists s2. split; [exact (orReturn_run _ _ _ _ _ H1 H2)|].
    exact (added_more name [] _ s s1 s2 Hadded Hsame Hout).
  - unfold ttsdkjson_addDataElement, ttsdkjson_beginDataElement,
      ttsdkjson_beginStringElement, ttsdkjson_appendDataElement, ttsdkjson_endDataElement,
      ttsdkjson_endStringElement.
    rewrite Nat2Z.id, firstn_all.
    destruct (element_added name [DQUOTE] s Hsink Hnamed) as (s1 & H1 & Hadded).
    assert (accepts (sink s1)) as Hsink1.
    { destruct Hadded as (-> & _). exact Hsink. }
    destruct (wrote_hex value s1 Hsink1) as (s2 & H2 & Hsame2 & Hout2).
    destruct (wrote [DQUOTE] s2 (accepts_same _ _ Hsame2 Hsink1)) as (s3 & H3 & Hsame3 & Hout3).
    exists s3.
    split; [exact (orReturn_run _ _ _ _ _ H1 (orReturn_run _ _ _ _ _ H2 H3))|].
    pose proof (added_more name _ _ s s1 s2 Hadded Hsame2 Hout2) as Hadded2.
    pose proof (added_more name _ _ s s2 s3 Hadded2 Hsame3 Hout3) as Hadded3.
    cbn [renderScalar]. cbn [app] in Hadded3.
    exact Hadded3.
Qed.

(** Container open: the element begins, the bracket is written and the
    level is one more. *)
Lemma container_begun kind (opening : bytes) name (s : Session) :
  accepts (sink s) -> named s name -> 0 <= lvl s ->
  (Z.to_nat (lvl s + 1) < length (isObject (context s)))%nat ->
  exists s',
    orReturn (fun s => if lvl s >=? 0 then ttsdkjson_beginElement name s
                       else (TTSDKJSON_OK, s))
             (fun s => addJSONData opening (snd (update (pushLevel kind) s))) s
    = (TTSDKJSON_OK, s')
    /\ sink s' = sink s /\ lvl s' = lvl s + 1
    /\ prettyPrint (context s') = prettyPrint (context s)
    /\ containerFirstEntry (context s') = true
    /\ agree (lvl s) s s'
    /\ isObject_at (context s') (lvl s') = kind
    /\ output s' = output s ++ heading s name ++ opening.
Proof.
  intros Hsink Hnamed Hlevel Hwidth.
  destruct (beginElement_added name s Hsink Hnamed)
    as (s1 & H1 & (Hsink1 & Hlvl1 & Hpretty1 & Hfirst1 & Hagree1 & Hout1) & Hobj1).
  set (s1' := snd (update (pushLevel kind) s1)).
  assert (sink s1' = sink s /\ lvl s1' = lvl s + 1
          /\ prettyPrint (context s1') = prettyPrint (context s)
          /\ containerFirstEntry (context s1') = true
          /\ isObject (context s1') = <[Z.to_nat (lvl s + 1) := kind]> (isObject (context s))
          /\ output s1' = output s1) as (Hsink' & Hlvl' & Hpretty' & Hfirst' & Hobj' & Hout').
  { subst s1'. unfold update, pushLevel, isObject_store, output.
    cbn [snd context emitted set_containerLevel containerLevel].
    rewrite Hlvl1. destruct (Z.ltb_spec (lvl s + 1) 0) as [?|_]; [lia|].
    cbn. rewrite Hobj1. repeat split; assumption. }
  assert (accepts (sink s1')) as Hsinks' by (rewrite Hsink'; exact Hsink).
  destruct (wrote opening s1' Hsinks')
    as (s2 & H2 & (Hsink2 & Hlvl2 & Hobj2 & Hfirst2 & Hpretty2) & Hout2).
  exists s2. split.
  { apply (orReturn_run _ _ s s1); [|exact H2].
    destruct (Z.geb_spec (lvl s) 0); [exact H1 | lia]. }
  repeat split; try congruence.
  - rewrite Hobj2, Hobj'. apply length_insert.
  - intros i Hi. unfold isObject_at. rewrite Hobj2, Hobj'.
    destruct (i <? 0) eqn:E; [reflexivity|].
    rewrite list_lookup_insert_ne by lia. reflexivity.
  - unfold isObject_at. rewrite Hlvl2, Hlvl', Hobj2, Hobj'.
    destruct (Z.ltb_spec (lvl s + 1) 0) as [?|_]; [lia|].
    rewrite list_lookup_insert_eq by exact Hwidth. reflexivity.
  - rewrite Hout2, Hout', Hout1, app_nil_r, <- app_assoc. reflexivity.
Qed.

(** Container close: the line break, when the container has an entry, and
    the bracket of its kind. *)
Lemma container_ended (s : Session) :
  accepts (sink s) -> 0 < lvl s ->
  exists s',
    ttsdkjson_endContainer s = (TTSDKJSON_OK, s')
    /\ ended ((if prettyPrint (context s) && negb (containerFirstEntry (context s))
               then "010"%char :: spaces (Z.to_nat (lvl s - 1)) else [])
              ++ [if isObject_at (context s) (lvl s) then "}"%char else "]"%char]) s s'.
Proof.
  intros Hsink Hlevel. unfold ttsdkjson_endContainer.
  destruct (Z.leb_spec (lvl s) 0) as [?|_]; [lia|]. cbv zeta.
  set (s0 := snd (update (fun c => set_containerLevel (containerLevel c - 1) c) s)).
  assert (sink s0 = sink s /\ lvl s0 = lvl s - 1
          /\ prettyPrint (context s0) = prettyPrint (context s)
          /\ containerFirstEntry (context s0) = containerFirstEntry (context s)
          /\ isObject (context s0) = isObject (context s)
          /\ output s0 = output s) as (Hsink0 & Hlvl0 & Hpretty0 & Hfirst0 & Hobj0 & Hout0)
    by (repeat split).
  clearbody s0.
  assert (accepts (sink s0)) as Hsinks0 by (rewrite Hsink0; exact Hsink).
  assert (exists sa : Session,
            (if prettyPrint (context s0) && negb (containerFirstEntry (context s0))
             then orReturn (addJSONData ["010"%char]) (indent (Z.to_nat (lvl s0))) s0
             else (TTSDKJSON_OK, s0)) = (TTSDKJSON_OK, sa)
            /\ sameContext s0 sa
            /\ output sa
               = output s0
                 ++ (if prettyPrint (context s) && negb (containerFirstEntry (context s))
                     then "010"%char :: spaces (Z.to_nat (lvl s - 1)) else []))
    as (sa & Ha & Hsamea & Houta).
  { rewrite Hpretty0, Hfirst0, Hlvl0.
    destruct (prettyPrint (context s) && negb (containerFirstEntry (context s))).
    - destruct (wrote ["010"%char] s0 Hsinks0) as (sx & Hx & Hsamex & Houtx).
      destruct (wrote_indent (Z.to_nat (lvl s - 1)) sx (accepts_same _ _ Hsamex Hsinks0))
        as (sy & Hy & Hsamey & Houty).
      exists sy. split; [exact (orReturn_run _ _ _ _ _ Hx Hy)|].
      split; [exact (sameContext_trans _ _ _ Hsamex Hsamey)|].
      rewrite Houty, Houtx, <- app_assoc. reflexivity.
    - exists s0. rewrite app_nil_r. split; [reflexivity|].
      split; [apply sameContext_refl | reflexivity]. }
  destruct Hsamea as (Hsinka & Hlvla & Hobja & Hfirsta & Hprettya).
  set (sa' := snd (update (set_containerFirstEntry false) sa)).
  assert (sink sa' = sink sa /\ lvl sa' = lvl sa
          /\ prettyPrint (context sa') = prettyPrint (context sa)
          /\ containerFirstEntry (context sa') = false
          /\ isObject (context sa') = isObject (context sa)
          /\ output sa' = output sa) as (Hsink' & Hlvl' & Hpretty' & Hfirst' & Hobj' & Hout')
    by (repeat split).
  assert (accepts (sink sa')) as Hsinks' by (rewrite Hsink', Hsinka; exact Hsinks0).
  destruct (wrote [if isObject_at (context s) (lvl s) then "}"%char else "]"%char]
              sa' Hsinks')
    as (sb & Hb & (Hsinkb & Hlvlb & Hobjb & Hfirstb & Hprettyb) & Houtb).
  exists sb. split.
  { apply (orReturn_run _ _ s0 sa); [exact Ha | exact Hb]. }
  unfold ended. repeat split; try congruence.
  - intros i _. unfold isObject_at. rewrite Hobjb, Hobj', Hobja, Hobj0. reflexivity.
  - rewrite Houtb, Hout', Houta, Hout0, <- app_assoc. reflexivity.
Qed.

Local Abbreviation performAll := (performAll (U:=U) printf_g printf_f1 to_float).
Local Abbreviation statuses := (statuses (U:=U) printf_g printf_f1 to_float).
Local Abbreviation allOK := (Forall (fun result : Z => result = TTSDKJSON_OK)).

Lemma performAll_app a b (s : Session) :
  performAll (a ++ b) s = performAll b (performAll a s).
Proof. apply fold_left_app. Qed.

Lemma statuses_app a :
  forall b (s : Session),
    statuses (a ++ b) s = statuses a s ++ statuses b (performAll a s).
Proof.
  induction a as [|op a IH]; intros b s; cbn [app Tree.statuses]; [reflexivity|].
  rewrite IH. reflexivity.
Qed.

Lemma performAll_cons op ops (s : Session) :
  performAll (op :: ops) s = performAll ops (snd (perform printf_g printf_f1 to_float op s)).
Proof. reflexivity. Qed.

Lemma statuses_cons op ops (s : Session) :
  statuses (op :: ops) s
  = fst (perform printf_g printf_f1 to_float op s)
    :: statuses ops (snd (perform printf_g printf_f1 to_float op s)).
Proof. reflexivity. Qed.

Lemma agree_weaken n n' (s s' : Session) : n <= n' -> agree n' s s' -> agree n s s'.
Proof. intros Hn [Hl H]. split; [exact Hl|]. intros i Hi. apply H. lia. Qed.

Lemma agree_step n (s1 s2 s3 : Session) : agree n s1 s2 -> agree n s2 s3 -> agree n s1 s3.
Proof.
  intros [Hl1 H1] [Hl2 H2]. split; [congruence|].
  intros i Hi. rewrite H2, H1 by lia. reflexivity.
Qed.

Lemma lastItem_layoutItems pretty level items :
  lastItem (layoutItems pretty level items) = noItems items.
Proof. destruct items; reflexivity. Qed.

Lemma lastMember_layoutFields pretty level fields :
  lastMember (layoutFields pretty level fields) = noFields fields.
Proof. destruct fields; reflexivity. Qed.

Ltac scalar_written :=
  let op := fresh "op" in
  let Hops := fresh "Hops" in
  let s' := fresh "s'" in
  let Hop := fresh "Hop" in
  let Hadded := fresh "Hadded" in
  intros name s L Hsink Hnamed Hlvl Hvalid Hheight;
  match goal with
  | |- context [operations name ?v] =>
      destruct (scalar_added name v s L eq_refl Hvalid Hsink Hnamed)
        as (op & Hops & s' & Hop & Hadded)
  end;
  rewrite Hops; cbn [Tree.statuses Encode.performAll fold_left]; rewrite Hop;
  split; [repeat constructor | exact Hadded].

(** What the operations of a value write, in a container or at the top. *)
Lemma written :
  (forall v name (s : Session) L,
     accepts (sink s) -> named s name -> lvl s = Z.of_nat L ->
     valid v = true -> (L + height v < length (isObject (context s)))%nat ->
     allOK (statuses (operations name v) s)
     /\ added name (render true (layout (prettyPrint (context s)) L v)) s
          (performAll (operations name v) s))
  /\ (forall items (s : Session) L,
        accepts (sink s) -> lvl s = Z.of_nat (S L) ->
        isObject_at (context s) (lvl s) = false ->
        validItems items = true ->
        (S L + heightItems items < length (isObject (context s)))%nat ->
        let pretty := prettyPrint (context s) in
        allOK (statuses (operationsItems items ++ [EndContainer]) s)
        /\ ended ((if containerFirstEntry (context s)
                   then if noItems items then [] else newline pretty (S L)
                   else renderSeparator true (noItems items)
                          (separator pretty L (noItems items)))
                  ++ renderItems true (layoutItems pretty L items) ++ ["]"%char]) s
             (performAll (operationsItems items ++ [EndContainer]) s))
  /\ (forall fields (s : Session) L,
        accepts (sink s) -> lvl s = Z.of_nat (S L) ->
        isObject_at (context s) (lvl s) = true ->
        validFields fields = true ->
        (S L + heightFields fields < length (isObject (context s)))%nat ->
        let pretty := prettyPrint (context s) in
        allOK (statuses (operationsFields fields ++ [EndContainer]) s)
        /\ ended ((if containerFirstEntry (context s)
                   then if noFields fields then [] else newline pretty (S L)
                   else renderSeparator true (noFields fields)
                          (separator pretty L (noFields fields)))
                  ++ renderMembers true (layoutFields pretty L fields) ++ ["}"%char]) s
             (performAll (operationsFields fields ++ [EndContainer]) s)).
Proof.
  apply Value_mutind.
  - scalar_written.
  - intros value. scalar_written.
  - intros value. scalar_written.
  - intros value. scalar_written.
  - intros value. scalar_written.
  - intros value. scalar_written.
  - (* an array *)
    intros items IH name s L Hsink Hnamed Hlvl Hvalid Hheight.
    cbn [operations height valid] in *.
    destruct (container_begun false ["["%char] name s Hsink Hnamed ltac:(lia) ltac:(lia))
      as (s1 & H1 & Hsink1 & Hlvl1 & Hpretty1 & Hfirst1 & Hagree1 & Hkind1 & Hout1).
    change (perform printf_g printf_f1 to_float (BeginArray name) s = (TTSDKJSON_OK, s1))
      in H1.
    rewrite statuses_cons, performAll_cons, H1. cbn [fst snd].
    destruct (IH s1 L) as (Hstatuses & Hsink2 & Hlvl2 & Hpretty2 & Hfirst2 & Hagree2 & Hout2).
    { rewrite Hsink1. exact Hsink. }
    { lia. }
    { exact Hkind1. }
    { exact Hvalid. }
    { destruct Hagree1 as [-> _]. lia. }
    split; [constructor; [reflexivity | exact Hstatuses]|].
    unfold added. repeat split; try congruence.
    + lia.
    + destruct Hagree1, Hagree2. congruence.
    + apply (agree_step _ s s1); [exact Hagree1|].
      apply (agree_weaken _ (lvl s1)); [lia | exact Hagree2].
    + rewrite Hout2, Hout1, Hfirst1, Hpretty1. cbn [layout render].
      repeat (rewrite <- ?app_assoc; cbn [app]). reflexivity.
  - (* an object *)
    intros fields IH name s L Hsink Hnamed Hlvl Hvalid Hheight.
    cbn [operations height valid] in *.
    destruct (container_begun true ["{"%char] name s Hsink Hnamed ltac:(lia) ltac:(lia))
      as (s1 & H1 & Hsink1 & Hlvl1 & Hpretty1 & Hfirst1 & Hagree1 & Hkind1 & Hout1).
    change (perform printf_g printf_f1 to_float (BeginObject name) s = (TTSDKJSON_OK, s1))
      in H1.
    rewrite statuses_cons, performAll_cons, H1. cbn [fst snd].
    destruct (IH s1 L) as (Hstatuses & Hsink2 & Hlvl2 & Hpretty2 & Hfirst2 & Hagree2 & Hout2).
    { rewrite Hsink1. exact Hsink. }
    { lia. }
    { exact Hkind1. }
    { exact Hvalid. }
    { destruct Hagree1 as [-> _]. lia. }
    split; [constructor; [reflexivity | exact Hstatuses]|].
    unfold added. repeat split; try congruence.
    + lia.
    + destruct Hagree1, Hagree2. congruence.
    + apply (agree_step _ s s1); [exact Hagree1|].
      apply (agree_weaken _ (lvl s1)); [lia | exact Hagree2].
    + rewrite Hout2, Hout1, Hfirst1, Hpretty1. cbn [layout render].
      repeat (rewrite <- ?app_assoc; cbn [app]). reflexivity.
  - (* no item is left *)
    intros s L Hsink Hlvl Hkind _ _ pretty.
    cbn [operationsItems app Tree.statuses Encode.performAll fold_left perform].
    destruct (container_ended s Hsink ltac:(lia)) as (s' & -> & Hended). cbn [fst snd].
    split; [repeat constructor|].
    rewrite Hkind in Hended. cbn [noItems layoutItems renderItems app].
    replace (Z.to_nat (lvl s - 1)) with L in Hended by lia.
    fold pretty in Hended. unfold renderSeparator, separator, newline.
    destruct (containerFirstEntry (context s)), pretty;
      cbn [before comma after negb andb app] in *; rewrite ?app_nil_r; exact Hended.
  - (* an item *)
    intros item IHitem rest IHrest s L Hsink Hlvl Hkind Hvalid Hheight pretty.
    cbn [operationsItems validItems heightItems] in *.
    apply andb_prop in Hvalid as [Hitem Hrest].
    rewrite <- app_assoc, statuses_app, performAll_app.
    destruct (IHitem None s (S L) Hsink) as (Hstatuses1 & Hadded1); try assumption.
    { intros Hobject. congruence. }
    { lia. }
    set (s1 := performAll (operations None item) s) in *.
    destruct Hadded1 as (Hsink1 & Hlvl1 & Hpretty1 & Hfirst1 & Hagree1 & Hout1).
    destruct (IHrest s1 L) as (Hstatuses2 & Hended2).
    { rewrite Hsink1. exact Hsink. }
    { lia. }
    { rewrite Hlvl1. destruct Hagree1 as [_ ->]; [exact Hkind | lia]. }
    { exact Hrest. }
    { destruct Hagree1 as [-> _]. lia. }
    split; [apply Forall_app; split; assumption|].
    set (s2 := performAll (operationsItems rest ++ [EndContainer]) s1) in *.
    destruct Hended2 as (Hsink2 & Hlvl2 & Hpretty2 & Hfirst2 & Hagree2 & Hout2).
    unfold ended. repeat split; try congruence.
    + destruct Hagree1, Hagree2. congruence.
    + apply (agree_step _ s s1); [exact Hagree1|]. rewrite <- Hlvl1. exact Hagree2.
    + rewrite Hout2, Hout1, Hfirst1, Hpretty1. fold pretty.
      unfold heading. rewrite Hkind, Hlvl. fold pretty.
      assert ((Z.of_nat (S L) >? 0) = true) as -> by (apply Z.gtb_lt; lia). rewrite Nat2Z.id, andb_true_r.
      cbn [noItems layoutItems renderItems]. rewrite lastItem_layoutItems.
      set (following := renderSeparator true (noItems rest) _).
      unfold renderSeparator, separator, newline.
      destruct (containerFirstEntry (context s)), pretty;
        cbn [negb before comma after];
        repeat (rewrite <- ?app_assoc; cbn [app]); reflexivity.
  - (* no member is left *)
    intros s L Hsink Hlvl Hkind _ _ pretty.
    cbn [operationsFields app Tree.statuses Encode.performAll fold_left perform].
    destruct (container_ended s Hsink ltac:(lia)) as (s' & -> & Hended). cbn [fst snd].
    split; [repeat constructor|].
    rewrite Hkind in Hended. cbn [noFields layoutFields renderMembers app].
    replace (Z.to_nat (lvl s - 1)) with L in Hended by lia.
    fold pretty in Hended. unfold renderSeparator, separator, newline.
    destruct (containerFirstEntry (context s)), pretty;
      cbn [before comma after negb andb app] in *; rewrite ?app_nil_r; exact Hended.
  - (* a member *)
    intros key value IHvalue rest IHrest s L Hsink Hlvl Hkind Hvalid Hheight pretty.
    cbn [operationsFields validFields heightFields] in *.
    apply andb_prop in Hvalid as [Hvalid Hrest].
    apply andb_prop in Hvalid as [Hkey Hvalue].
    rewrite <- app_assoc, statuses_app, performAll_app.
    destruct (IHvalue (Some key) s (S L) Hsink) as (Hstatuses1 & Hadded1); try assumption.
    { intros _. exists key. split; [reflexivity | exact Hkey]. }
    { lia. }
    set (s1 := performAll (operations (Some key) value) s) in *.
    destruct Hadded1 as (Hsink1 & Hlvl1 & Hpretty1 & Hfirst1 & Hagree1 & Hout1).
    destruct (IHrest s1 L) as (Hstatuses2 & Hended2).
    { rewrite Hsink1. exact Hsink. }
    { lia. }
    { rewrite Hlvl1. destruct Hagree1 as [_ ->]; [exact Hkind | lia]. }
    { exact Hrest. }
    { destruct Hagree1 as [-> _]. lia. }
    split; [apply Forall_app; split; assumption|].
    set (s2 := performAll (operationsFields rest ++ [EndContainer]) s1) in *.
    destruct Hended2 as (Hsink2 & Hlvl2 & Hpretty2 & Hfirst2 & Hagree2 & Hout2).
    unfold ended. repeat split; try congruence.
    + destruct Hagree1, Hagree2. congruence.
    + apply (agree_step _ s s1); [exact Hagree1|]. rewrite <- Hlvl1. exact Hagree2.
    + rewrite Hout2, Hout1, Hfirst1, Hpretty1. fold pretty.
      unfold heading. rewrite Hkind, Hlvl. fold pretty.
      assert ((Z.of_nat (S L) >? 0) = true) as -> by (apply Z.gtb_lt; lia). rewrite Nat2Z.id, andb_true_r.
      cbn [noFields layoutFields renderMembers]. rewrite lastMember_layoutFields.
      set (following := renderSeparator true (noFields rest) _).
      unfold renderSeparator, separator, newline.
      destruct (containerFirstEntry (context s)), pretty;
        cbn [negb before comma after];
        repeat (rewrite <- ?app_assoc; cbn [app]); reflexivity.
Qed.

End Written.

(** ** What the decoder reads from the text of a value *)

Section Read.
Import Decode Layout Tree.
Context {U : Type}.
Variable sscanf_lg : bytes -> float.
Variable callbacks : TTSDKJSONDecodeCallbacks U.
Variable size : nat.
Hypothesis Haccepting : accepting callbacks.

Local Abbreviation Context := (TTSDKJSONDecodeContext U).
Local Abbreviation decoding := (decoding size callbacks).
Local Abbreviation decodesAs := (Layout.decodesAs (U:=U) sscanf_lg).
Local Abbreviation arrayLoopsAs := (Layout.arrayLoopsAs (U:=U) sscanf_lg).
Local Abbreviation objectLoopsAs := (Layout.objectLoopsAs (U:=U) sscanf_lg).
Local Abbreviation quarter := (Z.quot (Z.of_nat size) 4).

Lemma quarter_bounds : 0 <= quarter /\ 4 * quarter <= Z.of_nat size < 4 * quarter + 4.
Proof.
  pose proof (Z.quot_rem' (Z.of_nat size) 4) as Hsplit.
  pose proof (Z.rem_bound_pos (Z.of_nat size) 4 ltac:(lia) ltac:(lia)) as Hrem.
  lia.
Qed.

Lemma decoding_memory m (c : Context) :
  decoding c -> length m = size -> decoding (set_memory m c).
Proof. intros (? & ? & ? & ? & ? & ?) Hm. repeat split; assumption. Qed.

(** A callback: it returns OK, and the call is in the log. *)
Lemma invoked call (c : Context) :
  decoding c ->
  exists c',
    invoke call c = (TTSDKJSON_OK, c') /\ decoding c' /\ calls c' = calls c ++ [call].
Proof.
  intros Hc. pose proof Hc as (Hcb & Hrest).
  pose proof (Haccepting call c Hcb) as Hok. unfold invoke in *.
  destruct_callback. cbn [fst] in Hok. subst. eexists. split; [reflexivity|].
  split; [exact Hc | reflexivity].
Qed.

Lemma holds_readName name (c : Context) read :
  decoding c -> holds name c read -> readName name c = read.
Proof.
  intros (_ & _ & Hname & _) Hholds. destruct name; cbn [holds readName] in *.
  - congruence.
  - destruct Hholds as (key & rest & -> & Hkey & Htake). rewrite Hname, drop_0.
    rewrite <- (take_drop (stringBuffer c) (memory c)), Htake, <- app_assoc.
    cbn [app]. rewrite (cstring_written key _ Hkey). reflexivity.
Qed.

Lemma holds_memory name (c : Context) read m :
  holds name c read -> sameBelow (stringBuffer c) (memory c) m ->
  holds name (set_memory m c) read.
Proof.
  intros Hholds Hsame. destruct name; cbn [holds] in *; [exact Hholds|].
  destruct Hholds as (key & rest & -> & Hkey & Htake).
  exists key, rest. split; [reflexivity|]. split; [exact Hkey|].
  rewrite <- Htake. cbn [stringBuffer memory set_memory].
  apply list_eq. intros i. rewrite !lookup_take.
  destruct (decide (i < stringBuffer c)%nat); [apply Hsame; assumption | reflexivity].
Qed.

(** *** The texts *)

Lemma numeral_of value :
  0 <= value ->
  exists d,
    d <> Decimal.Nil
    /\ Encode.decimal value = bytes_of (NilEmpty.string_of_uint d)
    /\ Z.of_N (Pos.of_uint d) = value.
Proof.
  intros Hvalue. destruct value as [|p|p]; [| |lia].
  - exists (Decimal.D0 Decimal.Nil). repeat split. discriminate.
  - exists (Pos.to_uint p). split; [apply DecimalPos.Unsigned.to_uint_nonnil|].
    split; [apply decimal_pos|]. rewrite DecimalPos.Unsigned.of_to. reflexivity.
Qed.

Lemma hexNybble_plain currentByte :
  let plain ch :=
    negb (Ascii.eqb ch BACKSLASH) && negb (Ascii.eqb ch DQUOTE) && (32 <=? code ch) in
  plain (Encode.hexNybble (Z.land (Z.shiftr (code currentByte) 4) 15)) = true
  /\ plain (Encode.hexNybble (Z.land (code currentByte) 15)) = true.
Proof.
  destruct currentByte as [[] [] [] [] [] [] [] []]; vm_compute; split; reflexivity.
Qed.

Lemma complicatedCase_hex data : Encode.complicatedCase (hex data) = Some (hex data).
Proof.
  induction data as [|currentByte data IH]; [reflexivity|].
  cbn [hex flat_map app]. fold (hex data).
  destruct (hexNybble_plain currentByte) as [Hhigh Hlow].
  rewrite (complicatedCase_simple _ _ Hhigh), (complicatedCase_simple _ _ Hlow), IH.
  reflexivity.
Qed.

Lemma length_hex data : length (hex data) = (2 * length data)%nat.
Proof.
  induction data as [|b data IH]; [reflexivity|].
  cbn [hex flat_map app length]. fold (hex data). lia.
Qed.

(** The body of a string that the encoder escaped, decoded at [dst]. *)
Lemma decodedBody_escaped string e fastCopy dst dstLength (m : bytes) :
  Encode.complicatedCase string = Some e ->
  scanBody e true = Some fastCopy ->
  Z.of_nat (length e) < dstLength ->
  decodedBody dst dstLength e fastCopy m
  = (TTSDKJSON_OK,
     <[(dst + length string)%nat := NUL]> (memcpy dst string (<[dst := NUL]> m))).
Proof.
  intros He Hscan Hfits. unfold decodedBody.
  destruct (Z.geb_spec (Z.of_nat (length e)) dstLength) as [?|_]; [lia|].
  destruct (scanBody_escaped string e true He) as (fastCopy' & Hscan' & Hsame).
  rewrite Hscan in Hscan'. injection Hscan' as <-.
  destruct fastCopy.
  - rewrite (Hsame eq_refl). reflexivity.
  - apply decodeEscapes_escaped. exact He.
Qed.

(** *** Values that are no containers *)

(** A string whose body the encoder escaped. *)
Lemma string_read string e name (c : Context) read :
  Encode.complicatedCase string = Some e ->
  Z.of_nat (length e) < Z.of_nat size - quarter ->
  decoding c -> holds name c read ->
  exists c',
    decodesAs (DQUOTE :: e ++ [DQUOTE]) true name c TTSDKJSON_OK c'
    /\ decoding c' /\ calls c' = calls c ++ [OnStringElement read string].
Proof.
  intros He Hfits Hc Hholds.
  pose proof Hc as (Hcb & Hlength & Hnb & Hnbl & Hsb & Hsbl).
  pose proof quarter_bounds as Hquarter.
  pose proof (complicatedCase_length _ _ He) as Hlen.
  destruct (scanBody_escaped string e true He) as (fastCopy & Hscan & _).
  set (m1 := <[(stringBuffer c + length string)%nat := NUL]>
               (memcpy (stringBuffer c) string (<[stringBuffer c := NUL]> (memory c)))).
  assert (decodedBody (stringBuffer c) (stringBufferLength c) e fastCopy (memory c)
          = (TTSDKJSON_OK, m1)) as Hbody.
  { apply decodedBody_escaped; [exact He | exact Hscan | lia]. }
  assert (length m1 = size) as Hm1.
  { subst m1. rewrite length_insert, memcpy_length, length_insert. exact Hlength. }
  assert (sameBelow (stringBuffer c) (memory c) m1) as Hsame.
  { intros i Hi. subst m1. rewrite list_lookup_insert_ne by lia.
    rewrite memcpy_written by (rewrite length_insert; lia).
    rewrite lookup_app_l by (rewrite length_take, length_insert; lia).
    rewrite lookup_take_lt by lia. apply list_lookup_insert_ne. lia. }
  assert (cstring (drop (stringBuffer c) m1) = string) as Hcstring.
  { apply cstring_memcpy; [rewrite length_insert; lia|].
    exact (complicatedCase_no_NUL _ _ He). }
  pose proof (decoding_memory m1 c Hc Hm1) as Hc1.
  pose proof (holds_memory name c read m1 Hholds Hsame) as Hholds1.
  destruct (invoked (OnStringElement read string) (set_memory m1 c) Hc1)
    as (c' & Hinvoke & Hc' & Hcalls).
  exists c'. split; [|split; assumption].
  intros depth r Hdepth _. destruct depth as [|depth]; [lia|].
  cbn [app]. rewrite <- app_assoc. cbn [app].
  erewrite decodeElement_string by reflexivity.
  rewrite stringBuffer_set_bufferPtr, stringBufferLength_set_bufferPtr.
  destruct (decodeString_local (stringBuffer c) (stringBufferLength c) e fastCopy r c Hscan)
    as (p & -> & Hp).
  rewrite Hbody in Hp |- *. cbn [fst snd] in Hp |- *. rewrite (Hp eq_refl).
  change (negb (TTSDKJSON_OK =? TTSDKJSON_OK)) with false. cbv iota.
  rewrite readName_set_bufferPtr, (holds_readName name _ read Hc1 Hholds1).
  cbn [stringBuffer memory set_bufferPtr set_memory]. rewrite Hcstring.
  rewrite invoke_set_bufferPtr, Hinvoke. exists r. split; reflexivity.
Qed.

(** One of the words true, false and null. *)
Lemma literal_read (word : bytes) call name (c : Context) read :
  (word = bytes_of "true" /\ call = OnBooleanElement read true)
  \/ (word = bytes_of "false" /\ call = OnBooleanElement read false)
  \/ (word = bytes_of "null" /\ call = OnNullElement read) ->
  decoding c -> holds name c read ->
  exists c',
    decodesAs word true name c TTSDKJSON_OK c'
    /\ decoding c' /\ calls c' = calls c ++ [call].
Proof.
  intros Hword Hc Hholds.
  destruct (invoked call c Hc) as (c' & Hinvoke & Hc' & Hcalls).
  exists c'. split; [|split; assumption].
  intros depth r Hdepth _. destruct depth as [|depth]; [lia|].
  destruct Hword as [[-> ->]|[[-> ->]|[-> ->]]];
    (erewrite decodeElement_literal by reflexivity);
    cbn [Ascii.eqb Bool.eqb andb];
    rewrite readName_set_bufferPtr, (holds_readName name c read Hc Hholds),
      decodeLiteral_local, Hinvoke;
    exists r; split; reflexivity.
Qed.

(** The digits of an integer, with a minus sign when it is negative. *)
Lemma number_read value name (c : Context) read :
  Encode.INT64_MIN <= value <= Encode.UINT64_MAX ->
  decoding c -> holds name c read ->
  exists c',
    decodesAs (renderScalar (number value)) true name c TTSDKJSON_OK c'
    /\ decoding c'
    /\ calls c'
       = calls c ++ [if value <=? LLONG_MAX then OnIntegerElement read value
                     else OnUnsignedIntegerElement read value].
Proof.
  intros Hvalue Hc Hholds.
  set (call := if value <=? LLONG_MAX then OnIntegerElement read value
               else OnUnsignedIntegerElement read value).
  destruct (invoked call c Hc) as (c' & Hinvoke & Hc' & Hcalls).
  exists c'. split; [|split; assumption].
  intros depth r Hdepth Hr. destruct depth as [|depth]; [lia|].
  destruct (Hr eq_refl) as [Hsome Hdelimiter].
  destruct r as [|ch rest]; [contradiction|]. cbn [peek hd] in Hdelimiter.
  unfold number, renderScalar.
  destruct (Z.ltb_spec value 0) as [Hnegative|Hpositive].
  - destruct (numeral_of (Z.abs value) ltac:(lia)) as (d & Hd & -> & Hof).
    cbn [app]. rewrite decodeElement_negative_numeral; try assumption.
    2:{ rewrite Hof. unfold LLONG_MAX, Encode.INT64_MIN in *. lia. }
    rewrite Hof, (holds_readName name c read Hc Hholds), invoke_set_bufferPtr.
    replace (- Z.abs value) with value by lia.
    assert (call = OnIntegerElement read value) as <-.
    { subst call. destruct (Z.leb_spec value LLONG_MAX) as [_|Hlarge]; [reflexivity|].
      unfold LLONG_MAX in Hlarge. lia. }
    rewrite Hinvoke. eexists. split; reflexivity.
  - destruct (numeral_of (Z.abs value) ltac:(lia)) as (d & Hd & -> & Hof).
    cbn [app]. rewrite decodeElement_numeral; try assumption.
    2:{ rewrite Hof. unfold ULLONG_MAX, Encode.UINT64_MAX in *. lia. }
    rewrite Hof, (holds_readName name c read Hc Hholds), invoke_set_bufferPtr.
    replace (Z.abs value) with value by lia. fold call.
    rewrite Hinvoke. eexists. split; reflexivity.
Qed.

(** *** The layout of a value *)

Lemma isContainer_layout pretty level v :
  isContainer (layout pretty level v) = container v.
Proof. destruct v; reflexivity. Qed.

Lemma whitespace_newline pretty level : whitespace (newline pretty level) = true.
Proof.
  unfold newline. destruct pretty; [|reflexivity]. cbn [whitespace forallb].
  change (isspace "010") with true. cbn [andb].
  induction level as [|level IH]; [reflexivity | exact IH].
Qed.

Lemma wellFormed_separator pretty level last :
  wellFormedSeparator last (separator pretty level last) = true.
Proof.
  unfold wellFormedSeparator, separator.
  destruct last; cbn [before comma after orb]; fold (whitespace (newline pretty level));
    fold (whitespace (newline pretty (S level)));
    rewrite ?whitespace_newline, ?orb_true_r; reflexivity.
Qed.

Lemma wellFormed_escaped string : 
  forallb writable string = true -> wellFormedString (escaped string) = true.
Proof.
  intros H. unfold wellFormedString.
  destruct (scanBody_escaped string (escaped string) true (writable_escaped string H))
    as (fastCopy & -> & _).
  reflexivity.
Qed.

Lemma wellFormed_number value : wellFormedScalar (number value) = true.
Proof.
  unfold number, wellFormedScalar.
  destruct (numeral_of (Z.abs value) ltac:(lia)) as (d & Hd & -> & _).
  destruct (numeral_starts d Hd) as (ch & tl & Hstarts & Hdigit).
  rewrite numeral_FPChars, Hstarts. cbn [peek hd]. rewrite Hdigit. reflexivity.
Qed.

Lemma wellFormed_layout pretty :
  (forall v level, valid v = true -> wellFormed (layout pretty level v) = true)
  /\ (forall items level,
        validItems items = true -> wellFormedItems (layoutItems pretty level items) = true)
  /\ (forall fields level,
        validFields fields = true ->
        wellFormedMembers (layoutFields pretty level fields) = true).
Proof.
  apply Value_mutind; cbn [layout layoutItems layoutFields wellFormed wellFormedItems
                            wellFormedMembers valid validItems validFields].
  - reflexivity.
  - intros []; reflexivity.
  - intros value level _. apply wellFormed_number.
  - intros value level _. apply wellFormed_number.
  - intros value level H. apply wellFormed_escaped, H.
  - intros value level _. cbn [wellFormedScalar]. unfold wellFormedString.
    destruct (scanBody_escaped (hex value) (hex value) true (complicatedCase_hex value))
      as (fastCopy & -> & _).
    reflexivity.
  - intros items IH level H. rewrite (IH level H), andb_true_r.
    destruct (noItems items); [reflexivity | apply whitespace_newline].
  - intros fields IH level H. rewrite (IH level H), andb_true_r.
    destruct (noFields fields); [reflexivity | apply whitespace_newline].
  - reflexivity.
  - intros item IHitem rest IHrest level H. apply andb_prop in H as [Hitem Hrest].
    rewrite (IHitem _ Hitem), (IHrest _ Hrest), lastItem_layoutItems, wellFormed_separator.
    reflexivity.
  - reflexivity.
  - intros key value IHvalue rest IHrest level H.
    apply andb_prop in H as [H Hrest]. apply andb_prop in H as [Hkey Hvalue].
    rewrite (wellFormed_escaped key Hkey), (IHvalue _ Hvalue), (IHrest _ Hrest),
      lastMember_layoutFields, wellFormed_separator.
    destruct pretty; reflexivity.
Qed.

(** *** Values *)

(** The name of a member, decoded into the name buffer. *)
Lemma key_read key fastCopy (c : Context) :
  forallb writable key = true -> (8 * length key + 4 <= size)%nat ->
  scanBody (escaped key) true = Some fastCopy ->
  decoding c ->
  exists m,
    decodedBody (nameBuffer c) (nameBufferLength c) (escaped key) fastCopy (memory c)
    = (TTSDKJSON_OK, m)
    /\ decoding (set_memory m c) /\ holds NameBuffer (set_memory m c) (Some key).
Proof.
  intros Hkey Hfits Hscan Hc.
  pose proof Hc as (Hcb & Hlength & Hnb & Hnbl & Hsb & Hsbl).
  pose proof quarter_bounds as Hquarter.
  pose proof (writable_escaped key Hkey) as He.
  pose proof (complicatedCase_length _ _ He) as Hlen.
  eexists. split; [apply decodedBody_escaped; [exact He | exact Hscan | lia]|].
  rewrite Hnb. cbn [Nat.add].
  assert (exists y ys, drop (length key) (<[O := NUL]> (memory c)) = y :: ys)
    as (y & ys & Hdrop).
  { destruct (drop (length key) (<[O := NUL]> (memory c))) as [|y ys] eqn:E;
      [|eauto].
    apply (f_equal length) in E. rewrite length_drop, length_insert in E.
    cbn [length] in E. lia. }
  assert (<[length key := NUL]> (memcpy O key (<[O := NUL]> (memory c)))
          = key ++ NUL :: ys) as Hmemory.
  { rewrite memcpy_written by (rewrite length_insert; lia).
    rewrite take_0. cbn [app Nat.add]. rewrite Hdrop.
    replace (length key) with (length key + 0)%nat at 1 by lia.
    rewrite insert_app_r. reflexivity. }
  split.
  - apply decoding_memory; [exact Hc|].
    rewrite length_insert, memcpy_length, length_insert. exact Hlength.
  - cbn [holds stringBuffer memory set_memory]. rewrite Hmemory.
    exists key, (take (stringBuffer c - length key - 1) ys).
    split; [reflexivity|]. split; [exact (complicatedCase_no_NUL _ _ He)|].
    replace (stringBuffer c) with (length key + S (stringBuffer c - length key - 1))%nat
      at 1 by lia.
    rewrite take_app_add. reflexivity.
Qed.

(** What decoding the text of a value invokes. *)
Lemma read pretty :
  (forall v level name (c : Context) read,
     valid v = true -> fits size v = true -> decoding c -> holds name c read ->
     exists c',
       decodesAs (render true (layout pretty level v)) (negb (container v)) name c
         TTSDKJSON_OK c'
       /\ decoding c' /\ calls c' = calls c ++ events read v)
  /\ (forall items level (c : Context),
        validItems items = true -> fitsItems size items = true -> decoding c ->
        exists c',
          arrayLoopsAs true (layoutItems pretty level items) c TTSDKJSON_OK c'
          /\ decoding c'
          /\ calls c' = calls c ++ eventsItems items ++ [OnEndContainer])
  /\ (forall fields level (c : Context),
        validFields fields = true -> fitsFields size fields = true -> decoding c ->
        exists c',
          objectLoopsAs true (layoutFields pretty level fields) c TTSDKJSON_OK c'
          /\ decoding c'
          /\ calls c' = calls c ++ eventsFields fields ++ [OnEndContainer]).
Proof.
  apply Value_mutind.
  - intros level name c read _ _ Hc Hholds.
    apply (literal_read (bytes_of "null") (OnNullElement read) name c read); auto.
  - intros value level name c read _ _ Hc Hholds. cbn [layout render events container negb].
    destruct value; cbn [renderScalar].
    + apply (literal_read (bytes_of "true") (OnBooleanElement read true) name c read);
        auto.
    + apply (literal_read (bytes_of "false") (OnBooleanElement read false) name c read);
        auto.
  - intros value level name c read Hvalid _ Hc Hholds.
    cbn [valid layout render events container negb] in *.
    destruct (number_read value name c read) as (c' & Hdecodes & Hc' & Hcalls);
      [unfold Encode.INT64_MIN, Encode.INT64_MAX, Encode.UINT64_MAX in *; lia
      | assumption | assumption |].
    exists c'. split; [exact Hdecodes|]. split; [exact Hc'|]. rewrite Hcalls.
    destruct (Z.leb_spec value LLONG_MAX) as [_|Hlarge]; [reflexivity|].
    unfold LLONG_MAX, Encode.INT64_MAX in *. lia.
  - intros value level name c read Hvalid _ Hc Hholds.
    cbn [valid layout render events container negb] in *.
    apply number_read; [unfold Encode.INT64_MIN, Encode.UINT64_MAX in *; lia
                       | assumption | assumption].
  - intros value level name c read Hvalid Hfits Hc Hholds.
    cbn [valid fits layout render renderScalar events container negb] in *.
    apply string_read; [apply writable_escaped, Hvalid | | assumption | assumption].
    apply Nat.ltb_lt in Hfits. pose proof quarter_bounds.
    pose proof (complicatedCase_length _ _ (writable_escaped value Hvalid)). lia.
  - intros value level name c read _ Hfits Hc Hholds.
    cbn [fits layout render renderScalar events container negb] in *.
    apply string_read; [apply complicatedCase_hex | | assumption | assumption].
    apply Nat.ltb_lt in Hfits. pose proof quarter_bounds. rewrite length_hex. lia.
  - (* an array *)
    intros items IH level name c read Hvalid Hfits Hc Hholds.
    cbn [valid fits layout events container negb] in *.
    destruct (invoked (OnBeginArray read) c Hc) as (c1 & Hinvoke & Hc1 & Hcalls1).
    destruct (IH level c1 Hvalid Hfits Hc1) as (c2 & Hloops & Hc2 & Hcalls2).
    exists c2. split; [|split; [exact Hc2|]].
    + pose proof (decodesAs_array sscanf_lg true
                    (if noItems items then [] else newline pretty (S level))
                    (layoutItems pretty level items) name c TTSDKJSON_OK c2) as H.
      cbv zeta in H. rewrite (holds_readName name c read Hc Hholds), Hinvoke in H.
      apply H; [|intros _; exact Hloops].
      destruct (noItems items); [reflexivity | apply whitespace_newline].
    + rewrite Hcalls2, Hcalls1, <- !app_assoc. reflexivity.
  - (* an object *)
    intros fields IH level name c read Hvalid Hfits Hc Hholds.
    cbn [valid fits layout events container negb] in *.
    destruct (invoked (OnBeginObject read) c Hc) as (c1 & Hinvoke & Hc1 & Hcalls1).
    destruct (IH level c1 Hvalid Hfits Hc1) as (c2 & Hloops & Hc2 & Hcalls2).
    exists c2. split; [|split; [exact Hc2|]].
    + pose proof (decodesAs_object sscanf_lg true
                    (if noFields fields then [] else newline pretty (S level))
                    (layoutFields pretty level fields) name c TTSDKJSON_OK c2) as H.
      cbv zeta in H. rewrite (holds_readName name c read Hc Hholds), Hinvoke in H.
      apply H; [|intros _; exact Hloops].
      destruct (noFields fields); [reflexivity | apply whitespace_newline].
    + rewrite Hcalls2, Hcalls1, <- !app_assoc. reflexivity.
  - (* no item is left *)
    intros level c _ _ Hc.
    destruct (invoked OnEndContainer c Hc) as (c' & Hinvoke & Hc' & Hcalls).
    exists c'. split; [|split; assumption].
    pose proof (arrayLoopsAs_nil sscanf_lg true c) as H. rewrite Hinvoke in H. exact H.
  - (* an item *)
    intros item IHitem rest IHrest level c Hvalid Hfits Hc.
    cbn [validItems fitsItems layoutItems eventsItems] in *.
    apply andb_prop in Hvalid as [Hitem Hrest]. apply andb_prop in Hfits as [Hfits Hfits'].
    destruct (IHitem (S level) NullName c None Hitem Hfits Hc eq_refl)
      as (c1 & Hdecodes & Hc1 & Hcalls1).
    destruct (IHrest level c1 Hrest Hfits' Hc1) as (c2 & Hloops & Hc2 & Hcalls2).
    exists c2. split; [|split; [exact Hc2|]].
    + pose proof (arrayLoopsAs_cons sscanf_lg true (layout pretty (S level) item)
                    (separator pretty level (noItems rest))
                    (layoutItems pretty level rest) c TTSDKJSON_OK c1 TTSDKJSON_OK c2) as H.
      apply H.
      * apply (proj1 (wellFormed_layout pretty)), Hitem.
      * rewrite lastItem_layoutItems. apply wellFormed_separator.
      * apply (proj1 (proj2 (wellFormed_layout pretty))), Hrest.
      * rewrite isContainer_layout. exact Hdecodes.
      * intros _. exact Hloops.
    + rewrite Hcalls2, Hcalls1, <- !app_assoc. reflexivity.
  - (* no member is left *)
    intros level c _ _ Hc.
    destruct (invoked OnEndContainer c Hc) as (c' & Hinvoke & Hc' & Hcalls).
    exists c'. split; [|split; assumption].
    pose proof (objectLoopsAs_nil sscanf_lg true c) as H. rewrite Hinvoke in H. exact H.
  - (* a member *)
    intros key value IHvalue rest IHrest level c Hvalid Hfits Hc.
    cbn [validFields fitsFields layoutFields eventsFields] in *.
    apply andb_prop in Hvalid as [Hvalid Hrest]. apply andb_prop in Hvalid as [Hkey Hvalue].
    apply andb_prop in Hfits as [Hfits Hfits']. apply andb_prop in Hfits as [Hroom Hfits].
    apply Nat.leb_le in Hroom.
    destruct (scanBody_escaped key (escaped key) true (writable_escaped key Hkey))
      as (fastCopy & Hscan & _).
    destruct (key_read key fastCopy c Hkey Hroom Hscan Hc) as (m & Hbody & Hc0 & Hholds0).
    destruct (IHvalue (S level) NameBuffer (set_memory m c) (Some key) Hvalue Hfits Hc0
                Hholds0) as (c1 & Hdecodes & Hc1 & Hcalls1).
    destruct (IHrest level c1 Hrest Hfits' Hc1) as (c2 & Hloops & Hc2 & Hcalls2).
    exists c2. split; [|split; [exact Hc2|]].
    + pose proof (objectLoopsAs_cons sscanf_lg true (escaped key) []
                    (if pretty then [" "%char] else [])
                    (layout pretty (S level) value)
                    (separator pretty level (noFields rest))
                    (layoutFields pretty level rest) c fastCopy
                    TTSDKJSON_OK c1 TTSDKJSON_OK c2 Hscan eq_refl) as H.
      cbv zeta in H. rewrite Hbody in H. apply H.
      * destruct pretty; reflexivity.
      * apply (proj1 (wellFormed_layout pretty)), Hvalue.
      * rewrite lastMember_layoutFields. apply wellFormed_separator.
      * intros _. rewrite isContainer_layout. exact Hdecodes.
      * intros _ _. exact Hloops.
    + rewrite Hcalls2, Hcalls1, <- !app_assoc. reflexivity.
Qed.

(** *** Layouts that spell a value *)

Lemma sameBytes_eq a : forall b, Spelling.sameBytes a b = true -> a = b.
Proof.
  induction a as [|x a IH]; intros [|y b] H; cbn [Spelling.sameBytes] in H;
    try discriminate H; [reflexivity|].
  apply andb_prop in H as [Hhead Htail]. apply Ascii.eqb_eq in Hhead.
  rewrite Hhead, (IH b Htail). reflexivity.
Qed.

(** What decoding a text that spells a value invokes, whatever whitespace
    and commas the text has. *)
Lemma read_spelled strict :
  (forall d, wellFormed d = true ->
     forall v name (c : Context) read,
       Spelling.spells d v = true ->
       valid v = true -> fits size v = true -> decoding c -> holds name c read ->
       exists c',
         decodesAs (render strict d) (negb (isContainer d)) name c TTSDKJSON_OK c'
         /\ decoding c' /\ calls c' = calls c ++ events read v)
  /\ (forall items, wellFormedItems items = true ->
        forall values (c : Context),
          Spelling.spellsItems items values = true ->
          validItems values = true -> fitsItems size values = true -> decoding c ->
          exists c',
            arrayLoopsAs strict items c TTSDKJSON_OK c'
            /\ decoding c'
            /\ calls c' = calls c ++ eventsItems values ++ [OnEndContainer])
  /\ (forall members, wellFormedMembers members = true ->
        forall fields (c : Context),
          Spelling.spellsMembers members fields = true ->
          validFields fields = true -> fitsFields size fields = true -> decoding c ->
          exists c',
            objectLoopsAs strict members c TTSDKJSON_OK c'
            /\ decoding c'
            /\ calls c' = calls c ++ eventsFields fields ++ [OnEndContainer]).
Proof.
  apply Document_mutind.
  - (* a value that is no container *)
    intros s _ v name c read Hspells Hvalid Hfits Hc Hholds.
    cbn [Spelling.spells render isContainer negb] in *.
    destruct s as [body| | | |negative text], v as [|[|]|value|value|value|value|values|fields];
      cbn [Spelling.spellsScalar] in Hspells; try discriminate Hspells;
      cbn [valid fits events renderScalar] in *.
    + apply sameBytes_eq in Hspells as ->.
      apply string_read; [apply writable_escaped, Hvalid | | assumption | assumption].
      apply Nat.ltb_lt in Hfits. pose proof quarter_bounds.
      pose proof (complicatedCase_length _ _ (writable_escaped value Hvalid)). lia.
    + apply sameBytes_eq in Hspells as ->.
      apply string_read; [apply complicatedCase_hex | | assumption | assumption].
      apply Nat.ltb_lt in Hfits. pose proof quarter_bounds. rewrite length_hex. lia.
    + apply (literal_read (bytes_of "true") (OnBooleanElement read true) name c read);
        auto.
    + apply (literal_read (bytes_of "false") (OnBooleanElement read false) name c read);
        auto.
    + apply (literal_read (bytes_of "null") (OnNullElement read) name c read); auto.
    + apply andb_prop in Hspells as [Hsign Htext]. apply Bool.eqb_prop in Hsign.
      apply sameBytes_eq in Htext. subst negative text.
      destruct (number_read value name c read) as (c' & Hdecodes & Hc' & Hcalls);
        [unfold Encode.INT64_MIN, Encode.INT64_MAX, Encode.UINT64_MAX in *; lia
        | assumption | assumption |].
      exists c'. split; [exact Hdecodes|]. split; [exact Hc'|]. rewrite Hcalls.
      destruct (Z.leb_spec value LLONG_MAX) as [_|Hlarge]; [reflexivity|].
      unfold LLONG_MAX, Encode.INT64_MAX in *. lia.
    + apply andb_prop in Hspells as [Hsign Htext]. apply Bool.eqb_prop in Hsign.
      apply sameBytes_eq in Htext. subst negative text.
      apply (number_read value name c read);
        [unfold Encode.INT64_MIN, Encode.UINT64_MAX in *; lia | assumption | assumption].
  - (* an array *)
    intros lead items IH Hd v name c read Hspells Hvalid Hfits Hc Hholds.
    cbn [wellFormed] in Hd. apply andb_prop in Hd as [Hlead Hitems].
    destruct v as [| | | | | |values|fields]; cbn [Spelling.spells] in Hspells;
      try discriminate Hspells.
    cbn [valid fits events isContainer negb] in *.
    destruct (invoked (OnBeginArray read) c Hc) as (c1 & Hinvoke & Hc1 & Hcalls1).
    destruct (IH Hitems values c1 Hspells Hvalid Hfits Hc1) as (c2 & Hloops & Hc2 & Hcalls2).
    exists c2. split; [|split; [exact Hc2|]].
    + pose proof (decodesAs_array sscanf_lg strict lead items name c TTSDKJSON_OK c2) as H.
      cbv zeta in H. rewrite (holds_readName name c read Hc Hholds), Hinvoke in H.
      apply H; [exact Hlead | intros _; exact Hloops].
    + rewrite Hcalls2, Hcalls1, <- !app_assoc. reflexivity.
  - (* an object *)
    intros lead members IH Hd v name c read Hspells Hvalid Hfits Hc Hholds.
    cbn [wellFormed] in Hd. apply andb_prop in Hd as [Hlead Hmembers].
    destruct v as [| | | | | |values|fields]; cbn [Spelling.spells] in Hspells;
      try discriminate Hspells.
    cbn [valid fits events isContainer negb] in *.
    destruct (invoked (OnBeginObject read) c Hc) as (c1 & Hinvoke & Hc1 & Hcalls1).
    destruct (IH Hmembers fields c1 Hspells Hvalid Hfits Hc1)
      as (c2 & Hloops & Hc2 & Hcalls2).
    exists c2. split; [|split; [exact Hc2|]].
    + pose proof (decodesAs_object sscanf_lg strict lead members name c TTSDKJSON_OK c2)
        as H.
      cbv zeta in H. rewrite (holds_readName name c read Hc Hholds), Hinvoke in H.
      apply H; [exact Hlead | intros _; exact Hloops].
    + rewrite Hcalls2, Hcalls1, <- !app_assoc. reflexivity.
  - (* no item is left *)
    intros _ values c Hspells _ _ Hc.
    destruct values; cbn [Spelling.spellsItems] in Hspells; try discriminate Hspells.
    destruct (invoked OnEndContainer c Hc) as (c' & Hinvoke & Hc' & Hcalls).
    exists c'. split; [|split; assumption].
    pose proof (arrayLoopsAs_nil sscanf_lg strict c) as H. rewrite Hinvoke in H. exact H.
  - (* an item *)
    intros item IHitem sep rest IHrest Hitems values c Hspells Hvalid Hfits Hc.
    cbn [wellFormedItems] in Hitems.
    apply andb_prop in Hitems as [Hitems Hrest]. apply andb_prop in Hitems as [Hitem Hsep].
    destruct values as [|value values']; cbn [Spelling.spellsItems] in Hspells;
      try discriminate Hspells.
    cbn [validItems fitsItems eventsItems] in *.
    apply andb_prop in Hspells as [Hspells Hspells'].
    apply andb_prop in Hvalid as [Hvalid Hvalid']. apply andb_prop in Hfits as [Hfits Hfits'].
    destruct (IHitem Hitem value NullName c None Hspells Hvalid Hfits Hc eq_refl)
      as (c1 & Hdecodes & Hc1 & Hcalls1).
    destruct (IHrest Hrest values' c1 Hspells' Hvalid' Hfits' Hc1)
      as (c2 & Hloops & Hc2 & Hcalls2).
    exists c2. split; [|split; [exact Hc2|]].
    + pose proof (arrayLoopsAs_cons sscanf_lg strict item sep rest c
                    TTSDKJSON_OK c1 TTSDKJSON_OK c2) as H.
      apply H; [exact Hitem | exact Hsep | exact Hrest | exact Hdecodes
               | intros _; exact Hloops].
    + rewrite Hcalls2, Hcalls1, <- !app_assoc. reflexivity.
  - (* no member is left *)
    intros _ fields c Hspells _ _ Hc.
    destruct fields; cbn [Spelling.spellsMembers] in Hspells; try discriminate Hspells.
    destruct (invoked OnEndContainer c Hc) as (c' & Hinvoke & Hc' & Hcalls).
    exists c'. split; [|split; assumption].
    pose proof (objectLoopsAs_nil sscanf_lg strict c) as H. rewrite Hinvoke in H. exact H.
  - (* a member *)
    intros key afterKey afterColon value IHvalue sep rest IHrest Hmembers fields c
      Hspells Hvalid Hfits Hc.
    cbn [wellFormedMembers] in Hmembers.
    apply andb_prop in Hmembers as [Hmembers Hrest].
    apply andb_prop in Hmembers as [Hmembers Hsep].
    apply andb_prop in Hmembers as [Hmembers Hvalue].
    apply andb_prop in Hmembers as [Hmembers HafterColon].
    apply andb_prop in Hmembers as [_ HafterKey].
    destruct fields as [|name field fields']; cbn [Spelling.spellsMembers] in Hspells;
      try discriminate Hspells.
    cbn [validFields fitsFields eventsFields] in *.
    apply andb_prop in Hspells as [Hspells Hspells'].
    apply andb_prop in Hspells as [Hkey Hspells]. apply sameBytes_eq in Hkey. subst key.
    apply andb_prop in Hvalid as [Hvalid Hvalid']. apply andb_prop in Hvalid as [Hname Hvalid].
    apply andb_prop in Hfits as [Hfits Hfits']. apply andb_prop in Hfits as [Hroom Hfits].
    apply Nat.leb_le in Hroom.
    destruct (scanBody_escaped name (escaped name) true (writable_escaped name Hname))
      as (fastCopy & Hscan & _).
    destruct (key_read name fastCopy c Hname Hroom Hscan Hc) as (m & Hbody & Hc0 & Hholds0).
    destruct (IHvalue Hvalue field NameBuffer (set_memory m c) (Some name) Hspells Hvalid
                Hfits Hc0 Hholds0) as (c1 & Hdecodes & Hc1 & Hcalls1).
    destruct (IHrest Hrest fields' c1 Hspells' Hvalid' Hfits' Hc1)
      as (c2 & Hloops & Hc2 & Hcalls2).
    exists c2. split; [|split; [exact Hc2|]].
    + pose proof (objectLoopsAs_cons sscanf_lg strict (escaped name) afterKey afterColon
                    value sep rest c fastCopy TTSDKJSON_OK c1 TTSDKJSON_OK c2 Hscan
                    HafterKey HafterColon Hvalue Hsep) as H.
      cbv zeta in H. rewrite Hbody in H. apply H.
      * intros _. exact Hdecodes.
      * intros _ _. exact Hloops.
    + rewrite Hcalls2, Hcalls1, <- !app_assoc. reflexivity.
Qed.

(** Decoding a text that spells an array or an object. *)
Lemma spelled_decodes strict d v stringBuffer (userData : U) errorOffset :
  length stringBuffer = size ->
  wellFormed d = true -> isContainer d = true ->
  Spelling.spells d v = true -> valid v = true -> fits size v = true ->
  exists outcome,
    ttsdkjson_decode sscanf_lg (render strict d) stringBuffer callbacks userData
      errorOffset = Some outcome
    /\ result outcome = TTSDKJSON_OK
    /\ calls (final outcome) = events None v ++ [OnEndData].
Proof.
  intros Hsize Hd Hcontainer Hspells Hvalid Hfits.
  set (text := render strict d).
  set (c0 := initialContext text stringBuffer callbacks userData).
  destruct (proj1 (read_spelled strict) d Hd v NullName c0 None Hspells Hvalid Hfits)
    as (c1 & Hdecodes & Hc1 & Hcalls1).
  { rewrite <- Hsize. repeat split. }
  { reflexivity. }
  rewrite Hcontainer in Hdecodes.
  destruct (Hdecodes (S (length (text ++ []))) []) as (p & Helement & Hp).
  { unfold text. lia. }
  { discriminate. }
  fold text in Helement. rewrite app_nil_r in Helement.
  change (set_bufferPtr text c0) with c0 in Helement.
  destruct (invoked OnEndData (set_bufferPtr p c1) Hc1) as (c2 & Hend & _ & Hcalls2).
  unfold ttsdkjson_decode. fold text. fold c0. rewrite Helement.
  change (TTSDKJSON_OK =? TTSDKJSON_OK) with true. cbv iota. rewrite Hend.
  eexists. split; [reflexivity|]. cbn [result final]. split; [reflexivity|].
  rewrite Hcalls2. cbn [calls set_bufferPtr]. rewrite Hcalls1. reflexivity.
Qed.

End Read.

(** ** A document, encoded and decoded *)

Section RoundTrip.
Import Encode Decode Sink Tree.
Context {V U : Type}.
Variable printf_g : Z -> float -> bytes.
Variable printf_f1 : float -> bytes.
Variable to_float : float -> float.
Variable sscanf_lg : bytes -> float.

(** X16: a document of arrays, objects, strings, binary data, integers,
    booleans and nulls, written by the encoder and read back by the
    decoder: every call of the encoder returns OK, and decoding what the
    sink was given invokes the callbacks of the document's values in
    their order, with their names and values, then [onEndData], and
    returns OK.  So it is with and without pretty printing, and whatever
    bytes follow the document in the data. *)
Theorem document_round_trip (v : Value) (isObjectWidth : nat) (pretty : bool)
    (sink : TTSDKJSONAddDataFunc V) (sinkData : V) (stringBuffer : bytes)
    (callbacks : TTSDKJSONDecodeCallbacks U) (userData : U) (errorOffset : option Z)
    (trailing : bytes) :
  container v = true -> valid v = true ->
  (height v < isObjectWidth)%nat ->
  fits (length stringBuffer) v = true ->
  accepts sink -> accepting callbacks ->
  let session := ttsdkjson_beginEncode isObjectWidth pretty sink sinkData in
  let encoded := performAll printf_g printf_f1 to_float (operations None v) session in
  Forall (fun status => status = TTSDKJSON_OK)
    (statuses printf_g printf_f1 to_float (operations None v) session)
  /\ exists outcome,
       ttsdkjson_decode sscanf_lg (output encoded ++ trailing) stringBuffer callbacks
         userData errorOffset = Some outcome
       /\ result outcome = TTSDKJSON_OK
       /\ calls (final outcome) = events None v ++ [OnEndData].
Proof.
  intros Hcontainer Hvalid Hheight Hfits Hsink Haccepting session encoded.
  destruct (proj1 (written (U:=V) printf_g printf_f1 to_float) v None session O)
    as (Hstatuses & _ & _ & _ & _ & _ & Hout); try assumption.
  { intros Hobject. exfalso. revert Hobject. unfold isObject_at.
    cbn [session ttsdkjson_beginEncode context containerLevel isObject].
    destruct isObjectWidth; discriminate. }
  { reflexivity. }
  { cbn [session ttsdkjson_beginEncode context isObject]. rewrite length_replicate.
    exact Hheight. }
  split; [exact Hstatuses|].
  fold encoded in Hout.
  assert (output encoded = Layout.render true (layout pretty O v)) as ->.
  { rewrite Hout. unfold heading, isObject_at.
    cbn [session ttsdkjson_beginEncode context containerLevel isObject
         containerFirstEntry prettyPrint output emitted concat].
    rewrite andb_false_r. destruct isObjectWidth; reflexivity. }
  set (text := Layout.render true (layout pretty O v)).
  set (c0 := initialContext (text ++ trailing) stringBuffer callbacks userData).
  destruct (proj1 (read sscanf_lg callbacks (length stringBuffer) Haccepting pretty)
              v O NullName c0 None Hvalid Hfits)
    as (c1 & Hdecodes & Hc1 & Hcalls1).
  { repeat split. }
  { reflexivity. }
  rewrite Hcontainer in Hdecodes.
  destruct (Hdecodes (S (length (text ++ trailing))) trailing) as (p & Helement & Hp).
  { unfold text. lia. }
  { discriminate. }
  fold text in Helement.
  change (set_bufferPtr (text ++ trailing) c0) with c0 in Helement.
  destruct (invoked callbacks (length stringBuffer) Haccepting OnEndData
              (set_bufferPtr p c1) Hc1) as (c2 & Hend & _ & Hcalls2).
  unfold ttsdkjson_decode. fold c0. rewrite Helement.
  change (TTSDKJSON_OK =? TTSDKJSON_OK) with true. cbv iota. rewrite Hend.
  eexists. split; [reflexivity|]. cbn [result final]. split; [reflexivity|].
  rewrite Hcalls2. cbn [calls set_bufferPtr]. rewrite Hcalls1. reflexivity.
Qed.

End RoundTrip.

(** ** Strings and binary data written in pieces *)

Section Pieces.
Import Encode Sink Tree.
Context {U : Type}.
Variable printf_g : Z -> float -> bytes.
Variable printf_f1 : float -> bytes.
Variable to_float : float -> float.
Local Abbreviation Session := (Session U).
Local Abbreviation sink s := (addJSONDataFunc (context s)).
Local Abbreviation perform := (perform (U:=U) printf_g printf_f1 to_float).
Local Abbreviation performAll := (performAll (U:=U) printf_g printf_f1 to_float).
Local Abbreviation statuses := (statuses (U:=U) printf_g printf_f1 to_float).
Local Abbreviation allOK := (Forall (fun status : Z => status = TTSDKJSON_OK)).

Lemma writable_app a b :
  forallb writable (a ++ b) = forallb writable a && forallb writable b.
Proof. apply forallb_app. Qed.

Lemma escaped_app a b :
  forallb writable a = true -> forallb writable b = true ->
  escaped (a ++ b) = escaped a ++ escaped b.
Proof.
  intros Ha Hb. unfold escaped at 1.
  rewrite complicatedCase_app, (writable_escaped a Ha), (writable_escaped b Hb).
  reflexivity.
Qed.

(** The pieces of a body, appended one after the other: [append] is the
    operation of a piece and [text] what it writes. *)
Lemma pieces_appended (append : bytes -> Operation) (text : bytes -> bytes)
    (good : bytes -> Prop) :
  (forall piece (s : Session),
     good piece -> accepts (sink s) ->
     exists s', perform (append piece) s = (TTSDKJSON_OK, s')
                /\ sameContext s s' /\ output s' = output s ++ text piece) ->
  forall pieces (s : Session),
    Forall good pieces -> accepts (sink s) ->
    allOK (statuses (map append pieces) s)
    /\ sameContext s (performAll (map append pieces) s)
    /\ output (performAll (map append pieces) s)
       = output s ++ concat (map text pieces).
Proof.
  intros Happend. induction pieces as [|piece pieces IH]; intros s Hgood Hsink.
  - cbn. rewrite app_nil_r. split; [constructor|].
    split; [apply sameContext_refl | reflexivity].
  - apply Forall_cons in Hgood as [Hpiece Hgood]. cbn [map concat].
    destruct (Happend piece s Hpiece Hsink) as (s1 & H1 & Hsame1 & Hout1).
    rewrite (statuses_cons printf_g printf_f1 to_float),
      (performAll_cons printf_g printf_f1 to_float), H1.
    cbn [fst snd].
    destruct (IH s1 Hgood (accepts_same _ _ Hsame1 Hsink)) as (Hstatuses & Hsame2 & Hout2).
    split; [constructor; [reflexivity | exact Hstatuses]|].
    split; [exact (sameContext_trans _ _ _ Hsame1 Hsame2)|].
    rewrite Hout2, Hout1, <- app_assoc. reflexivity.
Qed.

Lemma escaped_concat pieces :
  Forall (fun piece => forallb writable piece = true) pieces ->
  forallb writable (concat pieces) = true
  /\ escaped (concat pieces) = concat (map escaped pieces).
Proof.
  induction 1 as [|piece pieces Hpiece _ [IHw IHe]]; [split; reflexivity|].
  cbn [concat map]. rewrite writable_app, Hpiece, IHw.
  split; [reflexivity|]. rewrite escaped_app, IHe by assumption. reflexivity.
Qed.

Lemma hex_concat pieces : hex (concat pieces) = concat (map hex pieces).
Proof.
  induction pieces as [|piece pieces IH]; [reflexivity|].
  cbn [concat map]. unfold hex at 1. rewrite flat_map_app. fold (hex piece).
  fold (hex (concat pieces)). rewrite IH. reflexivity.
Qed.

(** X17: a string can be written in pieces: on a sink that takes every
    chunk, [ttsdkjson_beginStringElement], one
    [ttsdkjson_appendStringElement] for every piece and
    [ttsdkjson_endStringElement] all return OK and hand the sink the text
    that [ttsdkjson_addStringElement] hands it for the whole string.  So
    it is for binary data and the calls of a data element. *)
Theorem elements_in_pieces (name : option bytes) (pieces : list bytes) (s : Session) :
  accepts (addJSONDataFunc (context s)) -> named s name ->
  let whole := concat pieces in
  let sized (op : bytes -> Z -> Operation) (piece : bytes) :=
    op piece (Z.of_nat (length piece)) in
  let string :=
    BeginStringElement name :: map (sized AppendStringElement) pieces
    ++ [EndStringElement] in
  let data :=
    BeginDataElement name :: map (sized AppendDataElement) pieces ++ [EndDataElement] in
  (Forall (fun piece => forallb writable piece = true) pieces ->
   allOK (statuses string s)
   /\ output (performAll string s)
      = output (snd (ttsdkjson_addStringElement name (Some whole)
                       (Z.of_nat (length whole)) s)))
  /\ allOK (statuses data s)
  /\ output (performAll data s)
     = output (snd (ttsdkjson_addDataElement name whole (Z.of_nat (length whole)) s)).
Proof.
  intros Hsink Hnamed whole sized string data. subst whole.
  destruct (element_added name [DQUOTE] s Hsink Hnamed) as (s1 & H1 & Hadded1).
  assert (accepts (sink s1)) as Hsink1.
  { destruct Hadded1 as (-> & _). exact Hsink. }
  destruct Hadded1 as (_ & _ & _ & _ & _ & Hout1).
  split.
  - (* a string *)
    intros Hpieces. destruct (escaped_concat pieces Hpieces) as [Hwhole Hescaped].
    destruct (pieces_appended (sized AppendStringElement) escaped
                (fun piece => forallb writable piece = true)) with (pieces := pieces) (s := s1)
      as (Hstatuses2 & Hsame2 & Hout2); try assumption.
    { intros piece t Hpiece Ht. unfold sized. cbn [Encode.perform].
      unfold ttsdkjson_appendStringElement, addEscapedString.
      apply wrote_escaped_loop; [exact Ht | lia | lia |].
      unfold portion. rewrite Z.sub_0_r, Nat2Z.id, firstn_all.
      change (Z.to_nat 0) with O. rewrite drop_0. apply writable_escaped, Hpiece. }
    set (s2 := performAll (map (sized AppendStringElement) pieces) s1) in *.
    destruct (wrote [DQUOTE] s2 (accepts_same _ _ Hsame2 Hsink1)) as (s3 & H3 & _ & Hout3).
    subst string.
    rewrite (statuses_cons printf_g printf_f1 to_float),
      (performAll_cons printf_g printf_f1 to_float).
    change (perform (BeginStringElement name) s)
      with (orReturn (ttsdkjson_beginElement name) (addJSONData [DQUOTE]) s).
    rewrite H1. cbn [fst snd].
    rewrite (statuses_app printf_g printf_f1 to_float),
      (performAll_app printf_g printf_f1 to_float).
    fold s2. cbn [Tree.statuses Encode.performAll fold_left].
    change (perform EndStringElement s2) with (addJSONData [DQUOTE] s2). rewrite H3.
    split.
    { constructor; [reflexivity|]. apply Forall_app. split; [exact Hstatuses2|].
      repeat constructor. }
    cbn [snd]. rewrite Hout3, Hout2, Hout1.
    destruct (scalar_added printf_g printf_f1 to_float name (VString (concat pieces)) s O
                eq_refl Hwhole Hsink Hnamed) as (op & Hop & s' & Hperform & Hadded).
    injection Hop as <-. cbn [Encode.perform] in Hperform. rewrite Hperform. cbn [snd].
    destruct Hadded as (_ & _ & _ & _ & _ & ->).
    cbn [layout Layout.render Layout.renderScalar]. rewrite Hescaped.
    repeat (rewrite <- ?app_assoc; cbn [app]). reflexivity.
  - (* binary data *)
    destruct (pieces_appended (sized AppendDataElement) hex (fun _ => True))
      with (pieces := pieces) (s := s1) as (Hstatuses2 & Hsame2 & Hout2); try assumption.
    { intros piece t _ Ht. unfold sized. cbn [Encode.perform].
      unfold ttsdkjson_appendDataElement. rewrite Nat2Z.id, firstn_all.
      apply wrote_hex, Ht. }
    { apply Forall_forall. intros; exact I. }
    set (s2 := performAll (map (sized AppendDataElement) pieces) s1) in *.
    destruct (wrote [DQUOTE] s2 (accepts_same _ _ Hsame2 Hsink1)) as (s3 & H3 & _ & Hout3).
    subst data.
    rewrite (statuses_cons printf_g printf_f1 to_float),
      (performAll_cons printf_g printf_f1 to_float).
    change (perform (BeginDataElement name) s)
      with (orReturn (ttsdkjson_beginElement name) (addJSONData [DQUOTE]) s).
    rewrite H1. cbn [fst snd].
    rewrite (statuses_app printf_g printf_f1 to_float),
      (performAll_app printf_g printf_f1 to_float).
    fold s2. cbn [Tree.statuses Encode.performAll fold_left].
    change (perform EndDataElement s2) with (addJSONData [DQUOTE] s2). rewrite H3.
    split.
    { constructor; [reflexivity|]. apply Forall_app. split; [exact Hstatuses2|].
      repeat constructor. }
    cbn [snd]. rewrite Hout3, Hout2, Hout1.
    destruct (scalar_added printf_g printf_f1 to_float name (VData (concat pieces)) s O
                eq_refl eq_refl Hsink Hnamed) as (op & Hop & s' & Hperform & Hadded).
    injection Hop as <-. cbn [Encode.perform] in Hperform. rewrite Hperform. cbn [snd].
    destruct Hadded as (_ & _ & _ & _ & _ & ->).
    cbn [layout Layout.render Layout.renderScalar]. rewrite hex_concat.
    repeat (rewrite <- ?app_assoc; cbn [app]). reflexivity.
Qed.

End Pieces.

(** ** Strings at the limits *)

Section Limits.
Import Decode Layout.
Context {U : Type}.
Variable sscanf_lg : bytes -> float.
Local Abbreviation Context := (TTSDKJSONDecodeContext U).

Lemma scanString_unterminated body :
  forall fastCopy, ~ In DQUOTE body -> scanString body fastCopy = None.
Proof.
  remember (length body) as n eqn:Hn. revert body Hn.
  induction n as [n IH] using lt_wf_ind. intros body Hn fastCopy Hbody.
  destruct body as [|c body1]; [reflexivity|]. cbn [scanString].
  destruct (Ascii.eqb_spec c DQUOTE) as [->|_]; [destruct Hbody; left; reflexivity|].
  destruct (Ascii.eqb c BACKSLASH).
  - destruct body1 as [|e body2]; [reflexivity|].
    rewrite (IH (length body2)) with (body := body2); subst n; cbn [length];
      [reflexivity | lia | reflexivity |].
    intros Hin. apply Hbody. right. right. exact Hin.
  - rewrite (IH (length body1)) with (body := body1); subst n; cbn [length];
      [reflexivity | lia | reflexivity |].
    intros Hin. apply Hbody. right. exact Hin.
Qed.

(** X18: a string that is not closed: when no quote follows the opening
    quote up to the end of the data, [ttsdkjson_decode] returns
    [TTSDKJSON_ERROR_INCOMPLETE] and invokes no callback. *)
Theorem unterminated_string_is_incomplete (body stringBuffer : bytes) callbacks
    (userData : U) errorOffset :
  ~ In DQUOTE body ->
  exists outcome,
    ttsdkjson_decode sscanf_lg (DQUOTE :: body) stringBuffer callbacks userData errorOffset
    = Some outcome
    /\ result outcome = TTSDKJSON_ERROR_INCOMPLETE
    /\ calls (final outcome) = [].
Proof.
  intros Hbody. unfold ttsdkjson_decode.
  erewrite decodeElement_string by reflexivity.
  unfold decodeString.
  cbn [bufferPtr memory set_memory initialContext peek hd tail].
  rewrite Ascii.eqb_refl. cbn [negb].
  rewrite (scanString_unterminated body true Hbody).
  change (negb (TTSDKJSON_ERROR_INCOMPLETE =? TTSDKJSON_OK)) with true. cbv iota.
  change (TTSDKJSON_ERROR_INCOMPLETE =? TTSDKJSON_OK) with false. cbv iota.
  eexists. split; [reflexivity|]. split; reflexivity.
Qed.

(** X19: the room of the caller's buffer: the first quarter takes the names
    and the rest the strings.  A string whose text between the quotes,
    escapes included, has as many bytes as the rest or more is refused
    with [TTSDKJSON_ERROR_DATA_TOO_LONG] before any callback, and so is,
    after [onBeginObject], the name of a member that has as many bytes as
    the quarter or more. *)
Theorem long_text_is_refused (body rest stringBuffer : bytes) callbacks
    (userData : U) errorOffset :
  wellFormedString body = true ->
  let size := Z.of_nat (length stringBuffer) in
  (size - Z.quot size 4 <= Z.of_nat (length body) ->
   exists outcome,
     ttsdkjson_decode sscanf_lg (DQUOTE :: body ++ DQUOTE :: rest) stringBuffer callbacks
       userData errorOffset = Some outcome
     /\ result outcome = TTSDKJSON_ERROR_DATA_TOO_LONG
     /\ calls (final outcome) = [])
  /\ (Z.quot size 4 <= Z.of_nat (length body) ->
      fst (onBeginObject callbacks None userData) = TTSDKJSON_OK ->
      exists outcome,
        ttsdkjson_decode sscanf_lg ("{"%char :: DQUOTE :: body ++ DQUOTE :: rest)
          stringBuffer callbacks userData errorOffset = Some outcome
        /\ result outcome = TTSDKJSON_ERROR_DATA_TOO_LONG
        /\ calls (final outcome) = [OnBeginObject None]).
Proof.
  intros Hbody size. subst size. unfold wellFormedString in Hbody.
  destruct (scanBody body true) as [fastCopy|] eqn:Hscan; [clear Hbody|discriminate].
  split.
  - intros Hlong. unfold ttsdkjson_decode.
    set (c0 := initialContext (DQUOTE :: body ++ DQUOTE :: rest) stringBuffer callbacks
                 userData).
    erewrite decodeElement_string by reflexivity.
    change c0 with (set_bufferPtr (DQUOTE :: body ++ DQUOTE :: rest) c0) at 3.
    destruct (decodeString_local (Decode.stringBuffer c0) (stringBufferLength c0) body fastCopy
                rest c0 Hscan) as (p & -> & _).
    unfold decodedBody.
    destruct (Z.geb_spec (Z.of_nat (length body)) (stringBufferLength c0)) as [_|Hshort].
    2:{ subst c0. cbn [stringBufferLength initialContext] in Hshort. lia. }
    cbn [fst snd].
    change (negb (TTSDKJSON_ERROR_DATA_TOO_LONG =? TTSDKJSON_OK)) with true. cbv iota.
    change (TTSDKJSON_ERROR_DATA_TOO_LONG =? TTSDKJSON_OK) with false. cbv iota.
    eexists. split; [reflexivity|]. split; reflexivity.
  - intros Hlong Hbegin. unfold ttsdkjson_decode.
    set (data := "{"%char :: DQUOTE :: body ++ DQUOTE :: rest).
    set (c0 := initialContext data stringBuffer callbacks userData).
    erewrite decodeElement_object by reflexivity.
    cbn [readName]. rewrite invoke_set_bufferPtr.
    assert (exists c1 : Context,
              invoke (OnBeginObject None) c0 = (TTSDKJSON_OK, c1)
              /\ calls c1 = [OnBeginObject None]
              /\ nameBuffer c1 = nameBuffer c0
              /\ nameBufferLength c1 = nameBufferLength c0) as (c1 & -> & Hcalls & Hnb & Hnbl).
    { unfold invoke, c0. cbn [Decode.callbacks Decode.userData initialContext].
      destruct (onBeginObject callbacks None userData) as [status u] eqn:E.
      cbn [fst] in Hbegin. subst status. eexists. split; [reflexivity|]. repeat split. }
    cbn [fst snd].
    change (negb (TTSDKJSON_OK =? TTSDKJSON_OK)) with false. cbv iota.
    change (length data) with (S (length (DQUOTE :: body ++ DQUOTE :: rest))).
    rewrite (objectLoop_step _ _ [] (body ++ DQUOTE :: rest) c1 eq_refl).
    destruct (decodeString_local (nameBuffer c1) (nameBufferLength c1) body fastCopy
                rest c1 Hscan) as (p & -> & _).
    unfold decodedBody.
    destruct (Z.geb_spec (Z.of_nat (length body)) (nameBufferLength c1)) as [_|Hshort].
    2:{ rewrite Hnbl in Hshort. subst c0. cbn [nameBufferLength initialContext] in Hshort.
        lia. }
    cbn [fst snd].
    change (negb (TTSDKJSON_ERROR_DATA_TOO_LONG =? TTSDKJSON_OK)) with true. cbv iota.
    change (TTSDKJSON_ERROR_DATA_TOO_LONG =? TTSDKJSON_OK) with false. cbv iota.
    eexists. split; [reflexivity|]. split; [reflexivity|].
    cbn [final calls set_bufferPtr set_memory]. exact Hcalls.
Qed.

End Limits.

(** ** Numbers with a fraction or an exponent *)

Section Fractions.
Import Decode.
Context {U : Type}.
Variable sscanf_lg : bytes -> float.
Local Abbreviation Context := (TTSDKJSONDecodeContext U).

(** The digit loop reaches the end of a text only when all of it is
    digits. *)
Lemma scanDigits_all t :
  forall accum isOverflow,
    fst (fst (scanDigits t accum isOverflow)) = [] -> forallb isdigit t = true.
Proof.
  induction t as [|d t IH]; intros accum isOverflow H; [reflexivity|].
  cbn [scanDigits] in H. cbn [forallb].
  destruct (isdigit d); [|discriminate H].
  destruct (accum >? ULLONG_MAX / 10); [discriminate H|]. cbv zeta in H.
  destruct (uint64 (accum * 10) >? _); [discriminate H|].
  exact (IH _ _ H).
Qed.

Lemma FPChars_no_NUL t : forallb isFPChar t = true -> Forall (fun c => c <> NUL) t.
Proof.
  induction t as [|d t IH]; cbn [forallb]; intros H; constructor.
  - intros ->. discriminate H.
  - apply andb_prop in H as [_ H]. exact (IH H).
Qed.

Lemma decodeNumber_fraction sign name t ch rest (c : Context) :
  forallb isFPChar t = true -> forallb isdigit t = false -> isFPChar ch = false ->
  Z.of_nat (length t) < stringBufferLength c ->
  (stringBuffer c + length t < length (memory c))%nat ->
  let memory' := <[(stringBuffer c + length t)%nat := NUL]>
                   (memcpy (stringBuffer c) t (memory c)) in
  let c' := set_memory memory' (set_bufferPtr (ch :: rest) c) in
  decodeNumber sscanf_lg sign name (set_bufferPtr (t ++ ch :: rest) c)
  = invoke (OnFloatingPointElement (readName name c')
              (PrimFloat.mul (sscanf_lg t) (if sign >? 0 then 1 else -1)%float)) c'.
Proof.
  intros Ht Hfraction Hch Hfits Hroom memory' c'.
  assert (isdigit (peek (ch :: rest)) = false) as Hnodigit
    by (apply isFPChar_not_digit; exact Hch).
  unfold decodeNumber. rewrite bufferPtr_set_bufferPtr.
  rewrite scanDigits_local by exact Hnodigit.
  pose proof (scanDigits_FPChars t 0 false Ht) as HFP.
  pose proof (scanDigits_all t 0 false) as Hall.
  destruct (scanDigits t 0 false) as [[q accum] isOverflow].
  cbn [fst snd] in *. cbv beta iota zeta.
  rewrite set_bufferPtr_twice.
  destruct q as [|q0 q]; [rewrite (Hall eq_refl) in Hfraction; discriminate|].
  assert (skipFPChars ((q0 :: q) ++ ch :: rest) = ch :: rest) as Hskip.
  { rewrite skipFPChars_local by exact Hch. rewrite skipFPChars_all by exact HFP.
    reflexivity. }
  cbn [forallb] in HFP. apply andb_prop in HFP as [Hq0 _].
  cbn [app peek hd]. rewrite Hq0. cbn [negb andb].
  change (q0 :: q ++ ch :: rest) with ((q0 :: q) ++ ch :: rest).
  rewrite !bufferPtr_set_bufferPtr, !Hskip, !set_bufferPtr_twice.
  rewrite ?bufferPtr_set_bufferPtr, ?stringBufferLength_set_bufferPtr.
  assert (Z.of_nat (length (t ++ ch :: rest)) - Z.of_nat (length (ch :: rest))
          = Z.of_nat (length t)) as -> by (rewrite length_app; lia).
  destruct (Z.geb_spec (Z.of_nat (length t)) (stringBufferLength c)); [lia|].
  rewrite Nat2Z.id, take_app_length.
  rewrite stringBuffer_set_bufferPtr, memory_set_bufferPtr.
  fold memory'. cbn [stringBuffer memory set_memory].
  rewrite stringBuffer_set_bufferPtr.
  assert (cstring (drop (stringBuffer c) memory') = t) as ->
    by (subst memory'; apply cstring_memcpy; [exact Hroom | apply FPChars_no_NUL, Ht]).
  reflexivity.
Qed.

(** X20: a number that is not all digits is a floating point number: the
    bytes from the first digit on that can be part of a number (digits,
    the dot, e, E and the signs), in whatever order, are copied to the
    string buffer as a C string and [onFloatingPointElement] is invoked
    with what [sscanf] reads from them, negated behind a leading minus
    sign; the decoder does not check them any further. *)
Theorem fractions_decode_as_floating_point (depth : nat) (name : NamePointer)
    (text : bytes) (ch : ascii) (rest : bytes) (c : Context) :
  isdigit (peek text) = true -> forallb isFPChar text = true ->
  forallb isdigit text = false -> isFPChar ch = false ->
  Z.of_nat (length text) < stringBufferLength c ->
  (stringBuffer c + length text < length (memory c))%nat ->
  let memory' := <[(stringBuffer c + length text)%nat := NUL]>
                   (memcpy (stringBuffer c) text (memory c)) in
  let c' := set_memory memory' (set_bufferPtr (ch :: rest) c) in
  decodeElement sscanf_lg (S depth) name (set_bufferPtr (text ++ ch :: rest) c)
  = Some (invoke (OnFloatingPointElement (readName name c')
                    (PrimFloat.mul (sscanf_lg text) 1%float)) c')
  /\ decodeElement sscanf_lg (S depth) name
       (set_bufferPtr ("-"%char :: text ++ ch :: rest) c)
     = Some (invoke (OnFloatingPointElement (readName name c')
                       (PrimFloat.mul (sscanf_lg text) (-1)%float)) c').
Proof.
  intros Hdigit Htext Hfraction Hch Hfits Hroom memory' c'.
  destruct text as [|d text']; [discriminate Hdigit|]. cbn [peek hd] in Hdigit.
  split.
  - erewrite decodeElement_digit by (reflexivity || exact Hdigit).
    rewrite (decodeNumber_fraction 1 name (d :: text') ch rest c) by assumption.
    reflexivity.
  - erewrite decodeElement_minus by reflexivity.
    cbn [app peek hd]. rewrite Hdigit. cbn [negb]. rewrite set_bufferPtr_twice.
    change (d :: text' ++ ch :: rest) with ((d :: text') ++ ch :: rest).
    rewrite (decodeNumber_fraction (-1) name (d :: text') ch rest c) by assumption.
    reflexivity.
Qed.

End Fractions.

(** ** The fraction of a finite double *)

Section Fraction.
Import Encode.
Variable printf_g : Z -> float -> bytes.
Variable printf_f1 : float -> bytes.
Variable to_float : float -> float.

Lemma strchr_found buff c :
  In c buff ->
  exists before after,
    strchr buff c = Some (before, after) /\ buff = before ++ c :: after
    /\ ~ In c before.
Proof.
  induction buff as [|b buff IH]; intros Hin; [contradiction|]. cbn [strchr].
  destruct (Ascii.eqb_spec b c) as [->|Hb].
  - exists [], buff. repeat split. intros [].
  - destruct Hin as [->|Hin]; [contradiction|].
    destruct (IH Hin) as (before & after & -> & -> & Hbefore).
    exists (b :: before), after. repeat split. intros [->|H]; contradiction.
Qed.

Lemma strchr_missing buff c : ~ In c buff -> strchr buff c = None.
Proof.
  induction buff as [|b buff IH]; intros Hin; [reflexivity|]. cbn [strchr].
  destruct (Ascii.eqb_spec b c) as [->|Hb]; [destruct Hin; left; reflexivity|].
  rewrite IH; [reflexivity|]. intros H. apply Hin. right. exact H.
Qed.

(** What is stripped is zeros, and what is kept does not end in one. *)
Lemma stripZeros_zeros fraction :
  exists zeros,
    fraction = stripZeros fraction ++ repeat "0"%char zeros
    /\ last (stripZeros fraction) <> Some "0"%char.
Proof.
  induction fraction as [|c fraction (zeros & Hfraction & Hlast)].
  - exists O. split; [reflexivity | discriminate].
  - cbn [stripZeros]. destruct (stripZeros fraction) as [|k kept].
    + destruct (Ascii.eqb_spec c "0") as [->|Hc].
      * exists (S zeros). cbn [app] in *. rewrite Hfraction at 1.
        split; [reflexivity | discriminate].
      * exists zeros. cbn [app] in *. rewrite Hfraction at 1.
        split; [reflexivity|]. cbn. congruence.
    + exists zeros. rewrite Hfraction at 1. split; [reflexivity|]. exact Hlast.
Qed.

(** X21: the text of a finite double that has a dot and no exponent: of
    what the C library prints after the first dot, [formatDouble] strips
    the zeros at the end and nothing else, and keeps one of them when
    nothing else is left, so the number is written with a fraction. *)
Theorem formatDouble_strips_zeros (buffSize : Z) (value : float) (bytesWritten : Z) :
  isnan value = false -> isinf value = false ->
  let floatValue := to_float value in
  let text :=
    if PrimFloat.leb (fabs (PrimFloat.sub value floatValue))
                     (PrimFloat.mul FLT_EPSILON (fabs value))
    then printf_g FLT_DIG floatValue else printf_g DBL_DIG value in
  Z.of_nat (length text) < buffSize ->
  In "."%char text -> ~ In "e"%char text ->
  exists whole kept zeros,
    text = whole ++ "."%char :: kept ++ repeat "0"%char zeros
    /\ ~ In "."%char whole
    /\ last kept <> Some "0"%char
    /\ let written := whole ++ "."%char :: match kept with [] => ["0"%char] | _ => kept end in
       snd (fst (formatDouble printf_g printf_f1 to_float buffSize value bytesWritten))
       = written
       /\ (Z.of_nat (length written) < buffSize ->
           formatDouble printf_g printf_f1 to_float buffSize value bytesWritten
           = (TTSDKJSON_OK, written, Z.of_nat (length written))).
Proof.
  intros Hnan Hinf floatValue text Hfits Hdot He.
  destruct (strchr_found text "." Hdot) as (whole & fraction & Hstrchr & Htext & Hwhole).
  destruct (stripZeros_zeros fraction) as (zeros & Hfraction & Hlast).
  exists whole, (stripZeros fraction), zeros.
  split; [rewrite <- Hfraction; exact Htext|]. split; [exact Hwhole|].
  split; [exact Hlast|]. cbv zeta.
  assert (0 < Z.of_nat (length text)) as Hsome.
  { rewrite Htext, length_app. cbn [length]. lia. }
  unfold formatDouble. rewrite Hnan, Hinf. fold floatValue.
  assert ((if PrimFloat.leb (fabs (PrimFloat.sub value floatValue))
                            (PrimFloat.mul FLT_EPSILON (fabs value))
           then snprintf buffSize (printf_g FLT_DIG floatValue)
           else snprintf buffSize (printf_g DBL_DIG value))
          = (Z.of_nat (length text), text)) as ->.
  { subst text. destruct (PrimFloat.leb _ _); apply snprintf_fits; exact Hfits. }
  destruct (Z.gtb_spec (Z.of_nat (length text)) 0) as [_|?]; [|lia].
  destruct (Z.ltb_spec (Z.of_nat (length text)) buffSize) as [_|?]; [|lia].
  cbn [andb]. rewrite Hstrchr, (strchr_missing text "e" He).
  split.
  - destruct (checkWriteResult _ buffSize bytesWritten). reflexivity.
  - intros Hroom. rewrite checkWriteResult_fits by lia. reflexivity.
Qed.

End Fraction.

(** ** The decoder stops at the first status that is not OK *)

Section Stops.
Import Decode Replay.
Context {U : Type}.
Variable sscanf_lg : bytes -> float.
Variable P : TTSDKJSONDecodeContext U -> Prop.
Variable G : Z -> TTSDKJSONDecodeContext U -> Prop.
Hypothesis Hstops : stops P G.

Local Abbreviation Context := (TTSDKJSONDecodeContext U).
Local Abbreviation stopped := (Replay.stopped P G).

Lemma P_bufferPtr (c : Context) p : P c -> P (set_bufferPtr p c).
Proof. apply Hstops. Qed.

Lemma P_memory (c : Context) m : P c -> P (set_memory m c).
Proof. apply Hstops. Qed.

Lemma P_SKIP_WHITESPACE (c : Context) : P c -> P (SKIP_WHITESPACE c).
Proof. apply P_bufferPtr. Qed.

Lemma stopped_error (c : Context) result :
  In result [TTSDKJSON_ERROR_INVALID_CHARACTER; TTSDKJSON_ERROR_DATA_TOO_LONG;
             TTSDKJSON_ERROR_INCOMPLETE] ->
  P c -> stopped (result, c).
Proof.
  intros Hresult Hc. destruct Hstops as (_ & _ & _ & _ & H1 & H2 & H4).
  split; cbn [fst snd].
  - destruct Hresult as [<-|[<-|[<-|[]]]]; auto.
  - intros ->. destruct Hresult as [H|[H|[H|[]]]]; discriminate H.
Qed.

Lemma stopped_invoke (c : Context) call : P c -> stopped (invoke call c).
Proof.
  intros Hc. destruct Hstops as (_ & _ & Hok & Hstatus & _).
  split; [apply Hstatus | apply Hok]; exact Hc.
Qed.

Lemma P_decodeString dstBuffer dstBufferLength (c : Context) :
  P c -> P (snd (decodeString dstBuffer dstBufferLength c)).
Proof.
  intros Hc. unfold decodeString. cbv zeta.
  pose proof (P_memory c (<[dstBuffer := NUL]> (memory c)) Hc) as H0.
  set (c0 := set_memory _ c) in *. clearbody c0.
  destruct (negb _); [exact H0|].
  destruct (scanString _ true) as [[n fastCopy]|]; [|exact H0].
  destruct (_ >=? dstBufferLength); [exact H0|].
  destruct fastCopy.
  - apply P_memory, P_bufferPtr, H0.
  - destruct (decodeEscapes _ _ _) as [r m']. apply P_memory, P_bufferPtr, H0.
Qed.

Lemma stopped_decodeString dstBuffer dstBufferLength (c : Context) :
  P c ->
  let run := decodeString dstBuffer dstBufferLength c in
  P (snd run) /\ (fst run <> TTSDKJSON_OK -> stopped run).
Proof.
  intros Hc. cbv zeta. pose proof (P_decodeString dstBuffer dstBufferLength c Hc) as H.
  split; [exact H|]. intros Hfailed.
  assert (Nesting.closed (fun _ (_ : Context) => True) (fun _ => True)) as Htrivial
    by (repeat split).
  destruct (@I_decodeString U sscanf_lg _ _ Htrivial 0%nat dstBuffer dstBufferLength c Logic.I)
    as [_ Hr].
  destruct (decodeString dstBuffer dstBufferLength c) as [r c']. cbn [fst snd] in *.
  apply stopped_error; [|exact H].
  destruct Hr as [<-|Hr]; [contradiction | exact Hr].
Qed.

Lemma stopped_decodeLiteral literal call (c : Context) :
  P c -> stopped (decodeLiteral literal call c).
Proof.
  intros Hc. unfold decodeLiteral.
  destruct (_ <? _); [apply stopped_error; [cbn; tauto | exact Hc]|].
  destruct (negb _); [apply stopped_error; [cbn; tauto | exact Hc]|].
  apply stopped_invoke, P_bufferPtr, Hc.
Qed.

Lemma stopped_decodeNumber sign name (c : Context) :
  P c -> stopped (decodeNumber sscanf_lg sign name c).
Proof.
  intros Hc. unfold decodeNumber.
  destruct (scanDigits (bufferPtr c) 0 false) as [[p accum] isOverflow].
  pose proof (P_bufferPtr c p Hc) as H1.
  set (c1 := set_bufferPtr p c) in *. clearbody c1.
  destruct p as [|ch p']; [apply stopped_error; [cbn; tauto | exact H1]|].
  cbv zeta.
  match goal with
  | |- context [if _ then _ else ?fp] =>
      assert (stopped fp) as Hfp; [|set (floatingPoint := fp) in *; clearbody floatingPoint]
  end.
  { pose proof (P_bufferPtr c1 (skipFPChars (bufferPtr c1)) H1) as H2.
    set (c2 := set_bufferPtr _ c1) in *. clearbody c2.
    destruct (bufferPtr c2); [apply stopped_error; [cbn; tauto | exact H2]|].
    destruct (_ >=? stringBufferLength c2); [apply stopped_error; [cbn; tauto | exact H2]|].
    apply stopped_invoke, P_memory, H2. }
  destruct (negb (isFPChar (peek (ch :: p'))) && negb isOverflow); [|exact Hfp].
  destruct (sign >? 0).
  - destruct (accum <=? LLONG_MAX); apply stopped_invoke; exact H1.
  - destruct (accum <=? LLONG_MAX + 1); [|exact Hfp].
    apply stopped_invoke; exact H1.
Qed.

(** What the loops need from the decoder of the elements. *)
Local Abbreviation stops_with decode :=
  (forall name (c : Context) result c',
     P c -> decode name c = Some (result, c') -> stopped (result, c')).

Lemma P_comma (c : Context) ch p' :
  P c -> P (if Ascii.eqb ch "," then set_bufferPtr p' c else c).
Proof. intros Hc. destruct (Ascii.eqb ch ","); [apply P_bufferPtr|]; exact Hc. Qed.

Lemma arrayLoop_stopped decode :
  stops_with decode ->
  forall rounds (c : Context) result c',
    P c -> arrayLoop decode rounds c = Some (result, c') -> stopped (result, c').
Proof.
  intros Hdecode. induction rounds as [|rounds IH]; intros c result c' Hc;
    cbn [arrayLoop]; [discriminate|].
  destruct (bufferPtr c) as [|c0 p0].
  { returned. apply stopped_error; [cbn; tauto | exact Hc]. }
  pose proof (P_SKIP_WHITESPACE c Hc) as H1.
  set (c1 := SKIP_WHITESPACE c) in *. clearbody c1.
  destruct (bufferPtr c1) as [|ch p1].
  { returned. apply stopped_error; [cbn; tauto | exact H1]. }
  destruct (Ascii.eqb ch "]").
  { returned. apply stopped_invoke, P_bufferPtr, H1. }
  destruct (decode NullName c1) as [[r2 c2]|] eqn:Hdec; [|discriminate].
  apply Hdecode in Hdec; [|exact H1].
  destruct (Z.eqb_spec r2 TTSDKJSON_OK) as [->|Hfailed]; cbn [negb].
  2:{ returned. exact Hdec. }
  destruct Hdec as (_ & H2). specialize (H2 eq_refl). cbn [snd] in H2.
  pose proof (P_SKIP_WHITESPACE c2 H2) as H3.
  set (c3 := SKIP_WHITESPACE c2) in *. clearbody c3.
  destruct (bufferPtr c3) as [|ch3 p3].
  { returned. apply stopped_error; [cbn; tauto | exact H3]. }
  apply IH. apply P_comma. exact H3.
Qed.

Lemma objectLoop_stopped decode :
  stops_with decode ->
  forall rounds (c : Context) result c',
    P c -> objectLoop decode rounds c = Some (result, c') -> stopped (result, c').
Proof.
  intros Hdecode. induction rounds as [|rounds IH]; intros c result c' Hc;
    cbn [objectLoop]; [discriminate|].
  destruct (bufferPtr c) as [|c0 p0].
  { returned. apply stopped_error; [cbn; tauto | exact Hc]. }
  pose proof (P_SKIP_WHITESPACE c Hc) as H1.
  set (c1 := SKIP_WHITESPACE c) in *. clearbody c1.
  destruct (bufferPtr c1) as [|ch p1].
  { returned. apply stopped_error; [cbn; tauto | exact H1]. }
  destruct (Ascii.eqb ch "}").
  { returned. apply stopped_invoke, P_bufferPtr, H1. }
  destruct (stopped_decodeString (nameBuffer c1) (nameBufferLength c1) c1 H1)
    as [H2 Hname].
  destruct (decodeString (nameBuffer c1) (nameBufferLength c1) c1) as [r2 c2].
  cbn [fst snd] in *.
  destruct (Z.eqb_spec r2 TTSDKJSON_OK) as [->|Hfailed]; cbn [negb].
  2:{ returned. apply Hname. exact Hfailed. }
  pose proof (P_SKIP_WHITESPACE c2 H2) as H3.
  set (c3 := SKIP_WHITESPACE c2) in *. clearbody c3.
  destruct (bufferPtr c3) as [|ch3 p3].
  { returned. apply stopped_error; [cbn; tauto | exact H3]. }
  destruct (negb (Ascii.eqb ch3 ":")).
  { returned. apply stopped_error; [cbn; tauto | exact H3]. }
  pose proof (P_SKIP_WHITESPACE _ (P_bufferPtr c3 p3 H3)) as H5.
  set (c5 := SKIP_WHITESPACE (set_bufferPtr p3 c3)) in *. clearbody c5.
  destruct (decode NameBuffer c5) as [[r6 c6]|] eqn:Hdec; [|discriminate].
  apply Hdecode in Hdec; [|exact H5].
  destruct (Z.eqb_spec r6 TTSDKJSON_OK) as [->|Hfailed]; cbn [negb].
  2:{ returned. exact Hdec. }
  destruct Hdec as (_ & H6). specialize (H6 eq_refl). cbn [snd] in H6.
  pose proof (P_SKIP_WHITESPACE c6 H6) as H7.
  set (c7 := SKIP_WHITESPACE c6) in *. clearbody c7.
  destruct (bufferPtr c7) as [|ch7 p7].
  { returned. apply stopped_error; [cbn; tauto | exact H7]. }
  apply IH. apply P_comma. exact H7.
Qed.

(** The element decoder goes on in [P] and stops in [G]. *)
Lemma decodeElement_stopped depth :
  forall name (c : Context) result c',
    P c -> decodeElement sscanf_lg depth name c = Some (result, c') ->
    stopped (result, c').
Proof.
  induction depth as [|depth IH]; intros name c result c' Hc; cbn [decodeElement];
    [discriminate|].
  pose proof (P_SKIP_WHITESPACE c Hc) as H1.
  set (c1 := SKIP_WHITESPACE c) in *. clearbody c1.
  destruct (bufferPtr c1) as [|ch p1].
  { returned. apply stopped_error; [cbn; tauto | exact H1]. }
  destruct (Ascii.eqb ch "[").
  { pose proof (P_bufferPtr c1 p1 H1) as H2.
    set (c2 := set_bufferPtr p1 c1) in *. clearbody c2.
    destruct (stopped_invoke c2 (OnBeginArray (readName name c2)) H2) as [Hg Hp].
    destruct (invoke (OnBeginArray (readName name c2)) c2) as [ri ci]. cbn [fst snd] in *.
    destruct (Z.eqb_spec ri TTSDKJSON_OK) as [->|Hfailed]; cbn [negb].
    - apply arrayLoop_stopped; [exact IH | exact (Hp eq_refl)].
    - returned. split; [exact Hg | intros; contradiction]. }
  destruct (Ascii.eqb ch "{").
  { pose proof (P_bufferPtr c1 p1 H1) as H2.
    set (c2 := set_bufferPtr p1 c1) in *. clearbody c2.
    destruct (stopped_invoke c2 (OnBeginObject (readName name c2)) H2) as [Hg Hp].
    destruct (invoke (OnBeginObject (readName name c2)) c2) as [ri ci]. cbn [fst snd] in *.
    destruct (Z.eqb_spec ri TTSDKJSON_OK) as [->|Hfailed]; cbn [negb].
    - apply objectLoop_stopped; [exact IH | exact (Hp eq_refl)].
    - returned. split; [exact Hg | intros; contradiction]. }
  destruct (Ascii.eqb ch DQUOTE).
  { destruct (stopped_decodeString (stringBuffer c1) (stringBufferLength c1) c1 H1)
      as [H2 Hstring].
    destruct (decodeString (stringBuffer c1) (stringBufferLength c1) c1) as [rs cs].
    cbn [fst snd] in *.
    destruct (Z.eqb_spec rs TTSDKJSON_OK) as [->|Hfailed]; cbn [negb].
    - returned. apply stopped_invoke. exact H2.
    - returned. apply Hstring. exact Hfailed. }
  destruct (Ascii.eqb ch "f").
  { returned. apply stopped_decodeLiteral. exact H1. }
  destruct (Ascii.eqb ch "t").
  { returned. apply stopped_decodeLiteral. exact H1. }
  destruct (Ascii.eqb ch "n").
  { returned. apply stopped_decodeLiteral. exact H1. }
  destruct (Ascii.eqb ch "-").
  { pose proof (P_bufferPtr c1 p1 H1) as H2.
    destruct (negb (isdigit (peek (bufferPtr (set_bufferPtr p1 c1))))).
    - returned. apply stopped_error; [cbn; tauto | exact H2].
    - returned. apply stopped_decodeNumber. exact H2. }
  destruct (isdigit ch).
  { returned. apply stopped_decodeNumber. exact H1. }
  returned. apply stopped_error; [cbn; tauto | exact H1].
Qed.

End Stops.

(** ** The statuses of a run *)

Section Statuses.
Import Decode Replay.
Context {U : Type}.
Variable sscanf_lg : bytes -> float.
Local Abbreviation Context := (TTSDKJSONDecodeContext U).

Lemma invoke_answer call (c : Context) :
  fst (invoke call c) = fst (answer (callbacks c) call (userData c))
  /\ userData (snd (invoke call c)) = snd (answer (callbacks c) call (userData c)).
Proof.
  unfold answer, invoke, initialContext. cbn [Decode.callbacks Decode.userData].
  destruct call; destruct_callback; split; reflexivity.
Qed.

Lemma replay_last callbacks log :
  forall (u : U) call,
    replay callbacks (log ++ [call]) u
    = (fst (replay callbacks log u)
         ++ [fst (answer callbacks call (snd (replay callbacks log u)))],
       snd (answer callbacks call (snd (replay callbacks log u)))).
Proof.
  induction log as [|first log IH]; intros u call; cbn [app replay fst snd].
  - destruct (answer callbacks call u). reflexivity.
  - destruct (answer callbacks first u) as [status u']. rewrite IH.
    destruct (replay callbacks log u'). reflexivity.
Qed.

(** X14: the callbacks that [ttsdkjson_decode] invoked, replayed in order
    from the caller's user data, leave the user data the decoder ends
    with, and all but the last of them returned OK.  The status of
    [ttsdkjson_decode] is the one the last of them returned, unless it is
    one of the decoder's own three errors, and then every callback
    invoked returned OK. *)
Theorem statuses_of_the_decoder (data stringBuffer : bytes) callbacks (userData : U)
    errorOffset :
  exists outcome,
    ttsdkjson_decode sscanf_lg data stringBuffer callbacks userData errorOffset
    = Some outcome
    /\ let replayed := replay callbacks (calls (final outcome)) userData in
       Decode.userData (final outcome) = snd replayed
       /\ ((In (result outcome)
              [TTSDKJSON_ERROR_INVALID_CHARACTER; TTSDKJSON_ERROR_DATA_TOO_LONG;
               TTSDKJSON_ERROR_INCOMPLETE]
            /\ Forall (fun status => status = TTSDKJSON_OK) (fst replayed))
           \/ exists before,
                fst replayed = before ++ [result outcome]
                /\ Forall (fun status => status = TTSDKJSON_OK) before).
Proof.
  destruct (ttsdkjson_decode_returns sscanf_lg data stringBuffer callbacks userData
              errorOffset)
    as (elementResult & context & outcome & Helement & _ & Hdecode & Hend & _).
  exists outcome. split; [exact Hdecode|]. cbv zeta.
  set (P := fun c : Context =>
              Decode.callbacks c = callbacks
              /\ Decode.userData c = snd (replay callbacks (calls c) userData)
              /\ Forall (fun status => status = TTSDKJSON_OK)
                   (fst (replay callbacks (calls c) userData))).
  set (G := fun (r : Z) (c : Context) =>
              Decode.userData c = snd (replay callbacks (calls c) userData)
              /\ ((In r [TTSDKJSON_ERROR_INVALID_CHARACTER; TTSDKJSON_ERROR_DATA_TOO_LONG;
                         TTSDKJSON_ERROR_INCOMPLETE]
                   /\ Forall (fun status => status = TTSDKJSON_OK)
                        (fst (replay callbacks (calls c) userData)))
                  \/ exists before,
                       fst (replay callbacks (calls c) userData) = before ++ [r]
                       /\ Forall (fun status => status = TTSDKJSON_OK) before)).
  assert (stops P G) as Hstops.
  { assert (forall (c : Context) call,
              Decode.callbacks c = callbacks ->
              Decode.userData c = snd (replay callbacks (calls c) userData) ->
              replay callbacks (calls (snd (invoke call c))) userData
              = (fst (replay callbacks (calls c) userData) ++ [fst (invoke call c)],
                 Decode.userData (snd (invoke call c)))) as Hreplay.
    { intros c call Hcallbacks Hdata. destruct (invoke_answer call c) as [Hstatus Hleft].
      rewrite calls_invoke, replay_last, Hstatus, Hleft, Hcallbacks, Hdata. reflexivity. }
    subst P G. split; [|split; [|split; [|split; [|split; [|split]]]]].
    - intros c p H. exact H.
    - intros c m H. exact H.
    - intros c call (Hcallbacks & Hdata & Hall) Hok.
      rewrite callbacks_invoke, (Hreplay c call Hcallbacks Hdata). cbn [fst snd].
      split; [exact Hcallbacks|]. split; [reflexivity|].
      apply Forall_app. split; [exact Hall|]. constructor; [exact Hok | constructor].
    - intros c call (Hcallbacks & Hdata & Hall).
      rewrite (Hreplay c call Hcallbacks Hdata). cbn [fst snd].
      split; [reflexivity|]. right.
      exists (fst (replay callbacks (calls c) userData)). split; [reflexivity | exact Hall].
    - intros c (_ & Hdata & Hall). split; [exact Hdata|]. left.
      split; [cbn; tauto | exact Hall].
    - intros c (_ & Hdata & Hall). split; [exact Hdata|]. left.
      split; [cbn; tauto | exact Hall].
    - intros c (_ & Hdata & Hall). split; [exact Hdata|]. left.
      split; [cbn; tauto | exact Hall]. }
  assert (P (initialContext data stringBuffer callbacks userData)) as Hstart
    by (subst P; cbn; auto).
  destruct (decodeElement_stopped sscanf_lg P G Hstops _ _ _ _ _ Hstart Helement)
    as (Hstopped & Hok).
  cbn [fst snd] in *.
  destruct (Z.eqb_spec elementResult TTSDKJSON_OK) as [->|Hfailed].
  - destruct Hstops as (_ & _ & _ & Hstatus & _).
    specialize (Hstatus context OnEndData (Hok eq_refl)).
    destruct (invoke OnEndData context). injection Hend as -> ->. exact Hstatus.
  - injection Hend as -> ->. exact Hstopped.
Qed.

End Statuses.

(** ** Commas that are missing and commas behind the last element *)

Section Lax.
Import Decode Layout Tree Spelling.
Context {U : Type}.
Variable sscanf_lg : bytes -> float.

Lemma sameBytes_refl a : sameBytes a a = true.
Proof.
  induction a as [|x a IH]; cbn [sameBytes]; [reflexivity|].
  rewrite Ascii.eqb_refl, IH. reflexivity.
Qed.

(** The layout in which the encoder writes a value spells it. *)
Lemma layout_spells pretty :
  (forall v level, spells (layout pretty level v) v = true)
  /\ (forall items level, spellsItems (layoutItems pretty level items) items = true)
  /\ (forall fields level, spellsMembers (layoutFields pretty level fields) fields = true).
Proof.
  apply Value_mutind; cbn [layout layoutItems layoutFields spells spellsItems
                           spellsMembers spellsScalar number]; intros.
  - reflexivity.
  - destruct value; reflexivity.
  - rewrite Bool.eqb_reflx, sameBytes_refl. reflexivity.
  - rewrite Bool.eqb_reflx, sameBytes_refl. reflexivity.
  - apply sameBytes_refl.
  - apply sameBytes_refl.
  - auto.
  - auto.
  - reflexivity.
  - rewrite H, H0. reflexivity.
  - reflexivity.
  - rewrite sameBytes_refl, H, H0. reflexivity.
Qed.

(** C7: an array or an object written with commas missing between
    siblings that whitespace separates, or with a comma behind the last
    element, decodes as its strict form, where a comma stands between two
    siblings and nowhere else: same return value, same callbacks with the
    same arguments in the same order, same user data, and the same decoded
    bytes in the caller's buffer, whatever the callbacks return.  And it
    is accepted: when the text spells a value of arrays, objects, strings,
    integers, booleans and nulls, the buffer has the room and the
    callbacks return OK, decoding it returns OK and has invoked the
    callbacks of the value, in order, and then [onEndData]. *)
Theorem lax_separators_decode_as_strict (d : Document) stringBuffer callbacks
    (userData : U) errorOffset :
  wellFormed d = true -> isContainer d = true ->
  exists written strict,
    ttsdkjson_decode sscanf_lg (render false d) stringBuffer callbacks userData
      errorOffset = Some written
    /\ ttsdkjson_decode sscanf_lg (render true d) stringBuffer callbacks userData
         errorOffset = Some strict
    /\ result written = result strict
    /\ calls (final written) = calls (final strict)
    /\ Decode.userData (final written) = Decode.userData (final strict)
    /\ memory (final written) = memory (final strict)
    /\ errorOffsetValue written = errorOffsetValue strict
    /\ forall v,
         spells d v = true -> valid v = true ->
         fits (length stringBuffer) v = true -> accepting callbacks ->
         result written = TTSDKJSON_OK
         /\ calls (final written) = events None v ++ [OnEndData]
         /\ result strict = TTSDKJSON_OK
         /\ calls (final strict) = events None v ++ [OnEndData].
Proof.
  intros Hd Hcontainer.
  destruct (separators_decode_alike sscanf_lg d stringBuffer callbacks userData
              errorOffset Hd Hcontainer)
    as (written & strict & Hwritten & Hstrict & Hresult & Hcalls & Hdata & Hmemory
        & Hoffset).
  exists written, strict. repeat (split; [assumption|]).
  intros v Hspells Hvalid Hfits Haccepting.
  destruct (spelled_decodes sscanf_lg callbacks (length stringBuffer) Haccepting false
              d v stringBuffer userData errorOffset eq_refl Hd Hcontainer Hspells Hvalid
              Hfits) as (outcome & Hdecode & Hok & Hlog).
  rewrite Hwritten in Hdecode. injection Hdecode as <-.
  rewrite <- Hresult, <- Hcalls. repeat split; assumption.
Qed.

End Lax.

(** ** Instances *)

Lemma endContainer_without_container_witness :
  Encode.ttsdkjson_endContainer
    (Encode.ttsdkjson_beginEncode 128 false Encode.acceptAll tt)
  = (TTSDKJSON_OK, Encode.ttsdkjson_beginEncode 128 false Encode.acceptAll tt).
Proof.
  apply endContainer_without_container. simpl. lia.
Defined.

Lemma formatDouble_nonfinite_witness :
  let g := fun (_ : Z) (_ : float) => bytes_of "0" in
  let f := fun (_ : float) => bytes_of "0.0" in
  let t := fun v : float => v in
  Encode.formatDouble g f t 64 nan 0 = (TTSDKJSON_OK, bytes_of "null", 4)
  /\ Encode.formatDouble g f t 64 infinity 0 = (TTSDKJSON_OK, bytes_of "1e999", 5)
  /\ Encode.formatDouble g f t 64 neg_infinity 0 = (TTSDKJSON_OK, bytes_of "-1e999", 6).
Proof.
  intros g f t.
  assert (6 < 64) as Hroom by lia.
  split; [|split].
  - apply (proj1 (formatDouble_nonfinite g f t 64 nan 0 Hroom)). reflexivity.
  - apply (proj1 (proj2 (formatDouble_nonfinite g f t 64 infinity 0 Hroom))).
    reflexivity.
  - apply (proj2 (proj2 (formatDouble_nonfinite g f t 64 neg_infinity 0 Hroom))).
    reflexivity.
Defined.


(** C3 at a sink that takes the opening quote and answers the body of the
    string with [TTSDKJSON_ERROR_CANNOT_ADD_DATA]: the closing quote is
    still handed to the sink, and the status that comes back is 1, the
    value of C's logical or, which is [TTSDKJSON_ERROR_INVALID_CHARACTER]. *)
Theorem addQuotedEscapedString_returns_logical_or :
  let s := Encode.ttsdkjson_beginEncode 128 false
             (Encode.refuseCall 1 TTSDKJSON_ERROR_CANNOT_ADD_DATA) 0%nat in
  fst (Encode.addEscapedString (bytes_of "ab") 2 (snd (Encode.addJSONData [DQUOTE] s)))
    = TTSDKJSON_ERROR_CANNOT_ADD_DATA
  /\ fst (Encode.addQuotedEscapedString (bytes_of "ab") 2 s)
    = TTSDKJSON_ERROR_INVALID_CHARACTER
  /\ Encode.emitted (snd (Encode.addQuotedEscapedString (bytes_of "ab") 2 s))
    = [[DQUOTE]; bytes_of "ab"; [DQUOTE]].
Proof. vm_compute. repeat split; reflexivity. Qed.

(** C1 at the two bytes of an array that opens on an invalid character:
    the decoder stops at offset 1 with the invalid byte in front of it, and
    the integer at [errorOffset], 99 before the call, is 0 after it: the
    offset is taken from a pointer that stays at the start of the data. *)
Theorem errorOffset_is_start_of_data :
  exists outcome,
    Decode.ttsdkjson_decode (fun _ => 0%float) (bytes_of "[x") (repeat NUL 64)
      Decode.acceptCalls tt (Some 99) = Some outcome
    /\ Decode.result outcome = TTSDKJSON_ERROR_INVALID_CHARACTER
    /\ Decode.bufferPtr (Decode.final outcome) = bytes_of "x"
    /\ Z.of_nat (length (bytes_of "[x"))
       - Z.of_nat (length (Decode.bufferPtr (Decode.final outcome))) = 1
    /\ Decode.errorOffsetValue outcome = Some 0.
Proof. eexists. split; [vm_compute; reflexivity|]. vm_compute. repeat split. Qed.

(** C2 at its input: the pair is combined to 0xF600, without the offset
    0x10000 of UTF-16, and the string callback receives the three bytes
    EF 98 80 of U+F600 instead of F0 9F 98 80. *)
Theorem surrogate_pair_decodes_to_U_F600 :
  Z.lor (Decode.uint (Z.shiftl (0xD83D - 0xd800) 10)) (Decode.uint (0xDE00 - 0xdc00))
  = 0xF600
  /\ exists outcome,
    Decode.ttsdkjson_decode (fun _ => 0%float) Decode.escapedSurrogatePair
      (repeat NUL 64) Decode.acceptCalls tt None = Some outcome
    /\ Decode.result outcome = TTSDKJSON_OK
    /\ Decode.calls (Decode.final outcome)
       = [Decode.OnStringElement None [char_of 0xEF; char_of 0x98; char_of 0x80];
          Decode.OnEndData].
Proof.
  split; [reflexivity|]. eexists. split; [vm_compute; reflexivity|].
  vm_compute. repeat split.
Qed.

(** C4 as stated fails: when the digits of UINT64_MAX are the entire input
    the digit loop runs into the end of the data, and the decode returns
    [TTSDKJSON_ERROR_INCOMPLETE] without invoking any callback. *)
Lemma decode_UINT64_MAX_alone_is_incomplete :
  exists outcome,
    Decode.ttsdkjson_decode (fun _ => 0%float) Decode.digits_UINT64_MAX
      (repeat NUL 64) Decode.acceptCalls tt None = Some outcome
    /\ Decode.result outcome = TTSDKJSON_ERROR_INCOMPLETE
    /\ Decode.calls (Decode.final outcome) = [].
Proof. eexists. split; [vm_compute; reflexivity|]. vm_compute. repeat split. Qed.

Lemma decode_UINT64_MAX_before_delimiter_witness :
  exists outcome,
    Decode.ttsdkjson_decode (fun _ => 0%float) (Decode.digits_UINT64_MAX ++ [" "%char])
      (repeat NUL 64) Decode.acceptCalls tt None = Some outcome
    /\ Decode.calls (Decode.final outcome)
       = [Decode.OnUnsignedIntegerElement None 18446744073709551615; Decode.OnEndData]
    /\ Decode.result outcome = TTSDKJSON_OK.
Proof.
  destruct (decode_UINT64_MAX_before_delimiter (fun _ => 0%float) " "%char []
              (repeat NUL 64) Decode.acceptCalls tt None eq_refl)
    as (outcome & Hdecode & Hcalls).
  exists outcome. split; [exact Hdecode | exact Hcalls].
Defined.

(** C9 as stated fails: the string with body [a] and an invalid escape
    fails with [TTSDKJSON_ERROR_INVALID_CHARACTER], and the first byte of
    the destination is then the decoded [a], not 0. *)
Lemma decodeString_failure_leaves_decoded_byte :
  let c := Decode.initialContext Decode.invalidEscape (repeat NUL 64)
             Decode.acceptCalls tt in
  let (result, c') :=
    Decode.decodeString (Decode.stringBuffer c) (Decode.stringBufferLength c) c in
  result = TTSDKJSON_ERROR_INVALID_CHARACTER
  /\ Decode.memory c' !! Decode.stringBuffer c = Some "a"%char
  /\ Decode.memory c' !! Decode.stringBuffer c <> Some NUL.
Proof. vm_compute. repeat split; discriminate. Qed.

Lemma decodeString_destination_witness :
  let c := Decode.initialContext Decode.invalidEscape (repeat NUL 64)
             Decode.acceptCalls tt in
  (Decode.stringBuffer c < length (Decode.memory c))%nat
  /\ Decode.memory
       (snd (Decode.decodeString (Decode.stringBuffer c) (Decode.stringBufferLength c) c))
     !! Decode.stringBuffer c = Some "a"%char.
Proof.
  intros c.
  assert (Decode.stringBuffer c < length (Decode.memory c))%nat as Hdst
    by (vm_compute; lia).
  split; [exact Hdst|].
  pose proof (decodeString_destination (Decode.stringBuffer c)
                (Decode.stringBufferLength c) c Hdst) as H.
  cbv zeta in H.
  destruct (Decode.decodeString (Decode.stringBuffer c) (Decode.stringBufferLength c) c)
    as [result c'].
  destruct H as (_ & _ & _ & _ & H).
  apply (H 3%nat "a"%char); first [reflexivity | discriminate].
Defined.

Example exampleLayout_written :
  Layout.render false Layout.exampleLayout
  = bytes_of "[1 {" ++ DQUOTE :: "k"%char :: DQUOTE :: bytes_of ":true,}, ]".
Proof. reflexivity. Qed.

Example exampleLayout_strict :
  Layout.render true Layout.exampleLayout
  = bytes_of "[1 ,{" ++ DQUOTE :: "k"%char :: DQUOTE :: bytes_of ":true} ]".
Proof. reflexivity. Qed.

Example exampleLayout_calls :
  exists outcome,
    Decode.ttsdkjson_decode (fun _ => 0%float)
      (Layout.render false Layout.exampleLayout) (repeat NUL 64)
      Decode.acceptCalls tt None = Some outcome
    /\ Decode.result outcome = TTSDKJSON_OK
    /\ Decode.calls (Decode.final outcome)
       = [Decode.OnBeginArray None; Decode.OnIntegerElement None 1;
          Decode.OnBeginObject None; Decode.OnBooleanElement (Some ["k"%char]) true;
          Decode.OnEndContainer; Decode.OnEndContainer; Decode.OnEndData].
Proof. eexists. split; [vm_compute; reflexivity|]. vm_compute. repeat split. Qed.

(** A comma in an empty array is not behind an element: the element
    decoder is called on it and rejects it. *)
Example comma_in_empty_array :
  exists outcome,
    Decode.ttsdkjson_decode (fun _ => 0%float) (bytes_of "[,]") (repeat NUL 64)
      Decode.acceptCalls tt None = Some outcome
    /\ Decode.result outcome = TTSDKJSON_ERROR_INVALID_CHARACTER.
Proof. eexists. split; [vm_compute; reflexivity|]. reflexivity. Qed.

(** ** Instances of the round trips and of the encoder's behaviour *)

Lemma string_element_round_trip_witness :
  let string := ["a"%char; DQUOTE; "010"%char; BACKSLASH] in
  exists outcome,
    Decode.ttsdkjson_decode (fun _ => 0%float)
      (Sink.output
         (snd (Encode.ttsdkjson_addStringElement None (Some string) 4
                 (Encode.ttsdkjson_beginEncode 8 true Encode.acceptAll tt))))
      (repeat NUL 64) Decode.acceptCalls tt None = Some outcome
    /\ Decode.calls (Decode.final outcome)
       = [Decode.OnStringElement None string; Decode.OnEndData]
    /\ Decode.result outcome = TTSDKJSON_OK.
Proof.
  intros string.
  destruct (string_element_round_trip (V:=unit) (fun _ => 0%float) string 8 true
              Encode.acceptAll tt (repeat NUL 64) Decode.acceptCalls tt None
              eq_refl ltac:(vm_compute; lia))
    as (outcome & Hdecode & Hcalls).
  exists outcome. split; [exact Hdecode | exact Hcalls].
Defined.

Lemma control_character_is_rejected_witness :
  fst (Encode.ttsdkjson_appendStringElement ["a"%char; "001"%char] 2
         (Encode.ttsdkjson_beginEncode 8 false Encode.acceptAll tt))
  = TTSDKJSON_ERROR_INVALID_CHARACTER.
Proof.
  apply (control_character_is_rejected ["a"%char; "001"%char] 2 "001"%char
           (Encode.ttsdkjson_beginEncode 8 false Encode.acceptAll tt)).
  - right. left. reflexivity.
  - reflexivity.
  - cbn. intros [H|[H|[H|[H|[H|[]]]]]]; discriminate H.
  - intros data u. reflexivity.
Defined.

Lemma integer_elements_write_decimal_witness :
  Encode.ttsdkjson_addIntegerElement (U:=unit) None (-9223372036854775808)
  = Encode.orReturn (Encode.ttsdkjson_beginElement None)
      (Encode.addJSONData (bytes_of "-9223372036854775808")).
Proof.
  apply (proj1 (integer_elements_write_decimal unit None (-9223372036854775808))).
  vm_compute. split; discriminate.
Defined.

Lemma digits_decode_as_integers_witness :
  let c := Decode.initialContext (bytes_of "-007,") (repeat NUL 64) Decode.acceptCalls tt in
  Decode.decodeElement (fun _ => 0%float) 1 Decode.NullName c
  = Some (Decode.invoke (Decode.OnIntegerElement None (-7))
            (Decode.set_bufferPtr [","%char] c)).
Proof.
  intros c.
  apply (proj2 (proj2 (digits_decode_as_integers (fun _ => 0%float) 0 Decode.NullName
                         (Decimal.D0 (Decimal.D0 (Decimal.D7 Decimal.Nil)))
                         ","%char [] c ltac:(discriminate) eq_refl))).
  vm_compute. discriminate.
Defined.

Lemma endEncode_closes_every_container_witness :
  let s := Encode.performAll (fun _ _ => []) (fun _ => []) (fun v => v)
             [Encode.BeginArray None; Encode.BeginObject None]
             (Encode.ttsdkjson_beginEncode 8 false Encode.acceptAll tt) in
  fst (Encode.ttsdkjson_endEncode s) = TTSDKJSON_OK
  /\ Sink.output (snd (Encode.ttsdkjson_endEncode s)) = bytes_of "[{}]".
Proof.
  intros s.
  destruct (endEncode_closes_every_container s) as (Hok & _ & Hout).
  - intros data u. reflexivity.
  - vm_compute. discriminate.
  - split; [exact Hok | exact (Hout eq_refl)].
Defined.

Lemma refusal_is_reported_witness :
  let s := Encode.ttsdkjson_beginEncode 8 false (fun (_ : bytes) (u : unit) => (3, u)) tt in
  Encode.emitted
    (snd (Encode.perform (fun _ _ => []) (fun _ => []) (fun v => v) Encode.EndEncode s))
  = Encode.emitted s.
Proof.
  intros s.
  apply (refusal_is_reported (fun _ _ => []) (fun _ => []) (fun v => v) Encode.EndEncode s).
  - intros data u. discriminate.
  - reflexivity.
Defined.

Lemma name_is_required_in_object_witness :
  let s := snd (Encode.ttsdkjson_beginObject None
                  (Encode.ttsdkjson_beginEncode 8 false Encode.acceptAll tt)) in
  fst (Encode.perform (fun _ _ => []) (fun _ => []) (fun v => v)
         (Encode.AddNullElement None) s) <> TTSDKJSON_OK.
Proof.
  intros s.
  apply (name_is_required_in_object (fun _ _ => []) (fun _ => []) (fun v => v)
           (Encode.AddNullElement None) s).
  - vm_compute. discriminate.
  - reflexivity.
  - reflexivity.
Defined.

(** ** Instances of the decoder's behaviour *)

Lemma blank_input_is_incomplete_witness :
  exists outcome,
    Decode.ttsdkjson_decode (fun _ => 0%float) [" "%char; "010"%char; "009"%char]
      (repeat NUL 8) Decode.acceptCalls tt (Some 7) = Some outcome
    /\ Decode.result outcome = TTSDKJSON_ERROR_INCOMPLETE
    /\ Decode.calls (Decode.final outcome) = []
    /\ Decode.errorOffsetValue outcome = Some 0.
Proof.
  destruct (blank_input_is_incomplete (fun _ => 0%float) [" "%char; "010"%char; "009"%char]
              (repeat NUL 8) Decode.acceptCalls tt (Some 7) eq_refl)
    as (outcome & Hdecode & Hresult & Hcalls & _ & _ & Hoffset).
  exists outcome. repeat split; assumption.
Defined.

Lemma unexpected_first_byte_witness :
  exists outcome,
    Decode.ttsdkjson_decode (fun _ => 0%float) (bytes_of " -x") (repeat NUL 8)
      Decode.acceptCalls tt None = Some outcome
    /\ Decode.result outcome = TTSDKJSON_ERROR_INVALID_CHARACTER
    /\ Decode.calls (Decode.final outcome) = [].
Proof.
  assert (["x"%char] <> []) as Hrest by discriminate.
  destruct (unexpected_first_byte (fun _ => 0%float) [" "%char] "-"%char ["x"%char]
              (repeat NUL 8) Decode.acceptCalls tt None eq_refl eq_refl
              (or_intror (conj eq_refl (conj Hrest eq_refl))))
    as (outcome & Hdecode & Hresult & Hcalls & _).
  exists outcome. repeat split; assumption.
Defined.

Lemma literal_is_checked_in_full_witness :
  let c := Decode.initialContext (bytes_of "false]") (repeat NUL 8) Decode.acceptCalls tt in
  Decode.decodeElement (fun _ => 0%float) 1 Decode.NullName c
  = Some (Decode.invoke (Decode.OnBooleanElement None false)
            (Decode.set_bufferPtr ["]"%char] c)).
Proof.
  intros c.
  apply (proj2 (proj2 (literal_is_checked_in_full (fun _ => 0%float) 0 Decode.NullName c
                         (bytes_of "false") (Decode.OnBooleanElement None false)
                         (or_intror (or_introl (conj eq_refl eq_refl))) eq_refl))).
  reflexivity.
Defined.

Lemma writeUTF8_is_UTF8_witness :
  Decode.writeUTF8 8364 1 (repeat NUL 6)
  = (TTSDKJSON_OK, 4%nat, [NUL; char_of 226; char_of 130; char_of 172; NUL; NUL]).
Proof.
  pose proof (writeUTF8_is_UTF8 8364 1 (repeat NUL 6) ltac:(lia) ltac:(cbn; lia)) as H.
  destruct (Decode.writeUTF8 8364 1 (repeat NUL 6)) as [[result dst'] memory'].
  destruct H as (-> & -> & _ & ->). reflexivity.
Defined.

Lemma decodeString_stays_in_destination_witness :
  let c := Decode.initialContext (DQUOTE :: bytes_of "abcdefgh") (bytes_of "................")
             Decode.acceptCalls tt in
  let c' := snd (Decode.decodeString 4 4 c) in
  Decode.memory c' !! 3%nat = Some "."%char /\ Decode.memory c' !! 8%nat = Some "."%char.
Proof.
  intros c c'.
  destruct (decodeString_stays_in_destination 4 4 c ltac:(lia)) as [_ Houtside].
  split.
  - exact (Houtside 3%nat ltac:(left; lia)).
  - exact (Houtside 8%nat ltac:(right; cbn; lia)).
Defined.

Lemma large_integers_decode_as_floating_point_witness :
  let c := Decode.initialContext [] (repeat NUL 32) Decode.acceptCalls tt in
  let digits := bytes_of "18446744073709551616" in
  Decode.decodeElement (fun _ => 1%float) 1 Decode.NullName
    (Decode.set_bufferPtr (digits ++ ["]"%char]) c)
  = Some (Decode.invoke (Decode.OnFloatingPointElement None (1 * 1)%float)
            (Decode.set_memory (repeat NUL 8 ++ digits ++ repeat NUL 4)
               (Decode.set_bufferPtr ["]"%char] c))).
Proof.
  intros c digits.
  apply (proj1 (large_integers_decode_as_floating_point (fun _ => 1%float) 0
                  Decode.NullName (N.to_uint 18446744073709551616) "]"%char [] c
                  ltac:(vm_compute; discriminate) eq_refl
                  ltac:(vm_compute; reflexivity) ltac:(vm_compute; lia))).
  vm_compute. reflexivity.
Defined.

(** ** An instance of the round trip of a document *)

Lemma document_round_trip_witness :
  let v :=
    Tree.VObject
      (Tree.FCons ["a"%char]
         (Tree.VArray
            (Tree.VCons (Tree.VInteger (-5))
               (Tree.VCons (Tree.VString ["x"%char; "010"%char; DQUOTE])
                  (Tree.VCons (Tree.VBoolean true) (Tree.VCons Tree.VNull Tree.VNil)))))
         (Tree.FCons ["d"%char] (Tree.VData ["000"%char; "255"%char])
            (Tree.FCons ["u"%char] (Tree.VUInteger 18446744073709551615)
               (Tree.FCons ["e"%char] (Tree.VObject Tree.FNil) Tree.FNil)))) in
  let encoded :=
    Encode.performAll (fun _ _ => []) (fun _ => []) (fun value => value)
      (Tree.operations None v) (Encode.ttsdkjson_beginEncode 8 true Encode.acceptAll tt) in
  exists outcome,
    Decode.ttsdkjson_decode (fun _ => 0%float) (Sink.output encoded ++ bytes_of " ]") 
      (repeat NUL 64) Decode.acceptCalls tt None = Some outcome
    /\ Decode.result outcome = TTSDKJSON_OK
    /\ Decode.calls (Decode.final outcome) = Tree.events None v ++ [Decode.OnEndData].
Proof.
  intros v encoded.
  destruct (document_round_trip (V:=unit) (U:=unit)
              (fun _ _ => []) (fun _ => []) (fun value => value) (fun _ => 0%float)
              v 8 true Encode.acceptAll tt (repeat NUL 64) Decode.acceptCalls tt None
              (bytes_of " ]") eq_refl eq_refl ltac:(vm_compute; lia) eq_refl
              ltac:(intros data u; reflexivity)
              ltac:(intros call c Hcallbacks; unfold Decode.invoke; rewrite Hcallbacks;
                    destruct call; reflexivity))
    as [_ Hdecoded].
  exact Hdecoded.
Defined.

(** ** Instances: pieces and limits *)

Lemma elements_in_pieces_witness :
  let s := Encode.ttsdkjson_beginEncode 8 false Encode.acceptAll tt in
  Sink.output
    (Encode.performAll (fun _ _ => []) (fun _ => []) (fun value => value)
       [Encode.BeginStringElement None;
        Encode.AppendStringElement (bytes_of "ab") 2;
        Encode.AppendStringElement ["c"%char; DQUOTE; "d"%char] 3;
        Encode.EndStringElement] s)
  = DQUOTE :: bytes_of "abc" ++ [BACKSLASH; DQUOTE; "d"%char; DQUOTE].
Proof.
  intros s.
  destruct (elements_in_pieces (fun _ _ => []) (fun _ => []) (fun value => value) None
              [bytes_of "ab"; ["c"%char; DQUOTE; "d"%char]] s
              ltac:(intros data u; reflexivity)
              ltac:(intros Hobject; discriminate Hobject)) as [Hstring _].
  destruct (Hstring ltac:(repeat constructor)) as [_ Hout].
  exact Hout.
Defined.

Lemma unterminated_string_is_incomplete_witness :
  exists outcome,
    Decode.ttsdkjson_decode (fun _ => 0%float) (DQUOTE :: bytes_of "abc") (repeat NUL 8)
      Decode.acceptCalls tt None = Some outcome
    /\ Decode.result outcome = TTSDKJSON_ERROR_INCOMPLETE
    /\ Decode.calls (Decode.final outcome) = [].
Proof.
  apply (unterminated_string_is_incomplete (fun _ => 0%float) (bytes_of "abc")
           (repeat NUL 8) Decode.acceptCalls tt None).
  intros [H|[H|[H|[]]]]; discriminate H.
Defined.

Lemma long_text_is_refused_witness :
  exists outcome,
    Decode.ttsdkjson_decode (fun _ => 0%float)
      (DQUOTE :: bytes_of "abcdef" ++ [DQUOTE]) (repeat NUL 8)
      Decode.acceptCalls tt None = Some outcome
    /\ Decode.result outcome = TTSDKJSON_ERROR_DATA_TOO_LONG
    /\ Decode.calls (Decode.final outcome) = [].
Proof.
  apply (proj1 (long_text_is_refused (fun _ => 0%float) (bytes_of "abcdef") []
                  (repeat NUL 8) Decode.acceptCalls tt None eq_refl)).
  vm_compute. intros H. discriminate H.
Defined.

(** ** Instances: floating point numbers *)

Lemma fractions_decode_as_floating_point_witness :
  let c := Decode.initialContext [] (repeat NUL 32) Decode.acceptCalls tt in
  let text := bytes_of "3.25e-1" in
  Decode.decodeElement (fun _ => 1%float) 1 Decode.NullName
    (Decode.set_bufferPtr (text ++ [","%char]) c)
  = Some (Decode.invoke (Decode.OnFloatingPointElement None (1 * 1)%float)
            (Decode.set_memory (repeat NUL 8 ++ text ++ repeat NUL 17)
               (Decode.set_bufferPtr [","%char] c))).
Proof.
  intros c text.
  apply (proj1 (fractions_decode_as_floating_point (fun _ => 1%float) 0 Decode.NullName
                  text ","%char [] c eq_refl eq_refl eq_refl eq_refl
                  ltac:(vm_compute; reflexivity) ltac:(vm_compute; lia))).
Defined.

Lemma formatDouble_strips_zeros_witness :
  exists whole kept zeros,
    bytes_of "2.500" = whole ++ "."%char :: kept ++ repeat "0"%char zeros
    /\ ~ In "."%char whole
    /\ last kept <> Some "0"%char
    /\ let written := whole ++ "."%char :: match kept with [] => ["0"%char] | _ => kept end in
       snd (fst (Encode.formatDouble (fun _ _ => bytes_of "2.500") (fun _ => [])
                   (fun value => value) 64 2.5%float 0))
       = written
       /\ (Z.of_nat (length written) < 64 ->
           Encode.formatDouble (fun _ _ => bytes_of "2.500") (fun _ => [])
             (fun value => value) 64 2.5%float 0
           = (TTSDKJSON_OK, written, Z.of_nat (length written))).
Proof.
  apply (formatDouble_strips_zeros (fun _ _ => bytes_of "2.500") (fun _ => [])
           (fun value => value) 64 2.5%float 0 eq_refl eq_refl).
  - vm_compute. reflexivity.
  - right. left. reflexivity.
  - intros [H|[H|[H|[H|[H|[]]]]]]; discriminate H.
Defined.

(** ** An instance of the lax separators *)

Lemma lax_separators_decode_as_strict_witness :
  exists written strict,
    Decode.ttsdkjson_decode (fun _ => 0%float)
      (Layout.render false Layout.exampleLayout) (repeat NUL 64)
      Decode.acceptCalls tt None = Some written
    /\ Decode.ttsdkjson_decode (fun _ => 0%float)
         (Layout.render true Layout.exampleLayout) (repeat NUL 64)
         Decode.acceptCalls tt None = Some strict
    /\ Decode.result written = Decode.result strict
    /\ Decode.calls (Decode.final written) = Decode.calls (Decode.final strict)
    /\ Decode.userData (Decode.final written) = Decode.userData (Decode.final strict)
    /\ Decode.memory (Decode.final written) = Decode.memory (Decode.final strict)
    /\ Decode.errorOffsetValue written = Decode.errorOffsetValue strict
    /\ Decode.result written = TTSDKJSON_OK
    /\ Decode.calls (Decode.final written)
       = Tree.events None Spelling.exampleValue ++ [Decode.OnEndData]
    /\ Decode.result strict = TTSDKJSON_OK
    /\ Decode.calls (Decode.final strict)
       = Tree.events None Spelling.exampleValue ++ [Decode.OnEndData].
Proof.
  destruct (lax_separators_decode_as_strict (U:=unit) (fun _ => 0%float)
              Layout.exampleLayout (repeat NUL 64) Decode.acceptCalls tt None
              eq_refl eq_refl)
    as (written & strict & Hwritten & Hstrict & Hresult & Hcalls & Hdata & Hmemory
        & Hoffset & Haccepted).
  exists written, strict. repeat (split; [assumption|]).
  apply (Haccepted Spelling.exampleValue eq_refl eq_refl eq_refl).
  intros call c Hcallbacks. unfold Decode.invoke. rewrite Hcallbacks.
  destruct call; reflexivity.
Defined.
